(* ===== verification/_CoqProject ===== *)
-Q . S2P
Prelude.v
CText.v
Effects.v
Types.v
Services.v
FileIO.v
KeyValueIO.v
KeyValueSpec.v
IOClient.v
StoreSpec.v
World.v
Msgpack.v
Config.v
Distribution.v
Metadata.v
MetadataSpec.v
Segments.v
Chunks.v
ObjectSpec.v
Startup.v
Daemon.v
Server.v
ServerSpec.v
ReadParts.v
MultiSpec.v
Client.v
ClusterSpec.v
ClientSpec.v
ClientObjects.v
Posix.v
PosixSpec.v
PosixObjects.v
Iris.v
IrisSpec.v
ShadowLink.v
ShadowStore.v
LinkBench.v
Engine.v
EngineSpec.v
EngineMongo.v
Colocation.v
ColocationSpec.v
Replayer.v
ReplayerSpec.v
ReplayerObjects.v
Strtol.v
GetNum.v
SingleHop.v
SingleHopMongo.v
CFloat.v
FloatExact.v
OldPrograms.v
Ostream.v
Tracing.v
Arguments.v
ArgumentsSpec.v
BenchArgs.v
BenchStats.v
Rng.v
BenchIO.v
Benchmark.v
BenchSpec.v
Serializers.v
DoubleBuffer.v
DoubleBufferSpec.v
CostModel.v
CostModelSpec.v
PredictorThreads.v
PredictorThreadsSpec.v
PredictorReads.v
PredictorTurns.v
Witnesses.v
ClientWitnesses.v
OldWitnesses.v
CommonWitnesses.v
PredictorWitnesses.v
MultiWitnesses.v
ReplayWitnesses.v
Interleave.v
Incidents.v
