(* ===== verification/Prelude.v ===== *)
(** * Symbios: a verification development of the storage middleware

    ** The program

    Symbios stores named objects in several storage systems behind one
    interface.  A client ([src/symbios/client/client.cpp]) sends every call to a
    server chosen at random; a server ([src/symbios/server/server.cpp]) asks a
    data distribution engine ([src/symbios/data_distribution]) where a request
    goes, lets the metadata orchestrator ([src/symbios/metadata_orchestrator])
    cut it into segments and record them, and hands the parts to I/O clients
    ([src/symbios/io_clients]) for POSIX files, Redis and MongoDB.  The metadata
    of an object are themselves an object, packed with msgpack, kept in one
    store and linked from the others.  A shared library
    ([src/symbios/client/posix.cpp]) intercepts stdio calls and turns them into
    client calls.  [common/src/common/iris.cpp] emulates a second middleware that
    cuts a file into objects of one size.  Under [old/] are the C prototypes:
    shadow links (metadata records in Redis and MongoDB), an MPI engine that
    replays traces, and a trace replayer for Redis.  [common/include/common]
    holds what the C++ programs share: the argument parser, random
    distributions and a trace replayer over the emulation; [benchmark/] measures
    storage services with it.  [src/symbios/storage_cost_predictor] learns the
    bandwidth of a storage solution from feedback, in a worker thread that gets
    its data through double buffers.

    ** The files

    - [Prelude]: machine integers, byte lists ([slice], [splice]), the tactics
      and hint databases all files use.  [CText]: the C text functions (decimal
      conversion, [strtok], [strstr], [fgets]).  [Effects]: error codes,
      exceptions, the outcome of a computation (a value, a C++ exception,
      undefined behaviour, process exit), the state monad [ST] and buffers of
      possibly uninitialised cells.
    - [Types]: the records of [include/symbios/common/data_structure.h].
      [Services]: what is assumed of the file system, of redis-plus-plus and of
      mongocxx, as classes of operations with laws, and reference instances.
    - [FileIO], [KeyValueIO]: the three I/O clients.  [KeyValueSpec]: the value a
      key-value write leaves.  [IOClient]: the interface [ObjectStore] and its
      three instances.  [StoreSpec]: bytes written are bytes read.  [World]: all
      stores together and the client factory.
    - [Msgpack]: the msgpack adaptors of [Data] and [Metadata] over an abstract
      codec with laws; a reference codec shows that the laws can hold.
      [Config]: [include/symbios/common/configuration_manager.h].
      [Distribution]: the four engines and their factory.
    - [Metadata], [MetadataSpec], [Segments]: the orchestrator, what it keeps in
      the stores, and how it cuts a range.  [Chunks], [ObjectSpec]: objects of
      any number of segments in the stores, and what the orchestrator does to
      them.  [Server], [ServerSpec]: the request handlers and their refinement
      of a map, for objects of one segment.  [ReadParts], [MultiSpec]: the
      refinement for objects of any size.  [Startup]: the constructors of
      the server, the client and the I/O clients.  [Daemon]: the server process
      ([src/symbios/server/daemon.h], [main.cpp]) with its signals, as steps of
      the main thread and the worker.
    - [Client]: the calls through a cluster.  [ClusterSpec]: what the servers
      implement, a cluster implements ([ServerRep]); [ClientSpec] and
      [ClientObjects] use it for the two refinements.  [Posix], [PosixSpec]: the
      intercepted stdio calls; [PosixObjects]: programs of them.
    - [Iris], [IrisSpec]: the object map of the IRIS emulation.
    - [ShadowLink], [ShadowStore], [LinkBench]: the C shadow links, their stores
      and their benchmark programs.  [Engine], [EngineSpec],
      [EngineMongo]: the C engine and its tests.
      [Colocation], [ColocationSpec]: the C trace replayer.  [GetNum],
      [SingleHop], [SingleHopMongo]: number parsing and the link experiments of
      [old/single_hop].  [OldPrograms]: timing, the end of the engine, and the
      programs of [single_hop] that connect, read and print.
    - [Strtol], [CFloat]: the numeric parsers of C and C++ and IEEE arithmetic on
      the executable floats of the Standard Library.  [FloatExact]: integers as
      doubles.  [Ostream]: how a double is printed.
    - [Tracing]: [common/include/common/debug.h] and [error.h]: the timer, the
      trace object of a function, the debug macros.
    - [Arguments], [ArgumentsSpec]: [common/include/common/arguments.h] and its
      reference reading of a command line.  [Replayer], [ReplayerSpec]:
      [common/include/common/replayer.h].  [ReplayerObjects]: the replayer through
      the emulation and the client down to the servers.  [Rng]: [common/include/common/rng.h].
    - [BenchArgs]: the options of the benchmark.  [BenchStats]: the statistics it
      appends to a file.  [BenchIO]: its storage clients.
      [Benchmark], [BenchSpec]: its workloads and [main].
    - [Serializers], [DoubleBuffer], [DoubleBufferSpec], [CostModel],
      [CostModelSpec]: the storage cost predictor; the double buffer also as a
      step relation of threads.  [PredictorThreads]: the predictor's calling
      thread and its worker as one step function, with the members they share;
      [PredictorThreadsSpec] (its invariants, what happens to a measurement),
      [PredictorReads] (what a prediction reads), [PredictorTurns] (the turns of
      the worker end; [CostModel]'s operations are schedules of the steps).
    - [Witnesses], [ClientWitnesses], [OldWitnesses], [CommonWitnesses],
      [ReplayWitnesses], [MultiWitnesses], [PredictorWitnesses]: the theorems with
      hypotheses applied at a concrete input.  [Incidents]: runs of the server
      outside the contract the refinement covers.
      [Interleave]: handlers whose cluster other requests change between their
      commands.

    ** What the theorems show

    - The server implements a map from names to bytes: [server_refines_map]
      relates every sequence of requests to the abstract operations, through the
      representation invariant [rep] (where each object and its metadata live).
      It covers objects of at most MAX_OBJ_SIZE bytes, configurations with one
      solution per storage type, services that are up, and offsets at which the
      key-value clients write exactly, which leaves out the append to a value in
      Redis or MongoDB, where the code loses a byte.  [server_refines_objects] does
      the same for objects of any number of segments, stored segment by segment and
      read whole; ranges are read over any segments when all stores are POSIX, and
      otherwise inside one segment and before its end, at an offset every
      configured client reads from (a range over more segments fails in the code).
      A request then names the home of its object, because the links
      that other stores keep to the metadata go stale when the metadata grow, and
      names do not end in a digit, so that the keys of segments are apart.
      [client_refines_objects] carries it through the RPC layer to any cluster of
      servers, and [stdio_refines_files] to programs of intercepted stdio calls:
      from [fwrite] down to the stores nothing in between is assumed, but the
      conditions on requests carry through: the doc comment of each theorem and the
      relations it names ([stands_for], [call_within], ...) say which.
    - A server whose constructor returns has connected a client for every
      configured solution, and its engine uses no other
      ([started_server_places]); its process waits until a fatal signal and then
      ends with status 0 ([server_serves_until_signal], [server_never_returns]).
    - Ranges: the parts of a range are the bytes of the range, and behind them one
      whole segment more when the range ends at the start of an existing segment
      ([locate_segments_bytes]); they do not overlap in the caller's buffer.
    - Stores: a write is read back, for each client, with the offsets each of
      them handles; metadata survive msgpack.
    - Placement: every engine sends a whole request to a configured solution,
      round robin is fair, the heuristics respect the size classes.
    - IRIS: the chunks of a request tile it and reach the objects of their
      indices.
    - Tracing: the lines of any tree of traced calls nest and are numbered by
      depth, also under exceptions ([run_scope_text]); a timer adds up exactly
      ([Timer_adds_up]).
    - C prototypes: records with a server and long values whose keys fit their
      arrays survive their stores, the benchmarks and replayers do what their traces
      say.
    - Command lines: [ArgIter] accepts what a reference reading of the line
      accepts and stores what it says ([ArgIter_spec]); what is set can be read
      with its type, and the benchmark reads nothing else
      ([benchmark_reads_options]).
    - Predictor: under every interleaving the double buffer loses and duplicates
      nothing and its calls end ([buffer_safe], [calls_complete]); a fit uses the
      observations since the last one ([fit_window]); loading
      what was saved is undefined by the standard, because [ParseFloat] has no
      return, and gives the coefficients back where it survives that
      ([save_load]).
    - The predictor's threads: in every schedule a measurement is in exactly one
      place, the queue, the window being collected or a window that was fitted
      ([measurements_conserved]); with a window of at least one measurement a
      prediction uses three coefficients of one update, the one in use when it
      began to read ([predictions_consistent]); a turn of the worker ends,
      whatever is fed meanwhile ([turns_end]); [Finalize] returns ([finalize_returns]).  The sequential operations of [CostModel] and the
      steps agree ([actions_are_schedules]).
    - Replayer and benchmark: a replay performs the writes of its trace, on its
      own file and on an object behind the servers ([prepared_trace_replays]), the
      workloads write the blocks they should, and the file of results reads back
      as one row for each run ([results_read_back]).
    - The theorems on error paths and on what the code gets wrong (a lost byte,
      an extra part, a write that is refused, an index past a list) state the
      behaviour as it is.

    ** Conventions, bounds and fuel

    Integers are [Z] with the conversions of their C types written out ([u64],
    [i32], ...); unsigned and [int] arithmetic wraps.  A character array is a
    list of cells, [None] being a byte that was never written; an access outside
    it, a null or uninitialised pointer and a division by zero are [Undefined].
    A function that ends without the return it owes is [Undefined] as well,
    where its value is used ([MissingReturn]); in the deserializer and the
    MongoDB links the missing return or the read of a pointer is a parameter,
    so that the theorems also say what a run that survives it does.  Floats are
    [spec_float]s.
    [rand ()] is a parameter: a function of the number of calls.  Loops that are
    not structural carry fuel and end in [Undefined NoReturn] without it; the
    theorems are stated for the definitions with the fuel the code's bounds
    give (the length of a text, [length / max + 1] documents, [size / max + 2]
    objects) and prove that a result is returned.

    ** Not modelled

    RPC transport; JSON parsing (a document is a map); the console output of
    everything but the tracing; what a signal handler may not call (a run
    survives it); the class declarations of redis-plus-plus that
    [src/symbios/client/redis.cpp] copies and which have no code; the option
    tables of argp and the text it prints.  The lifetime of the
    [mongocxx::instance], which a Mongo client's constructor ends when it returns.
    The numerical solver of the predictor
    (dlib), the engine of [<random>], the file system the benchmark mounts, [pow],
    [sprintf] and the reductions of MPI are parameters.  The steps of the
    predictor's threads interleave sequentially: reorderings of the compiler or the
    memory, and calls that create a model while the worker walks over the models,
    are outside the step function (the second is a finding).  The mounted file system
    carries out every access in full ([fs_serves]).  Configuration files are read by
    the constructor of the handler ([LibHandler_new]); the replayer starts from the
    configuration it leaves.  The removal of a range
    of an object is modelled but not as an operation of the abstract objects,
    because the parts that stay keep their metadata ([CleanDemo] shows a run). *)

From Stdlib Require Export Ascii ZArith Lia.
From stdpp Require Export base tactics gmap strings numbers.
From stdpp Require Export list.

#[global] Open Scope Z_scope.

(** ** Machine integers

    A [w]-bit unsigned integer is a [Z] in [[0, 2^w)], a signed one a [Z] in
    [[-2^(w-1), 2^(w-1))]; conversions and unsigned arithmetic reduce. *)

Declare Scope symbios_scope.
Delimit Scope symbios_scope with symbios.

Definition u64 (z : Z) : Z := z mod 2 ^ 64.
Definition u32 (z : Z) : Z := z mod 2 ^ 32.
Definition u16 (z : Z) : Z := z mod 2 ^ 16.
Definition to_signed (w z : Z) : Z :=
  let m := z mod 2 ^ w in if m <? 2 ^ (w - 1) then m else m - 2 ^ w.
Definition i64 (z : Z) : Z := to_signed 64 z.
Definition i32 (z : Z) : Z := to_signed 32 z.
Definition i16 (z : Z) : Z := to_signed 16 z.

Definition is_u64 (z : Z) : Prop := 0 <= z < 2 ^ 64.
Definition is_u16 (z : Z) : Prop := 0 <= z < 2 ^ 16.

Notation "a +u b" := (u64 (a + b)) (at level 50, left associativity) : symbios_scope.
Notation "a -u b" := (u64 (a - b)) (at level 50, left associativity) : symbios_scope.
#[global] Open Scope symbios_scope.

Lemma u64_small z : 0 <= z < 2 ^ 64 -> u64 z = z.
Proof. intros; unfold u64; apply Z.mod_small; lia. Qed.

Lemma u32_small z : 0 <= z < 2 ^ 32 -> u32 z = z.
Proof. intros; unfold u32; apply Z.mod_small; lia. Qed.

Lemma u16_small z : 0 <= z < 2 ^ 16 -> u16 z = z.
Proof. intros; unfold u16; apply Z.mod_small; lia. Qed.

Lemma u64_range z : 0 <= u64 z < 2 ^ 64.
Proof. unfold u64; apply Z.mod_pos_bound; lia. Qed.

Lemma u16_range z : 0 <= u16 z < 2 ^ 16.
Proof. unfold u16; apply Z.mod_pos_bound; lia. Qed.

Lemma to_signed_small w z :
  0 < w -> - 2 ^ (w - 1) <= z < 2 ^ (w - 1) -> to_signed w z = z.
Proof.
  intros Hw Hz. unfold to_signed.
  assert (2 ^ w = 2 * 2 ^ (w - 1)) as E.
  { rewrite <- Z.pow_succ_r by lia. f_equal; lia. }
  assert (0 < 2 ^ (w - 1)) by (apply Z.pow_pos_nonneg; lia).
  destruct (Z.leb_spec 0 z).
  - rewrite Z.mod_small by lia. destruct (Z.ltb_spec z (2 ^ (w - 1))); lia.
  - rewrite <- (Z.mod_add z 1 (2 ^ w)) by lia. rewrite Z.mul_1_l.
    rewrite Z.mod_small by lia.
    destruct (Z.ltb_spec (z + 2 ^ w) (2 ^ (w - 1))); lia.
Qed.

Lemma i32_small z : - 2 ^ 31 <= z < 2 ^ 31 -> i32 z = z.
Proof. intros; apply to_signed_small; lia. Qed.

Lemma i16_small z : - 2 ^ 15 <= z < 2 ^ 15 -> i16 z = z.
Proof. intros; apply to_signed_small; lia. Qed.

Lemma i64_small z : - 2 ^ 63 <= z < 2 ^ 63 -> i64 z = z.
Proof. intros; apply to_signed_small; lia. Qed.

(** ** Hints and tactics of the development *)

Create HintDb symbios discriminated.
Create Rewrite HintDb symbios.

#[export] Hint Resolve u64_range u16_range : symbios.

(** Case analysis on every integer test of the goal, to arithmetic facts. *)
Ltac zcases :=
  repeat match goal with
  | |- context [Z.ltb ?a ?b] => destruct (Z.ltb_spec a b)
  | |- context [Z.leb ?a ?b] => destruct (Z.leb_spec a b)
  | |- context [Z.eqb ?a ?b] => destruct (Z.eqb_spec a b)
  | |- context [Z.gtb ?a ?b] => rewrite (Z.gtb_ltb a b)
  | |- context [Z.geb ?a ?b] => rewrite (Z.geb_leb a b)
  end.

(** The same on hypotheses. *)
Ltac zcases_in H :=
  repeat match type of H with
  | context [Z.ltb ?a ?b] => destruct (Z.ltb_spec a b)
  | context [Z.leb ?a ?b] => destruct (Z.leb_spec a b)
  | context [Z.eqb ?a ?b] => destruct (Z.eqb_spec a b)
  | context [Z.gtb ?a ?b] => rewrite (Z.gtb_ltb a b) in H
  | context [Z.geb ?a ?b] => rewrite (Z.geb_leb a b) in H
  end.

(** Remove wrap-around of a term whose range [lia] can see. *)
Ltac unwrap :=
  repeat match goal with
  | |- context [u64 ?e] => rewrite (u64_small e) by lia
  | |- context [u16 ?e] => rewrite (u16_small e) by lia
  | |- context [u32 ?e] => rewrite (u32_small e) by lia
  | |- context [i32 ?e] => rewrite (i32_small e) by lia
  | |- context [i16 ?e] => rewrite (i16_small e) by lia
  | |- context [i64 ?e] => rewrite (i64_small e) by lia
  end.

(** ** Bytes and byte strings *)

Abbreviation char := ascii (only parsing).

(** One byte of allocated memory; [None] is a byte never written. *)
Abbreviation cell := (option ascii) (only parsing).

Definition nul : ascii := "000"%char.

Definition zlen {A} (l : list A) : Z := Z.of_nat (length l).

(** [slice off n l]: the [n] elements of [l] from index [off]. *)
Definition slice {A} (off n : Z) (l : list A) : list A :=
  take (Z.to_nat n) (drop (Z.to_nat off) l).

(** [splice z off new old]: [old] with [new] written at index [off]; a gap
    between the end of [old] and [off] is filled with [z]. *)
Definition splice {A} (z : A) (off : Z) (new old : list A) : list A :=
  resize (Z.to_nat off) z old ++ new ++ drop (Z.to_nat off + length new) old.

Section byte_lists.
Context {A : Type}.
Implicit Types l new old : list A.

Lemma zlen_nonneg l : 0 <= zlen l.
Proof. unfold zlen; lia. Qed.

Lemma zlen_nil : zlen (@nil A) = 0.
Proof. done. Qed.

Lemma zlen_cons x (l : list A) : zlen (x :: l) = zlen l + 1.
Proof. unfold zlen; simpl; lia. Qed.

Lemma zlen_pos (l : list A) : l <> [] -> 0 < zlen l.
Proof. destruct l; [done|]. unfold zlen; simpl; lia. Qed.

Lemma zlen_app l1 l2 : zlen (l1 ++ l2) = zlen l1 + zlen l2.
Proof. unfold zlen. rewrite length_app. lia. Qed.

Lemma zlen_to_nat l : Z.to_nat (zlen l) = length l.
Proof. unfold zlen; lia. Qed.

Lemma zlen_slice off n l :
  0 <= off -> 0 <= n -> off + n <= zlen l -> zlen (slice off n l) = n.
Proof.
  unfold slice, zlen. intros. rewrite length_take, length_drop. lia.
Qed.

Lemma slice_nil off n : slice off n (@nil A) = [].
Proof. unfold slice. by rewrite drop_nil, take_nil. Qed.

Lemma slice_whole l : slice 0 (zlen l) l = l.
Proof. unfold slice. rewrite zlen_to_nat, drop_0. by apply take_ge. Qed.

Lemma slice_app_l off n l1 l2 :
  0 <= off -> 0 <= n -> off + n <= zlen l1 ->
  slice off n (l1 ++ l2) = slice off n l1.
Proof.
  unfold slice, zlen. intros.
  rewrite drop_app_le by lia. rewrite take_app_le; [done|].
  rewrite length_drop; lia.
Qed.

Lemma slice_0_app n l1 l2 : n = zlen l1 -> slice 0 n (l1 ++ l2) = l1.
Proof.
  intros ->. rewrite slice_app_l; [apply slice_whole|lia|apply zlen_nonneg|lia].
Qed.

Lemma zlen_splice z off new old :
  0 <= off -> zlen (splice z off new old) = Z.max (zlen old) (off + zlen new).
Proof.
  unfold splice, zlen. intros.
  rewrite !length_app, length_resize, length_drop. lia.
Qed.

(** What was written is what is read back. *)
Lemma slice_splice z off new old :
  0 <= off -> slice off (zlen new) (splice z off new old) = new.
Proof.
  intros. unfold slice, splice.
  rewrite drop_app_length' by (by rewrite length_resize).
  rewrite zlen_to_nat. by rewrite take_app_length.
Qed.

(** Every byte of a splice: inside the range the new one, outside the old
    one, [z] in the gap. *)
Lemma lookup_splice z off new old (i : nat) :
  0 <= off ->
  splice z off new old !! i =
    if decide (Z.of_nat i < off) then
      Some (default z (old !! i))
    else if decide (Z.of_nat i < off + zlen new) then new !! (i - Z.to_nat off)%nat
    else old !! i.
Proof.
  intros Hoff. unfold splice, zlen.
  case_decide as H1; [|case_decide as H2].
  - rewrite lookup_app_l by (rewrite length_resize; lia).
    destruct (decide (i < length old)%nat) as [H3|H3].
    + rewrite lookup_resize by lia.
      destruct (old !! i) eqn:E; [done|]. apply lookup_ge_None in E. lia.
    + rewrite lookup_resize_new by lia. by rewrite (lookup_ge_None_2 old i) by lia.
  - rewrite lookup_app_r by (rewrite length_resize; lia).
    rewrite length_resize, lookup_app_l by lia. done.
  - rewrite lookup_app_r by (rewrite length_resize; lia).
    rewrite length_resize, lookup_app_r by lia.
    rewrite lookup_drop. f_equal. lia.
Qed.

Lemma splice_whole z new old : zlen old <= zlen new -> splice z 0 new old = new.
Proof.
  unfold splice, zlen. intros. simpl. rewrite drop_ge by lia.
  rewrite app_nil_r. by destruct old.
Qed.

Lemma splice_nil z new : splice z 0 new [] = new.
Proof. apply splice_whole. rewrite zlen_nil. apply zlen_nonneg. Qed.

(** A write right behind another one. *)
Lemma splice_splice z a b old : splice z (zlen a) b (splice z 0 a old) = splice z 0 (a ++ b) old.
Proof.
  unfold splice. change (Z.to_nat 0) with 0%nat.
  assert (forall l : list A, resize 0 z l = []) as R0 by by intros [].
  rewrite !R0, zlen_to_nat, !app_nil_l, resize_app_le by done. rewrite resize_all, <- app_assoc. do 2 f_equal.
  rewrite length_app. cbn [Nat.add]. rewrite <- drop_drop, drop_app_length, drop_drop. f_equal.
Qed.

(** A write inside the old contents keeps both sides. *)
Lemma splice_inside z off new old :
  0 <= off -> off + zlen new <= zlen old ->
  splice z off new old =
    take (Z.to_nat off) old ++ new ++ drop (Z.to_nat off + length new) old.
Proof.
  unfold splice, zlen. intros. rewrite resize_le by lia. done.
Qed.

(** A write that reaches the end drops the tail. *)
Lemma splice_reaching z off new old :
  0 <= off -> zlen old <= off + zlen new ->
  splice z off new old = resize (Z.to_nat off) z old ++ new.
Proof.
  unfold splice, zlen. intros. rewrite (drop_ge old) by lia. by rewrite app_nil_r.
Qed.

End byte_lists.

#[export] Hint Resolve zlen_nonneg : symbios.
#[export] Hint Rewrite @zlen_nil @zlen_cons @zlen_app @zlen_to_nat : symbios.

(** ** Cells *)

(** Bytes that are all written, as characters. *)
Fixpoint cells_chars (cs : list cell) : option (list ascii) :=
  match cs with
  | [] => Some []
  | Some c :: cs' => (c ::.) <$> cells_chars cs'
  | None :: _ => None
  end.

Lemma cells_chars_defined (s : list ascii) : cells_chars (Some <$> s) = Some s.
Proof. induction s as [|c s IH]; [done|]. csimpl. by rewrite IH. Qed.

Lemma cells_chars_Some cs s : cells_chars cs = Some s -> cs = Some <$> s.
Proof.
  revert s. induction cs as [|[c|] cs IH]; intros s; simpl; [naive_solver| |done].
  destruct (cells_chars cs) eqn:E; [|done]. simpl. intros [= <-].
  csimpl. f_equal. by apply IH.
Qed.

Lemma slice_fmap {A B} (f : A -> B) off n l : slice off n (f <$> l) = f <$> slice off n l.
Proof. unfold slice. by rewrite fmap_take, fmap_drop. Qed.

Lemma zlen_fmap {A B} (f : A -> B) (l : list A) : zlen (f <$> l) = zlen l.
Proof. unfold zlen. by rewrite length_fmap. Qed.

#[export] Hint Rewrite @zlen_fmap : symbios.

(** ** Strings as byte lists *)

Abbreviation chars := String.list_ascii_of_string (only parsing).
Abbreviation of_chars := String.string_of_list_ascii (only parsing).

Lemma of_chars_chars s : of_chars (chars s) = s.
Proof. apply String.string_of_list_ascii_of_string. Qed.

Lemma chars_of_chars l : chars (of_chars l) = l.
Proof. apply String.list_ascii_of_string_of_list_ascii. Qed.

Lemma chars_app s1 s2 : chars (s1 +:+ s2) = chars s1 ++ chars s2.
Proof. induction s1 as [|c s1 IH]; [done|]. simpl. by rewrite <- IH. Qed.

Lemma chars_inj s1 s2 : chars s1 = chars s2 -> s1 = s2.
Proof.
  intros H. rewrite <- (of_chars_chars s1), <- (of_chars_chars s2). by rewrite H.
Qed.

Lemma string_app_inj_l s s1 s2 : s +:+ s1 = s +:+ s2 -> s1 = s2.
Proof. induction s as [|c s IH]; [done|]. simpl. intros [=]. auto. Qed.

#[export] Hint Rewrite of_chars_chars chars_of_chars chars_app : symbios.

(** A character does not occur in a given text. *)
Ltac notin := refine (bool_decide_unpack _ _); vm_compute; exact I.

(** The text behind the last separator is determined. *)
Lemma last_sep_inj {A} (c : A) l1 l2 a b :
  c ∉ a -> c ∉ b -> l1 ++ c :: a = l2 ++ c :: b -> l1 = l2 /\ a = b.
Proof.
  intros Ha Hb E. apply app_eq_inv in E as [(k & -> & E)|(k & -> & E)]; destruct k as [|x k];
    simplify_eq/=; rewrite ?app_nil_r; try done.
  - destruct Hb. apply elem_of_app. right. by left.
  - destruct Ha. apply elem_of_app. right. by left.
Qed.
