(* ===== verification/CText.v ===== *)
(** * CText: the text functions of the C and C++ libraries the program calls

    Decimal conversion ([std::to_string], [sprintf "%d"], [atoi], [atol]),
    first-occurrence search and replacement ([std::string::find]/[replace],
    [strstr]) and the tokenizer [strtok] with one separator.  Strings are
    lists of characters; a C string is the list of its bytes before the
    terminator. *)

From S2P Require Import Prelude.

(** ** Decimal digits *)

Definition digit_char (d : Z) : ascii := ascii_of_N (Z.to_N (48 + d)).

Definition digit_val (c : ascii) : option Z :=
  let n := Z.of_N (N_of_ascii c) in
  if (48 <=? n) && (n <=? 57) then Some (n - 48) else None.

Fixpoint digits_of (fuel : nat) (n : Z) (acc : list ascii) : list ascii :=
  match fuel with
  | O => acc
  | S f =>
      let acc' := digit_char (n mod 10) :: acc in
      if n <? 10 then acc' else digits_of f (n / 10) acc'
  end.

(** [std::to_string] on an integer, [sprintf] with [%d]. *)
Definition dec (n : Z) : list ascii :=
  if n <? 0 then "-"%char :: digits_of (S (Z.to_nat (Z.log2 (- n)))) (- n) []
  else digits_of (S (Z.to_nat (Z.log2 n))) n [].

Definition to_string (n : Z) : string := of_chars (dec n).

(** The value of the leading digits, and what follows them. *)
Fixpoint digits_value (acc : Z) (l : list ascii) : Z * list ascii :=
  match l with
  | [] => (acc, [])
  | c :: l' =>
      match digit_val c with
      | Some d => digits_value (acc * 10 + d) l'
      | None => (acc, l)
      end
  end.

Definition is_space (c : ascii) : bool :=
  let n := Z.of_N (N_of_ascii c) in (n =? 32) || ((9 <=? n) && (n <=? 13)).

Fixpoint skip_space (l : list ascii) : list ascii :=
  match l with
  | c :: l' => if is_space c then skip_space l' else l
  | [] => []
  end.

(** The integer a base-10 [strtol] reads, before it is clamped to [long]. *)
Definition strtol10 (l : list ascii) : Z :=
  match skip_space l with
  | c :: l' =>
      if decide (c = "-"%char) then - fst (digits_value 0 l')
      else if decide (c = "+"%char) then fst (digits_value 0 l')
      else fst (digits_value 0 (c :: l'))
  | [] => 0
  end.

Definition clamp64 (z : Z) : Z := Z.max (- 2 ^ 63) (Z.min (2 ^ 63 - 1) z).

Definition atol (l : list ascii) : Z := clamp64 (strtol10 l).
Definition atoi (l : list ascii) : Z := i32 (atol l).

Lemma digit_val_char d : 0 <= d < 10 -> digit_val (digit_char d) = Some d.
Proof.
  intros H. unfold digit_val, digit_char.
  rewrite N_ascii_embedding by lia. rewrite Z2N.id by lia.
  zcases; simpl; try lia. f_equal; lia.
Qed.

Lemma digit_char_not_space d : 0 <= d < 10 -> is_space (digit_char d) = false.
Proof.
  intros H. unfold is_space, digit_char.
  rewrite N_ascii_embedding by lia. rewrite Z2N.id by lia. zcases; simpl; lia.
Qed.

(** Reading the digits of [n] and then [acc] is reading [acc] from [n]. *)
Lemma digits_value_digits_of fuel n a acc :
  0 <= n < 2 ^ Z.of_nat fuel -> (0 < fuel)%nat ->
  exists k, 0 <= k /\
    digits_value a (digits_of fuel n acc) = digits_value (a * 10 ^ k + n) acc.
Proof.
  revert n a acc. induction fuel as [|f IH]; intros n a acc Hn Hf; [lia|].
  simpl. zcases.
  - exists 1. split; [lia|]. simpl. rewrite digit_val_char by (apply Z.mod_pos_bound; lia).
    rewrite Z.mod_small by lia. f_equal; lia.
  - assert (f <> 0)%nat by (intros ->; simpl in *; lia).
    destruct (IH (n / 10) a (digit_char (n mod 10) :: acc)) as (k & Hk & E); [|lia|].
    { rewrite Nat2Z.inj_succ, Z.pow_succ_r in Hn by lia.
      split; [apply Z.div_pos; lia|]. apply Z.div_lt_upper_bound; lia. }
    exists (k + 1). split; [lia|]. rewrite E. simpl.
    rewrite digit_val_char by (apply Z.mod_pos_bound; lia).
    f_equal. rewrite Z.pow_add_r, Z.pow_1_r by lia.
    pose proof (Z.div_mod n 10 ltac:(lia)). lia.
Qed.

Lemma log2_fuel n : 0 <= n -> n < 2 ^ Z.of_nat (S (Z.to_nat (Z.log2 n))).
Proof.
  intros. rewrite Nat2Z.inj_succ, Z2Nat.id by apply Z.log2_nonneg.
  destruct (Z.eq_dec n 0) as [->|]; [done|]. apply Z.log2_spec; lia.
Qed.

Lemma digits_of_head fuel n acc :
  0 <= n -> (0 < fuel)%nat ->
  exists d l, 0 <= d < 10 /\ digits_of fuel n acc = digit_char d :: l.
Proof.
  revert n acc. induction fuel as [|f IH]; intros n acc Hn Hf; [lia|]. simpl.
  pose proof (Z.mod_pos_bound n 10 ltac:(lia)).
  zcases; [by eauto|]. destruct f; [by simpl; eauto|].
  apply IH; [apply Z.div_pos|]; lia.
Qed.

(** [strtol] reads back what [to_string] printed, and stops after it. *)
Lemma strtol10_dec n l :
  (match l with c :: _ => digit_val c = None | [] => True end) ->
  strtol10 (dec n ++ l) = n.
Proof.
  intros Hl.
  assert (forall m, 0 <= m ->
    fst (digits_value 0 (digits_of (S (Z.to_nat (Z.log2 m))) m [] ++ l)) = m) as V.
  { intros m Hm.
    assert (forall fuel k acc, digits_of fuel k acc ++ l = digits_of fuel k (acc ++ l)) as A.
    { induction fuel as [|f IH]; intros k acc; [done|]. simpl. zcases; [done|]. apply IH. }
    rewrite A. destruct (digits_value_digits_of (S (Z.to_nat (Z.log2 m))) m 0 l)
      as (k & Hk & E); [split; [done|by apply log2_fuel]|lia|].
    simpl in E |- *. rewrite E. destruct l as [|c l']; simpl; [lia|]. rewrite Hl. simpl. lia. }
  unfold dec. zcases.
  - unfold strtol10. cbn [app skip_space]. change (is_space "-") with false. cbv iota.
    rewrite decide_True by done. rewrite V by lia. lia.
  - pose proof (V n ltac:(lia)) as E.
    destruct (digits_of_head (S (Z.to_nat (Z.log2 n))) n []) as (d & r & Hd & Er); [lia..|].
    rewrite Er in E |- *. cbn [app] in E |- *. unfold strtol10. cbn [skip_space].
    rewrite digit_char_not_space by done.
    rewrite !decide_False; [done| |].
    all: intros E'; apply (f_equal digit_val) in E'; by rewrite digit_val_char in E' by done.
Qed.

Lemma atol_dec n l :
  - 2 ^ 63 <= n < 2 ^ 63 ->
  (match l with c :: _ => digit_val c = None | [] => True end) ->
  atol (dec n ++ l) = n.
Proof. intros. unfold atol, clamp64. rewrite strtol10_dec by done. lia. Qed.

Lemma atoi_dec n : - 2 ^ 31 <= n < 2 ^ 31 -> atoi (dec n) = n.
Proof.
  intros. unfold atoi. rewrite <- (app_nil_r (dec n)), atol_dec by (done || lia).
  apply i32_small; lia.
Qed.

Lemma dec_inj n m : dec n = dec m -> n = m.
Proof.
  intros H. rewrite <- (strtol10_dec n []), <- (strtol10_dec m []) by done. by rewrite H.
Qed.

Lemma to_string_inj n m : to_string n = to_string m -> n = m.
Proof.
  unfold to_string. intros H. apply dec_inj.
  rewrite <- (chars_of_chars (dec n)), <- (chars_of_chars (dec m)). by rewrite H.
Qed.

Lemma chars_to_string n : chars (to_string n) = dec n.
Proof. apply chars_of_chars. Qed.

(** Every character printed for an integer is a digit or the minus sign. *)
Lemma digits_of_Forall (P : ascii -> Prop) fuel n acc :
  (forall d, 0 <= d < 10 -> P (digit_char d)) -> Forall P acc ->
  Forall P (digits_of fuel n acc).
Proof.
  intros HP. revert n acc. induction fuel as [|f IH]; intros n acc Ha; [done|]. simpl.
  pose proof (Z.mod_pos_bound n 10 ltac:(lia)).
  zcases; [|apply IH]; constructor; auto.
Qed.

Lemma dec_chars n : Forall (fun c => is_Some (digit_val c) \/ c = "-"%char) (dec n).
Proof.
  unfold dec. zcases; [constructor; [by right|]|]; apply digits_of_Forall; try done;
    intros d Hd; left; by rewrite digit_val_char.
Qed.

Lemma dec_notin c n : digit_val c = None -> c <> "-"%char -> c ∉ dec n.
Proof.
  intros H1 H2 H. pose proof (dec_chars n) as F. rewrite Forall_forall in F.
  destruct (F c H) as [[d E]|E]; congruence.
Qed.

Lemma length_digits_of fuel n acc :
  (length (digits_of fuel n acc) <= fuel + length acc)%nat.
Proof.
  revert n acc. induction fuel as [|f IH]; intros n acc; [simpl; lia|]. cbn [digits_of].
  zcases; [simpl; lia|]. etrans; [apply IH|]. simpl. lia.
Qed.

Lemma zlen_dec n : zlen (dec n) <= 2 + Z.log2 (Z.abs n).
Proof.
  unfold dec, zlen. pose proof (Z.log2_nonneg (Z.abs n)). zcases.
  - simpl. pose proof (length_digits_of (S (Z.to_nat (Z.log2 (- n)))) (- n) []). simpl in *.
    rewrite Z.abs_neq in * by lia. lia.
  - pose proof (length_digits_of (S (Z.to_nat (Z.log2 n))) n []). simpl in *.
    rewrite Z.abs_eq in * by lia. lia.
Qed.

Lemma digits_of_more fuel n acc : (length acc <= length (digits_of fuel n acc))%nat.
Proof.
  revert n acc. induction fuel as [|f IH]; intros n acc; [done|]. cbn [digits_of].
  zcases; [simpl; lia|]. etrans; [|apply IH]. simpl. lia.
Qed.

Lemma digits_of_mono fuel fuel' n m acc acc' :
  0 <= n <= m -> m < 2 ^ Z.of_nat fuel' -> (0 < fuel')%nat -> length acc = length acc' ->
  (length (digits_of fuel n acc) <= length (digits_of fuel' m acc'))%nat.
Proof.
  revert fuel' n m acc acc'. induction fuel as [|f IH]; intros fuel' n m acc acc' Hnm Hm Hf Hacc.
  { simpl. rewrite Hacc. apply digits_of_more. }
  destruct fuel' as [|f']; [lia|]. cbn [digits_of].
  destruct (Z.ltb_spec n 10), (Z.ltb_spec m 10); try lia; [simpl; lia| |].
  - pose proof (digits_of_more f' (m / 10) (digit_char (m mod 10) :: acc')). simpl in *. lia.
  - rewrite Nat2Z.inj_succ, Z.pow_succ_r in Hm by lia. destruct f' as [|f']; [simpl in Hm; lia|].
    apply IH; [|apply Z.div_lt_upper_bound; lia|lia|simpl; lia].
    split; [apply Z.div_pos; lia|]. apply Z.div_le_mono; lia.
Qed.

(** A larger number has no shorter text. *)
Lemma zlen_dec_mono n m : 0 <= n <= m -> zlen (dec n) <= zlen (dec m).
Proof.
  intros Hn. unfold dec, zlen. destruct (Z.ltb_spec n 0), (Z.ltb_spec m 0); try lia.
  apply inj_le, digits_of_mono; [done|apply log2_fuel; lia|lia|done].
Qed.

Lemma dec_nonempty n : dec n <> [].
Proof.
  unfold dec. zcases; [done|].
  destruct (digits_of_head (S (Z.to_nat (Z.log2 n))) n []) as (d & l & _ & ->); [lia..|done].
Qed.

(** ** Searching and replacing *)

Fixpoint find_sub (pat l : list ascii) : option nat :=
  if decide (pat `prefix_of` l) then Some 0%nat
  else match l with
       | [] => None
       | _ :: l' => S <$> find_sub pat l'
       end.

(** [strstr (l, pat) != NULL]. *)
Definition strstr (l pat : list ascii) : bool :=
  match find_sub pat l with Some _ => true | None => false end.

Definition replace_first (from to l : list ascii) : option (list ascii) :=
  i ← find_sub from l; Some (take i l ++ to ++ drop (i + length from) l).

Lemma find_sub_spec pat l i :
  find_sub pat l = Some i -> exists l1 l2, l = l1 ++ pat ++ l2 /\ length l1 = i.
Proof.
  revert i. induction l as [|c l IH]; intros i; simpl; case_decide as H.
  1,3: intros [= <-]; destruct H as [l2 ->]; by exists [], l2.
  { done. }
  destruct (find_sub pat l) as [j|] eqn:E; [|done]. simpl. intros [= <-].
  destruct (IH j) as (l1 & l2 & -> & <-); [done|]. by exists (c :: l1), l2.
Qed.

(** ** strtok with one separator character *)

(** Splits [l] before its first [d]. *)
Fixpoint span_to (d : ascii) (l : list ascii) : list ascii * list ascii :=
  match l with
  | [] => ([], [])
  | c :: l' =>
      if decide (c = d) then ([], l)
      else let '(tok, rest) := span_to d l' in (c :: tok, rest)
  end.

Fixpoint skip_sep (d : ascii) (l : list ascii) : list ascii :=
  match l with
  | c :: l' => if decide (c = d) then skip_sep d l' else l
  | [] => []
  end.

(** One call of [strtok]: the token and the saved pointer's text; [None] is
    the null pointer. *)
Definition strtok (d : ascii) (l : list ascii) : option (list ascii * list ascii) :=
  match skip_sep d l with
  | [] => None
  | l' => let '(tok, rest) := span_to d l' in Some (tok, drop 1 rest)
  end.

Lemma span_to_app d tok rest : d ∉ tok -> span_to d (tok ++ d :: rest) = (tok, d :: rest).
Proof.
  induction tok as [|c tok IH]; intros H; simpl.
  - by rewrite decide_True.
  - apply not_elem_of_cons in H as [H1 H2]. rewrite decide_False by congruence.
    by rewrite IH.
Qed.

Lemma first_sep_inj (d : ascii) (t1 t2 r1 r2 : list ascii) :
  d ∉ t1 -> d ∉ t2 -> t1 ++ d :: r1 = t2 ++ d :: r2 -> t1 = t2 /\ r1 = r2.
Proof.
  intros H1 H2 E. apply (f_equal (span_to d)) in E. rewrite !span_to_app in E by done.
  by injection E.
Qed.

Lemma strtok_token d tok rest :
  d ∉ tok -> tok <> [] -> strtok d (tok ++ d :: rest) = Some (tok, rest).
Proof.
  intros H Hne. unfold strtok. destruct tok as [|c tok]; [done|].
  pose proof (span_to_app d (c :: tok) rest H) as E. simpl app in *.
  apply not_elem_of_cons in H as [H1 H2]. cbn [skip_sep]. rewrite decide_False by congruence.
  by rewrite E.
Qed.

(** The last token ends with the text. *)
Lemma strtok_last d tok : d ∉ tok -> tok <> [] -> strtok d tok = Some (tok, []).
Proof.
  intros H Hne. assert (forall l, d ∉ l -> span_to d l = (l, [])) as S.
  { induction l as [|c l IH]; [done|]. rewrite not_elem_of_cons. intros [H1 H2]. simpl.
    rewrite decide_False by congruence. by rewrite IH. }
  unfold strtok. destruct tok as [|c tok]; [done|].
  pose proof H as [H1 H2]%not_elem_of_cons.
  cbn [skip_sep]. rewrite decide_False by congruence. by rewrite (S (c :: tok) H).
Qed.

(** A leading separator is skipped, so an empty field is never a token. *)
Lemma strtok_skip d l : strtok d (d :: l) = strtok d l.
Proof. unfold strtok. cbn [skip_sep]. by rewrite decide_True. Qed.

(** Tokens are not empty. *)
Lemma strtok_nonempty d l tok rest : strtok d l = Some (tok, rest) -> tok <> [] /\ d ∉ tok.
Proof.
  unfold strtok. induction l as [|c l IH]; [done|]. simpl. case_decide as H; [done|].
  cbn [span_to]. rewrite decide_False by done.
  assert (forall l1 t r, span_to d l1 = (t, r) -> d ∉ t) as N.
  { induction l1 as [|c1 l1 IH1]; simpl; intros t r.
    - intros [= <- <-]. apply not_elem_of_nil.
    - case_decide; [intros [= <- <-]; apply not_elem_of_nil|].
      destruct (span_to d l1) as [t' r'] eqn:E'. intros [= <- <-].
      apply not_elem_of_cons. split; [congruence|]. by eapply IH1. }
  destruct (span_to d l) as [t r] eqn:E. intros [= <- <-]. split; [done|].
  apply not_elem_of_cons. split; [congruence|]. by eapply N.
Qed.

(** The text of an [int] is short. *)
Lemma zlen_dec_int n : - 2 ^ 31 <= n < 2 ^ 31 -> zlen (dec n) <= 34.
Proof.
  intros Hn. pose proof (zlen_dec n). pose proof (Z.log2_le_mono (Z.abs n) (2 ^ 32) ltac:(lia)).
  rewrite Z.log2_pow2 in * by lia. lia.
Qed.

(** ** Lines of a stream *)

Definition newline : ascii := ascii_of_nat 10.

(** At most [n] characters, through the first newline, and what follows. *)
Fixpoint read_line (n : nat) (s : list ascii) : list ascii * list ascii :=
  match n, s with
  | S n, c :: s' =>
      if decide (c = newline) then ([c], s')
      else let '(l, r) := read_line n s' in (c :: l, r)
  | _, _ => ([], s)
  end.

(** [fgets (line, size, fp)]; [None] at the end of the file. *)
Definition fgets (size : nat) (s : list ascii) : option (list ascii * list ascii) :=
  match s with [] => None | _ => Some (read_line (size - 1) s) end.

Lemma read_line_line l rest n :
  newline ∉ l -> (length l < n)%nat -> read_line n (l ++ newline :: rest) = (l ++ [newline], rest).
Proof.
  revert n. induction l as [|c l IH]; intros n Hl Hn; destruct n as [|n]; simpl in *; try lia; [done|].
  rewrite not_elem_of_cons in Hl. destruct Hl as [Hc Hl].
  rewrite decide_False by congruence. by rewrite IH by (done || lia).
Qed.

Lemma fgets_line l rest n :
  newline ∉ l -> (S (length l) < n)%nat -> fgets n (l ++ newline :: rest) = Some (l ++ [newline], rest).
Proof.
  intros Hl Hn. unfold fgets. rewrite read_line_line by (done || lia). by destruct l.
Qed.

Lemma read_line_end l n : newline ∉ l -> (length l <= n)%nat -> read_line n l = (l, []).
Proof.
  revert n. induction l as [|c l IH]; intros n Hl Hn; destruct n as [|n]; simpl in *; try lia; try done.
  rewrite not_elem_of_cons in Hl. destruct Hl as [Hc Hl].
  rewrite decide_False by congruence. by rewrite IH by (done || lia).
Qed.

(** ** Lines of three words

    "name,a,b" with decimal numbers: a record of the traces the program
    replays. *)

Definition comma_line (name : list ascii) (a b : Z) : list ascii :=
  name ++ ","%char :: dec a ++ ","%char :: dec b.

(** A name the separator and the end of a line can delimit. *)
Definition word_ok (name : list ascii) : Prop :=
  name <> [] /\ (","%char ∉ name) /\ (newline ∉ name) /\ (nul ∉ name) /\ zlen name <= 8.

Lemma comma_line_notin c name a b :
  digit_val c = None -> c <> "-"%char -> c <> ","%char -> c ∉ name -> c ∉ comma_line name a b.
Proof.
  intros Hd Hm Hc Hn. unfold comma_line. rewrite not_elem_of_app, not_elem_of_cons.
  rewrite not_elem_of_app, not_elem_of_cons. repeat split; try done; by apply dec_notin.
Qed.

Lemma comma_line_length name a b :
  word_ok name -> - 2 ^ 31 <= a < 2 ^ 31 -> - 2 ^ 31 <= b < 2 ^ 31 ->
  4 <= zlen (comma_line name a b) <= 80.
Proof.
  intros (Hne & _ & _ & _ & Hl) Ha Hb. pose proof (zlen_dec_int _ Ha). pose proof (zlen_dec_int _ Hb).
  pose proof (zlen_pos _ Hne). pose proof (zlen_pos _ (dec_nonempty a)). pose proof (zlen_pos _ (dec_nonempty b)).
  unfold comma_line. rewrite zlen_app, zlen_cons, zlen_app, zlen_cons. lia.
Qed.

(** The three words of a line, its end included, as [strtok] finds them. *)
Lemma comma_line_words name a b :
  word_ok name ->
  strtok ","%char (comma_line name a b ++ [newline]) = Some (name, dec a ++ ","%char :: dec b ++ [newline]) /\
  strtok ","%char (dec a ++ ","%char :: dec b ++ [newline]) = Some (dec a, dec b ++ [newline]) /\
  strtok ","%char (dec b ++ [newline]) = Some (dec b ++ [newline], []).
Proof.
  intros (Hne & Hc & _). unfold comma_line. split; [|split].
  - rewrite <- !app_assoc. cbn [app]. rewrite <- app_assoc. by apply strtok_token.
  - apply strtok_token; [by apply dec_notin|apply dec_nonempty].
  - apply strtok_last.
    + rewrite not_elem_of_app, list_elem_of_singleton. split; [by apply dec_notin|done].
    + destruct (dec b) eqn:E; [by apply dec_nonempty in E|done].
Qed.

Lemma atol_dec_newline n : - 2 ^ 63 <= n < 2 ^ 63 -> atol (dec n ++ [newline]) = n.
Proof. intros Hn. by apply atol_dec. Qed.
