(* ===== verification/Effects.v ===== *)
(** * Effects: error codes, exceptions, and the monad of the program's effects

    [ErrorCode] and [ErrorException] follow
    include/symbios/common/error_definition.h, the constants follow
    include/symbios/common/error_codes.h.  A computation of the program either
    returns, throws a C++ exception, exits the process, or has undefined
    behaviour (an out-of-bounds or null access, a read of memory that was never
    written); stateful computations thread the state they change. *)

From S2P Require Import Prelude CText.

(** ** Error codes *)

Record ErrorCode := mkErrorCode { code_ : Z; message_ : string }.

#[global] Instance ErrorCode_eq_dec : EqDecision ErrorCode.
Proof. solve_decision. Defined.

Definition setMessage (message : string) (e : ErrorCode) : ErrorCode :=
  mkErrorCode (code_ e) message.

Definition SUCCESSFUL := mkErrorCode 0 "SUCCESSFUL".
Definition OPEN_FILE_FAILED := mkErrorCode 1000 "Open file failed".
Definition SEEK_FILE_FAILED := mkErrorCode 1001 "Seek the position from file failed".
Definition READ_DATA_FROM_FILE_FAILED := mkErrorCode 1002 "Read data from file failed".
Definition WRITE_DATA_TO_FILE_FAILED := mkErrorCode 1003 "Write data to file failed".
Definition REDIS_SERVER_SIDE_FAILED := mkErrorCode 1004 "Redis server maybe failed".
Definition READ_REDIS_POSITION_OR_SIZE_FAILED := mkErrorCode 1005
  "Error read position or data size when reading data from Redis Cluster".
Definition READ_REDIS_DATA_FAILED := mkErrorCode 1006 "Read data from Redis Cluster failed".
Definition WRITE_REDIS_DATA_FAILED := mkErrorCode 1007 "Write data to Redis Cluster failed".
Definition READ_MONGODB_DATA_FAILED := mkErrorCode 1008 "Read data from Mongodb failed".
Definition WRITE_MONGODB_DATA_FAILED := mkErrorCode 1009 "Write data to Mongodb failed".
Definition READ_MONGO_POSITION_OR_SIZE_FAILED := mkErrorCode 1010
  "Error read position or data size when reading data from Mongodb".
Definition MONGODB_SERVER_SIDE_FAILED := mkErrorCode 1011 "Mongodb server maybe failed".
Definition CONNECT_REDIS_SERVER_ERROR := mkErrorCode 1012 "Connect Redis Cluster failed".
Definition CONNECT_MONGO_SERVER_ERROR := mkErrorCode 1013 "Connect Mongo Cluster failed".
Definition CREATE_MONGO_CLIENT_ERROR := mkErrorCode 1014 "Create Mongo Client failed".
Definition CONNECT_MONGO_DATABASE_ERROR := mkErrorCode 1015 "Cannot connect to mongo database".
Definition CONNECT_MONGO_COLLECTION_ERROR := mkErrorCode 1016
  "Cannot connect to mongo collection".
Definition FILE_PATH_NON_EXISTANCE := mkErrorCode 1017 "The file io path is non existance".
Definition INVALID_STORAGE_INDEX := mkErrorCode 1018 "Invalid storage index".
Definition UNDEFINED_ENV_VARIABLE := mkErrorCode 2011
  "The environment variable is not defined %s".

(** ** Exceptions *)

(** What the code throws or lets through: its own [ErrorException], the
    errors of the client libraries, other [std::exception]s, and [throw 1]. *)
Inductive exn :=
| ErrorException (e : ErrorCode)
| RedisError
| MongoException
| StdException (what : string)
| IntException (n : Z).

#[global] Instance exn_eq_dec : EqDecision exn.
Proof. solve_decision. Defined.

(** [ErrorException::replace], on the error message. *)
Definition replace (str from to : list ascii) : bool * list ascii :=
  match replace_first from to str with
  | None => (false, str)
  | Some str' => (true, str')
  end.

(** The constructor of [ErrorException]: without arguments the message stays,
    otherwise the code is prepended and each argument replaces one ["%s"]. *)
Definition make_ErrorException (errorcode : ErrorCode) (args : list string) : exn :=
  let error_message := dec (code_ errorcode) ++ [ascii_of_nat 9] ++ chars (message_ errorcode) in
  match args with
  | [] => ErrorException errorcode
  | _ =>
      let msg := foldl (fun m w => (replace m (chars "%s") (chars w)).2) error_message args in
      ErrorException (setMessage (of_chars msg) errorcode)
  end.

(** ** Outcomes *)

Inductive ub :=
| OutOfBounds | NullDeref | UninitRead | NoReturn | DivByZero
| SignedOverflow
| MissingReturn    (* the end of a function that returns a value is reached *)
| BadConversion.   (* of a floating-point number outside the integer type *)

Inductive outcome (A : Type) :=
| Ok (a : A)
| Throw (e : exn)
| Undefined (u : ub)
| Exit (status : Z).
Arguments Ok {A} a.
Arguments Throw {A} e.
Arguments Undefined {A} u.
Arguments Exit {A} status.

#[global] Instance outcome_ret : MRet outcome := @Ok.
#[global] Instance outcome_bind : MBind outcome := fun A B f m =>
  match m with
  | Ok a => f a
  | Throw e => Throw e
  | Undefined u => Undefined u
  | Exit s => Exit s
  end.

Lemma outcome_bind_inv {A B} (m : outcome A) (f : A -> outcome B) b :
  m ≫= f = Ok b -> exists a, m = Ok a /\ f a = Ok b.
Proof. destruct m; naive_solver. Qed.

(** ** Stateful computations *)

Definition ST (S A : Type) : Type := S -> outcome A * S.

Section st.
Context {S : Type}.

#[global] Instance st_ret : MRet (ST S) := fun A a s => (Ok a, s).
#[global] Instance st_bind : MBind (ST S) := fun A B f m s =>
  match m s with
  | (Ok a, s') => f a s'
  | (Throw e, s') => (Throw e, s')
  | (Undefined u, s') => (Undefined u, s')
  | (Exit c, s') => (Exit c, s')
  end.

Definition lift {A} (o : outcome A) : ST S A := fun s => (o, s).
Definition throw {A} (e : exn) : ST S A := fun s => (Throw e, s).
Definition undefined {A} (u : ub) : ST S A := fun s => (Undefined u, s).
Definition get_state : ST S S := fun s => (Ok s, s).
Definition put_state (s' : S) : ST S unit := fun _ => (Ok (), s').

(** [try { m } catch (E) { h }], for the exceptions [p] selects. *)
Definition try_catch {A} (p : exn -> bool) (m : ST S A) (h : ST S A) : ST S A := fun s =>
  match m s with
  | (Throw e, s') => if p e then h s' else (Throw e, s')
  | r => r
  end.

Fixpoint for_each {A} (f : A -> ST S unit) (l : list A) : ST S unit :=
  match l with
  | [] => mret ()
  | x :: l' => f x;; for_each f l'
  end.

(** The loop over a list with an accumulator. *)
Fixpoint fold_st {A B} (f : B -> A -> ST S B) (b : B) (l : list A) : ST S B :=
  match l with
  | [] => mret b
  | x :: l' => b' ← f b x; fold_st f b' l'
  end.

Lemma st_bind_Ok {A B} (m : ST S A) (f : A -> ST S B) s a s' :
  m s = (Ok a, s') -> (m ≫= f) s = f a s'.
Proof. unfold mbind, st_bind. by intros ->. Qed.

Lemma st_bind_Throw {A B} (m : ST S A) (f : A -> ST S B) s e s' :
  m s = (Throw e, s') -> (m ≫= f) s = (Throw e, s').
Proof. unfold mbind, st_bind. by intros ->. Qed.

Lemma st_bind_Undefined {A B} (m : ST S A) (f : A -> ST S B) s u s' :
  m s = (Undefined u, s') -> (m ≫= f) s = (Undefined u, s').
Proof. unfold mbind, st_bind. by intros ->. Qed.

Lemma st_bind_inv {A B} (m : ST S A) (f : A -> ST S B) s b s' :
  (m ≫= f) s = (Ok b, s') -> exists a s1, m s = (Ok a, s1) /\ f a s1 = (Ok b, s').
Proof. unfold mbind, st_bind. destruct (m s) as [[a| | |] s1]; naive_solver. Qed.

Lemma try_catch_Ok {A} p (m h : ST S A) s a s' :
  m s = (Ok a, s') -> try_catch p m h s = (Ok a, s').
Proof. unfold try_catch. by intros ->. Qed.

Lemma try_catch_Throw {A} p (m h : ST S A) s e s' :
  m s = (Throw e, s') -> p e = true -> try_catch p m h s = h s'.
Proof. unfold try_catch. intros ->. by intros ->. Qed.

End st.

(** Which handler clause catches what. *)
Definition catches_ErrorException (e : exn) : bool :=
  match e with ErrorException _ => true | _ => false end.
Definition catches_std_exception (e : exn) : bool :=
  match e with IntException _ => false | _ => true end.
Definition catches_RedisError (e : exn) : bool :=
  match e with RedisError => true | _ => false end.

(** One step of a program whose first computation's result is known. *)
Ltac st_step H :=
  first [ rewrite (st_bind_Ok _ _ _ _ _ H)
        | rewrite (st_bind_Throw _ _ _ _ _ H)
        | rewrite (st_bind_Undefined _ _ _ _ _ H) ].

(** ** Memory

    A buffer is an allocation: its bytes, or the null pointer. *)

Abbreviation buffer := (option (list (option ascii))) (only parsing).

(** [malloc (n)]: [n] bytes that were never written. *)
Definition malloc (n : Z) : buffer := Some (replicate (Z.to_nat n) None).

(** The [n] bytes at [buf + off]. *)
Definition mem_read (buf : buffer) (off n : Z) : outcome (list cell) :=
  if n =? 0 then Ok [] else
  match buf with
  | None => Undefined NullDeref
  | Some cs =>
      if (0 <=? off) && (off + n <=? zlen cs) then Ok (slice off n cs)
      else Undefined OutOfBounds
  end.

(** [memcpy (buf + off, src, n)] for the [n] bytes [src]. *)
Definition mem_write (buf : buffer) (off : Z) (src : list cell) : outcome buffer :=
  if zlen src =? 0 then Ok buf else
  match buf with
  | None => Undefined NullDeref
  | Some cs =>
      if (0 <=? off) && (off + zlen src <=? zlen cs) then Ok (Some (splice None off src cs))
      else Undefined OutOfBounds
  end.

(** Bytes handed to a consumer of their values. *)
Definition defined (cs : list cell) : outcome (list ascii) :=
  match cells_chars cs with Some s => Ok s | None => Undefined UninitRead end.

(** [sprintf] into an array of [n] characters: the text and its terminator fit, or
    what follows the array is overwritten. *)
Definition sprintf_to (n : Z) (s : list ascii) : outcome (list ascii) :=
  if zlen s <? n then Ok s else Undefined OutOfBounds.

Lemma sprintf_to_fits n s : zlen s < n -> sprintf_to n s = Ok s.
Proof. intros Hs. unfold sprintf_to. by destruct (Z.ltb_spec (zlen s) n); [|lia]. Qed.

(** The characters at [s + off .. s + off + n) of a [std::string]; the
    terminating null byte may be read, nothing after it. *)
Definition string_read (s : list ascii) (off n : Z) : outcome (list cell) :=
  mem_read (Some (Some <$> (s ++ [nul]))) off n.

Lemma mem_read_in cs off n :
  0 <= off -> 0 <= n -> off + n <= zlen cs ->
  mem_read (Some cs) off n = Ok (slice off n cs).
Proof.
  intros. unfold mem_read. zcases; simpl; try lia; [|done].
  subst n. unfold slice. by simpl.
Qed.

Lemma mem_read_out cs off n :
  0 < n -> zlen cs < off + n -> mem_read (Some cs) off n = Undefined OutOfBounds.
Proof. intros. unfold mem_read. by zcases; simpl; try lia. Qed.

Lemma mem_write_in cs off src :
  0 <= off -> off + zlen src <= zlen cs ->
  mem_write (Some cs) off src = Ok (Some (splice None off src cs)).
Proof.
  intros. unfold mem_write. zcases; simpl; try lia; [|done].
  do 2 f_equal. unfold splice, zlen in *. destruct src; [|simpl in *; lia].
  simpl. rewrite Nat.add_0_r, resize_le by lia. by rewrite take_drop.
Qed.

Lemma malloc_write n src :
  0 <= n -> zlen src = n -> mem_write (malloc n) 0 src = Ok (Some src).
Proof.
  intros Hn Hs. unfold malloc. rewrite mem_write_in; [|lia|].
  - rewrite splice_whole; [done|]. unfold zlen in *. rewrite length_replicate. lia.
  - unfold zlen in *. rewrite length_replicate. lia.
Qed.

Lemma defined_chars s : defined (Some <$> s) = Ok s.
Proof. unfold defined. by rewrite cells_chars_defined. Qed.

Lemma string_read_in s off n :
  0 <= off -> 0 <= n -> off + n <= zlen s ->
  string_read s off n = Ok (Some <$> slice off n s).
Proof.
  intros. unfold string_read. rewrite mem_read_in; [|done..|].
  - rewrite slice_fmap, slice_app_l by done. done.
  - rewrite zlen_fmap, zlen_app. unfold zlen at 2. simpl. lia.
Qed.
