(* ===== verification/Types.v ===== *)
(** * Types: the data of the middleware

    include/symbios/common/enumerations.h and
    include/symbios/common/data_structure.h.  [CharStruct] (a fixed-size string
    of the basket library) is a [string]; [buffer_] is an allocation or null
    (Effects.v); a null [shared_ptr<StorageSolution>] is [None]. *)

From S2P Require Import Prelude CText Effects.

(** ** Enumerations *)

Inductive IOClientType := FILE_IO | REDIS_IO | MONGO_IO.

Inductive DataDistributionPolicy :=
| RANDOM_POLICY | ROUND_ROBIN_POLICY | HEURISTICS_POLICY | DYNAMIC_PROGRAMMING_POLICY.

#[global] Instance IOClientType_eq_dec : EqDecision IOClientType.
Proof. solve_decision. Defined.

#[global] Instance DataDistributionPolicy_eq_dec : EqDecision DataDistributionPolicy.
Proof. solve_decision. Defined.

(** ** Data *)

Record Data := mkData {
  id_ : string;
  position_ : Z;
  buffer_ : buffer;
  data_size_ : Z;
  storage_index_ : Z;
}.

#[global] Instance Data_eq_dec : EqDecision Data.
Proof. solve_decision. Defined.

(** [Data()]. *)
Definition Data0 : Data := mkData "" 0 None 0 0.

Definition set_id (i : string) (d : Data) : Data :=
  mkData i (position_ d) (buffer_ d) (data_size_ d) (storage_index_ d).
Definition set_position (p : Z) (d : Data) : Data :=
  mkData (id_ d) p (buffer_ d) (data_size_ d) (storage_index_ d).
Definition set_buffer (b : buffer) (d : Data) : Data :=
  mkData (id_ d) (position_ d) b (data_size_ d) (storage_index_ d).
Definition set_data_size (n : Z) (d : Data) : Data :=
  mkData (id_ d) (position_ d) (buffer_ d) n (storage_index_ d).
Definition set_storage_index (i : Z) (d : Data) : Data :=
  mkData (id_ d) (position_ d) (buffer_ d) (data_size_ d) i.

(** The fields are in the range of their C types. *)
Definition Data_wf (d : Data) : Prop :=
  is_u64 (position_ d) /\ is_u64 (data_size_ d) /\ is_u16 (storage_index_ d).

(** ** Storage solutions *)

Inductive StorageSolution :=
| FileSS (end_point : string)
| RedisSS (end_point port : string)
| MongoSS (end_point database collection : string).

#[global] Instance StorageSolution_eq_dec : EqDecision StorageSolution.
Proof. solve_decision. Defined.

Definition end_point_ (s : StorageSolution) : string :=
  match s with FileSS e | RedisSS e _ | MongoSS e _ _ => e end.

Definition io_client_type_ (s : StorageSolution) : IOClientType :=
  match s with FileSS _ => FILE_IO | RedisSS _ _ => REDIS_IO | MongoSS _ _ _ => MONGO_IO end.

(** [std::unordered_map<uint16_t, std::shared_ptr<StorageSolution>>]: the
    entries in the map's iteration order. *)
Abbreviation solution_map := (list (Z * option StorageSolution)) (only parsing).

(** [m.find (k)]. *)
Fixpoint find_solution (k : Z) (m : solution_map) : option (option StorageSolution) :=
  match m with
  | [] => None
  | (k', s) :: m' => if decide (k' = k) then Some s else find_solution k m'
  end.

(** [m[k]]: a missing key is added with a null pointer. *)
Definition index_solution (k : Z) (m : solution_map) : option StorageSolution * solution_map :=
  match find_solution k m with
  | Some s => (s, m)
  | None => (None, m ++ [(k, None)])
  end.

Lemma index_solution_present k m s :
  find_solution k m = Some s -> index_solution k m = (s, m).
Proof. unfold index_solution. by intros ->. Qed.

(** ** Distributions and metadata *)

Record DataDistribution := mkDataDistribution {
  source_data_ : Data;
  destination_data_ : Data;
  dist_storage_index_ : Z;
}.

Definition DataDistribution0 : DataDistribution := mkDataDistribution Data0 Data0 0.

Definition set_destination (f : Data -> Data) (d : DataDistribution) : DataDistribution :=
  mkDataDistribution (source_data_ d) (f (destination_data_ d)) (dist_storage_index_ d).

Record Metadata := mkMetadata {
  is_link_ : bool;
  meta_storage_index_ : Z;
  links_ : gmap Z Data;
}.

Definition Metadata0 : Metadata := mkMetadata false 0 ∅.

Definition set_links (l : gmap Z Data) (m : Metadata) : Metadata :=
  mkMetadata (is_link_ m) (meta_storage_index_ m) l.

(** ** Printing: the stream operators of src/symbios/common/data_structure.cpp *)

Definition show_Data (m : Data) : string :=
  "{id_:" +:+ id_ m +:+ ",data_size_:" +:+ to_string (data_size_ m) +:+
  ",position_:" +:+ to_string (position_ m) +:+
  ",storage_index_:" +:+ to_string (storage_index_ m) +:+ "}".

(** The loop counter of the metadata printer is never increased. *)
Definition show_links (m : gmap Z Data) : string :=
  foldr (fun e acc =>
    "{ first:" +:+ to_string e.1 +:+ ", second:" +:+ to_string e.1 +:+ "}" +:+
    (if (0 <? u64 (Z.of_nat (size m) - 1)) then "," else "") +:+ "}" +:+ acc)
  "" (map_to_list m).

Definition show_Metadata (m : Metadata) : string :=
  "{storage_index_:" +:+ to_string (meta_storage_index_ m) +:+
  ",is_link_:" +:+ (if is_link_ m then "1" else "0") +:+
  ",links_:{" +:+ show_links (links_ m).

Definition show_DataDistribution (m : DataDistribution) : string :=
  "{source_data_:" +:+ show_Data (source_data_ m) +:+
  ",destination_data_:" +:+ show_Data (destination_data_ m) +:+
  ",storage_index_:" +:+ to_string (dist_storage_index_ m) +:+ "}".
