(* ===== verification/Services.v ===== *)
(** * Services: the storage systems the clients talk to

    The POSIX file calls of src/symbios/io_clients/file_io.cpp are modelled on
    a file system that may refuse access, fail, or transfer fewer bytes than
    asked.  Redis (redis-plus-plus) and MongoDB (mongocxx) are parameters: a
    class of operations each, which may throw, and a class that states the
    documented behaviour of a service that is up.  A finite map and a list of
    documents are their reference instances. *)

From S2P Require Import Prelude CText Effects.

(** ** POSIX files *)

Record FS := mkFS {
  files : gmap string (list ascii);
  denied : gset string;  (* paths [open] refuses *)
  rw_max : Z;            (* most bytes one [read] or [write] transfers *)
  io_error : bool;       (* [read] and [write] return -1 *)
}.

Definition set_files (f : gmap string (list ascii)) (fs : FS) : FS :=
  mkFS f (denied fs) (rw_max fs) (io_error fs).

Definition file_content (fs : FS) (path : string) : list ascii := default [] (files fs !! path).

(** [open (path, O_RDONLY) != -1]. *)
Definition open_rdonly (fs : FS) (path : string) : bool :=
  bool_decide (is_Some (files fs !! path) /\ (path ∉ denied fs)).

(** [open (path, O_RDWR | O_CREAT, 0644)]. *)
Definition open_rdwr_creat (fs : FS) (path : string) : option FS :=
  if decide (path ∈ denied fs) then None
  else Some (set_files (<[path := file_content fs path]> (files fs)) fs).

(** [lseek (fd, offset, SEEK_SET) == -1], for a [size_t] offset. *)
Definition lseek_fails (offset : Z) : bool := i64 offset <? 0.

(** [read (fd, buf, n)] at [offset]: the returned count and the bytes. *)
Definition posix_read (fs : FS) (path : string) (offset n : Z) : Z * list ascii :=
  if io_error fs then (-1, [])
  else let data := slice offset (Z.min n (rw_max fs)) (file_content fs path) in
       (zlen data, data).

(** [write (fd, data, n)] at [offset]. *)
Definition posix_write (fs : FS) (path : string) (offset : Z) (data : list ascii) : Z * FS :=
  if io_error fs then (-1, fs)
  else let data' := slice 0 (Z.min (zlen data) (rw_max fs)) data in
       match data' with
       | [] => (0, fs)
       | _ => (zlen data',
               set_files (<[path := splice nul offset data' (file_content fs path)]> (files fs)) fs)
       end.

(** [remove (path)]. *)
Definition posix_remove (fs : FS) (path : string) : FS :=
  if decide (path ∈ denied fs) then fs else set_files (delete path (files fs)) fs.

(** ** Redis *)

Class RedisService (R : Type) := {
  redis_get : string -> R -> exn + option (list ascii);
  redis_set : string -> list ascii -> R -> exn + (R * bool);
  redis_del : string -> R -> exn + (R * Z);
}.

(** A cluster that is up is a map from keys to strings, and stays up. *)
Class RedisLaws (R : Type) `{RedisService R} := {
  redis_up : R -> Prop;
  redis_view : R -> gmap string (list ascii);
  redis_get_up r k : redis_up r -> redis_get k r = inr (redis_view r !! k);
  redis_set_up r k v : redis_up r ->
    exists r', redis_set k v r = inr (r', true) /\ redis_up r' /\
               redis_view r' = <[k := v]> (redis_view r);
  redis_del_up r k : redis_up r ->
    exists r' n, redis_del k r = inr (r', n) /\ redis_up r' /\
                 redis_view r' = delete k (redis_view r);
}.

(** ** MongoDB: one collection of documents with a "key" and a "value" *)

Class MongoService (M : Type) := {
  (* find_one ({"key": k}): the "value" of a matching document *)
  mongo_find_one : string -> M -> exn + option (list ascii);
  (* delete_many ({"key": k}) *)
  mongo_delete_many : string -> M -> exn + M;
  (* insert_one: the new collection, and whether the write is acknowledged *)
  mongo_insert_one : string -> list ascii -> M -> exn + (M * bool);
}.

(** The documents with a key, in the order the server returns them. *)
Class MongoLaws (M : Type) `{MongoService M} := {
  mongo_up : M -> Prop;
  mongo_docs : M -> list (string * list ascii);
  mongo_find_one_up m k : mongo_up m ->
    mongo_find_one k m = inr (snd <$> head (filter (fun d => d.1 = k) (mongo_docs m)));
  mongo_delete_many_up m k : mongo_up m ->
    exists m', mongo_delete_many k m = inr m' /\ mongo_up m' /\
               mongo_docs m' = filter (fun d => d.1 <> k) (mongo_docs m);
  mongo_insert_one_up m k v : mongo_up m ->
    exists m', mongo_insert_one k v m = inr (m', true) /\ mongo_up m' /\
               mongo_docs m' = mongo_docs m ++ [(k, v)];
}.

(** ** Reference instances *)

Definition redis_ref := gmap string (list ascii).
Definition mongo_ref := list (string * list ascii).

#[global] Instance redis_ref_service : RedisService redis_ref := {
  redis_get k r := inr ((r : gmap string (list ascii)) !! k);
  redis_set k v r := inr (<[k := v]> (r : gmap string (list ascii)), true);
  redis_del k r := inr (delete k (r : gmap string (list ascii)), 1);
}.

#[global] Instance redis_ref_laws : RedisLaws redis_ref.
Proof.
  refine {| redis_up := fun _ => True; redis_view := fun r => r |}; simpl; eauto.
Defined.

#[global] Instance mongo_ref_service : MongoService mongo_ref := {
  mongo_find_one k m := inr (snd <$> head (filter (fun d => d.1 = k) m));
  mongo_delete_many k m := inr (filter (fun d => d.1 <> k) m);
  mongo_insert_one k v m := inr (m ++ [(k, v)], true);
}.

#[global] Instance mongo_ref_laws : MongoLaws mongo_ref.
Proof.
  refine {| mongo_up := fun _ => True; mongo_docs := fun m => m |}; simpl; eauto.
Defined.
