(* ===== verification/FileIO.v ===== *)
(** * FileIO: the POSIX client, src/symbios/io_clients/file_io.cpp

    [Read], [Write], [Remove] and [Size] of [FileIOClient] on the file system
    of Services.v.  A reference parameter that a call changes is returned. *)

From S2P Require Import Prelude CText Effects Types Services.

Module FileIOClient.

(** On a failed read the destination's buffer is dropped with the exception. *)
Definition Read (source destination : Data) : ST FS Data := fun fs =>
  if negb (open_rdonly fs (id_ source)) then (Throw (ErrorException OPEN_FILE_FAILED), fs)
  else
    let file_size := zlen (file_content fs (id_ source)) in
    if lseek_fails (position_ source) then (Throw (ErrorException SEEK_FILE_FAILED), fs)
    else
      let source_data_size :=
        if data_size_ source =? 0 then file_size -u position_ source else data_size_ source in
      let '(ret, bytes) := posix_read fs (id_ source) (position_ source) source_data_size in
      let data_size := u64 ret in
      if data_size =? source_data_size then
        (buf ← mem_write (malloc (position_ destination +u source_data_size))
                 (position_ destination) (Some <$> bytes);
         Ok (set_data_size (position_ destination +u data_size) (set_buffer buf destination)), fs)
      else (Throw (ErrorException READ_DATA_FROM_FILE_FAILED), fs).

(** [ssize_t size] is compared with a [size_t]: a result of -1 converts to the
    largest [size_t]. *)
Definition Write (source destination : Data) : ST FS Data := fun fs =>
  match open_rdwr_creat fs (id_ destination) with
  | None => (Throw (ErrorException OPEN_FILE_FAILED), fs)
  | Some fs1 =>
      if lseek_fails (position_ destination) then (Throw (ErrorException SEEK_FILE_FAILED), fs1)
      else
        let n := data_size_ source -u position_ source in
        match mem_read (buffer_ source) (position_ source) n ≫= defined with
        | Ok bytes =>
            let '(size, fs2) := posix_write fs1 (id_ destination) (position_ destination) bytes in
            if u64 size <? n then (Throw (ErrorException WRITE_DATA_TO_FILE_FAILED), fs2)
            else (Ok source, fs2)
        | Throw e => (Throw e, fs1)
        | Undefined u => (Undefined u, fs1)
        | Exit c => (Exit c, fs1)
        end
  end.

Definition Remove (source : Data) : ST FS bool := fun fs =>
  (Ok true, posix_remove fs (id_ source)).

Definition Size (source : Data) : ST FS Z := fun fs =>
  match files fs !! id_ source with
  | Some v => (Ok (zlen v), fs)
  | None => (Ok 0, fs)
  end.

(** ** Behaviour *)

(** The file system serves [path]: no refusal, no device error. *)
Definition ready (fs : FS) (path : string) : Prop :=
  (path ∉ denied fs) /\ io_error fs = false /\ 0 < rw_max fs.

Lemma lseek_ok p : 0 <= p < 2 ^ 63 -> lseek_fails p = false.
Proof. intros. unfold lseek_fails. unwrap. by zcases; try lia. Qed.

Lemma posix_read_ok fs path off n v :
  io_error fs = false -> files fs !! path = Some v ->
  0 <= off -> 0 <= n <= rw_max fs -> off + n <= zlen v ->
  posix_read fs path off n = (n, slice off n v).
Proof.
  intros E F Ho Hn Hv. unfold posix_read, file_content. rewrite E, F. simpl.
  rewrite Z.min_l by lia. by rewrite zlen_slice by lia.
Qed.

(** [n] bytes from [pos] of an existing file arrive at [destination.position_]. *)
Lemma Read_ok s d fs v n :
  ready fs (id_ s) -> files fs !! id_ s = Some v ->
  0 <= position_ s -> zlen v < 2 ^ 63 ->
  n = (if data_size_ s =? 0 then zlen v - position_ s else data_size_ s) ->
  0 <= n <= rw_max fs -> position_ s + n <= zlen v ->
  0 <= position_ d -> position_ d + n < 2 ^ 64 ->
  Read s d fs =
    (Ok (set_data_size (position_ d + n)
          (set_buffer (Some (replicate (Z.to_nat (position_ d)) None
                             ++ (Some <$> slice (position_ s) n v))) d)), fs).
Proof.
  intros (Hd & He & _) Hf Hp Hv Hn Hr Hb Hdp Hw. unfold Read, open_rdonly.
  rewrite bool_decide_eq_true_2 by (split; [rewrite Hf|]; eauto). simpl.
  rewrite lseek_ok by lia.
  assert ((if data_size_ s =? 0 then zlen (file_content fs (id_ s)) -u position_ s
           else data_size_ s) = n) as ->.
  { unfold file_content. rewrite Hf. simpl. revert Hn. zcases; intros ->; [|done].
    unwrap. done. }
  rewrite (posix_read_ok _ _ _ _ v) by (done || lia).
  unwrap. rewrite Z.eqb_refl. unfold malloc.
  assert (zlen (Some <$> slice (position_ s) n v) = n) as L.
  { rewrite zlen_fmap. apply zlen_slice; lia. }
  rewrite mem_write_in; [|done|].
  2: { rewrite L. unfold zlen. rewrite length_replicate. lia. }
  unfold mbind, outcome_bind. repeat f_equal.
  rewrite splice_reaching; [|done|rewrite L; unfold zlen; rewrite length_replicate; lia].
  f_equal. rewrite resize_le by (rewrite length_replicate; lia).
  rewrite take_replicate. f_equal. lia.
Qed.

Lemma Read_missing s d fs :
  files fs !! id_ s = None -> Read s d fs = (Throw (ErrorException OPEN_FILE_FAILED), fs).
Proof.
  intros H. unfold Read, open_rdonly.
  rewrite bool_decide_eq_false_2; [done|]. rewrite H. by intros [[? ?] _].
Qed.

(** The contents after writing [bytes] at [off]: [write] of no bytes does not
    extend the file. *)
Definition file_after (off : Z) (bytes old : list ascii) : list ascii :=
  match bytes with [] => old | _ => splice nul off bytes old end.

Lemma posix_write_ok fs path off bytes :
  io_error fs = false -> zlen bytes <= rw_max fs -> files fs !! path = Some (file_content fs path) ->
  posix_write fs path off bytes =
    (zlen bytes, set_files (<[path := file_after off bytes (file_content fs path)]> (files fs)) fs).
Proof.
  intros E L F. unfold posix_write. rewrite E.
  rewrite Z.min_l, slice_whole by lia.
  destruct bytes; [|done]. simpl. rewrite insert_id by done. by destruct fs.
Qed.

Lemma Write_ok s d fs cs bytes :
  ready fs (id_ d) -> buffer_ s = Some cs ->
  0 <= position_ s <= data_size_ s -> data_size_ s < 2 ^ 63 -> data_size_ s <= zlen cs ->
  slice (position_ s) (data_size_ s - position_ s) cs = Some <$> bytes ->
  data_size_ s - position_ s <= rw_max fs ->
  0 <= position_ d < 2 ^ 63 ->
  Write s d fs =
    (Ok s, set_files (<[id_ d := file_after (position_ d) bytes (file_content fs (id_ d))]>
                        (files fs)) fs).
Proof.
  intros (Hd & He & _) Hb Hs Hw Hl Hc Hr Hp. unfold Write, open_rdwr_creat.
  rewrite decide_False by done. rewrite lseek_ok by done. unwrap.
  rewrite Hb, mem_read_in by lia. unfold mbind at 1. cbn [outcome_bind].
  rewrite Hc, defined_chars.
  assert (zlen bytes = data_size_ s - position_ s) as L.
  { rewrite <- (zlen_fmap Some bytes), <- Hc. apply zlen_slice; lia. }
  rewrite posix_write_ok; simpl; [|done|lia|].
  - unwrap. zcases; [lia|]. f_equal. unfold set_files. simpl. f_equal.
    unfold file_content. simpl. rewrite lookup_insert_eq. simpl.
    by rewrite insert_insert_eq.
  - unfold file_content. simpl. by rewrite lookup_insert_eq.
Qed.

End FileIOClient.
