(* ===== verification/KeyValueIO.v ===== *)
(** * KeyValueIO: the Redis and MongoDB clients

    src/symbios/io_clients/redis_io.cpp and src/symbios/io_clients/mongo_io.cpp.
    Both keep one value per object and rewrite it on every [Write]; the code
    that computes the new value is the same in the two files
    ([extend_value], [update_value]). *)

From S2P Require Import Prelude CText Effects Types Services.

(** ** The new value of an object *)

(** [memcpy (s.data () + off, bytes, n)] into a [std::string]. *)
Definition string_write (s : list ascii) (off : Z) (bytes : list ascii) : outcome (list ascii) :=
  if (0 <=? off) && (off + zlen bytes <=? zlen s) then Ok (splice nul off bytes s)
  else Undefined OutOfBounds.

(** The bytes of the old value that are kept in front of the new data. *)
Definition kept_prefix (old_size position : Z) : Z :=
  if 0 <? position then
    if old_size <? position then old_size else position -u 1
  else 0.

(** The write reaches the end of the old value: a fresh string of zeros, a
    prefix of the old value, the new data. *)
Definition extend_value (old : list ascii) (position : Z) (bytes : list ascii)
    : outcome (list ascii) :=
  let total := position +u zlen bytes in
  if 2 ^ 63 <=? total then Throw (StdException "basic_string::_M_replace_aux") else
  let new_val := replicate (Z.to_nat total) nul in
  new_val ← string_write new_val 0 (slice 0 (kept_prefix (zlen old) position) old);
  string_write new_val position bytes.

(** The write lies inside the old value. *)
Definition update_value (old : list ascii) (position : Z) (bytes : list ascii)
    : outcome (list ascii) :=
  string_write old position bytes.

Definition reaches_end (old : list ascii) (position data_size : Z) : bool :=
  (zlen old <=? data_size) || (zlen old <=? data_size +u position).

(** ** RedisIOClient *)

Module RedisIOClient.
Section redis.
Context {R : Type} `{RedisService R}.

(** A [sw::redis::Error] becomes [REDIS_SERVER_SIDE_FAILED]. *)
Definition redis_exn (e : exn) : exn :=
  if catches_RedisError e then ErrorException REDIS_SERVER_SIDE_FAILED else e.

Definition Read (source destination : Data) : ST R Data := fun r =>
  match redis_get (id_ source) r with
  | inl e => (Throw (redis_exn e), r)
  | inr None => (Throw (ErrorException READ_REDIS_DATA_FAILED), r)
  | inr (Some value) =>
      let value_size := zlen value in
      let source_size := if data_size_ source =? 0 then value_size else data_size_ source in
      if value_size <? source_size then
        (Throw (ErrorException READ_REDIS_POSITION_OR_SIZE_FAILED), r)
      else
        (bytes ← string_read value (position_ source) source_size;
         buf ← mem_write (malloc source_size) 0 bytes;
         Ok (set_data_size source_size (set_buffer buf destination)), r)
  end.

Definition put (key : string) (value : list ascii) (source : Data) : ST R Data := fun r =>
  match redis_set key value r with
  | inl e => (Throw (redis_exn e), r)
  | inr (r', result) =>
      if result then (Ok source, r')
      else (Throw (ErrorException WRITE_REDIS_DATA_FAILED), r')
  end.

Definition Write (source destination : Data) : ST R Data := fun r =>
  match redis_get (id_ destination) r with
  | inl e => (Throw (redis_exn e), r)
  | inr resp =>
      let value :=
        bytes ← mem_read (buffer_ source) (position_ source) (data_size_ source) ≫= defined;
        match resp with
        | Some old_value =>
            if reaches_end old_value (position_ destination) (data_size_ source)
            then extend_value old_value (position_ destination) bytes
            else update_value old_value (position_ destination) bytes
        | None => Ok bytes
        end in
      (v ← lift value; put (id_ destination) v source) r
  end.

Definition Remove (source : Data) : ST R bool := fun r =>
  match redis_del (id_ source) r with
  | inl e => (Throw e, r)
  | inr (r', _) => (Ok true, r')
  end.

Definition Size (source : Data) : ST R Z := fun r =>
  match redis_get (id_ source) r with
  | inl e => (Throw e, r)
  | inr (Some v) => (Ok (zlen v), r)
  | inr None => (Ok 0, r)
  end.

(** The constructor's [split]: the fields of [s] between delimiters, as
    [std::getline] returns them (no field after a final delimiter). *)
Fixpoint split_from (delimiter : ascii) (token s : list ascii) : list (list ascii) :=
  match s with
  | [] => match token with [] => [] | _ => [token] end
  | c :: s' =>
      if decide (c = delimiter) then token :: split_from delimiter [] s'
      else split_from delimiter (token ++ [c]) s'
  end.

Definition split (s : list ascii) (delimiter : ascii) : list (list ascii) :=
  split_from delimiter [] s.

(** The node a process of rank [rank] connects to. *)
Definition choose_node (end_point port : string) (rank : Z) : outcome (list ascii * Z) :=
  let end_points_arr := split (chars end_point) ","%char in
  let ports_arr := split (chars port) ","%char in
  if zlen end_points_arr =? 0 then Undefined DivByZero else
  let index := Z.to_nat (u64 rank mod zlen end_points_arr) in
  match end_points_arr !! index, ports_arr !! index with
  | Some host, Some p => Ok (host, atoi p)
  | _, _ => Undefined OutOfBounds
  end.

End redis.
End RedisIOClient.

(** ** MongoIOClient *)

Module MongoIOClient.
Section mongo.
Context {M : Type} `{MongoService M}.

Definition Read (source destination : Data) : ST M Data := fun m =>
  match mongo_find_one (id_ source) m with
  | inl e => (Throw e, m)
  | inr None => (Throw (ErrorException READ_MONGODB_DATA_FAILED), m)
  | inr (Some data) =>
      let source_size := if data_size_ source =? 0 then zlen data else data_size_ source in
      (bytes ← string_read data (position_ source) (source_size -u position_ source);
       buf ← mem_write (malloc source_size) 0 bytes;
       Ok (set_data_size source_size (set_buffer buf destination)), m)
  end.

(** Deletes the key's documents. *)
Definition delete_key (key : string) : ST M unit := fun m =>
  match mongo_delete_many key m with
  | inl e => (Throw e, m)
  | inr m' => (Ok (), m')
  end.

(** Inserts one document; the id of an unacknowledged insert is read from an
    empty optional. *)
Definition insert_key (key : string) (value : list ascii) : ST M unit := fun m =>
  match mongo_insert_one key value m with
  | inl e => (Throw e, m)
  | inr (m', acknowledged) => if acknowledged then (Ok (), m') else (Undefined NullDeref, m')
  end.

(** The existing value is read through [Read]; any [std::exception] there
    means the object does not exist. *)
Definition Write (source destination : Data) : ST M Data :=
  let read_source := set_id (id_ destination) Data0 in
  existing ← try_catch catches_std_exception
               (d ← Read read_source read_source; mret (Some d))
               (mret None);
  match existing with
  | Some rs =>
      old ← lift (mem_read (buffer_ rs) 0 (data_size_ rs) ≫= defined);
      bytes ← lift (mem_read (buffer_ source) (position_ source) (data_size_ source) ≫= defined);
      new_val ← lift (if reaches_end old (position_ destination) (data_size_ source)
                      then extend_value old (position_ destination) bytes
                      else update_value old (position_ destination) bytes);
      delete_key (id_ destination);;
      insert_key (id_ destination) new_val;;
      mret (set_position 0 source)
  | None =>
      new_val ← lift (mem_read (buffer_ source) (position_ source) (data_size_ source) ≫= defined);
      insert_key (id_ destination) new_val;;
      mret source
  end.

Definition Remove (source : Data) : ST M bool := delete_key (id_ source);; mret true.

Definition Size (source : Data) : ST M Z :=
  let read_source := set_id (id_ source) Data0 in
  try_catch catches_std_exception
    (d ← Read read_source read_source; mret (data_size_ d))
    (mret 0).

End mongo.
End MongoIOClient.
