(* ===== verification/KeyValueSpec.v ===== *)
(** * KeyValueSpec: what the key-value clients store

    [kv_value] is the value an object has after a [Write]; [kv_exact] says when
    it is the value a byte store would have, and the lemmas of the two clients
    reduce each operation to the service's view of its keys. *)

From S2P Require Import Prelude CText Effects Types Services KeyValueIO.

Definition extended (old : list ascii) (position : Z) (bytes : list ascii) : list ascii :=
  let k := kept_prefix (zlen old) position in
  slice 0 k old ++ replicate (Z.to_nat (position - k)) nul ++ bytes.

Definition kv_value (old : option (list ascii)) (position : Z) (bytes : list ascii) : list ascii :=
  match old with
  | None => bytes
  | Some o =>
      if reaches_end o position (zlen bytes) then extended o position bytes
      else splice nul position bytes o
  end.

(** The value a byte-addressed store would have. *)
Definition exact_value (old : option (list ascii)) (position : Z) (bytes : list ascii) : list ascii :=
  splice nul position bytes (default [] old).

Definition kv_exact (old : option (list ascii)) (position n : Z) : bool :=
  match old with
  | None => position =? 0
  | Some o => (position =? 0) || (zlen o <? position) || (position + n <? zlen o)
  end.

Section values.
Implicit Types old bytes : list ascii.

Lemma kept_prefix_range old position :
  0 <= position < 2 ^ 63 -> 0 <= kept_prefix (zlen old) position <= Z.min (zlen old) position.
Proof.
  intros. pose proof (zlen_nonneg old). unfold kept_prefix.
  zcases; [lia| |lia]. rewrite u64_small by lia. lia.
Qed.

Lemma string_write_in s off bytes :
  0 <= off -> off + zlen bytes <= zlen s -> string_write s off bytes = Ok (splice nul off bytes s).
Proof. intros. unfold string_write. zcases; simpl; try lia; done. Qed.

Lemma extend_value_ok old position bytes :
  0 <= position -> position + zlen bytes < 2 ^ 63 ->
  extend_value old position bytes = Ok (extended old position bytes).
Proof.
  intros Hp Hb. pose proof (zlen_nonneg bytes). unfold extend_value. unwrap.
  zcases; [lia|]. pose proof (kept_prefix_range old position ltac:(lia)) as Hk.
  set (k := kept_prefix (zlen old) position) in *.
  assert (zlen (slice 0 k old) = k) as Lk by (apply zlen_slice; lia).
  assert (forall n, zlen (replicate (Z.to_nat n) nul) = Z.max 0 n) as Lr.
  { intros n. unfold zlen. rewrite length_replicate. lia. }
  rewrite string_write_in by (rewrite ?Lk, ?Lr; lia). unfold mbind; cbn [outcome_bind].
  rewrite string_write_in; [|lia|rewrite zlen_splice, ?Lr, ?Lk; lia].
  f_equal. unfold extended. fold k.
  rewrite splice_reaching; [|lia|rewrite zlen_splice, ?Lr, ?Lk; lia].
  rewrite app_assoc. f_equal. apply list_eq. intros i.
  assert (length (slice 0 k old) = Z.to_nat k) as Lk' by (unfold zlen in Lk; lia).
  destruct (decide (i < Z.to_nat position)%nat) as [Hi|Hi].
  - rewrite lookup_resize; [|done|].
    2: { pose proof (zlen_splice nul 0 (slice 0 k old) (replicate (Z.to_nat (position + zlen bytes)) nul)) as L.
         rewrite Lr, Lk in L. unfold zlen in *. lia. }
    rewrite lookup_splice by lia. rewrite decide_False by lia. rewrite Lk.
    case_decide.
    + rewrite lookup_app_l by lia. f_equal; lia.
    + rewrite lookup_app_r by lia. rewrite !lookup_replicate_2 by lia. done.
  - rewrite !lookup_ge_None_2; [done| |].
    + rewrite length_app, length_replicate. lia.
    + rewrite length_resize. lia.
Qed.

Lemma reaches_end_false old position n :
  0 <= position -> 0 <= n -> position + n < 2 ^ 63 ->
  reaches_end old position n = false -> n + position < zlen old.
Proof.
  intros. revert H2. unfold reaches_end. rewrite u64_small by lia.
  zcases; simpl; try done; lia.
Qed.

Lemma reaches_end_true old position n :
  0 <= position -> 0 <= n -> position + n < 2 ^ 63 ->
  reaches_end old position n = true -> zlen old <= n + position.
Proof.
  intros. revert H2. unfold reaches_end. rewrite u64_small by lia.
  zcases; simpl; try done; lia.
Qed.

(** The code computes [kv_value]. *)
Lemma new_value_ok old position bytes :
  0 <= position -> position + zlen bytes < 2 ^ 63 ->
  (if reaches_end old position (zlen bytes)
   then extend_value old position bytes else update_value old position bytes) =
  Ok (kv_value (Some old) position bytes).
Proof.
  intros Hp Hb. pose proof (zlen_nonneg bytes). unfold kv_value.
  destruct (reaches_end old position (zlen bytes)) eqn:E.
  - by apply extend_value_ok.
  - apply reaches_end_false in E; [|lia..]. apply string_write_in; lia.
Qed.

(** Under [kv_exact] the stored value is the byte store's. *)
Lemma kv_value_exact (old : option (list ascii)) position bytes :
  0 <= position -> position + zlen bytes < 2 ^ 63 ->
  kv_exact old position (zlen bytes) = true ->
  kv_value old position bytes = exact_value old position bytes.
Proof.
  intros Hp Hb. pose proof (zlen_nonneg bytes). unfold kv_exact, exact_value.
  destruct old as [o|]; simpl.
  2: { zcases; [|done]. subst. by rewrite splice_nil. }
  destruct (reaches_end o position (zlen bytes)) eqn:E; [|done].
  apply reaches_end_true in E; [|lia..].
  unfold extended, kept_prefix. destruct (Z.eqb_spec position 0) as [->|Hne].
  { intros _. simpl. by rewrite splice_whole by lia. }
  zcases; simpl; try done; intros _; try lia.
  rewrite slice_whole, splice_reaching by lia. rewrite resize_ge by (unfold zlen in *; lia).
  rewrite <- app_assoc. do 2 f_equal. unfold zlen in *. f_equal. lia.
Qed.

(** A write that starts inside the old value, or at its end, and reaches past
    it zeroes the byte in front of the data. *)
Lemma extended_byte_lost old position bytes :
  0 < position <= zlen old -> position < 2 ^ 63 ->
  extended old position bytes !! Z.to_nat (position - 1) = Some nul.
Proof.
  intros Hp Hw. unfold extended, kept_prefix. zcases; try lia. rewrite u64_small by lia.
  assert (length (slice 0 (position - 1) old) = Z.to_nat (position - 1)) as L.
  { pose proof (zlen_slice 0 (position - 1) old). unfold zlen in *. lia. }
  rewrite lookup_app_r by lia. rewrite L, lookup_app_l by (rewrite length_replicate; lia).
  apply lookup_replicate_2. lia.
Qed.

End values.
