(* ===== verification/IOClient.v ===== *)
(** * IOClient: the interface of the storage clients and its three instances

    The abstract class of src/symbios/io_clients/io.h is the record of
    operations [IOClient]; [ObjectStore] states what a client promises to the
    components above it (the metadata orchestrator and the server are proved
    against it), and the POSIX, Redis and MongoDB clients are instances.  The
    [World] is the state of all services; [client] is the dispatch of
    src/symbios/io_clients/io_factory.h. *)

From S2P Require Import Prelude CText Effects Types Services FileIO KeyValueIO KeyValueSpec.

(** ** The abstract class *)

Record IOClient (S : Type) := mkIOClient {
  Read : Data -> Data -> ST S Data;
  Write : Data -> Data -> ST S Data;
  Remove : Data -> ST S bool;
  Size : Data -> ST S Z;
}.
Arguments mkIOClient {S}.
Arguments Read {S}.
Arguments Write {S}.
Arguments Remove {S}.
Arguments Size {S}.

(** Linux transfers at most this many bytes per [read] or [write]. *)
Definition transfer_max : Z := 2147479552.

(** The bytes a read of [data_size] asks for: zero means the whole object. *)
Definition wanted (data_size : Z) (v : list ascii) : Z :=
  if data_size =? 0 then zlen v else data_size.

(** What a client promises: an object per key, whole-range reads, writes at
    the offsets [exact_at] allows, and no effect on other keys. *)
Class ObjectStore {S : Type} (c : IOClient S) := {
  up : S -> Prop;
  obj : S -> string -> option (list ascii);
  exact_at : option (list ascii) -> Z -> Z -> bool;
  reads_at : Z -> bool;
  exact_at_0 o n : exact_at o 0 n = true;
  reads_at_0 : reads_at 0 = true;
  read_object s src dst v n :
    up s -> obj s (id_ src) = Some v -> n = wanted (data_size_ src) v ->
    reads_at (position_ src) = true -> 0 <= position_ src ->
    (data_size_ src = 0 -> position_ src = 0) -> 0 <= n -> position_ src + n <= zlen v ->
    zlen v <= transfer_max -> position_ dst = 0 ->
    Read c src dst s =
      (Ok (set_data_size n (set_buffer (Some (Some <$> slice (position_ src) n v)) dst)), s);
  read_missing s src dst :
    up s -> obj s (id_ src) = None ->
    exists e, Read c src dst s = (Throw (ErrorException e), s);
  write_object s src dst cs bytes :
    up s -> buffer_ src = Some cs -> position_ src = 0 -> bytes <> [] ->
    data_size_ src = zlen bytes -> slice 0 (zlen bytes) cs = Some <$> bytes ->
    zlen bytes <= zlen cs -> zlen bytes <= transfer_max ->
    0 <= position_ dst -> position_ dst + zlen bytes < 2 ^ 62 ->
    exact_at (obj s (id_ dst)) (position_ dst) (zlen bytes) = true ->
    zlen (default [] (obj s (id_ dst))) <= transfer_max ->
    exists s', Write c src dst s = (Ok src, s') /\ up s' /\
      obj s' (id_ dst) = Some (exact_value (obj s (id_ dst)) (position_ dst) bytes) /\
      (forall k, k <> id_ dst -> obj s' k = obj s k);
  remove_object s src :
    up s -> exists s', Remove c src s = (Ok true, s') /\ up s' /\
      obj s' (id_ src) = None /\ (forall k, k <> id_ src -> obj s' k = obj s k);
  size_object s src :
    up s -> zlen (default [] (obj s (id_ src))) <= transfer_max ->
    Size c src s = (Ok (zlen (default [] (obj s (id_ src)))), s);
}.

(** ** POSIX files *)

Definition file_client : IOClient FS :=
  mkIOClient FileIOClient.Read FileIOClient.Write FileIOClient.Remove FileIOClient.Size.

Definition file_up (fs : FS) : Prop :=
  denied fs = ∅ /\ io_error fs = false /\ transfer_max <= rw_max fs.

Lemma file_up_ready fs path : file_up fs -> FileIOClient.ready fs path.
Proof.
  intros (Hd & He & Hm). unfold FileIOClient.ready, transfer_max in *. rewrite Hd.
  repeat split; [set_solver|done|lia].
Qed.

Lemma file_up_set_files fs f : file_up fs -> file_up (set_files f fs).
Proof. done. Qed.

#[global] Instance file_store : ObjectStore file_client.
Proof.
  refine {| up := file_up; obj := fun fs k => files fs !! k;
            exact_at := fun _ _ _ => true; reads_at := fun _ => true |}; try done.
  - intros fs src dst v n Hu Ho Hn _ Hp Hz Hn0 Hb Hv Hd.
    pose proof Hu as (_ & _ & Hmax). unfold transfer_max in *.
    assert (n = (if data_size_ src =? 0 then zlen v - position_ src else data_size_ src)).
    { rewrite Hn. unfold wanted. zcases; [|done]. rewrite Hz by done. lia. }
    pose proof (file_up_ready fs (id_ src) Hu).
    simpl. rewrite (FileIOClient.Read_ok src dst fs v n) by (done || lia). by rewrite Hd.
  - intros fs src dst _ Ho. eexists. by apply FileIOClient.Read_missing.
  - intros fs src dst cs bytes Hu Hb Hs Hne Hn Hc Hl Ht Hp Hw _ _.
    pose proof Hu as (_ & _ & Hmax). unfold transfer_max in *. pose proof (zlen_nonneg bytes).
    eexists. split; [|split; [|split]].
    + simpl. apply (FileIOClient.Write_ok src dst fs cs bytes); rewrite ?Hs, ?Hn, ?Z.sub_0_r;
        try done; try lia. by apply file_up_ready.
    + by apply file_up_set_files.
    + simpl. rewrite lookup_insert_eq. unfold exact_value, file_content.
      by destruct bytes.
    + intros k Hk. simpl. by rewrite lookup_insert_ne.
  - intros fs src Hu. pose proof Hu as (Hd & _). eexists. split; [done|].
    unfold posix_remove. rewrite decide_False by (rewrite Hd; set_solver).
    split; [by apply file_up_set_files|]. simpl.
    split; [apply lookup_delete_eq|]. intros. by apply lookup_delete_ne.
  - intros fs src _ _. simpl. unfold FileIOClient.Size. by destruct (files fs !! id_ src).
Defined.

(** ** Redis *)

Definition redis_client {R} `{RedisService R} : IOClient R :=
  mkIOClient RedisIOClient.Read RedisIOClient.Write RedisIOClient.Remove RedisIOClient.Size.

(** The bytes a write takes from the source's buffer. *)
Lemma source_bytes src cs (bytes : list ascii) :
  buffer_ src = Some cs -> position_ src = 0 -> data_size_ src = zlen bytes ->
  slice 0 (zlen bytes) cs = Some <$> bytes -> zlen bytes <= zlen cs ->
  mem_read (buffer_ src) (position_ src) (data_size_ src) ≫= defined = Ok bytes.
Proof.
  intros -> -> -> Hc Hl. pose proof (zlen_nonneg bytes). rewrite mem_read_in by lia.
  unfold mbind; cbn [outcome_bind]. by rewrite Hc, defined_chars.
Qed.

Lemma whole_bytes (v : list ascii) :
  mem_read (Some (Some <$> v)) 0 (zlen v) ≫= defined = Ok v.
Proof.
  pose proof (zlen_nonneg v). rewrite mem_read_in by (rewrite ?zlen_fmap; lia).
  rewrite slice_fmap, slice_whole. unfold mbind; cbn [outcome_bind]. apply defined_chars.
Qed.

#[global] Instance redis_store {R} `{RedisLaws R} : ObjectStore (redis_client (R := R)).
Proof.
  refine {| up := redis_up; obj := fun r k => redis_view r !! k;
            exact_at := kv_exact; reads_at := fun _ => true |}.
  - by intros [o|] n.
  - done.
  - intros r src dst v n Hu Ho Hn _ Hp Hz Hn0 Hb Hv Hd. simpl. unfold RedisIOClient.Read.
    rewrite redis_get_up, Ho by done. fold (wanted (data_size_ src) v). rewrite <- Hn.
    zcases; [lia|]. rewrite string_read_in by done. unfold mbind; cbn [outcome_bind].
    rewrite malloc_write; [done..|]. rewrite zlen_fmap. by apply zlen_slice.
  - intros r src dst Hu Ho. eexists. simpl. unfold RedisIOClient.Read.
    by rewrite redis_get_up, Ho.
  - intros r src dst cs bytes Hu Hb Hs Hne Hn Hc Hl Ht Hp Hw Hx Hold. simpl.
    unfold RedisIOClient.Write, transfer_max in *. rewrite redis_get_up by done.
    rewrite (source_bytes src cs bytes) by done. unfold mbind at 2; cbn [outcome_bind].
    assert (match redis_view r !! id_ dst with
            | Some old => if reaches_end old (position_ dst) (data_size_ src)
                          then extend_value old (position_ dst) bytes
                          else update_value old (position_ dst) bytes
            | None => Ok bytes
            end = Ok (exact_value (redis_view r !! id_ dst) (position_ dst) bytes)) as ->.
    { rewrite <- kv_value_exact by (done || lia). rewrite Hn.
      destruct (redis_view r !! id_ dst); [apply new_value_ok; lia|done]. }
    destruct (redis_set_up r (id_ dst) (exact_value (redis_view r !! id_ dst) (position_ dst) bytes) Hu)
      as (r' & Es & Hu' & Hv').
    exists r'. unfold mbind, st_bind, lift, RedisIOClient.put. rewrite Es, Hv'.
    split; [done|]. split; [done|]. split; [apply lookup_insert_eq|].
    intros. by apply lookup_insert_ne.
  - intros r src Hu. destruct (redis_del_up r (id_ src) Hu) as (r' & n & E & Hu' & Hv).
    exists r'. simpl. unfold RedisIOClient.Remove. rewrite E, Hv.
    split; [done|]. split; [done|]. split; [apply lookup_delete_eq|].
    intros. by apply lookup_delete_ne.
  - intros r src Hu _. simpl. unfold RedisIOClient.Size. rewrite redis_get_up by done.
    by destruct (redis_view r !! id_ src).
Defined.

(** ** MongoDB *)

Definition mongo_client {M} `{MongoService M} : IOClient M :=
  mkIOClient MongoIOClient.Read MongoIOClient.Write MongoIOClient.Remove MongoIOClient.Size.

Definition mongo_obj {M} `{MongoLaws M} (m : M) (k : string) : option (list ascii) :=
  snd <$> head (filter (fun d => d.1 = k) (mongo_docs m)).

Section mongo_facts.
Context {M : Type} `{MongoLaws M}.
Implicit Types m : M.

Lemma filter_other (l : list (string * list ascii)) k k' :
  k' <> k -> filter (fun d => d.1 = k') (filter (fun d => d.1 <> k) l) = filter (fun d => d.1 = k') l.
Proof.
  intros Hk. rewrite list_filter_filter_l; [done|]. by intros x -> .
Qed.

Lemma mongo_delete_key m k :
  mongo_up m -> exists m', MongoIOClient.delete_key k m = (Ok (), m') /\ mongo_up m' /\
    mongo_obj m' k = None /\ (forall k', k' <> k -> mongo_obj m' k' = mongo_obj m k').
Proof.
  intros Hu. destruct (mongo_delete_many_up m k Hu) as (m' & E & Hu' & Hd).
  exists m'. unfold MongoIOClient.delete_key. rewrite E. split; [done|]. split; [done|].
  unfold mongo_obj. rewrite Hd. split.
  - assert (filter (fun d => d.1 = k) (filter (fun d => d.1 <> k) (mongo_docs m)) = []) as ->; [|done].
    clear. induction (mongo_docs m) as [|d l IH]; [done|].
    rewrite (filter_cons (fun d => d.1 <> k)). case_decide; [|done].
    rewrite filter_cons. by rewrite decide_False.
  - intros k' Hk. by rewrite filter_other.
Qed.

Lemma mongo_insert_key m k v :
  mongo_up m -> mongo_obj m k = None ->
  exists m', MongoIOClient.insert_key k v m = (Ok (), m') /\ mongo_up m' /\
    mongo_obj m' k = Some v /\ (forall k', k' <> k -> mongo_obj m' k' = mongo_obj m k').
Proof.
  intros Hu Hn. destruct (mongo_insert_one_up m k v Hu) as (m' & E & Hu' & Hd).
  exists m'. unfold MongoIOClient.insert_key. rewrite E. split; [done|]. split; [done|].
  unfold mongo_obj in *. rewrite Hd.
  assert (filter (fun d => d.1 = k) (mongo_docs m) = []) as Hf.
  { by destruct (filter (fun d => d.1 = k) (mongo_docs m)). }
  split.
  - rewrite filter_app, Hf. simpl. by rewrite filter_cons_True.
  - intros k' Hk. rewrite filter_app. rewrite filter_cons_False by (simpl; congruence).
    by rewrite filter_nil, app_nil_r.
Qed.

Lemma mongo_read m src dst v n :
  mongo_up m -> mongo_obj m (id_ src) = Some v -> n = wanted (data_size_ src) v ->
  position_ src = 0 -> 0 <= n <= zlen v -> zlen v < 2 ^ 63 ->
  MongoIOClient.Read src dst m =
    (Ok (set_data_size n (set_buffer (Some (Some <$> slice 0 n v)) dst)), m).
Proof.
  intros Hu Ho Hn Hp Hb Hv. unfold MongoIOClient.Read. rewrite mongo_find_one_up by done.
  unfold mongo_obj in Ho. rewrite Ho. fold (wanted (data_size_ src) v). rewrite <- Hn, Hp.
  rewrite Z.sub_0_r. unwrap. rewrite string_read_in by lia. unfold mbind; cbn [outcome_bind].
  rewrite malloc_write; [done|lia|]. rewrite zlen_fmap. apply zlen_slice; lia.
Qed.

Lemma mongo_read_missing m src dst :
  mongo_up m -> mongo_obj m (id_ src) = None ->
  MongoIOClient.Read src dst m = (Throw (ErrorException READ_MONGODB_DATA_FAILED), m).
Proof.
  intros Hu Ho. unfold MongoIOClient.Read. rewrite mongo_find_one_up by done.
  unfold mongo_obj in Ho. by rewrite Ho.
Qed.

(** The value of [key] as the private read of [Write] and [Size] finds it. *)
Lemma mongo_read_whole m key v :
  mongo_up m -> mongo_obj m key = Some v -> zlen v < 2 ^ 63 ->
  MongoIOClient.Read (set_id key Data0) (set_id key Data0) m =
    (Ok (mkData key 0 (Some (Some <$> v)) (zlen v) 0), m).
Proof.
  intros Hu Ho Hv. pose proof (zlen_nonneg v).
  rewrite (mongo_read m _ _ v (zlen v)) by (done || lia). by rewrite slice_whole.
Qed.

End mongo_facts.

#[global] Instance mongo_store {M} `{MongoLaws M} : ObjectStore (mongo_client (M := M)).
Proof.
  refine {| up := mongo_up; obj := mongo_obj; exact_at := kv_exact;
            reads_at := fun p => p =? 0 |}.
  - by intros [o|] n.
  - done.
  - intros m src dst v n Hu Ho Hn Hp%Z.eqb_eq _ _ Hn0 Hb Hv Hd. simpl.
    unfold transfer_max in *. rewrite Hp. apply mongo_read; (done || lia).
  - intros m src dst Hu Ho. eexists. by apply mongo_read_missing.
  - intros m src dst cs bytes Hu Hb Hs Hne Hn Hc Hl Ht Hp Hw Hx Hold. simpl.
    unfold MongoIOClient.Write, transfer_max in *.
    pose proof (source_bytes src cs bytes Hb Hs Hn Hc Hl) as Hsrc.
    pose proof (kv_value_exact (mongo_obj m (id_ dst)) (position_ dst) bytes) as <-; [|done|lia|done].
    destruct (mongo_obj m (id_ dst)) as [old|] eqn:Ho; simpl in Hold.
    + pose proof (zlen_nonneg old).
      erewrite st_bind_Ok.
      2: { apply try_catch_Ok. erewrite st_bind_Ok; [done|]. apply mongo_read_whole; (done || lia). }
      cbn [buffer_ data_size_]. rewrite whole_bytes, Hsrc. unfold lift.
      destruct (mongo_delete_key m (id_ dst) Hu) as (m1 & E1 & U1 & O1 & F1).
      destruct (mongo_insert_key m1 (id_ dst) (kv_value (Some old) (position_ dst) bytes) U1 O1)
        as (m2 & E2 & U2 & O2 & F2).
      exists m2. assert (set_position 0 src = src) as Hsp by (destruct src; simpl in *; by subst).
      do 2 (erewrite st_bind_Ok by done). rewrite Hn, new_value_ok by lia.
      erewrite !st_bind_Ok by done. rewrite Hsp. repeat split; [done..|].
      intros k Hk. by rewrite F2, F1.
    + erewrite st_bind_Ok.
      2: { rewrite (try_catch_Throw _ _ _ _ (ErrorException READ_MONGODB_DATA_FAILED) m);
           [done| |done]. eapply st_bind_Throw. by apply mongo_read_missing. }
      rewrite Hsrc.
      destruct (mongo_insert_key m (id_ dst) bytes Hu Ho) as (m2 & E2 & U2 & O2 & F2).
      exists m2. unfold lift. erewrite !st_bind_Ok by done. done.
  - intros m src Hu. destruct (mongo_delete_key m (id_ src) Hu) as (m' & E & U & O & F).
    exists m'. simpl. unfold MongoIOClient.Remove. erewrite st_bind_Ok by done. done.
  - intros m src Hu Hold. simpl. unfold MongoIOClient.Size, transfer_max in *.
    destruct (mongo_obj m (id_ src)) as [v|] eqn:Ho; simpl in *.
    + apply try_catch_Ok. by erewrite st_bind_Ok by (apply mongo_read_whole; (done || lia)).
    + rewrite (try_catch_Throw _ _ _ _ (ErrorException READ_MONGODB_DATA_FAILED) m);
        [done| |done]. eapply st_bind_Throw. by apply mongo_read_missing.
Defined.
