(* ===== verification/StoreSpec.v ===== *)
(** * StoreSpec: written bytes are read back

    Proved once against the interface [ObjectStore], then for the three
    clients; and the write the key-value clients get wrong. *)

From S2P Require Import Prelude CText Effects Types Services FileIO KeyValueIO KeyValueSpec.
From S2P Require Import IOClient.

(** The source of a write: its buffer starts with the bytes. *)
Record writes (src : Data) (bytes : list ascii) : Prop := {
  wr_buffer : exists cs, buffer_ src = Some cs /\ slice 0 (zlen bytes) cs = Some <$> bytes /\
                zlen bytes <= zlen cs;
  wr_position : position_ src = 0;
  wr_size : data_size_ src = zlen bytes;
  wr_some : bytes <> [];
}.

(** A request for the [n] bytes at the position of [dst]. *)
Record asks (src dst : Data) (n : Z) : Prop := {
  as_id : id_ src = id_ dst;
  as_position : position_ src = position_ dst;
  as_size : data_size_ src = n;
}.

Definition filled (bytes : list ascii) (d : Data) : Data :=
  set_data_size (zlen bytes) (set_buffer (Some (Some <$> bytes)) d).

Section interface.
Context {S : Type} (c : IOClient S) `{!ObjectStore c}.

Lemma write_read s src dst bytes from into :
  up s -> writes src bytes -> 0 <= position_ dst ->
  zlen (default [] (obj s (id_ dst))) <= transfer_max -> position_ dst + zlen bytes <= transfer_max ->
  exact_at (obj s (id_ dst)) (position_ dst) (zlen bytes) = true ->
  reads_at (position_ dst) = true ->
  asks from dst (zlen bytes) -> position_ into = 0 ->
  exists s', Write c src dst s = (Ok src, s') /\
    Read c from into s' = (Ok (filled bytes into), s') /\
    forall k, k <> id_ dst -> obj s' k = obj s k.
Proof.
  intros Hu [(cs & Hb & Hc & Hl) Hp Hn Hne] Hd Hold Hfit Hx Hr [Hid Hpos Hsz] Hinto.
  pose proof (zlen_pos bytes Hne). unfold transfer_max in *.
  destruct (write_object s src dst cs bytes) as (s' & E & U & O & F);
    unfold transfer_max in *; try done; try lia.
  exists s'. split; [done|]. split; [|done].
  set (v := exact_value (obj s (id_ dst)) (position_ dst) bytes) in *.
  assert (zlen v = Z.max (zlen (default [] (obj s (id_ dst)))) (position_ dst + zlen bytes)) as Hv.
  { unfold v, exact_value. apply zlen_splice. lia. }
  rewrite (read_object s' from into v (zlen bytes)); unfold transfer_max in *; try done;
    rewrite ?Hid, ?Hpos, ?Hsz; try done; try lia.
  - unfold filled. do 5 f_equal. unfold v, exact_value. by rewrite slice_splice.
  - unfold wanted. by destruct (Z.eqb_spec (zlen bytes) 0); [lia|].
Qed.

End interface.

(** C10: bytes written to a POSIX file at any offset are read back. *)
Theorem file_write_read (fs : FS) src dst bytes from into :
  file_up fs -> writes src bytes -> 0 <= position_ dst ->
  zlen (default [] (files fs !! id_ dst)) <= transfer_max -> position_ dst + zlen bytes <= transfer_max ->
  asks from dst (zlen bytes) -> position_ into = 0 ->
  exists fs', FileIOClient.Write src dst fs = (Ok src, fs') /\
    FileIOClient.Read from into fs' = (Ok (filled bytes into), fs') /\
    forall k, k <> id_ dst -> files fs' !! k = files fs !! k.
Proof. intros. pose proof (write_read file_client fs src dst bytes from into) as P. cbn in P. by apply P. Qed.

(** Bytes written to a Redis object, at its start, past its end or strictly
    inside it, are read back. *)
Theorem redis_write_read {R} `{RedisLaws R} (r : R) src dst bytes from into :
  redis_up r -> writes src bytes -> 0 <= position_ dst ->
  zlen (default [] (redis_view r !! id_ dst)) <= transfer_max -> position_ dst + zlen bytes <= transfer_max ->
  kv_exact (redis_view r !! id_ dst) (position_ dst) (zlen bytes) = true ->
  asks from dst (zlen bytes) -> position_ into = 0 ->
  exists r', RedisIOClient.Write src dst r = (Ok src, r') /\
    RedisIOClient.Read from into r' = (Ok (filled bytes into), r') /\
    forall k, k <> id_ dst -> redis_view r' !! k = redis_view r !! k.
Proof. intros. pose proof (write_read redis_client r src dst bytes from into) as P. cbn in P. by apply P. Qed.

(** Bytes written at the start of a MongoDB object are read back. *)
Theorem mongo_write_read {M} `{MongoLaws M} (m : M) src dst bytes from into :
  mongo_up m -> writes src bytes -> position_ dst = 0 ->
  zlen (default [] (mongo_obj m (id_ dst))) <= transfer_max -> zlen bytes <= transfer_max ->
  asks from dst (zlen bytes) -> position_ into = 0 ->
  exists m', MongoIOClient.Write src dst m = (Ok src, m') /\
    MongoIOClient.Read from into m' = (Ok (filled bytes into), m') /\
    forall k, k <> id_ dst -> mongo_obj m' k = mongo_obj m k.
Proof.
  intros Hu Hw Hp Hold Hfit Ha Hi.
  pose proof (write_read mongo_client m src dst bytes from into) as P. cbn in P. rewrite Hp in P.
  apply P; try done; try lia. by destruct (mongo_obj m (id_ dst)).
Qed.

(** A Redis write that starts inside an object, or at its end, and reaches past
    it destroys the byte in front of the data. *)
Theorem redis_extension_loses_byte {R} `{RedisLaws R} (r : R) src dst bytes old :
  redis_up r -> writes src bytes -> redis_view r !! id_ dst = Some old ->
  0 < position_ dst <= zlen old -> zlen old <= position_ dst + zlen bytes <= transfer_max ->
  exists r' v, RedisIOClient.Write src dst r = (Ok src, r') /\
    redis_view r' !! id_ dst = Some v /\ v !! Z.to_nat (position_ dst - 1) = Some nul.
Proof.
  intros Hu [(cs & Hb & Hc & Hl) Hp Hn Hne] Ho Hpos Hfit. unfold transfer_max in *.
  pose proof (zlen_nonneg bytes). unfold RedisIOClient.Write. rewrite redis_get_up, Ho by done.
  rewrite (source_bytes src cs bytes) by done. unfold mbind at 2; cbn [outcome_bind]. rewrite Hn.
  assert (reaches_end old (position_ dst) (zlen bytes) = true) as Hr.
  { unfold reaches_end. rewrite u64_small by lia. zcases; try done. lia. }
  rewrite Hr, extend_value_ok by lia.
  destruct (redis_set_up r (id_ dst) (extended old (position_ dst) bytes) Hu) as (r' & Es & Hu' & Hv').
  exists r', (extended old (position_ dst) bytes). unfold mbind, st_bind, lift, RedisIOClient.put.
  rewrite Es, Hv', lookup_insert_eq. split; [done|]. split; [done|]. apply extended_byte_lost; lia.
Qed.
