(* ===== verification/World.v ===== *)
(** * World: the services together, and the client factory

    src/symbios/io_clients/io_factory.h.  [basket::Singleton] keeps one client
    per type, so the state is one file system, one Redis cluster and one
    MongoDB collection; [GetIOClient] picks by the type of the solution
    configured for a storage index. *)

From S2P Require Import Prelude CText Effects Types Services FileIO KeyValueIO KeyValueSpec.
From S2P Require Import IOClient.

Section world.
Context {R M : Type} `{RedisService R} `{MongoService M}.

Record World := mkWorld { w_fs : FS; w_redis : R; w_mongo : M }.

(** A computation on one service, run on the world. *)
Definition zoom {S A} (get : World -> S) (set : S -> World -> World) (m : ST S A) : ST World A :=
  fun w => let '(o, s) := m (get w) in (o, set s w).

Definition zoom_client {S} (get : World -> S) (set : S -> World -> World) (c : IOClient S)
    : IOClient World :=
  mkIOClient (fun a b => zoom get set (Read c a b)) (fun a b => zoom get set (Write c a b))
             (fun a => zoom get set (Remove c a)) (fun a => zoom get set (Size c a)).

Definition set_fs (s : FS) (w : World) : World := mkWorld s (w_redis w) (w_mongo w).
Definition set_redis (s : R) (w : World) : World := mkWorld (w_fs w) s (w_mongo w).
Definition set_mongo (s : M) (w : World) : World := mkWorld (w_fs w) (w_redis w) s.

(** The three singletons. *)
Definition client (ty : IOClientType) : IOClient World :=
  match ty with
  | FILE_IO => zoom_client w_fs set_fs file_client
  | REDIS_IO => zoom_client w_redis set_redis redis_client
  | MONGO_IO => zoom_client w_mongo set_mongo mongo_client
  end.

(** [IOFactory::GetIOClient]: a missing or null solution is dereferenced. *)
Definition GetIOClient (solutions : solution_map) (storage_index : Z) : outcome (IOClient World) :=
  match (index_solution storage_index solutions).1 with
  | Some s => Ok (client (io_client_type_ s))
  | None => Undefined NullDeref
  end.

(** The lookup of the [IOClient] constructor, src/symbios/io_clients/io.h. *)
Definition IOClient_solution (solutions : solution_map) (storage_index : Z)
    : outcome (option StorageSolution) :=
  match find_solution storage_index solutions with
  | Some s => Ok s
  | None => Throw (ErrorException INVALID_STORAGE_INDEX)
  end.

(** The constructor of [FileIOClient], src/symbios/io_clients/file_io.h. *)
Definition FileIOClient_ctor (path_exists : string -> bool) (solutions : solution_map)
    (storage_index : Z) : outcome unit :=
  s ← IOClient_solution solutions storage_index;
  match s with
  | None => Undefined NullDeref
  | Some s =>
      if path_exists (end_point_ s) then Ok ()
      else Throw (ErrorException FILE_PATH_NON_EXISTANCE)
  end.

End world.
Arguments World R M : clear implicits.

(** ** The promise of the clients on the world *)

Section world_laws.
Context {R M : Type} `{RedisLaws R} `{MongoLaws M}.
Implicit Types w : World R M.

Definition world_up w : Prop := up (c := file_client) (w_fs w) /\
  up (c := redis_client (R := R)) (w_redis w) /\ up (c := mongo_client (M := M)) (w_mongo w).

(** The object stored under a key in the store of a type. *)
Definition wobj w (ty : IOClientType) (k : string) : option (list ascii) :=
  match ty with
  | FILE_IO => obj (c := file_client) (w_fs w) k
  | REDIS_IO => obj (c := redis_client (R := R)) (w_redis w) k
  | MONGO_IO => obj (c := mongo_client (M := M)) (w_mongo w) k
  end.

Definition wexact (ty : IOClientType) : option (list ascii) -> Z -> Z -> bool :=
  match ty with
  | FILE_IO => exact_at (c := file_client)
  | REDIS_IO => exact_at (c := redis_client (R := R))
  | MONGO_IO => exact_at (c := mongo_client (M := M))
  end.

Definition wreads (ty : IOClientType) : Z -> bool :=
  match ty with
  | FILE_IO => reads_at (c := file_client)
  | REDIS_IO => reads_at (c := redis_client (R := R))
  | MONGO_IO => reads_at (c := mongo_client (M := M))
  end.

(** [w'] is [w] with the object [k] of the store [ty] replaced. *)
Definition updates w w' (ty : IOClientType) (k : string) (o : option (list ascii)) : Prop :=
  world_up w' /\ wobj w' ty k = o /\
  (forall ty' k', (ty', k') <> (ty, k) -> wobj w' ty' k' = wobj w ty' k').

(** Case analysis on the type of a client, down to the service's computation. *)
Ltac open_client ty :=
  destruct ty; cbn [client zoom_client Read Write Remove Size wobj wexact wreads] in *; unfold zoom.

Lemma wexact_0 ty o n : wexact ty o 0 n = true.
Proof. destruct ty; apply exact_at_0. Qed.

Lemma wreads_0 ty : wreads ty 0 = true.
Proof. destruct ty; apply reads_at_0. Qed.

Lemma world_read ty w src dst v n :
  world_up w -> wobj w ty (id_ src) = Some v -> n = wanted (data_size_ src) v ->
  wreads ty (position_ src) = true -> 0 <= position_ src ->
  (data_size_ src = 0 -> position_ src = 0) -> 0 <= n -> position_ src + n <= zlen v ->
  zlen v <= transfer_max -> position_ dst = 0 ->
  Read (client ty) src dst w =
    (Ok (set_data_size n (set_buffer (Some (Some <$> slice (position_ src) n v)) dst)), w).
Proof.
  intros (U1 & U2 & U3) Ho Hn Hr Hp Hz Hn0 Hb Hv Hd.
  open_client ty;
    [rewrite (read_object (c := file_client) _ src dst v n) by done
    |rewrite (read_object (c := redis_client (R := R)) _ src dst v n) by done
    |rewrite (read_object (c := mongo_client (M := M)) _ src dst v n) by done]; by destruct w.
Qed.

Lemma world_read_missing ty w src dst :
  world_up w -> wobj w ty (id_ src) = None ->
  exists e, Read (client ty) src dst w = (Throw (ErrorException e), w).
Proof.
  intros (U1 & U2 & U3) Ho. open_client ty.
  - destruct (read_missing (c := file_client) _ src dst U1 Ho) as (e & ->). exists e. by destruct w.
  - destruct (read_missing (c := redis_client (R := R)) _ src dst U2 Ho) as (e & ->). exists e. by destruct w.
  - destruct (read_missing (c := mongo_client (M := M)) _ src dst U3 Ho) as (e & ->). exists e. by destruct w.
Qed.

(** A store changed one object, the others did not change. *)
Ltac frame_world F :=
  split; [done|]; split; [done|]; split; [done|];
  intros [] k' Hk'; try done; apply F; congruence.

Lemma world_write ty w src dst cs bytes :
  world_up w -> buffer_ src = Some cs -> position_ src = 0 -> bytes <> [] ->
  data_size_ src = zlen bytes -> slice 0 (zlen bytes) cs = Some <$> bytes ->
  zlen bytes <= zlen cs -> zlen bytes <= transfer_max ->
  0 <= position_ dst -> position_ dst + zlen bytes < 2 ^ 62 ->
  wexact ty (wobj w ty (id_ dst)) (position_ dst) (zlen bytes) = true ->
  zlen (default [] (wobj w ty (id_ dst))) <= transfer_max ->
  exists w', Write (client ty) src dst w = (Ok src, w') /\
    updates w w' ty (id_ dst) (Some (exact_value (wobj w ty (id_ dst)) (position_ dst) bytes)).
Proof.
  intros (U1 & U2 & U3) Hb Hs Hne Hn Hc Hl Ht Hp Hw Hx Ho. unfold updates, world_up.
  open_client ty.
  - destruct (write_object (c := file_client) _ src dst cs bytes U1 Hb Hs Hne Hn Hc Hl Ht Hp Hw Hx Ho)
      as (s' & -> & U & E & F).
    exists (set_fs s' w). frame_world F.
  - destruct (write_object (c := redis_client (R := R)) _ src dst cs bytes U2 Hb Hs Hne Hn Hc Hl Ht Hp Hw Hx Ho)
      as (s' & -> & U & E & F).
    exists (set_redis s' w). frame_world F.
  - destruct (write_object (c := mongo_client (M := M)) _ src dst cs bytes U3 Hb Hs Hne Hn Hc Hl Ht Hp Hw Hx Ho)
      as (s' & -> & U & E & F).
    exists (set_mongo s' w). frame_world F.
Qed.

Lemma world_remove ty w src :
  world_up w -> exists w', Remove (client ty) src w = (Ok true, w') /\
    updates w w' ty (id_ src) None.
Proof.
  intros (U1 & U2 & U3). unfold updates, world_up. open_client ty.
  - destruct (remove_object (c := file_client) _ src U1) as (s' & -> & U & E & F).
    exists (set_fs s' w). frame_world F.
  - destruct (remove_object (c := redis_client (R := R)) _ src U2) as (s' & -> & U & E & F).
    exists (set_redis s' w). frame_world F.
  - destruct (remove_object (c := mongo_client (M := M)) _ src U3) as (s' & -> & U & E & F).
    exists (set_mongo s' w). frame_world F.
Qed.

Lemma world_size ty w src :
  world_up w -> zlen (default [] (wobj w ty (id_ src))) <= transfer_max ->
  Size (client ty) src w = (Ok (zlen (default [] (wobj w ty (id_ src)))), w).
Proof.
  intros (U1 & U2 & U3) Hl. open_client ty;
    [rewrite (size_object (c := file_client)) by done
    |rewrite (size_object (c := redis_client (R := R))) by done
    |rewrite (size_object (c := mongo_client (M := M))) by done]; by destruct w.
Qed.

Lemma GetIOClient_ok solutions i s :
  find_solution i solutions = Some (Some s) ->
  GetIOClient (R := R) (M := M) solutions i = Ok (client (io_client_type_ s)).
Proof. intros E. unfold GetIOClient. by rewrite (index_solution_present i solutions (Some s)). Qed.

End world_laws.
