(* ===== verification/Msgpack.v ===== *)
(** * Msgpack: packing metadata, include/symbios/common/data_structure.h

    The library (rpclib's msgpack) is a parameter: its object tree [mp] is the
    documented data model, [packb]/[unpackb] turn a tree into bytes and back,
    and the adaptor of [CharStruct] comes from basket.  The adaptors of [Data]
    and [Metadata] are the program's: [pack_Data], [convert_Data],
    [pack_Metadata], [convert_Metadata]. *)

From S2P Require Import Prelude CText Effects Types.

(** ** The library *)

#[local] Set Warnings "-register-all".

Inductive mp :=
| MBool (b : bool)
| MInt (z : Z)
| MStr (s : list ascii)
| MArr (l : list mp)
| MMap (l : list (mp * mp)).

Class Msgpack := {
  packb : mp -> list ascii;
  unpackb : list ascii -> option mp;   (* [None]: a parse error is thrown *)
  pack_CharStruct : string -> mp;
  convert_CharStruct : mp -> option string;
}.

(** The trees the library can represent: 64-bit integers. *)
Fixpoint mp_ok (o : mp) : bool :=
  match o with
  | MBool _ | MStr _ => true
  | MInt z => (- 2 ^ 63 <=? z) && (z <? 2 ^ 64)
  | MArr l => forallb mp_ok l
  | MMap l => forallb (fun e => mp_ok e.1 && mp_ok e.2) l
  end.

(** A bound on the packed size: a header per value and the text of strings. *)
Fixpoint mp_bytes (o : mp) : Z :=
  match o with
  | MBool _ | MInt _ => 96
  | MStr s => 96 + 2 * zlen s
  | MArr l => 96 + foldr (fun x a => mp_bytes x + a) 0 l
  | MMap l => 96 + foldr (fun e a => mp_bytes e.1 + mp_bytes e.2 + a) 0 l
  end.

(** Unpacking returns the packed object and ignores what follows it. *)
Class MsgpackLaws `{Msgpack} := {
  unpackb_packb o rest : mp_ok o = true -> unpackb (packb o ++ rest) = Some o;
  packb_nonempty o : packb o <> [];
  convert_pack_CharStruct s : convert_CharStruct (pack_CharStruct s) = Some s;
  pack_CharStruct_ok s : mp_ok (pack_CharStruct s) = true;
  packb_bytes o : mp_ok o = true -> zlen (packb o) <= mp_bytes o;
  pack_CharStruct_bytes s : mp_bytes (pack_CharStruct s) <= 1024 + 2 * zlen (chars s);
}.

(** ** Conversions of the basic types; a mismatch throws [type_error] *)

Definition type_error : exn := StdException "std::bad_cast".

Definition as_bool (o : mp) : outcome bool :=
  match o with MBool b => Ok b | _ => Throw type_error end.
Definition as_unsigned (w : Z) (o : mp) : outcome Z :=
  match o with
  | MInt z => if (0 <=? z) && (z <? 2 ^ w) then Ok z else Throw type_error
  | _ => Throw type_error
  end.
Definition as_int64 (o : mp) : outcome Z :=
  match o with
  | MInt z => if (- 2 ^ 63 <=? z) && (z <? 2 ^ 63) then Ok z else Throw type_error
  | _ => Throw type_error
  end.
Definition as_string (o : mp) : outcome (list ascii) :=
  match o with MStr s => Ok s | _ => Throw type_error end.

(** [o.via.array.ptr[i]], which checks neither the type nor the size. *)
Definition array_at (o : mp) (i : nat) : outcome mp :=
  match o with
  | MArr l => match l !! i with Some x => Ok x | None => Undefined OutOfBounds end
  | _ => Undefined OutOfBounds
  end.

(** ** The adaptors of [Data] and [Metadata] *)

Section adaptors.
Context `{Msgpack}.

Definition as_CharStruct (o : mp) : outcome string :=
  match convert_CharStruct o with Some s => Ok s | None => Throw type_error end.

(** A null buffer is packed as an empty string. *)
Definition pack_Data (d : Data) : outcome mp :=
  s ← match buffer_ d with
      | None => Ok []
      | Some _ => mem_read (buffer_ d) 0 (data_size_ d) ≫= defined
      end;
  Ok (MArr [pack_CharStruct (id_ d); MInt (position_ d); MStr s; MInt (data_size_ d);
            MInt (storage_index_ d)]).

(** [input] is the object converted into: an empty string leaves its buffer. *)
Definition convert_Data (input : Data) (o : mp) : outcome Data :=
  id ← array_at o 0 ≫= as_CharStruct;
  position ← array_at o 1 ≫= as_unsigned 64;
  data ← array_at o 2 ≫= as_string;
  data_size ← array_at o 3 ≫= as_unsigned 64;
  buf ← match data with
        | [] => Ok (buffer_ input)
        | _ => bytes ← string_read data 0 data_size;
               mem_write (malloc data_size) 0 bytes
        end;
  index ← array_at o 4 ≫= as_unsigned 16;
  Ok (mkData id position buf data_size index).

Fixpoint pack_links (l : list (Z * Data)) : outcome (list (mp * mp)) :=
  match l with
  | [] => Ok []
  | (k, d) :: l' => o ← pack_Data d; r ← pack_links l'; Ok ((MInt k, o) :: r)
  end.

Definition pack_Metadata (m : Metadata) : outcome mp :=
  links ← pack_links (map_to_list (links_ m));
  Ok (MArr [MBool (is_link_ m); MMap links; MInt (meta_storage_index_ m)]).

(** [std::unordered_map]'s conversion: pairs are emplaced one by one, the
    first of equal keys stays. *)
Fixpoint convert_links (l : list (mp * mp)) (acc : gmap Z Data) : outcome (gmap Z Data) :=
  match l with
  | [] => Ok acc
  | (k, o) :: l' =>
      key ← as_int64 k; d ← convert_Data Data0 o;
      convert_links l' (match acc !! key with Some _ => acc | None => <[key := d]> acc end)
  end.

Definition convert_Metadata (o : mp) : outcome Metadata :=
  is_link ← array_at o 0 ≫= as_bool;
  links ← array_at o 1 ≫= (fun x => match x with MMap l => convert_links l ∅ | _ => Throw type_error end);
  index ← array_at o 2 ≫= as_unsigned 16;
  Ok (mkMetadata is_link index links).

(** [clmdep_msgpack::pack (buffer, metadata)] and [unpack (...).as<Metadata> ()]. *)
Definition serialize (m : Metadata) : outcome (list ascii) := o ← pack_Metadata m; Ok (packb o).
Definition deserialize (s : list ascii) : outcome Metadata :=
  match unpackb s with
  | Some o => convert_Metadata o
  | None => Throw (StdException "msgpack::unpack_error")
  end.

(** [object_with_zone]: the tree itself; of [Data] also whether the buffer of the
    object it was given is freed. *)
Definition zone_Data (d : Data) : outcome (mp * bool) :=
  '(s, freed) ← match buffer_ d with
                | None => Ok ([], false)
                | Some _ => s ← mem_read (buffer_ d) 0 (data_size_ d) ≫= defined; Ok (s, true)
                end;
  Ok (MArr [pack_CharStruct (id_ d); MInt (position_ d); MStr s; MInt (data_size_ d);
            MInt (storage_index_ d)], freed).

Fixpoint zone_links (l : list (Z * Data)) : outcome (list (mp * mp) * bool) :=
  match l with
  | [] => Ok ([], false)
  | (k, d) :: l' =>
      '(o, freed) ← zone_Data d; '(r, freed') ← zone_links l'; Ok ((MInt k, o) :: r, freed || freed')
  end.

Definition zone_Metadata (m : Metadata) : outcome (mp * bool) :=
  '(links, freed) ← zone_links (map_to_list (links_ m));
  Ok (MArr [MBool (is_link_ m); MMap links; MInt (meta_storage_index_ m)], freed).

(** The trees are those of [pack]; what differs is that a buffer is freed under its
    owner. *)
Lemma zone_Data_packs d :
  zone_Data d = (o ← pack_Data d; Ok (o, bool_decide (is_Some (buffer_ d)))).
Proof.
  unfold zone_Data, pack_Data. destruct (buffer_ d) as [cs|]; [|done].
  by destruct (mem_read (Some cs) 0 (data_size_ d) ≫= defined).
Qed.

Lemma zone_links_packs l :
  zone_links l = (r ← pack_links l; Ok (r, existsb (fun e => bool_decide (is_Some (buffer_ e.2))) l)).
Proof.
  induction l as [|[k d] l IH]; [done|]. cbn [zone_links pack_links existsb snd]. rewrite zone_Data_packs, IH.
  destruct (pack_Data d) as [o| | |]; [|done..]. by destruct (pack_links l) as [r| | |].
Qed.

Lemma zone_Metadata_packs m :
  zone_Metadata m = (o ← pack_Metadata m;
    Ok (o, existsb (fun e => bool_decide (is_Some (buffer_ e.2))) (map_to_list (links_ m)))).
Proof.
  unfold zone_Metadata, pack_Metadata. rewrite zone_links_packs. by destruct (pack_links _) as [r| | |].
Qed.

End adaptors.

(** ** Round trip *)

(** What the orchestrator packs: no buffers, fields in range. *)
Definition link_ok (d : Data) : Prop := buffer_ d = None /\ Data_wf d.
Definition Metadata_ok (m : Metadata) : Prop :=
  is_u16 (meta_storage_index_ m) /\
  map_Forall (fun k d => (- 2 ^ 63 <= k < 2 ^ 63) /\ link_ok d) (links_ m).

Section roundtrip.
Context `{MsgpackLaws}.

Lemma as_unsigned_ok w z : 0 <= z < 2 ^ w -> as_unsigned w (MInt z) = Ok z.
Proof. intros. unfold as_unsigned. by zcases; simpl; try lia. Qed.

Lemma pack_Data_ok d :
  link_ok d -> exists o, pack_Data d = Ok o /\ mp_ok o = true /\ convert_Data Data0 o = Ok d.
Proof.
  intros [Hb (Hp & Hs & Hi)]. unfold is_u64, is_u16 in *. unfold pack_Data. rewrite Hb.
  eexists. split; [done|]. split.
  { simpl. rewrite pack_CharStruct_ok. zcases; simpl; lia. }
  unfold convert_Data, as_CharStruct. cbn [array_at lookup list_lookup].
  unfold mbind; cbn [outcome_bind]. rewrite convert_pack_CharStruct. cbn [outcome_bind].
  rewrite (as_unsigned_ok 64 (position_ d)) by lia. cbn [outcome_bind as_string].
  rewrite (as_unsigned_ok 64 (data_size_ d)) by lia. cbn [outcome_bind].
  rewrite (as_unsigned_ok 16 (storage_index_ d)) by lia. cbn [outcome_bind].
  destruct d; simpl in *. by subst.
Qed.

Lemma convert_links_ok l acc :
  Forall (fun e => (- 2 ^ 63 <= e.1 < 2 ^ 63) /\ link_ok e.2) l ->
  NoDup l.*1 -> (forall k, k ∈ l.*1 -> acc !! k = None) ->
  exists r, pack_links l = Ok r /\ forallb (fun e => mp_ok e.1 && mp_ok e.2) r = true /\
    convert_links r acc = Ok (list_to_map l ∪ acc).
Proof.
  revert acc. induction l as [|[k d] l IH]; intros acc Hf Hn Ha.
  { exists []. simpl. by rewrite (left_id_L ∅ (∪)). }
  apply Forall_cons in Hf as [[Hk Hd] Hf]. apply NoDup_cons in Hn as [Hkn Hn].
  destruct (pack_Data_ok d Hd) as (o & Ep & Eo & Ec).
  destruct (IH (<[k := d]> acc) Hf Hn) as (r & Er & Erok & Erc).
  { intros k' Hk'. rewrite lookup_insert_ne by (intros ->; done). apply Ha. by right. }
  exists ((MInt k, o) :: r). cbn [pack_links]. rewrite Ep, Er. unfold mbind; cbn [outcome_bind].
  split; [done|]. split.
  { cbn [forallb fst snd mp_ok]. rewrite Eo, Erok. simpl in Hk. zcases; simpl; lia. }
  cbn [convert_links]. unfold mbind, as_int64. simpl in Hk.
  assert ((- 2 ^ 63 <=? k) && (k <? 2 ^ 63) = true) as -> by (zcases; simpl; lia).
  cbn [outcome_bind]. rewrite Ec. cbn [outcome_bind].
  rewrite (Ha k) by (by left). unfold mbind in Erc. rewrite Erc. f_equal. cbn [list_to_map foldr].
  rewrite <- insert_union_r; [by rewrite insert_union_l|].
  by apply not_elem_of_list_to_map_1.
Qed.

(** Unpacking what was packed gives the metadata back, whatever follows. *)
Lemma deserialize_serialize m :
  Metadata_ok m -> exists s, serialize m = Ok s /\ s <> [] /\
    (forall rest, deserialize (s ++ rest) = Ok m).
Proof.
  intros [Hi Hl].
  destruct (convert_links_ok (map_to_list (links_ m)) ∅) as (r & Er & Eok & Ec).
  - apply Forall_forall. intros [k d] Hin. apply elem_of_map_to_list in Hin. by apply (Hl k d).
  - apply NoDup_fst_map_to_list.
  - intros. apply lookup_empty.
  - unfold serialize, pack_Metadata. rewrite Er. unfold mbind; cbn [outcome_bind].
    eexists. split; [done|]. split; [apply packb_nonempty|]. intros rest.
    unfold deserialize. rewrite unpackb_packb.
    2: { cbn [mp_ok forallb]. rewrite Eok. unfold is_u16 in Hi. zcases; simpl; lia. }
    unfold convert_Metadata. cbn [array_at lookup list_lookup]. unfold mbind; cbn [outcome_bind as_bool].
    rewrite Ec. cbn [outcome_bind]. unfold is_u16 in Hi. rewrite as_unsigned_ok by lia. cbn [outcome_bind].
    rewrite (right_id_L ∅ (∪)), list_to_map_to_list. by destruct m.
Qed.

(** The packed size of metadata with one link. *)
Lemma serialize_bytes m k d s :
  links_ m = {[ k := d ]} -> Metadata_ok m -> serialize m = Ok s ->
  zlen s <= 4096 + 2 * zlen (chars (id_ d)).
Proof.
  intros Hl [Hi Hf]. rewrite Hl in Hf. apply map_Forall_singleton in Hf as [Hk Hd].
  destruct (pack_Data_ok d Hd) as (o & Ep & Eo & _). pose proof Hd as [Hb _].
  unfold serialize, pack_Metadata. rewrite Hl, map_to_list_singleton. cbn [pack_links].
  rewrite Ep. unfold mbind; cbn [outcome_bind]. intros [= <-].
  etrans; [apply packb_bytes; simpl; rewrite Eo; unfold is_u16 in Hi; zcases; simpl; lia|].
  unfold pack_Data in Ep. rewrite Hb in Ep. injection Ep as <-.
  simpl. pose proof (pack_CharStruct_bytes (id_ d)). unfold zlen at 1. simpl. lia.
Qed.

(** The packed size of metadata whose links have names of at most [L] characters. *)
Lemma pack_links_bytes L l r :
  0 <= L -> pack_links l = Ok r ->
  Forall (fun e => link_ok e.2 /\ zlen (chars (id_ e.2)) <= L) l ->
  foldr (fun e a => mp_bytes e.1 + mp_bytes e.2 + a) 0 r <= zlen l * (1600 + 2 * L).
Proof.
  intros HL. revert r. induction l as [|[k d] l IH]; intros r Hr Hl; [by injection Hr as <-|].
  apply Forall_cons in Hl as [[Hd HdL] Hl]. cbn [fst snd] in *. destruct (pack_Data_ok d Hd) as (o & Ep & _).
  cbn [pack_links] in Hr. rewrite Ep in Hr. apply outcome_bind_inv in Hr as (? & [= <-] & Hr).
  apply outcome_bind_inv in Hr as (r' & Er & [= <-]). specialize (IH r' Er Hl).
  unfold pack_Data in Ep. rewrite (proj1 Hd) in Ep. injection Ep as <-. rewrite zlen_cons.
  cbn [foldr fst snd mp_bytes]. pose proof (pack_CharStruct_bytes (id_ d)). change (zlen (@nil ascii)) with 0. lia.
Qed.

Lemma serialize_size L m s :
  0 <= L -> Metadata_ok m -> (forall k d, links_ m !! k = Some d -> zlen (chars (id_ d)) <= L) ->
  serialize m = Ok s -> zlen s <= 512 + Z.of_nat (size (links_ m)) * (1600 + 2 * L).
Proof.
  intros HL [Hi Hl] Hn. unfold serialize, pack_Metadata.
  destruct (convert_links_ok (map_to_list (links_ m)) ∅) as (r & Er & Eok & _).
  { apply Forall_forall. intros [k d] Hin. apply elem_of_map_to_list in Hin. by apply (Hl k d). }
  { apply NoDup_fst_map_to_list. }
  { intros. apply lookup_empty. }
  rewrite Er. unfold mbind; cbn [outcome_bind]. intros [= <-].
  etrans; [apply packb_bytes|].
  { cbn [mp_ok forallb]. rewrite Eok. unfold is_u16 in Hi. zcases; simpl; lia. }
  pose proof (pack_links_bytes L (map_to_list (links_ m)) r HL Er) as Hb.
  unfold zlen in Hb. rewrite length_map_to_list in Hb. cbn [mp_bytes foldr].
  enough (foldr (fun (e : mp * mp) a => mp_bytes e.1 + mp_bytes e.2 + a) 0 r <=
          Z.of_nat (size (links_ m)) * (1600 + 2 * L)) by lia.
  apply Hb. apply Forall_forall. intros [k d] Hin. apply elem_of_map_to_list in Hin.
  split; [by apply (Hl k d)|by apply (Hn k)].
Qed.

(** C11: metadata survive being packed and unpacked, whatever follows them in the
    buffer. *)
Theorem metadata_roundtrip m :
  Metadata_ok m -> exists s, serialize m = Ok s /\ forall rest, deserialize (s ++ rest) = Ok m.
Proof. intros Hm. destruct (deserialize_serialize m Hm) as (s & E & _ & D). by exists s. Qed.

End roundtrip.

(** ** A reference codec

    A tagged text encoding that satisfies [MsgpackLaws], so that the laws can
    hold; fuel twice the length of the input is enough to decode it. *)

Module Codec.

#[local] Open Scope char_scope.

Fixpoint enc (o : mp) : list ascii :=
  match o with
  | MBool b => ["b"; if b then "1" else "0"]
  | MInt z => "i" :: dec z ++ [";"]
  | MStr s => "s" :: dec (zlen s) ++ ";" :: s
  | MArr l => "a" :: mjoin (enc <$> l) ++ ["e"]
  | MMap l => "m" :: mjoin ((fun e => enc e.1 ++ enc e.2) <$> l) ++ ["e"]
  end.

Fixpoint pair_up (l : list mp) : list (mp * mp) :=
  match l with
  | k :: v :: l' => (k, v) :: pair_up l'
  | _ => []
  end.

Fixpoint dcd (fuel : nat) (l : list ascii) : option (mp * list ascii) :=
  match fuel with
  | O => None
  | S f =>
      match l with
      | "b" :: c :: r => Some (MBool (bool_decide (c = "1")), r)
      | "i" :: r => let '(tok, r') := span_to ";" r in Some (MInt (strtol10 tok), drop 1 r')
      | "s" :: r =>
          let '(tok, r') := span_to ";" r in
          let n := Z.to_nat (strtol10 tok) in Some (MStr (take n (drop 1 r')), drop n (drop 1 r'))
      | "a" :: r => '(xs, r') ← dcd_many f r; Some (MArr xs, r')
      | "m" :: r => '(xs, r') ← dcd_many f r; Some (MMap (pair_up xs), r')
      | _ => None
      end
  end
with dcd_many (fuel : nat) (l : list ascii) : option (list mp * list ascii) :=
  match fuel with
  | O => None
  | S f =>
      match l with
      | "e" :: r => Some ([], r)
      | _ => '(x, r) ← dcd f l; '(xs, r') ← dcd_many f r; Some (x :: xs, r')
      end
  end.

Fixpoint weight (o : mp) : nat :=
  match o with
  | MBool _ | MInt _ | MStr _ => 1
  | MArr l => S (foldr (fun x a => S (weight x + a)) 1 l)
  | MMap l => S (foldr (fun e a => S (S (weight e.1 + weight e.2 + a))) 1 l)
  end%nat.

Definition wlist (l : list mp) : nat := foldr (fun x a => S (weight x + a)) 1%nat l.
Definition flat (l : list (mp * mp)) : list mp := mjoin ((fun e => [e.1; e.2]) <$> l).

Lemma flat_cons k v l : flat ((k, v) :: l) = k :: v :: flat l.
Proof. done. Qed.

Lemma wlist_flat l :
  wlist (flat l) = foldr (fun e a => S (S (weight e.1 + weight e.2 + a))) 1%nat l.
Proof.
  unfold wlist. induction l as [|[k v] l IH]; [done|].
  rewrite flat_cons. cbn [foldr fst snd]. rewrite IH. lia.
Qed.

Lemma enc_flat l : mjoin ((fun e : mp * mp => enc e.1 ++ enc e.2) <$> l) = mjoin (enc <$> flat l).
Proof.
  induction l as [|[k v] l IH]; [done|]. rewrite flat_cons, !fmap_cons.
  transitivity ((enc k ++ enc v) ++ mjoin (enc <$> flat l)); [by rewrite <- IH|].
  by rewrite <- app_assoc.
Qed.

Lemma pair_up_flat l : pair_up (flat l) = l.
Proof. induction l as [|[k v] l IH]; [done|]. rewrite flat_cons. cbn [pair_up]. by rewrite IH. Qed.

Lemma int_token z rest : span_to ";" (dec z ++ ";" :: rest) = (dec z, ";" :: rest).
Proof. apply span_to_app. by apply dec_notin. Qed.

Lemma dcd_enc n :
  (forall o rest, (weight o <= n)%nat -> dcd n (enc o ++ rest) = Some (o, rest)) /\
  (forall l rest, (wlist l <= n)%nat ->
     dcd_many n (mjoin (enc <$> l) ++ "e" :: rest) = Some (l, rest)).
Proof.
  induction n as [|n [IH1 IH2]]; split.
  - intros o rest Hw. destruct o; simpl in Hw; lia.
  - intros [|o l] rest Hw; unfold wlist in Hw; simpl in Hw; lia.
  - intros [b|z|s|l|l] rest Hw; cbn [enc app dcd].
    + by destruct b.
    + rewrite <- app_assoc. cbn [app]. rewrite int_token.
      by rewrite <- (app_nil_r (dec z)), strtol10_dec.
    + rewrite <- app_assoc. cbn [app]. rewrite int_token.
      rewrite <- (app_nil_r (dec _)), strtol10_dec by done. cbn [drop].
      rewrite drop_0, zlen_to_nat, take_app_length, drop_app_length. done.
    + rewrite <- app_assoc. cbn [app]. rewrite IH2 by (simpl in Hw; unfold wlist; lia). done.
    + rewrite <- app_assoc. cbn [app]. rewrite enc_flat, IH2.
      * simpl. by rewrite pair_up_flat.
      * rewrite wlist_flat. simpl in Hw. lia.
  - intros [|o l] rest Hw; [done|]. unfold wlist in Hw; cbn [foldr] in Hw.
    assert (dcd n (enc o ++ mjoin (enc <$> l) ++ "e" :: rest) =
            Some (o, mjoin (enc <$> l) ++ "e" :: rest)) as E1 by (apply IH1; lia).
    assert (dcd_many n (mjoin (enc <$> l) ++ "e" :: rest) = Some (l, rest)) as E2
      by (apply IH2; unfold wlist; lia).
    change (mjoin (enc <$> o :: l)) with (enc o ++ mjoin (enc <$> l)).
    rewrite <- app_assoc. destruct o; cbn [enc app] in E1 |- *; cbn [dcd_many]; rewrite E1;
      simpl; by rewrite E2.
Qed.

Lemma weight_enc o : (S (weight o) <= 2 * length (enc o))%nat.
Proof.
  assert (forall n o, (weight o <= n)%nat -> (S (weight o) <= 2 * length (enc o))%nat) as G.
  2: { by apply (G (weight o)). }
  clear o. intros n. induction n as [|n IH]; intros o Hw; [destruct o; simpl in Hw; lia|].
  assert (forall l, (wlist l <= n)%nat -> (wlist l <= 1 + 2 * length (mjoin (enc <$> l)))%nat) as L.
  { induction l as [|x l IHl]; intros Hl; [simpl; lia|]. unfold wlist in *. cbn [foldr] in Hl |- *.
    change (mjoin (enc <$> x :: l)) with (enc x ++ mjoin (enc <$> l)). rewrite length_app.
    pose proof (IH x ltac:(lia)). pose proof (IHl ltac:(lia)). lia. }
  destruct o as [b|z|s|l|l]; cbn [enc weight length].
  - lia.
  - rewrite length_app. simpl. lia.
  - rewrite length_app. simpl. lia.
  - simpl in Hw. rewrite length_app. pose proof (L l ltac:(unfold wlist; lia)) as E.
    unfold wlist in E. simpl. lia.
  - simpl in Hw. rewrite <- wlist_flat in Hw |- *. rewrite enc_flat, length_app.
    pose proof (L (flat l) ltac:(lia)). simpl. lia.
Qed.

Lemma zlen_enc o : mp_ok o = true -> zlen (enc o) <= mp_bytes o.
Proof.
  assert (forall n o, (weight o <= n)%nat -> mp_ok o = true -> zlen (enc o) <= mp_bytes o) as G.
  2: { by apply (G (weight o)). }
  clear o. intros n. induction n as [|n IH]; intros o Hw; [destruct o; simpl in Hw; lia|].
  assert (forall l, (wlist l <= n)%nat -> forallb mp_ok l = true ->
            zlen (mjoin (enc <$> l)) <= foldr (fun x a => mp_bytes x + a) 0 l) as L.
  { induction l as [|x l IHl]; intros Hl; [done|]. unfold wlist in Hl. cbn [foldr forallb] in Hl |- *.
    intros [Hx Hl']%andb_true_iff.
    change (mjoin (enc <$> x :: l)) with (enc x ++ mjoin (enc <$> l)). rewrite zlen_app.
    pose proof (IH x ltac:(lia) Hx). pose proof (IHl ltac:(unfold wlist; lia) Hl'). lia. }
  destruct o as [b|z|s|l|l]; cbn [enc mp_bytes mp_ok]; intros Ho.
  - unfold zlen; simpl; lia.
  - rewrite zlen_cons, zlen_app, zlen_cons, zlen_nil. pose proof (zlen_dec z) as Hd.
    assert (Z.log2 (Z.abs z) <= 64) by (apply (Z.log2_le_mono _ (2 ^ 64)); zcases_in Ho; lia). lia.
  - rewrite zlen_cons, zlen_app, zlen_cons. pose proof (zlen_dec (zlen s)).
    pose proof (zlen_nonneg s). rewrite Z.abs_eq in * by lia.
    pose proof (Z.log2_le_lin (zlen s)). lia.
  - simpl in Hw. rewrite zlen_cons, zlen_app, zlen_cons, zlen_nil.
    pose proof (L l ltac:(unfold wlist; lia) Ho). lia.
  - simpl in Hw. rewrite <- wlist_flat in Hw. rewrite enc_flat, zlen_cons, zlen_app, zlen_cons, zlen_nil.
    assert (forallb mp_ok (flat l) = true /\
            foldr (fun x a => mp_bytes x + a) 0 (flat l) =
            foldr (fun e a => mp_bytes e.1 + mp_bytes e.2 + a) 0 l) as [Hf <-].
    { clear - Ho. induction l as [|[k v] l IHl]; [done|]. rewrite flat_cons. cbn [forallb foldr fst snd] in *.
      apply andb_true_iff in Ho as [Hkv Ho]. apply andb_true_iff in Hkv as [-> ->].
      destruct (IHl Ho) as [-> ->]. split; [done|lia]. }
    pose proof (L (flat l) ltac:(lia) Hf). lia.
Qed.

#[export] Instance codec : Msgpack := {
  packb := enc;
  unpackb s := fst <$> dcd (2 * length s) s;
  pack_CharStruct s := MStr (chars s);
  convert_CharStruct o := match o with MStr s => Some (of_chars s) | _ => None end;
}.

#[export] Instance codec_laws : MsgpackLaws.
Proof.
  constructor.
  - intros o rest _. simpl. rewrite (proj1 (dcd_enc _)); [done|].
    rewrite length_app. pose proof (weight_enc o). lia.
  - by intros [].
  - intros s. simpl. by rewrite of_chars_chars.
  - done.
  - apply zlen_enc.
  - intros s. simpl. pose proof (zlen_nonneg (chars s)). lia.
Qed.

End Codec.
