(* ===== verification/Config.v ===== *)
(** * Config: the configuration manager,
    include/symbios/common/configuration_manager.h

    The parsed JSON document (rapidjson) is data; [assert] aborts the process.
    [getenv] is the environment of the process, [create_directories] the
    function of boost.  The overloads of [config] are [config_u16],
    [config_u64], [config_string], [config_CharStruct], [load_storage_solutions]
    and [load_policy]; [CountServers] reads a server list.  [BasketConf] holds
    the settings of [BASKET_CONF] that the program assigns or reads.  The map of the storage solutions is
    the list of its entries in iteration order. *)

From S2P Require Import Prelude CText Effects Types.

Record Conf := mkConf {
  SERVER_LISTS : string;
  CLIENT_LISTS : string;
  SYMBIOS_PORT : Z;
  SERVER_RPC_THREADS : Z;
  SERVER_DIR : string;
  CONFIGURATION_FILE : string;
  SERVER_COUNT : Z;
  RANDOM_SEED : Z;
  MAX_OBJ_SIZE : Z;
  STORAGE_SOLUTIONS : solution_map;
  DATA_DISTRIBUTION_POLICY : DataDistributionPolicy;
}.

(** The constructor. *)
Definition Conf0 : Conf := mkConf
  "/home/user/symbios/conf/server_lists/single_node_symbios_server"
  "/home/user/symbios/conf/server_lists/single_node_symbios_client"
  8000 4 "/dev/shm/hari/single_node_symbios_server"
  "/home/user/symbios/conf/base_symbios.conf" 1 100 (2 * 1024 * 1024)
  [(0, Some (FileSS "./")); (1, Some (RedisSS "127.0.0.1" "6379"));
   (2, Some (MongoSS "mongodb://localhost:27017" "mydb" "test"))]
  RANDOM_POLICY.

Definition set_solutions (s : solution_map) (c : Conf) : Conf :=
  mkConf (SERVER_LISTS c) (CLIENT_LISTS c) (SYMBIOS_PORT c) (SERVER_RPC_THREADS c) (SERVER_DIR c)
    (CONFIGURATION_FILE c) (SERVER_COUNT c) (RANDOM_SEED c) (MAX_OBJ_SIZE c) s
    (DATA_DISTRIBUTION_POLICY c).

Definition set_policy (p : DataDistributionPolicy) (c : Conf) : Conf :=
  mkConf (SERVER_LISTS c) (CLIENT_LISTS c) (SYMBIOS_PORT c) (SERVER_RPC_THREADS c) (SERVER_DIR c)
    (CONFIGURATION_FILE c) (SERVER_COUNT c) (RANDOM_SEED c) (MAX_OBJ_SIZE c)
    (STORAGE_SOLUTIONS c) p.

Definition set_configuration_file (file : string) (c : Conf) : Conf :=
  mkConf (SERVER_LISTS c) (CLIENT_LISTS c) (SYMBIOS_PORT c) (SERVER_RPC_THREADS c) (SERVER_DIR c)
    file (SERVER_COUNT c) (RANDOM_SEED c) (MAX_OBJ_SIZE c) (STORAGE_SOLUTIONS c) (DATA_DISTRIBUTION_POLICY c).

(** ** Expansion of environment variables *)

Section environment.
Context (getenv : list ascii -> option (list ascii)).

(** The characters ['.'] matches up to the first closing brace. *)
Fixpoint to_brace (l : list ascii) : option (list ascii * list ascii) :=
  match l with
  | [] => None
  | c :: l' =>
      if decide (c = "}"%char) then Some ([], l')
      else if decide (c = "010"%char \/ c = "013"%char) then None
      else '(v, rest) ← to_brace l'; Some (c :: v, rest)
  end.

(** [regex_search] for a dollar and a braced name: the text before the match,
    the name between the braces, the text after it. *)
Fixpoint regex_search (l : list ascii) : option (list ascii * list ascii * list ascii) :=
  match l with
  | [] => None
  | c :: l' =>
      match (if decide (c = "$"%char)
             then match l' with "{"%char :: l'' => to_brace l'' | _ => None end
             else None) with
      | Some (v, rest) => Some ([], v, rest)
      | None => '(pre, v, rest) ← regex_search l'; Some (c :: pre, v, rest)
      end
  end.

(** The text of a match from its name; both sub-matches are this text. *)
Definition match_text (v : list ascii) : list ascii := chars "${" ++ v ++ ["}"%char].

Definition sub_match (num : Z) (v : list ascii) : list ascii :=
  if num <? 2 then match_text v else [].

(** [match_results::format]: what the replacement string stands for. *)
Fixpoint format (pre v rest fmt : list ascii) : list ascii :=
  match fmt with
  | [] => []
  | "$"%char :: fmt1 =>
      match fmt1 with
      | [] => ["$"%char]
      | c :: fmt2 =>
          if decide (c = "$"%char) then "$"%char :: format pre v rest fmt2
          else if decide (c = "&"%char) then match_text v ++ format pre v rest fmt2
          else if decide (c = "`"%char) then pre ++ format pre v rest fmt2
          else if decide (c = "'"%char) then rest ++ format pre v rest fmt2
          else match digit_val c with
               | None => "$"%char :: format pre v rest fmt1
               | Some n =>
                   match fmt2 with
                   | [] => sub_match n v
                   | c2 :: fmt3 =>
                       match digit_val c2 with
                       | Some n2 => sub_match (n * 10 + n2) v ++ format pre v rest fmt3
                       | None => sub_match n v ++ format pre v rest fmt2
                       end
                   end
               end
      end
  | c :: fmt1 => c :: format pre v rest fmt1
  end.

(** [regex_replace]: every match, from left to right; each match is at least
    three characters, so the length of the text is enough fuel. *)
Fixpoint regex_replace (fuel : nat) (l fmt : list ascii) : list ascii :=
  match fuel with
  | O => l
  | S fuel =>
      match regex_search l with
      | None => l
      | Some (pre, v, rest) => pre ++ format pre v rest fmt ++ regex_replace fuel rest fmt
      end
  end.

(** The set of names holds the one name of the first match. *)
Definition replaceEnvVariable (temp_variable : list ascii) : outcome (list ascii) :=
  match regex_search temp_variable with
  | None => Ok temp_variable
  | Some (_, v, _) =>
      match getenv v with
      | None => Throw (make_ErrorException UNDEFINED_ENV_VARIABLE [of_chars v])
      | Some unrolled => Ok (regex_replace (length temp_variable) temp_variable unrolled)
      end
  end.

End environment.

(** ** JSON *)

Inductive json_field := JInt (z : Z) | JString (s : string).

(** One object of the "STORAGE_SOLUTIONS" array. *)
Abbreviation json_object := (gmap string json_field) (only parsing).

(** A member of the document; an array element that is no object is [None]. *)
Inductive json_value :=
| JField (f : json_field)
| JArray (l : list (option json_object)).

Abbreviation json_document := (gmap string json_value) (only parsing).

(** [assert (false)] aborts. *)
Definition abort_status : Z := 134.

Section config.
Context (getenv : list ascii -> option (list ascii)).

(** [config (doc, member, uint16_t&)]. *)
Definition config_u16 (doc : json_document) (member : string) (variable : Z) : outcome Z :=
  match doc !! member with
  | None => Ok variable
  | Some (JField (JInt z)) =>
      if (- 2 ^ 31 <=? z) && (z <? 2 ^ 31)
      then s ← replaceEnvVariable getenv (dec z); Ok (u16 (atoi s))
      else Exit abort_status
  | Some _ => Exit abort_status
  end.

(** [config (doc, member, really_long&)]. *)
Definition config_u64 (doc : json_document) (member : string) (variable : Z) : outcome Z :=
  match doc !! member with
  | None => Ok variable
  | Some (JField (JInt z)) =>
      if (0 <=? z) && (z <? 2 ^ 64)
      then s ← replaceEnvVariable getenv (dec z); Ok (u64 (atol s))
      else Exit abort_status
  | Some _ => Exit abort_status
  end.

(** The value of a string member. *)
Definition config_value (member : option json_field) (variable : string) : outcome string :=
  match member with
  | None => Ok variable
  | Some (JString s) => s' ← replaceEnvVariable getenv (chars s); Ok (of_chars s')
  | Some (JInt _) => Exit abort_status
  end.

(** [config (doc, member, std::string&)]: a missing member keeps the value. *)
Definition config_string (doc : json_object) (member : string) (variable : string)
    : outcome string := config_value (doc !! member) variable.

(** [config (doc, member, CharStruct&)]. *)
Definition config_CharStruct (doc : json_document) (member : string) (variable : string)
    : outcome string :=
  match doc !! member with
  | Some (JArray _) => Exit abort_status
  | Some (JField f) => config_value (Some f) variable
  | None => Ok variable
  end.

(** One entry: an unknown "TYPE" is reported and the pointer stays null. *)
Definition load_solution (entry : option json_object) : outcome (option StorageSolution) :=
  match entry with
  | None => Exit abort_status
  | Some entry =>
      match entry !! "TYPE" with
      | Some (JString "FILE_IO") =>
          mount ← config_string entry "MOUNT" "";
          Ok (Some (FileSS mount))
      | Some (JString "REDIS_IO") =>
          ip ← config_string entry "IP" "";
          port ← config_string entry "PORT" "";
          Ok (Some (RedisSS ip port))
      | Some (JString "MONGO_IO") =>
          ip ← config_string entry "IP" "";
          database ← config_string entry "DATABASE" "";
          collection ← config_string entry "COLLECTION" "";
          Ok (Some (MongoSS ip database collection))
      | Some _ => Ok None
      | None => Exit abort_status
      end
  end.

(** [variable.insert (pair (i, ss))]: a key that is present stays. *)
Definition insert_solution (k : Z) (s : option StorageSolution) (m : solution_map) : solution_map :=
  match find_solution k m with Some _ => m | None => m ++ [(k, s)] end.

Fixpoint load_entries (i : Z) (results : list (option json_object)) (m : solution_map)
    : outcome solution_map :=
  match results with
  | [] => Ok m
  | e :: results' =>
      s ← load_solution e;
      load_entries (i + 1) results' (insert_solution (u16 i) s m)
  end.

(** The map is emptied first, so a missing member leaves no solution. *)
Definition load_storage_solutions (doc : json_document) (member : string) : outcome solution_map :=
  match doc !! member with
  | None => Ok []
  | Some (JArray results) => load_entries 0 results []
  | Some (JField _) => Exit abort_status
  end.

Definition load_policy (doc : json_document) (member : string) (variable : DataDistributionPolicy)
    : outcome DataDistributionPolicy :=
  match doc !! member with
  | None => Ok variable
  | Some (JField (JString s)) =>
      if decide (s = "RANDOM_POLICY") then Ok RANDOM_POLICY
      else if decide (s = "ROUND_ROBIN_POLICY") then Ok ROUND_ROBIN_POLICY
      else if decide (s = "HEURISTICS_POLICY") then Ok HEURISTICS_POLICY
      else if decide (s = "DYNAMIC_PROGRAMMING_POLICY") then Ok DYNAMIC_PROGRAMMING_POLICY
      else Ok variable
  | Some _ => Exit abort_status
  end.

Context (create_directories : string -> outcome unit).

(** [LoadConfiguration] on the text of CONFIGURATION_FILE: [None] is a file
    that cannot be opened or is no JSON object.  The members are read in the
    order of the code; a failure leaves the process, or the manager
    half-loaded in an exception nobody catches. *)
Definition LoadConfiguration (file : option json_document) (c : Conf) : outcome Conf :=
  match file with
  | None => Exit 1
  | Some doc =>
      server_lists ← config_CharStruct doc "SERVER_LISTS" (SERVER_LISTS c);
      client_lists ← config_CharStruct doc "CLIENT_LISTS" (CLIENT_LISTS c);
      port ← config_u16 doc "SYMBIOS_PORT" (SYMBIOS_PORT c);
      threads ← config_u16 doc "SERVER_RPC_THREADS" (SERVER_RPC_THREADS c);
      dir ← config_CharStruct doc "SERVER_DIR" (SERVER_DIR c);
      seed ← config_u16 doc "RANDOM_SEED" (RANDOM_SEED c);
      solutions ← load_storage_solutions doc "STORAGE_SOLUTIONS";
      policy ← load_policy doc "DATA_DISTRIBUTION_POLICY" (DATA_DISTRIBUTION_POLICY c);
      _ ← create_directories dir;
      Ok (mkConf server_lists client_lists port threads dir (CONFIGURATION_FILE c)
            (SERVER_COUNT c) seed (MAX_OBJ_SIZE c) solutions policy)
  end.

(** ** The settings of the RPC library *)

Record BasketConf := mkBasket {
  RPC_PORT : Z;
  RPC_THREADS : Z;
  MEMORY_ALLOCATED : Z;
  BACKED_FILE_DIR : string;
  NUM_SERVERS : Z;
  MPI_RANK : Z;
}.

Definition set_port (port : Z) (b : BasketConf) : BasketConf :=
  mkBasket port (RPC_THREADS b) (MEMORY_ALLOCATED b) (BACKED_FILE_DIR b) (NUM_SERVERS b) (MPI_RANK b).

Definition set_backed_dir (dir : string) (b : BasketConf) : BasketConf :=
  mkBasket (RPC_PORT b) (RPC_THREADS b) (MEMORY_ALLOCATED b) dir (NUM_SERVERS b) (MPI_RANK b).

Definition set_count (n : Z) (c : Conf) : Conf :=
  mkConf (SERVER_LISTS c) (CLIENT_LISTS c) (SYMBIOS_PORT c) (SERVER_RPC_THREADS c) (SERVER_DIR c)
    (CONFIGURATION_FILE c) n (RANDOM_SEED c) (MAX_OBJ_SIZE c) (STORAGE_SOLUTIONS c)
    (DATA_DISTRIBUTION_POLICY c).

(** What the library's [ConfigureDefaultClient] and [ConfigureDefaultServer] do
    with a server list. *)
Context (ConfigureDefaultClient ConfigureDefaultServer : string -> BasketConf -> outcome BasketConf).

(** The port is set behind the library's own configuration. *)
Definition ConfigureSymbiosClient (file : option json_document) (s : Conf * BasketConf)
    : outcome (Conf * BasketConf) :=
  c ← LoadConfiguration file s.1;
  b ← ConfigureDefaultClient (SERVER_LISTS c) s.2;
  Ok (c, set_port (SYMBIOS_PORT c) b).

Definition ConfigureSymbiosServer (file : option json_document) (s : Conf * BasketConf)
    : outcome (Conf * BasketConf) :=
  c ← LoadConfiguration file s.1;
  let b := mkBasket (RPC_PORT s.2) (SERVER_RPC_THREADS c) (1024 * 1024 * 1) (SERVER_DIR c)
             (NUM_SERVERS s.2) (MPI_RANK s.2) in
  b ← ConfigureDefaultServer (SERVER_LISTS c) b;
  Ok (set_count (u16 (NUM_SERVERS b)) c, set_port (SYMBIOS_PORT c) b).

End config.

(** ** CountServers *)

(** The servers one line of the list stands for.  [substr (split_loc, npos)]
    starts at the colon. *)
Definition line_count (line : list ascii) : Z :=
  match find_sub [":"%char] line with
  | Some split_loc => atoi (drop split_loc line)
  | None => 1
  end.

(** [None] is a file that cannot be opened. *)
Definition CountServers (lines : option (list (list ascii))) : outcome Z :=
  match lines with
  | None => Exit 1
  | Some ls =>
      Ok (foldl (fun total line =>
            match line with [] => total | _ => total + Z.max 0 (line_count line) end) 0 ls)
  end.

(** ** Properties *)

(** Keys of a loaded map: dense, in the order of the array. *)
Lemma find_insert_solution k k' s m :
  find_solution k (insert_solution k' s m) =
    match find_solution k m with
    | Some x => Some x
    | None => if decide (k' = k) then Some s else None
    end.
Proof.
  unfold insert_solution. destruct (find_solution k' m) eqn:E.
  - destruct (find_solution k m) eqn:E'; [done|]. case_decide; [|done]. subst. by rewrite E in E'.
  - clear E. induction m as [|[j t] m IH]; simpl; [done|].
    destruct (decide (j = k)); [done|exact IH].
Qed.

Lemma load_entries_keys env i results m m' :
  load_entries env i results m = Ok m' -> 0 <= i -> i + zlen results <= 2 ^ 16 ->
  (forall k, is_Some (find_solution k m) <-> 0 <= k < i) ->
  forall k, is_Some (find_solution k m') <-> 0 <= k < i + zlen results.
Proof.
  revert i m. induction results as [|e results IH]; intros i m; cbn [load_entries].
  { intros [= <-] ? _ Hm k. replace (i + zlen []) with i by (unfold zlen; simpl; lia). apply Hm. }
  destruct (load_solution env e) as [s| | |]; try done. unfold mbind; cbn [outcome_bind].
  intros Hl Hi Hb Hm k.
  rewrite zlen_cons in Hb |- *.
  rewrite (IH (i + 1) _ Hl); [lia|lia|lia|].
  intros k'. rewrite find_insert_solution. rewrite u16_small by (pose proof (zlen_nonneg results); lia).
  specialize (Hm k'). destruct (find_solution k' m) eqn:E.
  - assert (0 <= k' < i) by (apply Hm; eauto). split; [lia|eauto].
  - assert (~ (0 <= k' < i)) by (intros ?; destruct (proj2 Hm) as [? [=]]; lia).
    case_decide; split; [lia|eauto|by intros [? [=]]|lia].
Qed.

(** *** Expansion *)

Lemma to_brace_hit v post :
  "}"%char ∉ v -> "010"%char ∉ v -> "013"%char ∉ v ->
  to_brace (v ++ "}"%char :: post) = Some (v, post).
Proof.
  induction v as [|c v IH]; intros H1 H2 H3; [done|]. cbn [app to_brace].
  rewrite not_elem_of_cons in H1, H2, H3.
  destruct H1, H2, H3. rewrite decide_False by congruence.
  rewrite decide_False by intuition congruence. by rewrite IH.
Qed.

Lemma regex_search_none l : "$"%char ∉ l -> regex_search l = None.
Proof.
  induction l as [|c l IH]; [done|]. rewrite not_elem_of_cons. intros [Hc Hl].
  cbn [regex_search]. rewrite decide_False by done. by rewrite IH.
Qed.

(** A name of an environment variable, as the pattern sees it. *)
Definition var_name (v : list ascii) : Prop :=
  ("}"%char ∉ v) /\ ("010"%char ∉ v) /\ ("013"%char ∉ v).

Lemma regex_search_hit pre v post :
  "$"%char ∉ pre -> var_name v ->
  regex_search (pre ++ match_text v ++ post) = Some (pre, v, post).
Proof.
  intros Hp (H1 & H2 & H3). induction pre as [|c pre IH].
  - unfold match_text. cbn. rewrite <- app_assoc. cbn [app]. by rewrite to_brace_hit.
  - rewrite not_elem_of_cons in Hp. destruct Hp. cbn [app regex_search].
    rewrite decide_False by congruence. by rewrite IH.
Qed.

Lemma format_literal pre v rest fmt : "$"%char ∉ fmt -> format pre v rest fmt = fmt.
Proof.
  induction fmt as [|c fmt IH]; [done|]. rewrite not_elem_of_cons. intros [Hc Hf].
  specialize (IH Hf). destruct c as [[] [] [] [] [] [] [] []]; cbn [format]; try (by rewrite IH).
Qed.

(** A text with variables: what precedes the first one, and each variable with
    the text that follows it. *)
Definition env_text (pre : list ascii) (vars : list (list ascii * list ascii)) : list ascii :=
  pre ++ concat ((fun x => match_text x.1 ++ x.2) <$> vars).

Definition env_vars_ok (vars : list (list ascii * list ascii)) : Prop :=
  Forall (fun x => var_name x.1 /\ ("$"%char ∉ x.2)) vars.

Lemma env_text_cons pre v post vars :
  env_text pre ((v, post) :: vars) = pre ++ match_text v ++ env_text post vars.
Proof. unfold env_text. csimpl. by rewrite <- app_assoc. Qed.

Lemma length_env_text pre vars : (length vars <= length (env_text pre vars))%nat.
Proof.
  revert pre. induction vars as [|[v post] vars IH]; intros pre; [simpl; lia|].
  rewrite env_text_cons. specialize (IH post). unfold match_text.
  rewrite !length_app. simpl. lia.
Qed.

Lemma regex_replace_text fuel pre vars value :
  (length vars <= fuel)%nat -> "$"%char ∉ pre -> env_vars_ok vars -> "$"%char ∉ value ->
  regex_replace fuel (env_text pre vars) value =
    pre ++ concat ((fun x => value ++ x.2) <$> vars).
Proof.
  intros Hf Hp Hv Hval. revert fuel pre Hf Hp. induction Hv as [|[v post] vars [Hn Hd] Hv IH];
    intros fuel pre Hf Hp.
  - unfold env_text. csimpl. rewrite app_nil_r. destruct fuel; simpl; [done|].
    by rewrite regex_search_none.
  - destruct fuel as [|fuel]; [simpl in Hf; lia|]. rewrite env_text_cons. cbn [regex_replace].
    rewrite regex_search_hit by done. rewrite format_literal by done.
    rewrite IH by (simpl in *; done || lia). csimpl. by rewrite <- app_assoc.
Qed.

(** Only the first variable is looked up, and its value takes the place of
    every variable of the text. *)
Theorem replaceEnvVariable_first getenv pre v post vars value :
  "$"%char ∉ pre -> env_vars_ok ((v, post) :: vars) ->
  getenv v = Some value -> "$"%char ∉ value ->
  replaceEnvVariable getenv (env_text pre ((v, post) :: vars)) =
    Ok (pre ++ value ++ post ++ concat ((fun x => value ++ x.2) <$> vars)).
Proof.
  intros Hp Hv Hg Hval. unfold replaceEnvVariable.
  assert (regex_search (env_text pre ((v, post) :: vars)) = Some (pre, v, env_text post vars)) as ->.
  { rewrite env_text_cons. apply regex_search_hit; [done|]. by apply Forall_cons in Hv as [[? ?] ?]. }
  rewrite Hg, regex_replace_text by (done || apply length_env_text). csimpl. by rewrite <- app_assoc.
Qed.

Lemma replaceEnvVariable_none getenv l :
  "$"%char ∉ l -> replaceEnvVariable getenv l = Ok l.
Proof. intros H. unfold replaceEnvVariable. by rewrite regex_search_none. Qed.

(** A variable that is not set in the environment is an error that names it. *)
Theorem replaceEnvVariable_undefined getenv pre v post :
  "$"%char ∉ pre -> var_name v -> getenv v = None ->
  replaceEnvVariable getenv (pre ++ match_text v ++ post) =
    Throw (make_ErrorException UNDEFINED_ENV_VARIABLE [of_chars v]).
Proof. intros Hp Hv Hg. unfold replaceEnvVariable. by rewrite regex_search_hit, Hg. Qed.

(** *** Settings *)

(** An integer setting is read back through its decimal text, reduced to 16 bits. *)
Lemma config_u16_value getenv doc member variable z :
  doc !! member = Some (JField (JInt z)) -> - 2 ^ 31 <= z < 2 ^ 31 ->
  config_u16 getenv doc member variable = Ok (u16 z).
Proof.
  intros Hd Hz. unfold config_u16. rewrite Hd. zcases; simpl; try lia.
  rewrite replaceEnvVariable_none by (by apply dec_notin). cbn. by rewrite atoi_dec.
Qed.

(** The configured solution of index [k] is the one of entry [k]. *)
Lemma load_entries_at env i results m m' k s :
  load_entries env i results m = Ok m' -> find_solution k m = Some s ->
  find_solution k m' = Some s.
Proof.
  revert i m. induction results as [|e results IH]; intros i m; cbn [load_entries].
  { by intros [= <-]. }
  destruct (load_solution env e) as [t| | |]; try done. unfold mbind; cbn [outcome_bind].
  intros Hl Hf. apply (IH _ _ Hl). rewrite find_insert_solution. by rewrite Hf.
Qed.

Lemma load_entries_lookup env i results m m' j e :
  load_entries env i results m = Ok m' -> 0 <= i -> i + zlen results <= 2 ^ 16 ->
  (forall k, is_Some (find_solution k m) <-> 0 <= k < i) ->
  results !! j = Some e ->
  exists s, load_solution env e = Ok s /\ find_solution (i + Z.of_nat j) m' = Some s.
Proof.
  revert i m j. induction results as [|e' results IH]; intros i m j; [done|].
  cbn [load_entries]. destruct (load_solution env e') as [t| | |] eqn:Ht; try done.
  unfold mbind; cbn [outcome_bind]. intros Hl Hi Hb Hm Hj.
  rewrite zlen_cons in Hb. pose proof (zlen_nonneg results).
  rewrite u16_small in Hl by lia.
  assert (Hi' : find_solution i m = None).
  { destruct (find_solution i m) eqn:E; [|done].
    destruct (proj1 (Hm i)); [eauto|lia]. }
  destruct j as [|j].
  - injection Hj as ->. exists t. split; [done|]. rewrite Z.add_0_r.
    apply (load_entries_at _ _ _ _ _ _ _ Hl). rewrite find_insert_solution, Hi'.
    by rewrite decide_True.
  - destruct (IH (i + 1) _ j Hl) as (s & Hs & Hf); [lia|lia| |done|].
    + intros k. rewrite find_insert_solution. specialize (Hm k).
      destruct (find_solution k m) eqn:E.
      * assert (0 <= k < i) by (apply Hm; eauto). split; [lia|eauto].
      * assert (~ (0 <= k < i)) by (intros ?; destruct (proj2 Hm) as [? [=]]; lia).
        case_decide; split; [lia|eauto|by intros [? [=]]|lia].
    + exists s. split; [done|]. rewrite <- Hf. f_equal. lia.
Qed.

(** The solutions of a configuration that loads are numbered from 0 in the order
    of the file, and each is the one its entry describes. *)
Theorem load_storage_solutions_ok getenv doc member results m :
  doc !! member = Some (JArray results) -> zlen results <= 2 ^ 16 ->
  load_storage_solutions getenv doc member = Ok m ->
  (forall k, is_Some (find_solution k m) <-> 0 <= k < zlen results) /\
  (forall j e, results !! j = Some e ->
     exists s, load_solution getenv e = Ok s /\ find_solution (Z.of_nat j) m = Some s).
Proof.
  intros Hd Hn. unfold load_storage_solutions. rewrite Hd. intros Hl.
  assert (Hm : forall k, is_Some (find_solution k []) <-> 0 <= k < 0).
  { intros k. split; [by intros [? [=]]|lia]. }
  split.
  - intros k. apply (load_entries_keys getenv 0 _ _ _ Hl); [lia..|done].
  - intros j e Hj. exact (load_entries_lookup getenv 0 _ _ _ _ _ Hl ltac:(lia) Hn Hm Hj).
Qed.

(** *** Loading *)

Lemma LoadConfiguration_solutions getenv mkdirs file c c' :
  LoadConfiguration getenv mkdirs file c = Ok c' ->
  exists doc, file = Some doc /\
    load_storage_solutions getenv doc "STORAGE_SOLUTIONS" = Ok (STORAGE_SOLUTIONS c').
Proof.
  intros H. destruct file as [doc|]; [|done]. exists doc. split; [done|].
  unfold LoadConfiguration in H.
  repeat match type of H with _ ≫= _ = _ => apply outcome_bind_inv in H as (? & ? & H) end.
  by injection H as <-.
Qed.

Lemma ConfigureSymbiosServer_solutions getenv mkdirs configure file c b c' b' :
  ConfigureSymbiosServer getenv mkdirs configure file (c, b) = Ok (c', b') ->
  (exists doc, file = Some doc /\
     load_storage_solutions getenv doc "STORAGE_SOLUTIONS" = Ok (STORAGE_SOLUTIONS c')) /\
  RPC_PORT b' = SYMBIOS_PORT c'.
Proof.
  intros (c1 & Hc & (b1 & _ & H)%outcome_bind_inv)%outcome_bind_inv.
  injection H as <- <-. split; [|done]. by apply LoadConfiguration_solutions in Hc.
Qed.

(** ** Dense configurations *)

(** A configuration of non-null solutions under the keys 0 .. n-1, in any
    iteration order. *)
Definition dense (m : solution_map) : Prop :=
  zlen m <= 2 ^ 15 /\ m.*1 ≡ₚ seqZ 0 (zlen m) /\ Forall (fun e => is_Some e.2) m.

Lemma find_solution_elem m k s :
  NoDup m.*1 -> (k, s) ∈ m -> find_solution k m = Some s.
Proof.
  induction m as [|[j t] m IH]; [by intros _ ?%not_elem_of_nil|].
  csimpl. intros [Hj Hm]%NoDup_cons [[= -> ->]|Hk]%elem_of_cons; simpl.
  - by rewrite decide_True.
  - rewrite decide_False; [by apply IH|]. intros ->. apply Hj.
    apply list_elem_of_fmap. by exists (k, s).
Qed.

Lemma find_solution_in m k s : find_solution k m = Some s -> (k, s) ∈ m.
Proof.
  induction m as [|[j t] m IH]; [done|]. simpl. case_decide; [|by right; auto].
  subst. intros [= ->]. left.
Qed.

Lemma find_solution_notin m k : k ∉ m.*1 -> find_solution k m = None.
Proof.
  induction m as [|[j t] m IH]; [done|]. csimpl. rewrite not_elem_of_cons. intros [Hj Hm].
  simpl. rewrite decide_False by done. by apply IH.
Qed.

(** The keys of the entries are consecutive. *)
Lemma load_entries_seq env i results m m' :
  load_entries env i results m = Ok m' -> 0 <= i -> i + zlen results <= 2 ^ 16 ->
  m.*1 = seqZ 0 i -> m'.*1 = seqZ 0 (i + zlen results).
Proof.
  revert i m. induction results as [|e results IH]; intros i m; cbn [load_entries].
  { intros [= <-] _ _ ->. change (zlen []) with 0. by rewrite Z.add_0_r. }
  destruct (load_solution env e) as [t| | |]; try done. unfold mbind; cbn [outcome_bind].
  intros Hl Hi Hb Hm. rewrite zlen_cons in Hb |- *. pose proof (zlen_nonneg results).
  rewrite u16_small in Hl by lia. unfold insert_solution in Hl.
  rewrite find_solution_notin in Hl by (rewrite Hm, elem_of_seqZ; lia).
  rewrite (IH (i + 1) _ Hl); [f_equal; lia|lia|lia|]. rewrite fmap_app, Hm. csimpl.
  by rewrite seqZ_app by lia.
Qed.

Lemma load_dense getenv doc member m :
  (forall l, doc !! member = Some (JArray l) -> zlen l <= 2 ^ 15) ->
  load_storage_solutions getenv doc member = Ok m -> Forall (fun e => is_Some e.2) m -> dense m.
Proof.
  intros Hn Hl Hs. unfold load_storage_solutions in Hl.
  assert (exists n, 0 <= n <= 2 ^ 15 /\ m.*1 = seqZ 0 n) as (n & Hn' & Hm).
  { destruct (doc !! member) as [[f|results]|] eqn:E; [done| |].
    - exists (zlen results). pose proof (zlen_nonneg results). specialize (Hn _ eq_refl).
      split; [lia|]. by rewrite (load_entries_seq _ _ _ _ _ Hl) by (done || lia).
    - injection Hl as <-. exists 0. split; [lia|done]. }
  assert (zlen m = n) as Ez.
  { unfold zlen. rewrite <- (length_fmap fst), Hm, length_seqZ. lia. }
  split; [lia|]. by rewrite Ez, Hm.
Qed.

Lemma dense_NoDup m : dense m -> NoDup m.*1.
Proof. intros (_ & -> & _). apply NoDup_seqZ. Qed.

Lemma dense_range m k s : dense m -> (k, s) ∈ m -> 0 <= k < zlen m.
Proof.
  intros (_ & Hp & _) Hk. assert (k ∈ m.*1) as Hk' by (apply list_elem_of_fmap; by exists (k, s)).
  rewrite Hp in Hk'. apply elem_of_seqZ in Hk'. lia.
Qed.

Lemma dense_find m k : dense m -> 0 <= k < zlen m -> exists s, find_solution k m = Some (Some s).
Proof.
  intros Hd Hk. pose proof Hd as (_ & Hp & Hs).
  assert (k ∈ m.*1) as ([k' s] & -> & He)%list_elem_of_fmap.
  { rewrite Hp. apply elem_of_seqZ. lia. }
  pose proof (proj1 (Forall_forall _ _) Hs _ He) as [s' Hs']. simpl in *. subst s.
  exists s'. apply find_solution_elem; [by apply dense_NoDup|done].
Qed.
