(* ===== verification/Distribution.v ===== *)
(** * Distribution: the data distribution engines

    src/symbios/data_distribution.  An engine maps a request to the list of
    distributions that carry it; the state of the engines is the number of
    values drawn from [rand ()] and from basket's global sequence, and the
    table of the heuristics engine.  [SYMBIOS_CONF->STORAGE_SOLUTIONS[i]] may
    add a null entry, so the configuration is threaded. *)

From S2P Require Import Prelude CText Effects Types Config.

Record DDE := mkDDE {
  rand_calls : nat;
  sequence_calls : nat;
  maps : list (IOClientType * Z);
}.

(** [maps[t].first]: a missing type is added with index 0. *)
Fixpoint maps_find (t : IOClientType) (m : list (IOClientType * Z)) : option Z :=
  match m with
  | [] => None
  | (t', i) :: m' => if decide (t' = t) then Some i else maps_find t m'
  end.

Definition maps_index (t : IOClientType) (m : list (IOClientType * Z))
    : Z * list (IOClientType * Z) :=
  match maps_find t m with
  | Some i => (i, m)
  | None => (0, m ++ [(t, 0)])
  end.

(** [HeuristicsDDE::HeuristicsDDE]: the first solution of each type, in the
    iteration order of the configuration. *)
Fixpoint HeuristicsDDE_ctor (solutions : solution_map) (m : list (IOClientType * Z))
    : outcome (list (IOClientType * Z)) :=
  match solutions with
  | [] => Ok m
  | (i, None) :: _ => Undefined NullDeref
  | (i, Some s) :: solutions' =>
      let t := io_client_type_ s in
      HeuristicsDDE_ctor solutions'
        (match maps_find t m with Some _ => m | None => m ++ [(t, i)] end)
  end.

(** The one distribution every engine but the last returns. *)
Definition one_distribution (source destination : Data) (selected : Z) : list DataDistribution :=
  [mkDataDistribution source (set_storage_index (u16 selected) destination)
     (storage_index_ source)].

(** Evaluates [STORAGE_SOLUTIONS[selected]] for its effect on the map. *)
Definition touch_solution (selected : Z) (c : Conf) : Conf :=
  set_solutions (index_solution (u16 selected) (STORAGE_SOLUTIONS c)).2 c.

Section engines.
(** The values of [rand ()] and of [GetNextSequenceServer] in call order. *)
Context (rand : nat -> Z) (sequence : nat -> Z).

Definition RandomDDE_Distribute (source destination : Data)
    : ST (Conf * DDE) (list DataDistribution) := fun '(c, e) =>
  let random_number := rand (rand_calls e) in
  let e' := mkDDE (S (rand_calls e)) (sequence_calls e) (maps e) in
  let size := zlen (STORAGE_SOLUTIONS c) in
  if size =? 0 then (Undefined DivByZero, (c, e')) else
  let selected := i16 (u64 random_number mod size) in
  (Ok (one_distribution source destination selected), (touch_solution selected c, e')).

Definition RoundRobinDDE_Distribute (source destination : Data)
    : ST (Conf * DDE) (list DataDistribution) := fun '(c, e) =>
  let next_value := sequence (sequence_calls e) in
  let e' := mkDDE (rand_calls e) (S (sequence_calls e)) (maps e) in
  let size := zlen (STORAGE_SOLUTIONS c) in
  if size =? 0 then (Undefined DivByZero, (c, e')) else
  let selected := i16 (u64 next_value mod size) in
  (Ok (one_distribution source destination selected), (touch_solution selected c, e')).

(** The storage type the heuristics prefers for a request size. *)
Definition heuristics_type (data_size : Z) : IOClientType :=
  if data_size <? 16 * 1024 then MONGO_IO
  else if (16 * 1024 <=? data_size) && (data_size <? 128 * 1024) then REDIS_IO
  else FILE_IO.

Definition HeuristicsDDE_Distribute (source destination : Data)
    : ST (Conf * DDE) (list DataDistribution) := fun '(c, e) =>
  let '(i, m) := maps_index (heuristics_type (data_size_ destination)) (maps e) in
  let selected := i16 i in
  (Ok (one_distribution source destination selected),
   (touch_solution selected c, mkDDE (rand_calls e) (sequence_calls e) m)).

Definition DynamicProgrammingDDE_Distribute (source destination : Data)
    : ST (Conf * DDE) (list DataDistribution) := fun s => (Ok [], s).

(** [GetDataDistributionEngine (policy)->Distribute]. *)
Definition Distribute (source destination : Data) : ST (Conf * DDE) (list DataDistribution) :=
  fun s =>
  match DATA_DISTRIBUTION_POLICY s.1 with
  | RANDOM_POLICY => RandomDDE_Distribute source destination s
  | ROUND_ROBIN_POLICY => RoundRobinDDE_Distribute source destination s
  | HEURISTICS_POLICY => HeuristicsDDE_Distribute source destination s
  | DYNAMIC_PROGRAMMING_POLICY => DynamicProgrammingDDE_Distribute source destination s
  end.

(** ** Behaviour *)

Lemma touch_solution_dense k c :
  dense (STORAGE_SOLUTIONS c) -> 0 <= k < zlen (STORAGE_SOLUTIONS c) -> touch_solution k c = c.
Proof.
  intros Hd Hk. pose proof Hd as [Hn _]. unfold touch_solution. rewrite u16_small by lia.
  destruct (dense_find _ _ Hd Hk) as [s E]. rewrite (index_solution_present _ _ _ E). by destruct c.
Qed.

(** The index drawn from a non-negative value is one of the configured ones. *)
Lemma draw_in_range v size :
  0 <= v < 2 ^ 64 -> 0 < size <= 2 ^ 15 ->
  i16 (u64 v mod size) = v mod size /\ 0 <= v mod size < size.
Proof.
  intros Hv Hs. pose proof (Z.mod_pos_bound v size ltac:(lia)). unwrap. lia.
Qed.

Lemma RoundRobin_ok source destination c e :
  dense (STORAGE_SOLUTIONS c) -> STORAGE_SOLUTIONS c <> [] ->
  0 <= sequence (sequence_calls e) < 2 ^ 64 ->
  RoundRobinDDE_Distribute source destination (c, e) =
    (Ok (one_distribution source destination
           (sequence (sequence_calls e) mod zlen (STORAGE_SOLUTIONS c))),
     (c, mkDDE (rand_calls e) (S (sequence_calls e)) (maps e))).
Proof.
  intros Hd Hne Hs. pose proof Hd as [Hn _].
  pose proof (zlen_pos _ Hne).
  unfold RoundRobinDDE_Distribute. zcases; [lia|].
  destruct (draw_in_range (sequence (sequence_calls e)) (zlen (STORAGE_SOLUTIONS c)))
    as [-> ?]; [lia..|]. by rewrite touch_solution_dense.
Qed.

Lemma Random_ok source destination c e :
  dense (STORAGE_SOLUTIONS c) -> STORAGE_SOLUTIONS c <> [] ->
  0 <= rand (rand_calls e) < 2 ^ 31 ->
  RandomDDE_Distribute source destination (c, e) =
    (Ok (one_distribution source destination
           (rand (rand_calls e) mod zlen (STORAGE_SOLUTIONS c))),
     (c, mkDDE (S (rand_calls e)) (sequence_calls e) (maps e))).
Proof.
  intros Hd Hne Hs. pose proof Hd as [Hn _].
  pose proof (zlen_pos _ Hne).
  unfold RandomDDE_Distribute. zcases; [lia|].
  destruct (draw_in_range (rand (rand_calls e)) (zlen (STORAGE_SOLUTIONS c)))
    as [-> ?]; [lia..|]. by rewrite touch_solution_dense.
Qed.

(** The requests of [reqs] distributed one after another. *)
Definition distribute_all (reqs : list (Data * Data)) : ST (Conf * DDE) (list Z) :=
  fold_st (fun acc r =>
    ds ← Distribute r.1 r.2;
    mret (acc ++ (storage_index_ ∘ destination_data_ <$> ds))) [] reqs.

(** The indices of [n] requests that start at sequence number [b]. *)
Definition robin_indices (b size : Z) (n : nat) : list Z :=
  (fun k => (b + k) mod size) <$> seqZ 0 (Z.of_nat n).

Lemma robin_indices_S b size n :
  robin_indices b size (S n) = (b mod size) :: robin_indices (b + 1) size n.
Proof.
  unfold robin_indices. rewrite seqZ_cons by lia. csimpl. f_equal; [f_equal; lia|].
  replace (Z.pred (Z.of_nat (S n))) with (Z.of_nat n) by lia.
  rewrite <- (Z.add_0_r (Z.succ 0)), <- fmap_add_seqZ, <- list_fmap_compose.
  apply list_fmap_ext. intros i x _. simpl. f_equal. lia.
Qed.

Lemma distribute_all_robin reqs acc c e base :
  DATA_DISTRIBUTION_POLICY c = ROUND_ROBIN_POLICY ->
  dense (STORAGE_SOLUTIONS c) -> STORAGE_SOLUTIONS c <> [] ->
  (forall k, sequence k = base + Z.of_nat k) -> 0 <= base ->
  base + Z.of_nat (sequence_calls e) + zlen reqs < 2 ^ 64 ->
  fold_st (fun acc r =>
    ds ← Distribute r.1 r.2;
    mret (acc ++ (storage_index_ ∘ destination_data_ <$> ds))) acc reqs (c, e) =
    (Ok (acc ++ robin_indices (base + Z.of_nat (sequence_calls e))
           (zlen (STORAGE_SOLUTIONS c)) (length reqs)),
     (c, mkDDE (rand_calls e) (sequence_calls e + length reqs) (maps e))).
Proof.
  intros Hpol Hd Hne Hs Hb. revert acc e. induction reqs as [|r reqs IH]; intros acc e He.
  { cbn. rewrite app_nil_r, Nat.add_0_r. by destruct e. }
  rewrite zlen_cons in He. pose proof (zlen_nonneg reqs).
  cbn [fold_st]. erewrite st_bind_Ok.
  2:{ erewrite st_bind_Ok.
      2:{ unfold Distribute. simpl. rewrite Hpol. apply RoundRobin_ok; [done..|]. rewrite Hs. lia. }
      reflexivity. }
  assert (E : u16 (sequence (sequence_calls e) mod zlen (STORAGE_SOLUTIONS c)) =
          (base + Z.of_nat (sequence_calls e)) mod zlen (STORAGE_SOLUTIONS c)).
  { rewrite Hs. apply u16_small. destruct Hd as [Hn _].
    pose proof (Z.mod_pos_bound (base + Z.of_nat (sequence_calls e)) _ (zlen_pos _ Hne)). lia. }
  rewrite IH by (simpl; lia). csimpl. rewrite E, <- app_assoc, robin_indices_S.
  replace (base + Z.of_nat (sequence_calls e) + 1)
    with (base + Z.of_nat (S (sequence_calls e))) by lia.
  by rewrite Nat.add_succ_r.
Qed.

(** Consecutive numbers modulo [n] go once through 0 .. n-1. *)
Lemma robin_indices_perm b size :
  0 < size -> robin_indices b size (Z.to_nat size) ≡ₚ seqZ 0 size.
Proof.
  intros Hs. unfold robin_indices. rewrite Z2Nat.id by lia.
  apply submseteq_length_Permutation.
  - apply NoDup_submseteq.
    + apply NoDup_fmap_2_strong; [|apply NoDup_seqZ].
      intros x y Hx%elem_of_seqZ Hy%elem_of_seqZ E.
      pose proof (Z.div_mod (b + x) size ltac:(lia)).
      pose proof (Z.div_mod (b + y) size ltac:(lia)). simpl in E. rewrite <- E in *.
      assert ((b + x) / size = (b + y) / size) by nia. nia.
    + intros x (y & -> & _)%list_elem_of_fmap. apply elem_of_seqZ.
      pose proof (Z.mod_pos_bound (b + y) size Hs). lia.
  - by rewrite length_fmap.
Qed.

(** C13: as many consecutive requests as there are solutions use every solution
    exactly once. *)
Theorem round_robin_fair reqs c e base :
  DATA_DISTRIBUTION_POLICY c = ROUND_ROBIN_POLICY ->
  dense (STORAGE_SOLUTIONS c) -> STORAGE_SOLUTIONS c <> [] ->
  (forall k, sequence k = base + Z.of_nat k) -> 0 <= base ->
  base + Z.of_nat (sequence_calls e) + zlen reqs < 2 ^ 64 ->
  length reqs = length (STORAGE_SOLUTIONS c) ->
  exists indices,
    distribute_all reqs (c, e) =
      (Ok indices, (c, mkDDE (rand_calls e) (sequence_calls e + length reqs) (maps e))) /\
    indices ≡ₚ seqZ 0 (zlen (STORAGE_SOLUTIONS c)).
Proof.
  intros Hpol Hd Hne Hs Hb He Hl. eexists. split.
  { apply (distribute_all_robin reqs [] c e base); done. }
  simpl. rewrite Hl. rewrite <- (Nat2Z.id (length (STORAGE_SOLUTIONS c))).
  apply (robin_indices_perm _ (zlen (STORAGE_SOLUTIONS c))). by apply zlen_pos.
Qed.

(** ** Heuristics *)

(** The solution [k] has type [t]. *)
Definition typed (solutions : solution_map) (k : Z) (t : IOClientType) : Prop :=
  exists s, (k, Some s) ∈ solutions /\ io_client_type_ s = t.

Lemma maps_find_app t m m' :
  maps_find t (m ++ m') = match maps_find t m with Some i => Some i | None => maps_find t m' end.
Proof. induction m as [|[t' i] m IH]; simpl; [done|]. by case_decide. Qed.

(** The table has an entry for exactly the types of the configuration, and
    each names a solution of that type. *)
Lemma HeuristicsDDE_ctor_spec solutions m :
  Forall (fun e => is_Some e.2) solutions ->
  exists m', HeuristicsDDE_ctor solutions m = Ok m' /\
    forall t, match maps_find t m with
              | Some i => maps_find t m' = Some i
              | None => match maps_find t m' with
                        | Some i => typed solutions i t
                        | None => forall k, ~ typed solutions k t
                        end
              end.
Proof.
  intros Hs. revert m. induction Hs as [|[i [s|]] solutions Hi Hs IH]; intros m; cbn [HeuristicsDDE_ctor].
  - exists m. split; [done|]. intros t. destruct (maps_find t m); [done|].
    intros k (s & Hk & _). by apply not_elem_of_nil in Hk.
  - destruct (IH (match maps_find (io_client_type_ s) m with
                  | Some _ => m | None => m ++ [(io_client_type_ s, i)] end)) as (m' & Hm' & Ht).
    exists m'. split; [done|]. intros t. specialize (Ht t).
    assert (Hstep : forall k, typed solutions k t -> typed ((i, Some s) :: solutions) k t).
    { intros k (s' & ? & ?). exists s'. split; [by right|done]. }
    assert (Hhd : io_client_type_ s = t -> typed ((i, Some s) :: solutions) i t).
    { intros <-. exists s. split; [left|done]. }
    assert (Hinv : forall k, typed ((i, Some s) :: solutions) k t ->
              io_client_type_ s = t \/ typed solutions k t).
    { intros k (s' & [[= -> ->]|?]%elem_of_cons & ?); [by left|]. right. by exists s'. }
    destruct (maps_find (io_client_type_ s) m) eqn:E.
    + destruct (maps_find t m) eqn:E'; [done|].
      destruct (maps_find t m') eqn:E''; [by apply Hstep|].
      intros k [<-|?]%Hinv; [congruence|by eapply Ht].
    + rewrite maps_find_app in Ht. destruct (maps_find t m) eqn:E'; [done|].
      simpl in Ht. case_decide as Hdec.
      * rewrite Ht. by apply Hhd.
      * destruct (maps_find t m') eqn:E''; [by apply Hstep|].
        intros k [?|?]%Hinv; [done|by eapply Ht].
  - by destruct Hi.
Qed.

Lemma Heuristics_ok source destination c e k :
  dense (STORAGE_SOLUTIONS c) -> 0 <= k < zlen (STORAGE_SOLUTIONS c) ->
  maps_find (heuristics_type (data_size_ destination)) (maps e) = Some k ->
  HeuristicsDDE_Distribute source destination (c, e) =
    (Ok (one_distribution source destination k), (c, e)).
Proof.
  intros Hd Hk Hf. unfold HeuristicsDDE_Distribute, maps_index. rewrite Hf.
  pose proof Hd as [Hn _]. rewrite i16_small by lia. rewrite touch_solution_dense by done.
  by destruct e.
Qed.

(** C14: A request goes to a solution of the type its size calls for, when one is
    configured. *)
Theorem heuristics_selects source destination c r q k0 :
  dense (STORAGE_SOLUTIONS c) ->
  typed (STORAGE_SOLUTIONS c) k0 (heuristics_type (data_size_ destination)) ->
  exists m k s,
    HeuristicsDDE_ctor (STORAGE_SOLUTIONS c) [] = Ok m /\
    HeuristicsDDE_Distribute source destination (c, mkDDE r q m) =
      (Ok (one_distribution source destination k), (c, mkDDE r q m)) /\
    find_solution k (STORAGE_SOLUTIONS c) = Some (Some s) /\
    io_client_type_ s = heuristics_type (data_size_ destination).
Proof.
  intros Hd Hk0. pose proof Hd as (_ & _ & Hs).
  destruct (HeuristicsDDE_ctor_spec _ [] Hs) as (m & Hm & Ht).
  specialize (Ht (heuristics_type (data_size_ destination))). simpl in Ht.
  destruct (maps_find _ m) as [k|] eqn:E; [|by destruct (Ht k0)].
  destruct Ht as (s & Hk & Hty). exists m, k, s. split; [done|]. split; [|split; [|done]].
  - apply Heuristics_ok; [done|by eapply dense_range|done].
  - apply find_solution_elem; [by apply dense_NoDup|done].
Qed.

(** Without a solution of the preferred type the request goes to solution 0,
    and the missing type is entered in the table. *)
Lemma heuristics_default source destination c e :
  dense (STORAGE_SOLUTIONS c) -> STORAGE_SOLUTIONS c <> [] ->
  maps_find (heuristics_type (data_size_ destination)) (maps e) = None ->
  HeuristicsDDE_Distribute source destination (c, e) =
    (Ok (one_distribution source destination 0),
     (c, mkDDE (rand_calls e) (sequence_calls e)
           (maps e ++ [(heuristics_type (data_size_ destination), 0)]))).
Proof.
  intros Hd Hne Hf. unfold HeuristicsDDE_Distribute, maps_index. rewrite Hf.
  rewrite touch_solution_dense; [done..|]. pose proof (zlen_pos _ Hne). by split.
Qed.

(** ** All engines *)

(** One distribution that carries the whole request to a configured solution. *)
Definition carries (source destination : Data) (c : Conf) (ds : list DataDistribution) : Prop :=
  exists k s, find_solution k (STORAGE_SOLUTIONS c) = Some (Some s) /\
    ds = [mkDataDistribution source (set_storage_index k destination) (storage_index_ source)].

Lemma carries_index source destination c k :
  dense (STORAGE_SOLUTIONS c) -> 0 <= k < zlen (STORAGE_SOLUTIONS c) ->
  carries source destination c (one_distribution source destination k).
Proof.
  intros Hd Hk. pose proof Hd as [Hn _]. destruct (dense_find _ _ Hd Hk) as [s Hs].
  exists k, s. split; [done|]. unfold one_distribution. by rewrite u16_small by lia.
Qed.

(** The table of the heuristics engine names configured solutions only. *)
Definition maps_ok (c : Conf) (m : list (IOClientType * Z)) : Prop :=
  forall t k, maps_find t m = Some k -> 0 <= k < zlen (STORAGE_SOLUTIONS c).

Lemma Distribute_parts source destination c e :
  dense (STORAGE_SOLUTIONS c) -> STORAGE_SOLUTIONS c <> [] -> maps_ok c (maps e) ->
  0 <= sequence (sequence_calls e) < 2 ^ 64 -> 0 <= rand (rand_calls e) < 2 ^ 31 ->
  exists ds e',
    Distribute source destination (c, e) = (Ok ds, (c, e')) /\ maps_ok c (maps e') /\
    match DATA_DISTRIBUTION_POLICY c with
    | DYNAMIC_PROGRAMMING_POLICY => ds = []
    | _ => carries source destination c ds
    end.
Proof.
  intros Hd Hne Hm Hs Hr. pose proof (zlen_pos _ Hne). unfold Distribute. cbn [fst].
  destruct (DATA_DISTRIBUTION_POLICY c).
  - rewrite Random_ok by done. eexists _, _. split; [done|]. split; [done|].
    apply carries_index; [done|]. apply Z.mod_pos_bound. done.
  - rewrite RoundRobin_ok by done. eexists _, _. split; [done|]. split; [done|].
    apply carries_index; [done|]. apply Z.mod_pos_bound. done.
  - destruct (maps_find (heuristics_type (data_size_ destination)) (maps e)) as [k|] eqn:E.
    + rewrite (Heuristics_ok source destination c e k) by eauto.
      eexists _, _. split; [done|]. split; [done|]. apply carries_index; eauto.
    + rewrite heuristics_default by done. eexists _, _. split; [done|].
      split; [|apply carries_index; [done|lia]].
      intros t k. simpl. rewrite maps_find_app. destruct (maps_find t (maps e)) eqn:E'.
      * intros [= <-]. eauto.
      * simpl. case_decide; [|done]. intros [= <-]. lia.
  - by exists [], e.
Qed.

(** C12: every engine but dynamic programming returns parts that carry the whole
    request to configured solutions; dynamic programming returns none. *)
Theorem Distribute_carries source destination c e :
  dense (STORAGE_SOLUTIONS c) -> STORAGE_SOLUTIONS c <> [] -> maps_ok c (maps e) ->
  0 <= sequence (sequence_calls e) < 2 ^ 64 -> 0 <= rand (rand_calls e) < 2 ^ 31 ->
  exists ds e',
    Distribute source destination (c, e) = (Ok ds, (c, e')) /\ maps_ok c (maps e') /\
    match DATA_DISTRIBUTION_POLICY c with
    | DYNAMIC_PROGRAMMING_POLICY => ds = []
    | _ => carries source destination c ds
    end.
Proof. apply Distribute_parts. Qed.

End engines.
