(* ===== verification/Metadata.v ===== *)
(** * Metadata: src/symbios/metadata_orchestrator/metadata_orchestrator.cpp

    The metadata of an object is stored as the object "<id>_meta": in the
    store of the request's storage index (primary) with one link per segment
    of MAX_OBJ_SIZE bytes, and in every other configured store with one link,
    of key -1, to the primary.  [Locate] follows the link and splits a request
    into one distribution per segment; [Store] extends the links; [Delete]
    removes the metadata objects.  The state is the world of the stores. *)

From S2P Require Import Prelude CText Effects Types Services IOClient World Msgpack Config.

Section orchestrator.
Context {R M : Type} `{RedisService R} `{MongoService M} `{Msgpack}.
Context (c : Conf).

(** [MAX_OBJ_SIZE] is a [long]; next to a [size_t] it converts. *)
Definition max_obj : Z := u64 (MAX_OBJ_SIZE c).

Definition meta_id (id : string) : string := id +:+ "_meta".
Definition segment_id (id : string) (segment : Z) : string := id +:+ to_string segment.

(** [GetIOClient (index)->op (...)]. *)
Definition on_client {A} (storage_index : Z) (op : IOClient (World R M) -> ST (World R M) A)
    : ST (World R M) A :=
  cl ← lift (GetIOClient (STORAGE_SOLUTIONS c) storage_index); op cl.

(** Reads and unpacks a metadata object; [Read] is called with the same object
    as source and destination. *)
Definition read_metadata (d : Data) : ST (World R M) Metadata :=
  d' ← on_client (storage_index_ d) (fun cl => Read cl d d);
  s ← lift (mem_read (buffer_ d') 0 (data_size_ d') ≫= defined);
  lift (deserialize s).

(** [Data links[n]; links[key] = value] for every link: a key outside the
    array is written out of bounds. *)
Definition link_array (links : gmap Z Data) : outcome (list Data) :=
  let n := Z.of_nat (size links) in
  if forallb (fun e => (0 <=? e.1) && (e.1 <? n)) (map_to_list links)
  then Ok ((fun i => default Data0 (links !! i)) <$> seqZ 0 n)
  else Undefined OutOfBounds.

(** The loop over the segments; [links] are those from index [i] on.
    [destination_position] is an [int]. *)
Fixpoint locate_loop (get_all : bool) (end_segment i : Z) (links : list Data)
    (start_offset size_left destination_position : Z) : list DataDistribution :=
  match links with
  | [] => []
  | link :: links' =>
      if get_all || (i <=? end_segment) then
        let relative_offset := if get_all then 0 else start_offset mod max_obj in
        let room := max_obj -u relative_offset in
        let n := if size_left <? room then size_left else room in
        let source := set_data_size n (set_position relative_offset link) in
        let destination := set_data_size n (set_position (u64 destination_position) link) in
        mkDataDistribution source destination (storage_index_ source) ::
        locate_loop get_all end_segment (i + 1) links' (start_offset +u n) (size_left -u n)
          (i32 (destination_position + n))
      else []
  end.

(** The distributions of a request over the links of the primary metadata. *)
Definition locate_segments (request : Data) (links : list Data) : list DataDistribution :=
  let get_all := data_size_ request =? 0 in
  let start_segment := position_ request / max_obj in
  let end_segment := (position_ request +u data_size_ request) / max_obj in
  let i := u64 (i32 start_segment) in
  if i <? zlen links then
    locate_loop get_all end_segment i (drop (Z.to_nat i) links)
      (position_ request) (data_size_ request) 0
  else [].

Definition Locate (request : Data) : ST (World R M) (list DataDistribution * Metadata) :=
  let original_metadata :=
    set_storage_index (storage_index_ request) (set_id (meta_id (id_ request)) Data0) in
  metadata ← read_metadata original_metadata;
  primary_metadata ←
    (if is_link_ metadata then read_metadata (default Data0 (links_ metadata !! (-1)))
     else mret metadata);
  if max_obj =? 0 then undefined DivByZero else
  links ← lift (link_array (links_ primary_metadata));
  mret (locate_segments request links, primary_metadata).

(** One distribution of a request whose metadata exists. *)
Definition link_existing (acc : Metadata * bool * list DataDistribution) (d : DataDistribution)
    : Metadata * bool * list DataDistribution :=
  let '(primary, updated, ds) := acc in
  let dest := destination_data_ d in
  let segment := position_ dest / max_obj in
  let relative_segment_offset := position_ dest mod max_obj in
  match links_ primary !! i64 segment with
  | None =>
      let dest' := set_id (segment_id (id_ dest) segment)
                     (set_position relative_segment_offset (set_buffer None dest)) in
      (set_links (<[i64 segment := dest']> (links_ primary)) primary, true,
       ds ++ [set_destination (fun _ => dest') d])
  | Some link =>
      let dest' := set_storage_index (storage_index_ link)
                     (set_position relative_segment_offset (set_id (id_ link) dest)) in
      (primary, updated, ds ++ [set_destination (fun _ => dest') d])
  end.

(** One distribution of a new object; an inserted link stays. *)
Definition link_new (acc : Metadata * list DataDistribution) (d : DataDistribution)
    : Metadata * list DataDistribution :=
  let '(primary, ds) := acc in
  let dest := destination_data_ d in
  let segment := position_ dest / max_obj in
  let dest' := set_id (segment_id (id_ dest) segment)
                 (set_position (position_ dest mod max_obj) dest) in
  let links := match links_ primary !! i64 segment with
               | Some _ => links_ primary
               | None => <[i64 segment := set_buffer None dest']> (links_ primary)
               end in
  (set_links links primary, ds ++ [set_destination (fun _ => dest') d]).

(** Packs [m] and writes it as the object [d]; the written [Data] is returned
    with its size and a null buffer. *)
Definition write_metadata (m : Metadata) (d : Data) : ST (World R M) Data :=
  s ← lift (serialize m);
  let d' := set_buffer (Some (Some <$> s)) (set_data_size (zlen s) d) in
  d'' ← on_client (storage_index_ d') (fun cl => Write cl d' d');
  mret (set_buffer None d'').

(** The loop that writes the link to every store but the primary one; one
    [Data] is reused. *)
Fixpoint write_links (primary_index : Z) (solutions : solution_map) (link_meta : Data)
    : ST (World R M) unit :=
  match solutions with
  | [] => mret ()
  | (i, _) :: solutions' =>
      if i =? primary_index then write_links primary_index solutions' link_meta
      else
        let d := set_storage_index i link_meta in
        d' ← on_client i (fun cl => Write cl d d);
        write_links primary_index solutions' d'
  end.

Definition Store (original_request : Data) (distributions : list DataDistribution)
    : ST (World R M) (list DataDistribution) :=
  existing ← try_catch catches_ErrorException
               (r ← Locate original_request; mret (Some r.2))
               (mret None);
  if (max_obj =? 0) && (0 <? zlen distributions) then undefined DivByZero else
  match existing with
  | Some primary =>
      let '(primary', updated, ds) := foldl link_existing (primary, false, []) distributions in
      let original_metadata :=
        set_storage_index (meta_storage_index_ primary') (set_id (meta_id (id_ original_request)) Data0) in
      (if updated : bool then write_metadata primary' original_metadata;; mret () else mret ());;
      mret ds
  | None =>
      let primary := mkMetadata false (storage_index_ original_request) ∅ in
      let '(primary', ds) := foldl link_new (primary, []) distributions in
      let original_metadata :=
        set_storage_index (meta_storage_index_ primary') (set_id (meta_id (id_ original_request)) Data0) in
      original_metadata ← write_metadata primary' original_metadata;
      let link_metadata := mkMetadata true (meta_storage_index_ Metadata0) {[ -1 := original_metadata ]} in
      s ← lift (serialize link_metadata);
      let link_meta := set_buffer (Some (Some <$> s)) (set_data_size (zlen s)
                         (set_id (meta_id (id_ original_request)) Data0)) in
      write_links (storage_index_ original_request) (STORAGE_SOLUTIONS c) link_meta;;
      mret ds
  end.

Definition Delete (request : Data) : ST (World R M) bool :=
  for_each (fun e =>
    on_client e.1 (fun cl =>
      Remove cl (set_storage_index e.1 (set_id (meta_id (id_ request)) Data0)));;
    mret ()) (STORAGE_SOLUTIONS c);;
  mret true.

End orchestrator.
