(* ===== verification/MetadataSpec.v ===== *)
(** * MetadataSpec: what the orchestrator keeps in the stores

    [stored w id v] describes an object of one segment: its data under
    "<id>0" in the store its link names, its primary metadata under "<id>_meta"
    in the store of the index it was created through, and a link to it in every
    other configured store.  [absent w id] is an object that does not exist.
    The lemmas give [Locate], [Store] and [Delete] on both. *)

From S2P Require Import Prelude CText Effects Types Services KeyValueSpec IOClient World.
From S2P Require Import Msgpack Config Metadata.

(** ** Keys *)

Lemma last_char_app s c : last (chars (s +:+ String c EmptyString)) = Some c.
Proof. rewrite chars_app. apply last_snoc. Qed.

Lemma meta_id_inj id id' : meta_id id = meta_id id' -> id = id'.
Proof.
  unfold meta_id. intros E. apply chars_inj. apply (f_equal String.list_ascii_of_string) in E.
  rewrite !chars_app in E. by simplify_list_eq.
Qed.

Lemma segment_id_inj id id' n : segment_id id n = segment_id id' n -> id = id'.
Proof.
  unfold segment_id. intros E. apply chars_inj. apply (f_equal String.list_ascii_of_string) in E.
  rewrite !chars_app in E. by simplify_list_eq.
Qed.

Lemma segment_meta id id' : segment_id id 0 <> meta_id id'.
Proof.
  unfold segment_id, meta_id. intros E. apply (f_equal String.list_ascii_of_string) in E.
  apply (f_equal last) in E. rewrite !chars_app in E. simpl in E.
  rewrite last_app in E. rewrite last_app in E. by simpl in E.
Qed.

Section spec.
Context {R M : Type} `{RedisLaws R} `{MongoLaws M} `{MsgpackLaws}.
Context (c : Conf).
Implicit Types w : World R M.

(** The store of a configured index. *)
Definition type_at (i : Z) (ty : IOClientType) : Prop :=
  exists s, find_solution i (STORAGE_SOLUTIONS c) = Some (Some s) /\ io_client_type_ s = ty.

(** One storage solution per type: the clients are singletons, so two
    solutions of one type would share their objects. *)
Definition types_distinct : Prop := forall i j ty, type_at i ty -> type_at j ty -> i = j.

Record conf_ok : Prop := {
  conf_dense : dense (STORAGE_SOLUTIONS c);
  conf_distinct : types_distinct;
  conf_max : 0 < MAX_OBJ_SIZE c <= transfer_max;
}.

Lemma type_at_unique i ty ty' : type_at i ty -> type_at i ty' -> ty = ty'.
Proof. intros (s & E & <-) (s' & E' & <-). congruence. Qed.

Lemma max_obj_ok : conf_ok -> max_obj c = MAX_OBJ_SIZE c.
Proof. intros [_ _ Hm]. unfold max_obj, transfer_max in *. apply u64_small. lia. Qed.

Lemma on_client_ok {A} i ty (op : IOClient (World R M) -> ST (World R M) A) w :
  type_at i ty -> on_client c i op w = op (client ty) w.
Proof.
  intros (s & E & <-). unfold on_client. erewrite st_bind_Ok; [done|].
  unfold lift. by rewrite (GetIOClient_ok _ _ s).
Qed.

Lemma read_metadata_ok w d ty v md :
  world_up w -> type_at (storage_index_ d) ty -> wobj w ty (id_ d) = Some v ->
  position_ d = 0 -> v <> [] -> zlen v <= transfer_max ->
  data_size_ d = 0 \/ data_size_ d = zlen v -> deserialize v = Ok md ->
  read_metadata c d w = (Ok md, w).
Proof.
  intros Hu Ht Ho Hp Hne Hv Hd Hm. pose proof (zlen_pos _ Hne).
  assert (wanted (data_size_ d) v = zlen v) as Hw.
  { unfold wanted. zcases; [done|]. by destruct Hd. }
  unfold read_metadata. erewrite st_bind_Ok.
  2: { rewrite (on_client_ok _ ty) by done.
       apply (world_read ty w d d v (zlen v)); rewrite ?Hp, ?wreads_0; (done || lia). }
  cbn [buffer_ data_size_ set_data_size set_buffer]. rewrite Hp, slice_whole.
  erewrite st_bind_Ok; [|unfold lift; by rewrite whole_bytes]. unfold lift. by rewrite Hm.
Qed.

Lemma read_metadata_missing w d ty :
  world_up w -> type_at (storage_index_ d) ty -> wobj w ty (id_ d) = None ->
  exists e, read_metadata c d w = (Throw (ErrorException e), w).
Proof.
  intros Hu Ht Ho. destruct (world_read_missing ty w d d Hu Ho) as (e & E).
  exists e. unfold read_metadata. eapply st_bind_Throw. by rewrite (on_client_ok _ ty).
Qed.

(** ** Objects of one segment *)

(** The metadata objects: the primary one and the links to it. *)
Record meta_stored w (id : string) (p : Z) (tp : IOClientType) (link : Data) : Prop := {
  st_primary : type_at p tp;
  st_meta : exists s, wobj w tp (meta_id id) = Some s /\ s <> [] /\ zlen s <= transfer_max /\
    deserialize s = Ok (mkMetadata false p {[ 0 := link ]}) /\
    (forall i ti, type_at i ti -> i <> p -> exists ls o,
       wobj w ti (meta_id id) = Some ls /\ ls <> [] /\ zlen ls <= transfer_max /\
       deserialize ls = Ok (mkMetadata true 0 {[ (-1) := o ]}) /\
       id_ o = meta_id id /\ position_ o = 0 /\ data_size_ o = zlen s /\ storage_index_ o = p);
}.

Record stored w (id : string) (v : list ascii) (p : Z) (tp : IOClientType) (link : Data)
    (tk : IOClientType) : Prop := {
  st_metadata : meta_stored w id p tp link;
  st_link : id_ link = segment_id id 0;
  st_home : type_at (storage_index_ link) tk;
  st_data : wobj w tk (segment_id id 0) = Some v;
  st_elsewhere : forall ty, ty <> tk -> wobj w ty (segment_id id 0) = None;
}.

Lemma meta_stored_frame w w' id p tp link :
  (forall ty, wobj w' ty (meta_id id) = wobj w ty (meta_id id)) ->
  meta_stored w id p tp link -> meta_stored w' id p tp link.
Proof.
  intros F [Hp (s & E & Hne & Hs & Ed & Hl)]. split; [done|]. exists s. rewrite F.
  do 4 (split; [done|]). intros i ti Hi Hip. destruct (Hl i ti Hi Hip) as (ls & o & ?).
  exists ls, o. by rewrite F.
Qed.

Definition absent w (id : string) : Prop :=
  (forall i ti, type_at i ti -> wobj w ti (meta_id id) = None) /\
  (forall ty, wobj w ty (segment_id id 0) = None).

Lemma link_array_one link : link_array {[ 0 := link ]} = Ok [link].
Proof.
  unfold link_array. rewrite map_to_list_singleton, map_size_singleton. simpl.
  by rewrite lookup_singleton_eq.
Qed.

(** [Locate] through any configured index finds the primary metadata. *)
Lemma Locate_stored w id p tp link request i ti :
  conf_ok -> world_up w -> meta_stored w id p tp link ->
  id_ request = id -> storage_index_ request = i -> type_at i ti ->
  Locate c request w =
    (Ok (locate_segments c request [link], mkMetadata false p {[ 0 := link ]}), w).
Proof.
  intros Hc Hu [Hp (s & Es & Hne & Hs & Ed & Hlinks)] Hid Hi Hti.
  assert (read_metadata c (set_storage_index p (set_id (meta_id id) Data0)) w =
            (Ok (mkMetadata false p {[0 := link]}), w)) as Hprim.
  { apply (read_metadata_ok _ _ tp s); (done || by left). }
  assert ((max_obj c =? 0) = false) as Hmax.
  { rewrite max_obj_ok by done. pose proof (conf_max Hc). zcases; [lia|done]. }
  unfold Locate. rewrite Hid, Hi. destruct (decide (i = p)) as [->|Hip].
  - st_step Hprim. cbn [is_link_]. erewrite st_bind_Ok by done. rewrite Hmax.
    erewrite st_bind_Ok; [done|]. unfold lift. cbn [links_]. by rewrite link_array_one.
  - destruct (Hlinks i ti Hti Hip) as (ls & o & E1 & E2 & E3 & E4 & E5 & E6 & E7 & E8).
    erewrite st_bind_Ok.
    2: { apply (read_metadata_ok _ _ ti ls); (done || by left). }
    cbn [is_link_ links_]. rewrite lookup_singleton_eq. cbn [default].
    erewrite st_bind_Ok.
    2: { apply (read_metadata_ok _ o tp s); rewrite ?E5, ?E6, ?E7, ?E8; (done || by right). }
    rewrite Hmax. erewrite st_bind_Ok; [done|]. unfold lift. cbn [links_]. by rewrite link_array_one.
Qed.

Lemma Locate_absent w request ti :
  world_up w -> absent w (id_ request) -> type_at (storage_index_ request) ti ->
  exists e, Locate c request w = (Throw (ErrorException e), w).
Proof.
  intros Hu [Hm _] Ht.
  destruct (read_metadata_missing w
    (set_storage_index (storage_index_ request) (set_id (meta_id (id_ request)) Data0)) ti)
    as (e & E); [done|done|by eapply Hm|].
  exists e. unfold Locate. by st_step E.
Qed.

(** ** Writing metadata *)

Lemma write_whole w d ty s :
  world_up w -> type_at (storage_index_ d) ty -> position_ d = 0 ->
  buffer_ d = Some (Some <$> s) -> data_size_ d = zlen s -> s <> [] -> zlen s <= transfer_max ->
  wobj w ty (id_ d) = None ->
  exists w', on_client c (storage_index_ d) (fun cl => Write cl d d) w = (Ok d, w') /\
    updates w w' ty (id_ d) (Some s).
Proof.
  intros Hu Ht Hp Hb Hd Hne Hs Ho. pose proof (zlen_pos _ Hne). unfold transfer_max in *.
  destruct (world_write ty w d d (Some <$> s) s) as (w' & E & F);
    rewrite ?Hp, ?Ho, ?zlen_fmap, ?wexact_0; try done; try lia.
  - by rewrite slice_fmap, slice_whole.
  - exists w'. rewrite (on_client_ok _ ty) by done. split; [done|].
    rewrite Hp, Ho in F. unfold exact_value in F. simpl in F. by rewrite splice_nil in F.
Qed.

Lemma write_metadata_ok w m d ty s :
  world_up w -> serialize m = Ok s -> s <> [] -> zlen s <= transfer_max ->
  type_at (storage_index_ d) ty -> position_ d = 0 -> buffer_ d = None ->
  wobj w ty (id_ d) = None ->
  exists w', write_metadata c m d w = (Ok (set_data_size (zlen s) d), w') /\
    updates w w' ty (id_ d) (Some s).
Proof.
  intros Hu Hm Hne Hs Ht Hp Hb Ho.
  destruct (write_whole w (set_buffer (Some (Some <$> s)) (set_data_size (zlen s) d)) ty s)
    as (w' & E & F); try done.
  exists w'. split; [|done]. unfold write_metadata. rewrite Hm. unfold lift at 1.
  erewrite st_bind_Ok by done. cbn zeta. st_step E. destruct d; simpl in *; by subst.
Qed.

(** The keys of [solutions] other than [p] are configured, distinct, and
    their stores have no object [key]. *)
Definition links_free w (p : Z) (solutions : solution_map) (key : string) : Prop :=
  NoDup solutions.*1 /\
  forall i, i ∈ solutions.*1 -> i <> p -> exists ty, type_at i ty /\ wobj w ty key = None.

Lemma write_links_ok w p solutions d s :
  types_distinct -> world_up w -> links_free w p solutions (id_ d) ->
  position_ d = 0 -> buffer_ d = Some (Some <$> s) -> data_size_ d = zlen s ->
  s <> [] -> zlen s <= transfer_max ->
  exists w', write_links c p solutions d w = (Ok (), w') /\ world_up w' /\
    (forall i ty, i ∈ solutions.*1 -> i <> p -> type_at i ty -> wobj w' ty (id_ d) = Some s) /\
    (forall ty k, (k <> id_ d \/ forall i, i ∈ solutions.*1 -> i <> p -> ~ type_at i ty) ->
       wobj w' ty k = wobj w ty k).
Proof.
  intros Hdist. revert w d. induction solutions as [|[i t] solutions IH]; intros w d Hu Hfree Hp Hb Hd Hne Hs.
  { exists w. split; [done|]. split; [done|]. split; [|done].
    intros i ty Hi. by apply not_elem_of_nil in Hi. }
  destruct Hfree as [Hnd Hfree]. csimpl in *. apply NoDup_cons in Hnd as [Hi Hnd].
  destruct (Z.eqb_spec i p) as [->|Hip].
  - destruct (IH w d) as (w' & E & U & G1 & G2); try done.
    { split; [done|]. intros j Hj Hjp. apply Hfree; [by right|done]. }
    exists w'. split; [done|]. split; [done|]. split.
    + intros j ty [->|Hj]%elem_of_cons Hjp; [done|by apply (G1 j)].
    + intros ty k [?|Hk]; apply G2; [by left|]. right. intros j Hj. apply Hk. by right.
  - destruct (Hfree i) as (ty & Hty & Hfr); [by left|done|].
    destruct (write_whole w (set_storage_index i d) ty s) as (w1 & E1 & U1 & O1 & F1); try done.
    destruct (IH w1 (set_storage_index i d)) as (w' & E & U & G1 & G2); try done.
    { split; [done|]. intros j Hj Hjp. destruct (Hfree j) as (tj & Htj & Hfj); [by right|done|].
      exists tj. split; [done|]. rewrite F1; [done|]. intros [= ->].
      rewrite (Hdist i j ty Hty Htj) in Hi. done. }
    exists w'. change (storage_index_ (set_storage_index i d)) with i in E1. st_step E1.
    split; [done|]. split; [done|]. split.
    + intros j tj [->|Hj]%elem_of_cons Hjp Htj; [|by apply (G1 j)].
      rewrite (type_at_unique i tj ty Htj Hty). rewrite G2; [done|]. right.
      intros j Hj _ Htj'. rewrite (Hdist i j ty Hty Htj') in Hi. done.
    + intros tk k Hk. rewrite G2.
      * apply F1. intros [= -> ->]. destruct Hk as [?|Hk]; [done|]. apply (Hk i); [by left|done..].
      * destruct Hk as [?|Hk]; [by left|]. right. intros j Hj. apply Hk. by right.
Qed.

(** ** The operations *)

Lemma type_at_range i ty : conf_ok -> type_at i ty -> 0 <= i < 2 ^ 15.
Proof.
  intros [Hd _ _] (s & E & _). pose proof Hd as [Hn _].
  pose proof (dense_range _ _ _ Hd (find_solution_in _ _ _ E)). lia.
Qed.

Lemma type_at_key i ty : type_at i ty -> i ∈ (STORAGE_SOLUTIONS c).*1.
Proof.
  intros (s & E & _). apply list_elem_of_fmap. exists (i, Some s). split; [done|].
  by apply find_solution_in.
Qed.

Lemma key_type_at i : conf_ok -> i ∈ (STORAGE_SOLUTIONS c).*1 -> exists ty, type_at i ty.
Proof.
  intros [Hd _ _] ([j s] & -> & Hin)%list_elem_of_fmap. simpl.
  destruct (dense_find _ j Hd) as (s' & E); [by eapply dense_range|]. by exists (io_client_type_ s'), s'.
Qed.

Lemma zlen_meta_id id : zlen (chars (meta_id id)) = zlen (chars id) + 5.
Proof. unfold meta_id. rewrite chars_app, zlen_app. done. Qed.

Lemma zlen_segment_id id : zlen (chars (segment_id id 0)) = zlen (chars id) + 1.
Proof. unfold segment_id. rewrite chars_app, zlen_app. done. Qed.

(** Metadata with one link packs into a non-empty text that unpacks to it. *)
Lemma serialize_one b p k d :
  is_u16 p -> - 2 ^ 63 <= k < 2 ^ 63 -> link_ok d -> zlen (chars (id_ d)) <= 2 ^ 20 ->
  exists s, serialize (mkMetadata b p {[ k := d ]}) = Ok s /\ s <> [] /\ zlen s <= transfer_max /\
    deserialize s = Ok (mkMetadata b p {[ k := d ]}).
Proof.
  intros Hp Hk Hd Hl.
  assert (Metadata_ok (mkMetadata b p {[ k := d ]})) as Hok.
  { split; [done|]. by apply map_Forall_singleton. }
  destruct (deserialize_serialize _ Hok) as (s & Es & Hne & Hds).
  exists s. split; [done|]. split; [done|]. split.
  - pose proof (serialize_bytes (mkMetadata b p {[ k := d ]}) k d s eq_refl Hok Es).
    unfold transfer_max. lia.
  - specialize (Hds []). by rewrite app_nil_r in Hds.
Qed.

(** The only distribution of a new object, at offset 0. *)
Lemma link_new_first d p :
  0 < max_obj c -> position_ (destination_data_ d) = 0 ->
  let d' := set_destination (set_id (segment_id (id_ (destination_data_ d)) 0)) d in
  link_new c (mkMetadata false p ∅, []) d =
    (mkMetadata false p {[ 0 := set_buffer None (destination_data_ d') ]}, [d']).
Proof.
  intros Hm Hp. destruct d as [src [id pos buf n i] k]. simpl in *. subst pos.
  unfold link_new. simpl. rewrite Z.div_0_l, Z.mod_0_l by lia. done.
Qed.

(** The first store of an object: its metadata appears, nothing else changes. *)
Lemma Store_new w request d tp ty :
  conf_ok -> world_up w -> absent w (id_ request) -> zlen (chars (id_ request)) <= 255 ->
  type_at (storage_index_ request) tp ->
  id_ (destination_data_ d) = id_ request -> position_ (destination_data_ d) = 0 ->
  is_u64 (data_size_ (destination_data_ d)) -> type_at (storage_index_ (destination_data_ d)) ty ->
  let d' := set_destination (set_id (segment_id (id_ request) 0)) d in
  exists w', Store c request [d] w = (Ok [d'], w') /\ world_up w' /\
    meta_stored w' (id_ request) (storage_index_ request) tp (set_buffer None (destination_data_ d')) /\
    (forall ty k, k <> meta_id (id_ request) -> wobj w' ty k = wobj w ty k).
Proof.
  intros Hc Hu Ha Hid Hp Hdi Hdp Hds Hdt d'. pose proof Ha as [Hm _].
  destruct (Locate_absent w request tp Hu Ha Hp) as (e & El).
  pose proof (type_at_range _ _ Hc Hp). pose proof (type_at_range _ _ Hc Hdt).
  pose proof (conf_max Hc) as Hmax. pose proof (max_obj_ok Hc) as Emax.
  set (link := set_buffer None (destination_data_ d')).
  destruct (serialize_one false (storage_index_ request) 0 link) as (s & Es & Hne & Hs & Ed).
  { unfold is_u16; lia. } { lia. }
  { split; [done|]. unfold Data_wf, is_u64, is_u16. simpl. unfold is_u64 in Hds. lia. }
  { subst link. simpl. rewrite zlen_segment_id. lia. }
  set (om := set_storage_index (storage_index_ request) (set_id (meta_id (id_ request)) Data0)).
  destruct (write_metadata_ok w (mkMetadata false (storage_index_ request) {[ 0 := link ]}) om tp s)
    as (w1 & E1 & U1 & O1 & F1); try done; [by eapply Hm|].
  set (om' := set_data_size (zlen s) om).
  destruct (serialize_one true 0 (-1) om') as (ls & Els & Hlne & Hls & Eld).
  { unfold is_u16; lia. } { lia. }
  { split; [done|]. pose proof (zlen_nonneg s). unfold Data_wf, is_u64, is_u16, transfer_max in *. simpl. lia. }
  { subst om' om. simpl. rewrite zlen_meta_id. lia. }
  set (lm := set_buffer (Some (Some <$> ls)) (set_data_size (zlen ls) (set_id (meta_id (id_ request)) Data0))).
  destruct (write_links_ok w1 (storage_index_ request) (STORAGE_SOLUTIONS c) lm ls)
    as (w2 & E2 & U2 & G1 & G2); try done.
  { apply Hc. }
  { split; [apply dense_NoDup, Hc|]. intros i Hi Hip. destruct (key_type_at i Hc Hi) as (ti & Hti).
    exists ti. split; [done|]. rewrite F1; [by eapply Hm|]. intros [= ->].
    by apply Hip, (conf_distinct Hc _ _ tp). }
  exists w2. split; [|split; [done|split]].
  - unfold Store. erewrite st_bind_Ok.
    2: { rewrite (try_catch_Throw _ _ _ _ (ErrorException e) w); [done| |done].
         by apply st_bind_Throw. }
    rewrite Emax. destruct (Z.eqb_spec (MAX_OBJ_SIZE c) 0); [lia|]. cbn [andb foldl].
    rewrite link_new_first, Hdi by (done || lia). fold d' link om. cbn [meta_storage_index_].
    st_step E1. fold om'. change (meta_storage_index_ Metadata0) with 0. rewrite Els. unfold lift at 1. erewrite st_bind_Ok by done.
    fold lm. by st_step E2.
  - split; [done|]. exists s. split.
    { rewrite G2; [done|]. right. intros i _ Hip Hi. by apply Hip, (conf_distinct Hc _ _ tp). }
    do 3 (split; [done|]). intros i ti Hi Hip. exists ls, om'.
    split; [|done]. apply (G1 i); [by eapply type_at_key|done..].
  - intros t k Hk. rewrite G2 by (by left). apply F1. simpl. congruence.
Qed.

(** A store into an existing object changes neither metadata nor data; the
    distribution is redirected to the object's home. *)
Lemma Store_existing w request d p tp link ti :
  conf_ok -> world_up w -> meta_stored w (id_ request) p tp link ->
  type_at (storage_index_ request) ti ->
  0 <= position_ (destination_data_ d) < MAX_OBJ_SIZE c ->
  Store c request [d] w =
    (Ok [set_destination (fun dest => set_storage_index (storage_index_ link) (set_id (id_ link) dest)) d], w).
Proof.
  intros Hc Hu Hs Ht Hp. pose proof (max_obj_ok Hc) as Emax.
  unfold Store. erewrite st_bind_Ok.
  2: { apply try_catch_Ok. erewrite st_bind_Ok; [done|].
       by apply (Locate_stored _ (id_ request) p tp link _ (storage_index_ request) ti). }
  rewrite Emax. destruct (Z.eqb_spec (MAX_OBJ_SIZE c) 0); [lia|]. cbn [andb foldl snd]. unfold link_existing.
  rewrite Emax, Z.div_small, Z.mod_small by lia. cbn [links_].
  change (i64 0) with 0. rewrite lookup_singleton_eq.
  destruct d as [src [id pos buf sz i] k]; done.
Qed.

(** [Delete] removes the metadata everywhere and nothing else. *)
Lemma Delete_ok w request :
  conf_ok -> world_up w ->
  exists w', Delete c request w = (Ok true, w') /\ world_up w' /\
    (forall i ti, type_at i ti -> wobj w' ti (meta_id (id_ request)) = None) /\
    (forall ty k, k <> meta_id (id_ request) -> wobj w' ty k = wobj w ty k).
Proof.
  intros Hc Hu. unfold Delete.
  set (body := fun e : Z * option StorageSolution => _).
  assert (forall sols w, world_up w -> (forall i, i ∈ sols.*1 -> exists ty, type_at i ty) ->
    exists w', for_each body sols w = (Ok (), w') /\ world_up w' /\
      (forall i ti, i ∈ sols.*1 -> type_at i ti -> wobj w' ti (meta_id (id_ request)) = None) /\
      (forall ty, wobj w ty (meta_id (id_ request)) = None -> wobj w' ty (meta_id (id_ request)) = None) /\
      (forall ty k, k <> meta_id (id_ request) -> wobj w' ty k = wobj w ty k)) as G.
  { clear w Hu. induction sols as [|[i t] sols IH]; intros w Hu Hs.
    { exists w. split; [done|]. split; [done|]. split; [|done].
      intros i ti Hi. by apply not_elem_of_nil in Hi. }
    destruct (Hs i) as (ty & Hty); [by left|].
    destruct (world_remove ty w (set_storage_index i (set_id (meta_id (id_ request)) Data0)) Hu)
      as (w1 & E1 & U1 & O1 & F1).
    destruct (IH w1 U1) as (w2 & E2 & U2 & G1 & G2 & G3).
    { intros j Hj. apply Hs. by right. }
    exists w2. split.
    { cbn [for_each]. erewrite st_bind_Ok; [exact E2|]. unfold body. cbn [fst].
      erewrite st_bind_Ok; [done|]. by rewrite (on_client_ok _ ty). }
    split; [done|]. split; [|split].
    - intros j tj [->|Hj]%elem_of_cons Htj; [|by apply (G1 j)].
      apply G2. by rewrite (type_at_unique i tj ty Htj Hty).
    - intros tj Hj. apply G2. destruct (decide (tj = ty)) as [->|]; [done|]. rewrite F1; congruence.
    - intros tj k Hk. rewrite G3 by done. apply F1. simpl. congruence. }
  destruct (G (STORAGE_SOLUTIONS c) w Hu) as (w' & E & U & G1 & _ & G3).
  { intros i. by apply key_type_at. }
  exists w'. split; [by st_step E|]. split; [done|]. split; [|done].
  intros i ti Hi. apply (G1 i); [by eapply type_at_key|done].
Qed.

End spec.
