(* ===== verification/Segments.v ===== *)
(** * Segments: how [Locate] cuts a request

    An object is the concatenation of its segments, all of MAX_OBJ_SIZE bytes
    but the last.  The parts [locate_segments] returns, read from the segments
    they name, are together the requested bytes; behind a range that ends on a
    boundary the whole next segment is read as well. *)

From S2P Require Import Prelude CText Effects Types Config IOClient Metadata.

Section segments.
Context (c : Conf) (X : Z) (HX : max_obj c = X) (HX0 : 0 < X < 2 ^ 62).

(** What a client reads for a part of the segment it names: size zero stands for
    the whole segment. *)
Definition part_bytes (d : DataDistribution) (segment : list ascii) : list ascii :=
  slice (position_ (source_data_ d)) (wanted (data_size_ (source_data_ d)) segment) segment.

(** What is read beyond a range that ends at [end_]: nothing, or the whole segment
    that starts there. *)
Definition segment_behind (segs : list (list ascii)) (end_ : Z) : list ascii :=
  if end_ mod X =? 0 then default [] (segs !! Z.to_nat (end_ / X)) else [].

(** Every segment but the last is full. *)
Fixpoint segmented (segs : list (list ascii)) : Prop :=
  match segs with
  | [] => True
  | [s] => zlen s <= X
  | s :: segs' => zlen s = X /\ segmented segs'
  end.

Lemma segmented_cons s segs :
  segmented (s :: segs) -> (segs = [] \/ zlen s = X) /\ zlen s <= X /\ segmented segs.
Proof. destruct segs; simpl; [auto with lia|]. intros [-> ?]. auto with lia. Qed.

Lemma slice_app_r {A} (l k : list A) off n :
  0 <= off -> off <= zlen l -> zlen l <= off + n ->
  slice off n (l ++ k) = slice off (zlen l - off) l ++ slice 0 (n - (zlen l - off)) k.
Proof.
  intros H1 H2 H3. unfold slice, zlen in *. rewrite drop_app_le by lia.
  rewrite take_app. simpl. rewrite length_drop. f_equal.
  - rewrite !take_ge; [done|rewrite length_drop; lia..].
  - f_equal. lia.
Qed.

Lemma segment_behind_cons s segs end_ :
  0 <= end_ -> segment_behind segs end_ = segment_behind (s :: segs) (end_ + 1 * X).
Proof.
  intros He. unfold segment_behind. rewrite Z.mod_add, Z.div_add by lia.
  assert (0 <= end_ / X) by (apply Z.div_pos; lia). by rewrite Z2Nat.inj_add, Nat.add_1_r by lia.
Qed.

Lemma segment_behind_drop k segs end_ :
  0 <= k -> 0 <= end_ -> segment_behind (drop (Z.to_nat k) segs) end_ = segment_behind segs (end_ + k * X).
Proof.
  intros Hk He. unfold segment_behind. rewrite Z.mod_add, Z.div_add by lia.
  assert (0 <= end_ / X) by (apply Z.div_pos; lia). rewrite lookup_drop, <- Z2Nat.inj_add by lia.
  by rewrite Z.add_comm.
Qed.

Lemma locate_loop_bytes links segs i off r left dpos :
  length links = length segs -> segmented segs -> 0 <= i ->
  off = i * X + r -> 0 <= r < X -> (left = 0 -> r = 0) -> 0 <= left -> r + left <= zlen (mjoin segs) ->
  off + left + X < 2 ^ 63 ->
  mjoin (zip_with part_bytes
    (locate_loop c false ((off + left) / X) i links off left dpos) segs) =
  slice r left (mjoin segs) ++ segment_behind segs (r + left).
Proof.
  revert segs i off r left dpos. induction links as [|link links IH];
    intros segs i off r left dpos Hlen Hseg Hi Hoff Hr Hz Hl Hb Hmax.
  - destruct segs; [|done]. change (zlen (mjoin [])) with 0 in Hb. replace left with 0 by lia.
    unfold segment_behind. by destruct (_ =? _).
  - destruct segs as [|s segs]; [done|]. injection Hlen as Hlen.
    apply segmented_cons in Hseg as (Hs & Hsx & Hseg).
    change (mjoin (s :: segs)) with (s ++ mjoin segs) in *. rewrite zlen_app in Hb.
    assert (i <= (off + left) / X) as Hle by (apply Z.div_le_lower_bound; nia).
    assert (off mod X = r) as Hmod.
    { rewrite Hoff, Z.add_comm, Z.mod_add by lia. by apply Z.mod_small. }
    cbn [locate_loop orb]. rewrite HX, Hmod. destruct (Z.leb_spec i ((off + left) / X)); [|lia].
    rewrite (u64_small (X - r)) by lia.
    change (mjoin (zip_with part_bytes (?d :: ?ds) (s :: segs)))
      with (part_bytes d s ++ mjoin (zip_with part_bytes ds segs)).
    unfold part_bytes at 1. cbn [source_data_ position_ data_size_ set_position set_data_size].
    destruct (Z.ltb_spec left (X - r)) as [Hlt|Hge].
    + assert ((off + left) / X = i) as Hend by (symmetry; apply (Z.div_unique _ _ _ (r + left)); lia).
      rewrite Hend. assert (r + left <= zlen s)
        by (destruct Hs as [->|?]; [change (zlen (mjoin [])) with 0 in Hb|]; lia).
      assert (forall ds : list DataDistribution, ds = [] -> mjoin (zip_with part_bytes ds segs) = []) as Hnil by (by intros ? ->).
      rewrite (Hnil (locate_loop _ _ _ _ _ _ _ _)), app_nil_r
        by (destruct links; [done|]; cbn [locate_loop orb]; by destruct (Z.leb_spec (i + 1) i); [lia|]).
      unfold segment_behind, wanted. rewrite Z.mod_small, Z.div_small by lia.
      destruct (Z.eqb_spec left 0) as [El|].
      * specialize (Hz El). subst left r. change (slice 0 0 (s ++ mjoin segs)) with (@nil ascii).
        by rewrite slice_whole.
      * destruct (Z.eqb_spec (r + left) 0); [lia|]. by rewrite app_nil_r, slice_app_l by lia.
    + assert (zlen s = X) as Es
        by (destruct Hs as [->|?]; [change (zlen (mjoin [])) with 0 in Hb; lia|done]).
      unfold wanted. destruct (Z.eqb_spec (X - r) 0); [lia|].
      rewrite slice_app_r, Es, <- app_assoc by lia. f_equal.
      rewrite !u64_small by lia.
      replace ((off + left) / X) with ((off + (X - r) + (left - (X - r))) / X) by (f_equal; lia).
      rewrite (IH segs (i + 1) (off + (X - r)) 0); try done; try lia. f_equal.
      replace (r + left) with (0 + (left - (X - r)) + 1 * X) by lia. by apply segment_behind_cons; lia.
Qed.

Lemma segmented_drop k segs :
  segmented segs -> (k < length segs)%nat ->
  segmented (drop k segs) /\
  exists pre, mjoin segs = pre ++ mjoin (drop k segs) /\ zlen pre = Z.of_nat k * X.
Proof.
  revert segs. induction k as [|k IH]; intros segs Hs Hk.
  - split; [done|]. by exists [].
  - destruct segs as [|s segs]; simpl in Hk; [lia|].
    apply segmented_cons in Hs as ([->|Es] & _ & Hs); [simpl in Hk; lia|].
    destruct (IH segs Hs) as (Hd & pre & E & Hz); [lia|]. split; [done|].
    exists (s ++ pre). change (mjoin (s :: segs)) with (s ++ mjoin segs). simpl drop.
    rewrite E, <- app_assoc, zlen_app, Hz, Es. split; [done|]. lia.
Qed.

Lemma segmented_length segs : segmented segs -> zlen (mjoin segs) <= X * zlen segs.
Proof.
  induction segs as [|s segs IH]; intros Hs; [unfold zlen; simpl; lia|].
  apply segmented_cons in Hs as (_ & Hx & Hs). change (mjoin (s :: segs)) with (s ++ mjoin segs).
  rewrite zlen_app, zlen_cons. specialize (IH Hs). lia.
Qed.

Lemma slice_skip {A} (pre l : list A) off n :
  zlen pre <= off -> slice off n (pre ++ l) = slice (off - zlen pre) n l.
Proof.
  intros Hp. unfold slice, zlen in *. rewrite drop_app_ge by lia. do 2 f_equal. lia.
Qed.

(** The request as one run of the loop. *)
Lemma locate_segments_loop request links :
  0 < data_size_ request -> 0 <= position_ request ->
  position_ request + data_size_ request < 2 ^ 63 ->
  position_ request / X < zlen links -> zlen links < 2 ^ 31 ->
  locate_segments c request links =
    locate_loop c false ((position_ request + data_size_ request) / X) (position_ request / X)
      (drop (Z.to_nat (position_ request / X)) links) (position_ request) (data_size_ request) 0.
Proof.
  intros Hn Hp Hb Hk Hl. assert (0 <= position_ request / X) by (apply Z.div_pos; lia).
  unfold locate_segments. rewrite HX, i32_small, !u64_small by lia.
  destruct (Z.eqb_spec (data_size_ request) 0); [lia|].
  destruct (Z.ltb_spec (position_ request / X) (zlen links)); [done|lia].
Qed.


(** Each part goes behind the previous ones. *)
Fixpoint destinations_from (p : Z) (ds : list DataDistribution) : Prop :=
  match ds with
  | [] => True
  | d :: ds' =>
      position_ (destination_data_ d) = p /\
      data_size_ (destination_data_ d) = data_size_ (source_data_ d) /\
      storage_index_ (destination_data_ d) = storage_index_ (source_data_ d) /\
      destinations_from (p + data_size_ (source_data_ d)) ds'
  end.

Lemma locate_loop_destinations e i links off left dpos :
  0 <= left -> 0 <= dpos -> dpos + left < 2 ^ 31 ->
  destinations_from dpos (locate_loop c false e i links off left dpos).
Proof.
  revert i off left dpos. induction links as [|link links IH]; intros i off left dpos Hl Hd Hb; [done|].
  cbn [locate_loop orb]. destruct (i <=? e); [|done]. rewrite HX.
  pose proof (Z.mod_pos_bound off X ltac:(lia)). rewrite (u64_small (X - off mod X)) by lia.
  cbn [destinations_from destination_data_ source_data_ position_ data_size_ storage_index_
       set_data_size set_position].
  rewrite (u64_small dpos) by lia. do 3 (split; [done|]).
  destruct (Z.ltb_spec left (X - off mod X)).
  - rewrite i32_small, Z.sub_diag by lia. change (u64 0) with 0. apply IH; lia.
  - rewrite i32_small by lia. rewrite (u64_small (left - _)) by lia. apply IH; lia.
Qed.

(** C9: the parts fill the caller's buffer without gap or overlap: each starts where
    the one before it ends. *)
Theorem locate_segments_destinations request links :
  0 < data_size_ request < 2 ^ 31 -> 0 <= position_ request ->
  position_ request + data_size_ request < 2 ^ 63 ->
  position_ request / X < zlen links -> zlen links < 2 ^ 31 ->
  destinations_from 0 (locate_segments c request links).
Proof. intros. rewrite locate_segments_loop by lia. apply locate_loop_destinations; lia. Qed.

(** A request that ends where a segment starts gets one part too many, of size
    zero, which the clients read as the whole object. *)
Lemma locate_loop_boundary e i links off left dpos r :
  off = i * X + r -> 0 <= r < X -> 0 <= left -> off + left = e * X -> 0 <= i <= e ->
  e < i + zlen links -> off + left + X < 2 ^ 63 ->
  exists d, last (locate_loop c false e i links off left dpos) = Some d /\
    data_size_ (source_data_ d) = 0 /\ position_ (source_data_ d) = 0.
Proof.
  revert i off left dpos r. induction links as [|link links IH];
    intros i off left dpos r Hoff Hr Hl He Hi Hb Hmax; [rewrite zlen_nil in Hb; lia|].
  rewrite zlen_cons in Hb.
  assert (off mod X = r) as Hmod.
  { rewrite Hoff, Z.add_comm, Z.mod_add by lia. by apply Z.mod_small. }
  cbn [locate_loop orb]. destruct (Z.leb_spec i e); [|lia]. rewrite HX, Hmod.
  rewrite (u64_small (X - r)) by lia. destruct (Z.ltb_spec left (X - r)).
  - assert (e = i) as -> by nia. assert (left = 0) as -> by lia. assert (r = 0) as -> by lia.
    destruct links as [|link' links]; [by eexists|]. cbn [locate_loop orb].
    destruct (Z.leb_spec (i + 1) i); [lia|by eexists].
  - assert (i < e) by nia. rewrite (u64_small (off + (X - r))), (u64_small (left - (X - r))) by lia.
    destruct (IH (i + 1) (off + (X - r)) (left - (X - r)) (i32 (dpos + (X - r))) 0) as (d & Ed & Hd);
      [lia..|]. exists d. split; [|done]. by rewrite last_cons, Ed.
Qed.

(** A request that ends on a segment boundary gets one part too many, of size
    zero, which the clients read as the whole next segment. *)
Theorem locate_boundary_whole_object request links e :
  0 < data_size_ request -> 0 <= position_ request ->
  position_ request + data_size_ request = e * X -> 0 < e < zlen links ->
  zlen links < 2 ^ 31 -> (e + 1) * X < 2 ^ 63 ->
  exists d, last (locate_segments c request links) = Some d /\
    data_size_ (source_data_ d) = 0 /\ position_ (source_data_ d) = 0.
Proof.
  intros Hn Hp He Hl Hs Hb. pose proof (Z.mod_pos_bound (position_ request) X ltac:(lia)).
  pose proof (Z.div_mod (position_ request) X ltac:(lia)).
  assert (0 <= position_ request / X) by (apply Z.div_pos; lia).
  assert (position_ request / X < e) by (apply Z.div_lt_upper_bound; nia).
  rewrite locate_segments_loop by lia. rewrite He, Z.div_mul by lia.
  apply (locate_loop_boundary _ _ _ _ _ _ (position_ request mod X)); try lia.
  unfold zlen in *. rewrite length_drop. lia.
Qed.

End segments.
