(* ===== verification/Chunks.v ===== *)
(** * Chunks: an object as the sequence of its segments

    [chunk X i v] are the bytes of segment [i] of the object [v], for segments of
    [X] bytes.  A write that stays inside one segment changes that chunk and no
    other, the chunks in order are the object, and the parts [Locate] returns for
    a range begin with the bytes of the range also when the last one reads a
    segment too many. *)

From S2P Require Import Prelude CText Effects Types Config KeyValueSpec IOClient Metadata Segments.

Definition chunk (X i : Z) (v : list ascii) : list ascii := slice (i * X) X v.

(** The number of segments. *)
Definition segments (X : Z) (v : list ascii) : Z := (zlen v + X - 1) / X.

Definition chunks (X : Z) (v : list ascii) : list (list ascii) :=
  (fun i => chunk X i v) <$> seqZ 0 (segments X v).

Lemma lookup_slice {A} off n (l : list A) (i : nat) :
  slice off n l !! i = if decide (i < Z.to_nat n)%nat then l !! (Z.to_nat off + i)%nat else None.
Proof.
  unfold slice. case_decide; [rewrite lookup_take_lt by lia; apply lookup_drop|].
  by rewrite lookup_take_ge by lia.
Qed.

Lemma lookup_zlen {A} (l : list A) (i : nat) : Z.of_nat i < zlen l -> exists x, l !! i = Some x.
Proof. intros H. apply lookup_lt_is_Some. unfold zlen in H. lia. Qed.

Section chunks.
Context (X : Z) (HX : 0 < X).
Implicit Types v b : list ascii.

Lemma zlen_chunk i v : 0 <= i -> zlen (chunk X i v) = Z.max 0 (Z.min X (zlen v - i * X)).
Proof.
  intros Hi. unfold chunk, slice, zlen. rewrite length_take, length_drop. nia.
Qed.

Lemma chunk_present i v : 0 <= i -> i * X < zlen v -> 0 < zlen (chunk X i v) <= X.
Proof. intros Hi Hv. rewrite zlen_chunk by done. lia. Qed.

Lemma chunk_beyond i v : 0 <= i -> zlen v <= i * X -> chunk X i v = [].
Proof. intros Hi Hv. apply nil_length_inv. pose proof (zlen_chunk i v Hi). unfold zlen in *. lia. Qed.

(** *** Writing inside a segment *)

Lemma chunk_written k r b v :
  0 <= k -> 0 <= r -> r + zlen b <= X ->
  chunk X k (splice nul (k * X + r) b v) = splice nul r b (chunk X k v).
Proof.
  intros Hk Hr Hb. pose proof (zlen_nonneg b). assert (0 <= k * X) by nia. apply list_eq. intros i. unfold chunk.
  rewrite lookup_slice, !lookup_splice, lookup_slice by lia.
  assert (Z.of_nat (Z.to_nat (k * X) + i) = k * X + Z.of_nat i) as -> by lia.
  destruct (decide (i < Z.to_nat X)%nat).
  - destruct (decide (k * X + Z.of_nat i < k * X + r)), (decide (Z.of_nat i < r)); try lia; [done|].
    destruct (decide (k * X + Z.of_nat i < k * X + r + zlen b)), (decide (Z.of_nat i < r + zlen b));
      try lia; [|done]. f_equal. lia.
  - rewrite (decide_False (P := Z.of_nat i < r)) by lia.
    by rewrite (decide_False (P := Z.of_nat i < r + zlen b)) by lia.
Qed.

Lemma chunk_kept j k r b v :
  0 <= j -> 0 <= k -> j <> k -> 0 <= r -> r + zlen b <= X -> k * X + r <= zlen v ->
  chunk X j (splice nul (k * X + r) b v) = chunk X j v.
Proof.
  intros Hj Hk Hne Hr Hb Hv. assert (0 <= k * X) by nia. apply list_eq. intros i. unfold chunk.
  rewrite !lookup_slice, lookup_splice by lia. destruct (decide (i < Z.to_nat X)%nat); [|done].
  assert (0 <= j * X) by nia.
  assert (Z.of_nat (Z.to_nat (j * X) + i) = j * X + Z.of_nat i) as E by lia. rewrite E.
  destruct (decide (j * X + Z.of_nat i < k * X + r)).
  - destruct (lookup_zlen v (Z.to_nat (j * X) + i)) as [x ->]; [lia|done].
  - rewrite decide_False; [done|].
    assert ((k + 1) * X <= j * X \/ (j + 1) * X <= k * X) as [] by (assert (k < j \/ j < k) as [] by lia; nia); lia.
Qed.

Lemma segment_written j k r b v :
  0 <= k -> 0 <= r -> 0 < zlen b -> r + zlen b <= X -> k * X + r <= zlen v -> 0 <= j ->
  (j * X < zlen (splice nul (k * X + r) b v) <-> j = k \/ j * X < zlen v).
Proof.
  intros Hk Hr Hb Hs Hv Hj. rewrite zlen_splice by nia. split.
  - intros Hlt. destruct (decide (j = k)); [by left|]. right.
    assert ((k + 1) * X <= j * X \/ (j + 1) * X <= k * X) as [] by (assert (k < j \/ j < k) as [] by lia; nia); lia.
  - intros [->|]; nia.
Qed.

(** *** The chunks together *)

Lemma chunks_prefix (n : nat) v :
  mjoin ((fun i => chunk X i v) <$> seqZ 0 (Z.of_nat n)) = take (Z.to_nat (Z.of_nat n * X)) v.
Proof.
  induction n as [|n IH]; [done|].
  rewrite seqZ_S, fmap_app, join_app, IH. simpl. rewrite app_nil_r. unfold chunk, slice.
  rewrite Z.add_0_l, take_take_drop. f_equal. nia.
Qed.

Lemma segments_nonneg v : 0 <= segments X v.
Proof. unfold segments. apply Z.div_pos; [|lia]. pose proof (zlen_nonneg v). lia. Qed.

Lemma segments_iff i v : i < segments X v <-> i * X < zlen v.
Proof.
  unfold segments. pose proof (Z.div_mod (zlen v + X - 1) X ltac:(lia)) as E.
  pose proof (Z.mod_pos_bound (zlen v + X - 1) X HX). split; nia.
Qed.

Lemma mjoin_chunks v : mjoin (chunks X v) = v.
Proof.
  unfold chunks. rewrite <- (Z2Nat.id (segments X v)) by apply segments_nonneg.
  rewrite chunks_prefix. apply take_ge. rewrite Z2Nat.id by apply segments_nonneg.
  pose proof (segments_iff (segments X v) v). unfold zlen in *. lia.
Qed.

Lemma length_chunks v : length (chunks X v) = Z.to_nat (segments X v).
Proof. unfold chunks. by rewrite length_fmap, length_seqZ. Qed.

Lemma zlen_chunks v : zlen (chunks X v) = segments X v.
Proof. unfold zlen. rewrite length_chunks. pose proof (segments_nonneg v). lia. Qed.

Lemma chunks_lookup (i : nat) v :
  chunks X v !! i = if decide (Z.of_nat i * X < zlen v) then Some (chunk X (Z.of_nat i) v) else None.
Proof.
  unfold chunks. rewrite list_lookup_fmap. case_decide as H.
  - rewrite lookup_seqZ_lt by (by apply segments_iff). simpl. by rewrite Z.add_0_l.
  - rewrite lookup_seqZ_ge; [done|]. apply Z.nlt_ge. by rewrite segments_iff.
Qed.

Lemma segmented_lookup (segs : list (list ascii)) :
  (forall i s, segs !! i = Some s -> zlen s <= X /\ (is_Some (segs !! S i) -> zlen s = X)) ->
  segmented X segs.
Proof.
  induction segs as [|s segs IH]; intros Hs; [done|]. destruct (Hs 0%nat s eq_refl) as [H1 H2].
  assert (segmented X segs) as Hsegs by (apply IH; intros i t Hi; by apply (Hs (S i))).
  destruct segs as [|t segs]; [done|]. split; [|done]. apply H2. by eexists.
Qed.

Lemma chunks_segmented v : segmented X (chunks X v).
Proof.
  apply segmented_lookup. intros i s. rewrite !chunks_lookup. case_decide; [|done]. intros [= <-].
  rewrite zlen_chunk by lia. split; [lia|]. case_decide; [|by intros [? [=]]]. intros _. lia.
Qed.

End chunks.

(** ** The parts of a range *)

Section parts.
Context (c : Conf) (X : Z) (HX : max_obj c = X) (HX0 : 0 < X < 2 ^ 62).

(** The [j]-th part names the [j]-th link and lies inside its segment. *)
Definition part_inside (link : Data) (segment : list ascii) (d : DataDistribution) : Prop :=
  id_ (source_data_ d) = id_ link /\ storage_index_ (destination_data_ d) = storage_index_ link /\
  0 <= position_ (source_data_ d) /\ 0 <= data_size_ (source_data_ d) /\
  (data_size_ (source_data_ d) = 0 -> position_ (source_data_ d) = 0) /\
  position_ (source_data_ d) + data_size_ (source_data_ d) <= zlen segment.

Lemma locate_loop_inside links segs i off r left dpos j d :
  length links = length segs -> segmented X segs -> 0 <= i ->
  off = i * X + r -> 0 <= r < X -> (left = 0 -> r = 0) -> 0 <= left -> r + left <= zlen (mjoin segs) ->
  off + left + X < 2 ^ 63 ->
  locate_loop c false ((off + left) / X) i links off left dpos !! j = Some d ->
  exists link s, links !! j = Some link /\ segs !! j = Some s /\ part_inside link s d.
Proof.
  revert segs i off r left dpos j. induction links as [|link links IH];
    intros segs i off r left dpos j Hlen Hseg Hi Hoff Hr Hz Hl Hb Hmax; [done|].
  destruct segs as [|s segs]; [done|]. injection Hlen as Hlen.
  apply segmented_cons in Hseg as (Hs & Hsx & Hseg).
  change (mjoin (s :: segs)) with (s ++ mjoin segs) in *. rewrite zlen_app in Hb.
  assert (i <= (off + left) / X) as Hle by (apply Z.div_le_lower_bound; nia).
  assert (off mod X = r) as Hmod.
  { rewrite Hoff, Z.add_comm, Z.mod_add by lia. by apply Z.mod_small. }
  cbn [locate_loop orb]. rewrite HX, Hmod. destruct (Z.leb_spec i ((off + left) / X)); [|lia].
  rewrite (u64_small (X - r)) by lia. pose proof (zlen_nonneg s).
  destruct (Z.ltb_spec left (X - r)) as [Hlt|Hge].
  - assert ((off + left) / X = i) as Hend by (symmetry; apply (Z.div_unique _ _ _ (r + left)); lia).
    destruct j as [|j].
    + intros [= <-]. exists link, s. do 2 (split; [done|]). unfold part_inside. cbn. repeat split; try done; try lia.
      destruct Hs as [->|?]; [change (zlen (mjoin [])) with 0 in Hb|]; lia.
    + rewrite Hend. destruct links; [done|]. cbn [locate_loop orb].
      by destruct (Z.leb_spec (i + 1) i); [lia|].
  - assert (zlen s = X) as Es by (destruct Hs as [->|?]; [change (zlen (mjoin [])) with 0 in Hb; lia|done]).
    destruct j as [|j].
    + intros [= <-]. exists link, s. do 2 (split; [done|]). unfold part_inside. cbn. repeat split; done || lia.
    + rewrite (u64_small (off + (X - r))), (u64_small (left - (X - r))) by lia.
      replace ((off + left) / X) with ((off + (X - r) + (left - (X - r))) / X) by (f_equal; lia).
      cbn [lookup list_lookup]. apply (IH segs (i + 1) (off + (X - r)) 0); try done; lia.
Qed.

(** One part per segment from the first to the last. *)
Lemma locate_loop_count e i links off left dpos :
  i <= e + 1 -> zlen (locate_loop c false e i links off left dpos) <= e + 1 - i.
Proof.
  revert i off left dpos. induction links as [|link links IH]; intros i off left dpos Hi; [unfold zlen; simpl; lia|].
  cbn [locate_loop orb]. destruct (Z.leb_spec i e); [|unfold zlen; simpl; lia].
  rewrite zlen_cons. match goal with |- zlen (locate_loop _ _ _ _ _ ?o ?l ?p) + _ <= _ => pose proof (IH (i + 1) o l p) end.
  lia.
Qed.

End parts.
