(* ===== verification/ObjectSpec.v ===== *)
(** * ObjectSpec: objects of any number of segments in the stores

    [object_at w id v p links] describes an object of any size: its segments, each
    in the store its link names, and its primary metadata in the store [p].  The
    links other stores keep to the metadata are not part of it, because they go
    stale when the metadata grow.  The lemmas give [Locate] and [Store] on such
    objects and on absent ones. *)

From S2P Require Import Prelude CText Effects Types Services KeyValueSpec IOClient World.
From S2P Require Import Msgpack Config Metadata MetadataSpec Segments Chunks.

(** ** Keys *)

(** The key of a segment is the name with the number of the segment appended, so
    names that end in a digit may share keys with others. *)
Definition name_ok (id : string) : Prop :=
  zlen (chars id) <= 255 /\
  match last (chars id) with Some ch => digit_val ch = None | None => True end.

Lemma dec_digits n : 0 <= n -> Forall (fun ch => is_Some (digit_val ch)) (dec n).
Proof.
  intros Hn. unfold dec. destruct (Z.ltb_spec n 0); [lia|].
  apply digits_of_Forall; [|done]. intros d Hd. by rewrite digit_val_char.
Qed.

Lemma last_dec n : 0 <= n -> exists ch, last (dec n) = Some ch /\ is_Some (digit_val ch).
Proof.
  intros Hn. destruct (last (dec n)) as [ch|] eqn:E.
  - exists ch. split; [done|]. pose proof (dec_digits n Hn) as F. rewrite Forall_forall in F.
    apply F. by apply last_Some_elem_of.
  - apply last_None in E. by apply dec_nonempty in E.
Qed.

Lemma chars_segment_id id i : chars (segment_id id i) = chars id ++ dec i.
Proof. unfold segment_id. by rewrite chars_app, chars_to_string. Qed.

(** Digits behind a name that ends in none are the number. *)
Lemma digits_behind (a b x y : list ascii) :
  match last a with Some ch => digit_val ch = None | None => True end ->
  Forall (fun ch => is_Some (digit_val ch)) y -> a ++ x = b ++ y -> exists k, b = a ++ k /\ x = k ++ y.
Proof.
  intros Ha Hy E. apply app_eq_inv in E as [(k & -> & E)|(k & -> & E)]; [|by exists k].
  destruct (last k) as [ch|] eqn:Ek.
  - rewrite last_app, Ek in Ha. subst y. apply Forall_app in Hy as [Hk _]. rewrite Forall_forall in Hk.
    destruct (Hk ch) as [? ?]; [by apply last_Some_elem_of|congruence].
  - apply last_None in Ek as ->. exists []. rewrite !app_nil_r. split; [done|]. by simplify_eq/=.
Qed.

Lemma segment_key_inj id id' i j :
  name_ok id -> name_ok id' -> 0 <= i -> 0 <= j -> segment_id id i = segment_id id' j -> id = id' /\ i = j.
Proof.
  intros [_ Hid] [_ Hid'] Hi Hj E. apply (f_equal String.list_ascii_of_string) in E.
  rewrite !chars_segment_id in E.
  destruct (digits_behind _ _ _ _ Hid (dec_digits j Hj) E) as (k & Ek & Ei).
  destruct (digits_behind _ _ _ _ Hid' (dec_digits i Hi) (eq_sym E)) as (k' & Ek' & Ej).
  assert (k = [] /\ k' = []) as [-> ->].
  { apply (f_equal length) in Ek, Ek'. rewrite length_app in Ek, Ek'.
    split; apply nil_length_inv; lia. }
  rewrite app_nil_r in Ek. split; [by apply chars_inj|]. by apply dec_inj.
Qed.

Lemma segment_meta_key id id' i : 0 <= i -> segment_id id i <> meta_id id'.
Proof.
  intros Hi E. apply (f_equal String.list_ascii_of_string) in E. rewrite chars_segment_id in E.
  apply (f_equal last) in E. destruct (last_dec i Hi) as (ch & El & Hd).
  rewrite last_app, El in E. unfold meta_id in E. rewrite chars_app, last_app in E. simpl in E.
  injection E as ->. by destruct Hd.
Qed.

Lemma zlen_segment_key id i : name_ok id -> 0 <= i < 2 ^ 63 -> zlen (chars (segment_id id i)) <= 400.
Proof.
  intros [Hl _] Hi. rewrite chars_segment_id, zlen_app. pose proof (zlen_dec i). rewrite Z.abs_eq in * by lia.
  assert (Z.log2 i <= 63) by (apply (Z.log2_le_mono _ (2 ^ 63)); lia). lia.
Qed.

(** ** Link tables *)

(** A table whose keys are 0 .. n-1. *)
Definition link_list (n : Z) (links : gmap Z Data) : list Data :=
  (fun i => default Data0 (links !! i)) <$> seqZ 0 n.

Lemma size_links n (links : gmap Z Data) :
  0 <= n -> (forall i, is_Some (links !! i) <-> 0 <= i < n) -> Z.of_nat (size links) = n.
Proof.
  intros Hn Hk. rewrite <- size_dom.
  assert (dom links = list_to_set (seqZ 0 n) :> gset Z) as ->.
  { apply set_eq. intros i. rewrite elem_of_dom, elem_of_list_to_set, elem_of_seqZ, Hk. lia. }
  rewrite size_list_to_set by apply NoDup_seqZ. rewrite length_seqZ. lia.
Qed.

Lemma link_array_list n links :
  0 <= n -> (forall i, is_Some (links !! i) <-> 0 <= i < n) -> link_array links = Ok (link_list n links).
Proof.
  intros Hn Hk. unfold link_array. rewrite (size_links n links Hn Hk).
  assert (forallb (fun e : Z * Data => (0 <=? e.1) && (e.1 <? n)) (map_to_list links) = true) as ->; [|done].
  apply forallb_forall. intros [i d] Hin. apply list_elem_of_In, elem_of_map_to_list in Hin.
  assert (0 <= i < n) by (apply Hk; eauto). simpl. zcases; simpl; lia.
Qed.

Lemma zlen_link_list n links : 0 <= n -> zlen (link_list n links) = n.
Proof. intros Hn. unfold link_list, zlen. rewrite length_fmap, length_seqZ. lia. Qed.

Lemma link_list_lookup n links (j : nat) :
  Z.of_nat j < n -> link_list n links !! j = Some (default Data0 (links !! Z.of_nat j)).
Proof.
  intros Hj. unfold link_list. rewrite list_lookup_fmap, lookup_seqZ_lt by done.
  simpl. by rewrite Z.add_0_l.
Qed.

Section objects.
Context {R M : Type} `{RedisLaws R} `{MongoLaws M} `{MsgpackLaws}.
Context (c : Conf).
Implicit Types w : World R M.
Abbreviation X := (MAX_OBJ_SIZE c).

(** Objects have at most this many bytes: sizes are [int]s, and the metadata must
    fit in one transfer. *)
Definition object_max : Z := Z.min (2 ^ 30) (2 ^ 19 * X).

(** Segment [i] of [v]: in one store, named by the link, and in no other. *)
Definition segment_at w (id : string) (v : list ascii) (i : Z) (link : Data) : Prop :=
  id_ link = segment_id id i /\ link_ok link /\
  exists tk, type_at c (storage_index_ link) tk /\ wobj w tk (segment_id id i) = Some (chunk X i v) /\
    forall ty, ty <> tk -> wobj w ty (segment_id id i) = None.

Record object_at w (id : string) (v : list ascii) (p : Z) (links : gmap Z Data) : Prop := {
  ob_size : 0 < zlen v <= object_max;
  ob_meta : exists tp s, type_at c p tp /\ wobj w tp (meta_id id) = Some s /\ s <> [] /\
    zlen s <= transfer_max /\ deserialize s = Ok (mkMetadata false p links);
  ob_links : forall i link, links !! i = Some link -> 0 <= i /\ i * X < zlen v /\ segment_at w id v i link;
  ob_present : forall i, 0 <= i -> i * X < zlen v -> is_Some (links !! i);
  ob_beyond : forall i ty, 0 <= i -> zlen v <= i * X -> wobj w ty (segment_id id i) = None;
}.

Definition object_absent w (id : string) : Prop :=
  (forall i ti, type_at c i ti -> wobj w ti (meta_id id) = None) /\
  (forall ty i, 0 <= i -> wobj w ty (segment_id id i) = None).

Lemma object_max_bounds : conf_ok c -> object_max <= transfer_max /\ object_max < 2 ^ 31 /\ object_max <= 2 ^ 19 * X.
Proof. intros _. unfold object_max, transfer_max. lia. Qed.

(** The objects depend on their own keys only. *)
Definition same_keys w w' (id : string) : Prop :=
  (forall ty, wobj w' ty (meta_id id) = wobj w ty (meta_id id)) /\
  (forall ty i, 0 <= i -> wobj w' ty (segment_id id i) = wobj w ty (segment_id id i)).

Lemma object_at_frame w w' id v p links :
  same_keys w w' id -> object_at w id v p links -> object_at w' id v p links.
Proof.
  intros [Fm Fs] [Hv (tp & s & Ht & Em & ?) Hl Hp Hb]. split; try done.
  - exists tp, s. by rewrite Fm.
  - intros i link Hi. destruct (Hl i link Hi) as (Hi0 & Hiv & Hid & Hlk & tk & Htk & Ek & Eo).
    split; [done|]. split; [done|]. split; [done|]. split; [done|]. exists tk. rewrite Fs by done.
    split; [done|]. split; [done|]. intros ty Hty. rewrite Fs by done. by apply Eo.
  - intros i ty Hi Hiv. rewrite Fs by done. by apply Hb.
Qed.

Lemma object_absent_frame w w' id : same_keys w w' id -> object_absent w id -> object_absent w' id.
Proof. intros [Fm Fs] [Hm Hs]. split; intros; rewrite ?Fm, ?Fs by done; eauto. Qed.

(** ** Reading the metadata *)

Section one_object.
Context (Hc : conf_ok c).

Lemma X_pos : 0 < X.
Proof. apply (conf_max c Hc). Qed.
Local Hint Resolve X_pos : core.

Lemma object_keys w id v p links :
  object_at w id v p links -> forall i, is_Some (links !! i) <-> 0 <= i < segments X v.
Proof.
  intros [_ _ Hl Hp _] i. rewrite segments_iff by done. split.
  - intros [link Hi]. destruct (Hl i link Hi) as (? & ? & _). lia.
  - intros []. by apply Hp.
Qed.

Lemma Locate_object_at w id v p links request :
  world_up w -> object_at w id v p links -> id_ request = id -> storage_index_ request = p ->
  Locate c request w =
    (Ok (locate_segments c request (link_list (segments X v) links), mkMetadata false p links), w).
Proof.
  intros Hu Ho Hid Hi. destruct (ob_meta _ _ _ _ _ Ho) as (tp & s & Ht & Es & Hne & Hs & Ed).
  unfold Locate. rewrite Hid, Hi. erewrite st_bind_Ok.
  2: { apply (read_metadata_ok c _ _ tp s); (done || by left). }
  cbn [is_link_]. erewrite st_bind_Ok by done.
  assert ((max_obj c =? 0) = false) as ->.
  { rewrite max_obj_ok by done. pose proof X_pos. by apply Z.eqb_neq; lia. }
  erewrite st_bind_Ok; [done|]. unfold lift. cbn [links_].
  rewrite (link_array_list (segments X v)); [done|by apply segments_nonneg|by eapply object_keys].
Qed.

Lemma Locate_object_absent w request ti :
  world_up w -> object_absent w (id_ request) -> type_at c (storage_index_ request) ti ->
  exists e, Locate c request w = (Throw (ErrorException e), w).
Proof.
  intros Hu [Hm Hs] Ht. apply (Locate_absent c w request ti); [done| |done].
  split; [done|]. intros ty. by apply Hs.
Qed.

(** ** Storing *)

(** A write of a range of bytes at [pos] that stays inside one segment and
    leaves no gap. *)
Definition inside_segment (v : list ascii) (pos : Z) (bytes : list ascii) : Prop :=
  0 <= pos <= zlen v /\ bytes <> [] /\ pos mod X + zlen bytes <= X /\ pos + zlen bytes <= object_max.

Lemma inside_split v pos bytes :
  inside_segment v pos bytes ->
  pos = pos / X * X + pos mod X /\ 0 <= pos / X /\ 0 <= pos mod X < X /\ 0 < zlen bytes /\
  pos / X * X <= zlen v /\ pos / X < 2 ^ 31.
Proof.
  intros ([Hp Hv] & Hne & Hr & Hm). pose proof X_pos. pose proof (Z.div_mod pos X ltac:(lia)).
  pose proof (Z.mod_pos_bound pos X ltac:(lia)). pose proof (zlen_pos _ Hne).
  assert (0 <= pos / X) by (apply Z.div_pos; lia). destruct (object_max_bounds Hc) as (_ & ? & _).
  repeat split; try lia; nia.
Qed.

(** An object whose segment [k] is about to be written: its link is there, its
    data may be missing. *)
Record object_open w (id : string) (v : list ascii) (p : Z) (links : gmap Z Data) (k : Z) : Prop := {
  oo_size : zlen v <= object_max;
  oo_meta : exists tp s, type_at c p tp /\ wobj w tp (meta_id id) = Some s /\ s <> [] /\
    zlen s <= transfer_max /\ deserialize s = Ok (mkMetadata false p links);
  oo_links : forall i link, links !! i = Some link -> 0 <= i /\ (i = k \/ i * X < zlen v) /\
    id_ link = segment_id id i /\ link_ok link /\
    exists tk, type_at c (storage_index_ link) tk /\
      wobj w tk (segment_id id i) = (if decide (i * X < zlen v) then Some (chunk X i v) else None) /\
      forall ty, ty <> tk -> wobj w ty (segment_id id i) = None;
  oo_present : forall i, 0 <= i -> i = k \/ i * X < zlen v -> is_Some (links !! i);
  oo_beyond : forall i ty, 0 <= i -> i <> k -> zlen v <= i * X -> wobj w ty (segment_id id i) = None;
}.

Lemma object_at_open w id v p links k :
  object_at w id v p links -> 0 <= k -> k * X < zlen v -> object_open w id v p links k.
Proof.
  intros [Hs Hm Hl Hp Hb] Hk Hv. split; [lia|done| | |].
  - intros i link Hi. destruct (Hl i link Hi) as (? & ? & ? & ? & tk & ?).
    split; [done|]. split; [by right|]. do 2 (split; [done|]). exists tk. by rewrite decide_True.
  - intros i Hi [->|?]; by apply Hp.
  - intros i ty Hi _ ?. by apply Hb.
Qed.

(** The write closes the object again. *)
Lemma open_write w w' id v p links pos bytes tk link :
  name_ok id -> inside_segment v pos bytes -> object_open w id v p links (pos / X) ->
  links !! (pos / X) = Some link -> type_at c (storage_index_ link) tk ->
  updates w w' tk (segment_id id (pos / X))
    (Some (exact_value (wobj w tk (segment_id id (pos / X))) (pos mod X) bytes)) ->
  object_at w' id (exact_value (Some v) pos bytes) p links.
Proof.
  intros Hn Hin [Hsz Hm Hl Hp Hb] Hk Htk (_ & Ew & F). pose proof X_pos as HX.
  destruct (inside_split _ _ _ Hin) as (Hpos & Hk0 & Hr & Hbytes & Hkv & _).
  destruct Hin as ([Hp0 Hpv] & _ & Hrb & Hmax). unfold exact_value in *. simpl.
  set (k := pos / X) in *. set (r := pos mod X) in *. rewrite Hpos in *.
  assert (forall i, 0 <= i -> (i * X < zlen (splice nul (k * X + r) bytes v) <-> i = k \/ i * X < zlen v))
    as Hseg by (intros; apply segment_written; (done || lia)).
  assert (forall ty i, 0 <= i -> (ty, i) <> (tk, k) ->
    wobj w' ty (segment_id id i) = wobj w ty (segment_id id i)) as Fs.
  { intros ty i Hi Hne. apply F. intros [= -> Ek]. by destruct (segment_key_inj id id i k Hn Hn Hi Hk0 Ek) as [_ ->]. }
  split.
  - rewrite zlen_splice by lia. lia.
  - destruct Hm as (tp & s & Ht & Es & Hrest). exists tp, s. split; [done|]. split; [|done].
    rewrite F; [done|]. intros [= _ E]. by apply (segment_meta_key id id k Hk0).
  - intros i l Hi. destruct (Hl i l Hi) as (Hi0 & Hor & Hid & Hlk & ti & Hti & Ei & Eo).
    split; [done|]. split; [by apply Hseg|]. split; [done|]. split; [done|]. exists ti. split; [done|].
    destruct (decide (i = k)) as [->|Hne].
    + rewrite Hk in Hi. injection Hi as <-. rewrite (type_at_unique c _ _ _ Hti Htk) in *.
      rewrite chunk_written by lia. split; [|intros ty Hty; rewrite Fs by (done || congruence); by apply Eo].
      rewrite Ew, Ei. do 2 f_equal. case_decide; [done|]. by rewrite chunk_beyond by lia.
    + rewrite chunk_kept by lia. rewrite Fs by (done || congruence). rewrite Ei.
      destruct Hor as [?|?]; [done|]. rewrite decide_True by done. split; [done|].
      intros ty Hty. rewrite Fs by (done || congruence). by apply Eo.
  - intros i Hi Hlt. apply Hp; [done|]. by apply Hseg.
  - intros i ty Hi Hle. assert (~ (i = k \/ i * X < zlen v)) as Hno by (rewrite <- Hseg by done; lia).
    rewrite Fs by (try done; intros [= _ ->]; tauto). apply Hb; [done|tauto|lia].
Qed.

(** ** What [Store] leaves for the write *)

Record store_opened w w' (id : string) (v : list ascii) (p pos : Z) (d d' : DataDistribution)
    (links : gmap Z Data) (link : Data) : Prop := {
  so_up : world_up w';
  so_open : object_open w' id v p links (pos / X);
  so_link : links !! (pos / X) = Some link;
  so_source : source_data_ d' = source_data_ d;
  so_id : id_ (destination_data_ d') = segment_id id (pos / X);
  so_position : position_ (destination_data_ d') = pos mod X;
  so_index : storage_index_ (destination_data_ d') = storage_index_ link;
  so_frame : forall ty key, key <> meta_id id -> wobj w' ty key = wobj w ty key;
}.

(** Into a segment that exists: the metadata stay, the part is redirected to the
    segment's store. *)
Lemma Store_segment w id v p links dst d bytes :
  world_up w -> object_at w id v p links -> id_ dst = id -> storage_index_ dst = p ->
  id_ (destination_data_ d) = id -> position_ (destination_data_ d) = position_ dst ->
  inside_segment v (position_ dst) bytes -> position_ dst / X * X < zlen v ->
  exists d' link, Store c dst [d] w = (Ok [d'], w) /\
    store_opened w w id v p (position_ dst) d d' links link.
Proof.
  intros Hu Ho Hid Hi Hdi Hdp Hin Hv. destruct (inside_split _ _ _ Hin) as (Hpos & Hk & Hr & Hb & _ & Hk31).
  destruct (ob_present _ _ _ _ _ Ho (position_ dst / X)) as [link Hl]; [done..|].
  destruct (ob_links _ _ _ _ _ Ho _ _ Hl) as (_ & _ & Hlid & _).
  eexists _, link. split.
  - unfold Store. erewrite st_bind_Ok.
    2: { apply try_catch_Ok. erewrite st_bind_Ok; [done|]. by apply (Locate_object_at w id v p links). }
    rewrite max_obj_ok by done. destruct (Z.eqb_spec X 0); [pose proof X_pos; lia|]. cbn [andb foldl snd].
    unfold link_existing. rewrite max_obj_ok, Hdp by done. cbn [links_].
    rewrite (i64_small (position_ dst / X)), Hl by lia. done.
  - destruct d as [src [] k]; cbn in *. split; try done. by apply object_at_open.
Qed.

Lemma write_metadata_over w m d ty s old :
  world_up w -> serialize m = Ok s -> s <> [] -> zlen s <= transfer_max ->
  type_at c (storage_index_ d) ty -> position_ d = 0 -> buffer_ d = None ->
  wobj w ty (id_ d) = Some old -> zlen old <= transfer_max ->
  exists w', write_metadata c m d w = (Ok (set_data_size (zlen s) d), w') /\
    updates w w' ty (id_ d) (Some (s ++ drop (length s) old)).
Proof.
  intros Hu Hm Hne Hs Ht Hp Hb Ho Hold. pose proof (zlen_pos _ Hne). unfold transfer_max in *.
  destruct (world_write ty w (set_buffer (Some (Some <$> s)) (set_data_size (zlen s) d))
    (set_buffer (Some (Some <$> s)) (set_data_size (zlen s) d)) (Some <$> s) s) as (w' & E & F);
    cbn; rewrite ?Hp, ?Ho, ?zlen_fmap, ?wexact_0; try done; try (simpl; lia).
  { by rewrite slice_fmap, slice_whole. }
  exists w'. split.
  - unfold write_metadata. rewrite Hm. unfold lift at 1. erewrite st_bind_Ok by done. cbn zeta.
    erewrite st_bind_Ok by (rewrite (on_client_ok _ _ ty) by done; exact E). by destruct d; cbn in *; subst.
  - cbn in F. rewrite Hp, Ho in F. unfold exact_value, splice in F. simpl in F.
    by destruct old.
Qed.

(** What the links need to be packed and unpacked. *)
Lemma object_serialize w id v p links k link :
  name_ok id -> is_u16 p -> object_at w id v p links -> 0 <= k -> k * X < object_max ->
  link_ok link -> id_ link = segment_id id k -> zlen v <= k * X -> (k - 1) * X < zlen v ->
  exists s, serialize (mkMetadata false p (<[k := link]> links)) = Ok s /\ s <> [] /\
    zlen s <= transfer_max /\ forall rest, deserialize (s ++ rest) = Ok (mkMetadata false p (<[k := link]> links)).
Proof.
  intros Hn Hp Ho Hk Hkm Hlk Hlid Hv Hv'. pose proof X_pos. pose proof (object_max_bounds Hc) as (_ & _ & HmX).
  assert (k < 2 ^ 19) as Hk19 by nia.
  assert (forall i l, <[k := link]> links !! i = Some l ->
    0 <= i <= k /\ link_ok l /\ zlen (chars (id_ l)) <= 400) as Hall.
  { intros i l [[<- <-]|[Hne Hi]]%lookup_insert_Some.
    - split; [lia|]. split; [done|]. rewrite Hlid. apply zlen_segment_key; [done|lia].
    - destruct (ob_links _ _ _ _ _ Ho i l Hi) as (Hi0 & Hiv & Hid & Hl & _). assert (i <= k) by nia.
      split; [lia|]. split; [done|]. rewrite Hid. apply zlen_segment_key; [done|lia]. }
  assert (Metadata_ok (mkMetadata false p (<[k := link]> links))) as Hok.
  { split; [done|]. intros i l Hi. destruct (Hall i l Hi) as (? & ? & _). split; [lia|done]. }
  destruct (deserialize_serialize _ Hok) as (s & Es & Hne & Ed). exists s. split; [done|]. split; [done|].
  split; [|done]. pose proof (serialize_size 400 _ s ltac:(lia) Hok) as Hsz.
  assert (Z.of_nat (size (<[k := link]> links)) = k + 1) as Esz.
  { apply size_links; [lia|]. intros i. rewrite lookup_insert_is_Some, (object_keys _ _ _ _ _ Ho i).
    rewrite segments_iff by done. split; [intros [<-|[]]; nia|]. intros Hi.
    destruct (decide (k = i)); [by left|]. right. nia. }
  unfold transfer_max. cbn [links_] in Hsz. rewrite Esz in Hsz.
  assert (zlen s <= 512 + (k + 1) * (1600 + 2 * 400)); [|lia].
  apply Hsz; [|done]. intros i l Hi. by apply (Hall i l).
Qed.

(** Into the next segment of an object whose segments are full: the primary
    metadata get the new link. *)
Lemma Store_extend w id v p links dst d bytes kd tk :
  world_up w -> name_ok id -> object_at w id v p links -> id_ dst = id -> storage_index_ dst = p ->
  id_ (destination_data_ d) = id -> position_ (destination_data_ d) = position_ dst ->
  is_u64 (data_size_ (destination_data_ d)) -> storage_index_ (destination_data_ d) = kd -> type_at c kd tk ->
  inside_segment v (position_ dst) bytes -> zlen v <= position_ dst / X * X ->
  exists d' link links' w', Store c dst [d] w = (Ok [d'], w') /\
    store_opened w w' id v p (position_ dst) d d' links' link.
Proof.
  intros Hu Hn Ho Hid Hi Hdi Hdp Hds Hkd Htk Hin Hv.
  destruct (inside_split _ _ _ Hin) as (Hpos & Hk & Hr & Hb & Hkv & Hk31).
  destruct Hin as ([Hp0 Hpv] & _ & Hrb & Hmax). set (k := position_ dst / X) in *.
  destruct (ob_size _ _ _ _ _ Ho) as [Hv0 Hvm]. pose proof X_pos.
  destruct (ob_meta _ _ _ _ _ Ho) as (tp & s0 & Htp & Es0 & Hne0 & Hs0 & Ed0).
  pose proof (type_at_range c _ _ Hc Htk). pose proof (type_at_range c _ _ Hc Htp).
  assert (position_ dst mod X = 0) as Hr0 by lia.
  set (link := set_id (segment_id id k) (set_position 0 (set_buffer None (destination_data_ d)))).
  assert (link_ok link) as Hlk.
  { split; [done|]. unfold Data_wf, is_u64, is_u16 in *. cbn. rewrite Hkd. lia. }
  destruct (object_serialize w id v p links k link) as (s & Es & Hne & Hs & Ed);
    try done; try lia; [unfold is_u16; lia|].
  destruct (write_metadata_over w _ (set_storage_index p (set_id (meta_id id) Data0)) tp s s0 Hu Es Hne Hs)
    as (w' & Ew & F); try done.
  pose proof F as (U & Em & Fr). cbn [id_ set_storage_index set_id] in Em, Fr.
  assert (forall ty i, 0 <= i -> wobj w' ty (segment_id id i) = wobj w ty (segment_id id i)) as Fs.
  { intros ty i Hi0. apply Fr. intros [= _ E]. by apply (segment_meta_key id id i Hi0). }
  eexists _, link, (<[k := link]> links), w'. split.
  - unfold Store. erewrite st_bind_Ok.
    2: { apply try_catch_Ok. erewrite st_bind_Ok; [done|]. by apply (Locate_object_at w id v p links). }
    rewrite max_obj_ok by done. destruct (Z.eqb_spec X 0); [lia|]. cbn [andb foldl snd].
    unfold link_existing. rewrite max_obj_ok, Hdp by done. cbn [links_]. fold k.
    rewrite (i64_small k) by lia.
    assert (links !! k = None) as ->.
    { destruct (links !! k) as [l|] eqn:E; [|done].
      destruct (ob_links _ _ _ _ _ Ho k l E) as (_ & ? & _). lia. }
    rewrite Hr0, Hdi. fold link. cbn [set_links meta_storage_index_ is_link_ links_].
    rewrite Hid. erewrite st_bind_Ok by (erewrite st_bind_Ok by exact Ew; done). done.
  - split; try done; try by rewrite lookup_insert_eq.
    + fold k. split.
      * lia.
      * exists tp, (s ++ drop (length s) s0). do 2 (split; [done|]). split; [by destruct s|].
        split; [|by apply Ed]. rewrite zlen_app. unfold zlen in *. rewrite length_drop. lia.
      * intros i l [[<- <-]|[Hne' Hi0]]%lookup_insert_Some.
        -- split; [done|]. split; [by left|]. split; [done|]. split; [done|]. exists tk. cbn.
           split; [by rewrite Hkd|]. rewrite Fs, decide_False by lia. split; [by apply (ob_beyond _ _ _ _ _ Ho)|].
           intros ty _. rewrite Fs by done. by apply (ob_beyond _ _ _ _ _ Ho).
        -- destruct (ob_links _ _ _ _ _ Ho i l Hi0) as (Hi1 & Hi2 & Hid' & Hl' & ti & Hti & Ei & Eo).
           split; [done|]. split; [by right|]. do 2 (split; [done|]). exists ti.
           rewrite Fs, decide_True by done. split; [done|]. split; [done|].
           intros ty Hty. rewrite Fs by done. by apply Eo.
      * intros i Hi0 Hor. apply lookup_insert_is_Some. destruct (decide (k = i)); [by left|]. right.
        split; [done|]. apply (ob_present _ _ _ _ _ Ho); [done|]. destruct Hor; [congruence|done].
      * intros i ty Hi0 _ Hle. rewrite Fs by done. by apply (ob_beyond _ _ _ _ _ Ho).
    + intros ty key Hkey. apply Fr. congruence.
Qed.

(** The first store of an object. *)
Lemma Store_first w id dst d bytes tp kd tk :
  world_up w -> name_ok id -> object_absent w id -> id_ dst = id -> type_at c (storage_index_ dst) tp ->
  id_ (destination_data_ d) = id -> position_ (destination_data_ d) = position_ dst ->
  is_u64 (data_size_ (destination_data_ d)) -> storage_index_ (destination_data_ d) = kd -> type_at c kd tk ->
  inside_segment [] (position_ dst) bytes ->
  exists d' link links' w', Store c dst [d] w = (Ok [d'], w') /\
    store_opened w w' id [] (storage_index_ dst) (position_ dst) d d' links' link.
Proof.
  intros Hu Hn [Ha Hs] Hid Htp Hdi Hdp Hds Hkd Htk Hin. subst id.
  destruct Hin as ([Hp0 Hpv] & _ & _ & _). change (zlen (@nil ascii)) with 0 in Hpv.
  assert (position_ dst = 0) as Hp by lia. pose proof X_pos. pose proof (type_at_range c _ _ Hc Htk).
  destruct (Store_new c w dst d tp tk) as (w' & E & U & G & F); try done; try (by rewrite ?Hdp, ?Hkd).
  { split; [done|]. intros ty. by apply Hs. }
  { apply Hn. }
  destruct G as [_ (s & Es & Hne & Hsz & Ed & _)].
  set (link := set_buffer None (destination_data_ (set_destination (set_id (segment_id (id_ dst) 0)) d))) in *.
  assert (forall ty i, 0 <= i -> wobj w' ty (segment_id (id_ dst) i) = None) as Fs.
  { intros ty i Hi0. rewrite F; [by apply Hs|]. by apply segment_meta_key. }
  eexists _, link, {[ 0 := link ]}, w'. split; [exact E|].
  rewrite Hp. split; rewrite ?Z.div_0_l, ?Z.mod_0_l by lia; try done; try by rewrite lookup_singleton_eq.
  2: { destruct d as [src [] k']; cbn in *; congruence. }
  split.
  - change (zlen (@nil ascii)) with 0. unfold object_max. lia.
  - by exists tp, s.
  - intros i l [<- <-]%lookup_singleton_Some. split; [done|]. split; [by left|]. split; [done|]. split.
    + split; [done|]. unfold Data_wf, is_u64, is_u16 in *. cbn. rewrite Hkd, Hdp, Hp. lia.
    + exists tk. cbn. rewrite Hkd. split; [done|]. rewrite Fs, decide_False by (change (zlen (@nil ascii)) with 0; lia).
      split; [done|]. intros ty _. by apply Fs.
  - intros i Hi [->|Hlt]; [rewrite lookup_singleton_eq; by eexists|]. change (zlen (@nil ascii)) with 0 in Hlt. nia.
  - intros i ty Hi _ _. by apply Fs.
Qed.

End one_object.
End objects.
