(* ===== verification/Startup.v ===== *)
(** * Startup: the constructors of the server, the client and the I/O clients

    src/symbios/server/server.cpp, src/symbios/client/client.cpp and the headers
    of src/symbios/io_clients.  The singletons a constructor sets up are the
    fields of [Globals]; basket keeps one instance per type, made by the first
    [GetInstance].  The connections are made by redis-plus-plus and mongocxx,
    which are parameters, and so is the RPC library. *)

From S2P Require Import Prelude CText Effects Types Services KeyValueIO World Config.
From S2P Require Import Distribution.

(** ** The I/O clients *)

(** The steps of mongocxx the constructor takes; a [mongocxx::exception] is
    [Throw MongoException], the boolean is the conversion of the handle. *)
Record MongoDriver := mkMongoDriver {
  md_instance : outcome unit;   (* [mongocxx::instance], once per process *)
  md_uri : string -> outcome unit;
  md_client : string -> outcome bool;
  md_database : string -> string -> outcome bool;
  md_has_collection : string -> string -> string -> outcome bool;
  md_create_collection : string -> string -> string -> outcome unit;
  md_collection : string -> string -> string -> outcome bool;
}.

(** [catch (const mongocxx::exception& e)] and [catch (const Error &err)]. *)
Definition catch_mongo (o : outcome unit) : outcome unit :=
  match o with
  | Throw MongoException => Throw (ErrorException CONNECT_MONGO_SERVER_ERROR)
  | _ => o
  end.

Definition catch_redis (o : outcome unit) : outcome unit :=
  match o with
  | Throw RedisError => Throw (ErrorException CONNECT_REDIS_SERVER_ERROR)
  | _ => o
  end.

(** [if (!b) throw ErrorException (e)]. *)
Definition require (b : bool) (e : ErrorCode) : outcome unit :=
  if b then Ok () else Throw (ErrorException e).

Section startup.
Context (path_exists : string -> bool).
Context (driver : MongoDriver) (redis_cluster : list ascii -> Z -> outcome unit).

(** The body of the [try]: rank 0 creates a collection that is missing. *)
Definition mongo_connect (rank : Z) (end_point database collection : string) : outcome unit :=
  ok ← md_client driver end_point;
  _ ← require ok CREATE_MONGO_CLIENT_ERROR;
  ok ← md_database driver end_point database;
  _ ← require ok CONNECT_MONGO_DATABASE_ERROR;
  _ ← (if rank =? 0 then
         has ← md_has_collection driver end_point database collection;
         if has : bool then _ ← md_collection driver end_point database collection; Ok ()
         else md_create_collection driver end_point database collection
       else Ok ());
  ok ← md_collection driver end_point database collection;
  require ok CONNECT_MONGO_COLLECTION_ERROR.

(** The pointer is cast without a test; a solution of another class has no such
    fields.  The driver's instance and the text of the end point are outside the
    [try].  The instance is a local object: it is gone when the constructor returns,
    while the client is kept, which the driver does not allow; how the client goes
    on then is the driver's, and not modelled. *)
Definition MongoIOClient_ctor (rank : Z) (solutions : solution_map) (storage_index : Z) : outcome unit :=
  s ← IOClient_solution solutions storage_index;
  match s with
  | None => Undefined NullDeref
  | Some (MongoSS end_point database collection) =>
      _ ← md_instance driver;
      _ ← md_uri driver end_point;
      catch_mongo (mongo_connect rank end_point database collection)
  | Some _ => Undefined OutOfBounds
  end.

Definition RedisIOClient_ctor (rank : Z) (solutions : solution_map) (storage_index : Z) : outcome unit :=
  s ← IOClient_solution solutions storage_index;
  match s with
  | None => Undefined NullDeref
  | Some (RedisSS end_point port) =>
      '(host, port) ← KeyValueIO.RedisIOClient.choose_node end_point port rank;
      catch_redis (redis_cluster host port)
  | Some _ => Undefined OutOfBounds
  end.

(** The constructor [Singleton<...>::GetInstance (storage_index)] runs. *)
Definition client_ctor (t : IOClientType) (rank : Z) (solutions : solution_map) (storage_index : Z)
    : outcome unit :=
  match t with
  | FILE_IO => FileIOClient_ctor path_exists solutions storage_index
  | MONGO_IO => MongoIOClient_ctor rank solutions storage_index
  | REDIS_IO => RedisIOClient_ctor rank solutions storage_index
  end.

(** The clients that exist, each with the storage index it was made for: a type
    that has a client keeps it. *)
Fixpoint IOFactory_ctor (rank : Z) (all entries : solution_map) (clients : list (IOClientType * Z))
    : outcome (list (IOClientType * Z)) :=
  match entries with
  | [] => Ok clients
  | (i, None) :: _ => Undefined NullDeref
  | (i, Some s) :: entries' =>
      let t := io_client_type_ s in
      clients ← match maps_find t clients with
                | Some _ => Ok clients
                | None => _ ← client_ctor t rank all i; Ok (clients ++ [(t, i)])
                end;
      IOFactory_ctor rank all entries' clients
  end.

(** ** The constructors of the server and of the client *)

Record Globals := mkGlobals {
  g_conf : Conf;
  g_basket : BasketConf;
  g_dde : DDE;
  g_clients : list (IOClientType * Z);
}.

(** The engine of the policy is made: the random engine seeds [rand], the
    heuristics engine fills its table. *)
Definition engine_ctor (c : Conf) (e : DDE) : outcome DDE :=
  match DATA_DISTRIBUTION_POLICY c with
  | RANDOM_POLICY => Ok (mkDDE 0 (sequence_calls e) (maps e))
  | HEURISTICS_POLICY =>
      m ← HeuristicsDDE_ctor (STORAGE_SOLUTIONS c) [];
      Ok (mkDDE (rand_calls e) (sequence_calls e) m)
  | _ => Ok e
  end.

(** What the process finds: its environment, the documents of the configuration
    files, the directories it may create; what the RPC library does. *)
Record Surroundings := mkSurroundings {
  getenv : list ascii -> option (list ascii);
  conf_file : string -> option json_document;
  create_directories : string -> outcome unit;
  default_client : string -> BasketConf -> outcome BasketConf;
  default_server : string -> BasketConf -> outcome BasketConf;
  get_rpc : Z -> outcome unit;
}.

Context (env : Surroundings).

Definition configure
    (f : option json_document -> Conf * BasketConf -> outcome (Conf * BasketConf)) : ST Globals unit :=
  g ← get_state;
  cb ← lift (f (conf_file env (CONFIGURATION_FILE (g_conf g))) (g_conf g, g_basket g));
  put_state (mkGlobals cb.1 cb.2 (g_dde g) (g_clients g)).

Definition preload_engine : ST Globals unit :=
  g ← get_state;
  e ← lift (engine_ctor (g_conf g) (g_dde g));
  put_state (mkGlobals (g_conf g) (g_basket g) e (g_clients g)).

(** A client that exists already is kept, whoever made it. *)
Definition preload_clients : ST Globals unit :=
  g ← get_state;
  clients ← lift (IOFactory_ctor (MPI_RANK (g_basket g)) (STORAGE_SOLUTIONS (g_conf g))
                    (STORAGE_SOLUTIONS (g_conf g)) (g_clients g));
  put_state (mkGlobals (g_conf g) (g_basket g) (g_dde g) clients).

(** [Server::Server]; the handlers [serve] dispatches to are bound once the RPC
    server exists. *)
Definition Server_ctor : ST Globals unit :=
  configure (ConfigureSymbiosServer (getenv env) (create_directories env) (default_server env));;
  g ← get_state;
  lift (get_rpc env (RPC_PORT (g_basket g)));;
  preload_engine;;
  preload_clients.

(** [Client::Client]. *)
Definition Client_ctor : ST Globals unit :=
  configure (ConfigureSymbiosClient (getenv env) (create_directories env) (default_client env));;
  g ← get_state;
  lift (get_rpc env (RPC_PORT (g_basket g))).

End startup.

(** ** A server that has started *)

Section started.
Context (path_exists : string -> bool).
Context (driver : MongoDriver) (redis_cluster : list ascii -> Z -> outcome unit).
Abbreviation ctor := (client_ctor path_exists driver redis_cluster).

(** The type has a client, whose constructor ended well. *)
Definition connected (rank : Z) (all : solution_map) (clients : list (IOClientType * Z))
    (t : IOClientType) : Prop :=
  exists k, maps_find t clients = Some k /\ ctor t rank all k = Ok ().

Lemma IOFactory_ctor_spec rank all entries clients clients' :
  IOFactory_ctor path_exists driver redis_cluster rank all entries clients = Ok clients' ->
  (forall t k, maps_find t clients = Some k -> ctor t rank all k = Ok ()) ->
  Forall (fun e => is_Some e.2) entries /\
  (forall t, is_Some (maps_find t clients) -> connected rank all clients' t) /\
  (forall k s, (k, Some s) ∈ entries -> connected rank all clients' (io_client_type_ s)).
Proof.
  revert clients. induction entries as [|[i [s|]] entries IH]; intros clients;
    cbn [IOFactory_ctor]; [| |done].
  - intros [= <-] Hc. split; [done|]. split; [|by intros ?? ?%not_elem_of_nil].
    intros t [k Hk]. exists k. split; [done|]. by apply Hc.
  - intros E Hc.
    assert (exists clients1,
      IOFactory_ctor path_exists driver redis_cluster rank all entries clients1 = Ok clients' /\
      (forall t k, maps_find t clients1 = Some k -> ctor t rank all k = Ok ()) /\
      (forall t, is_Some (maps_find t clients) -> is_Some (maps_find t clients1)) /\
      is_Some (maps_find (io_client_type_ s) clients1)) as (clients1 & E1 & Hc1 & Hi & Ht).
    { destruct (maps_find (io_client_type_ s) clients) as [k|] eqn:Ek.
      - exists clients. split; [exact E|]. split; [done|]. split; [done|]. by exists k.
      - destruct (ctor (io_client_type_ s) rank all i) as [[]| | |] eqn:Ec; [|done..].
        exists (clients ++ [(io_client_type_ s, i)]). split; [exact E|].
        repeat split; intros *; rewrite maps_find_app.
        + destruct (maps_find t clients) eqn:E'; [intros [= <-]; by apply Hc|].
          simpl. case_decide; [|done]. subst. by intros [= <-].
        + intros [k ->]. by exists k.
        + rewrite Ek. simpl. rewrite decide_True by done. by exists i. }
    destruct (IH _ E1 Hc1) as (Hs & Hold & Hnew). split; [constructor; [by exists s|done]|].
    split; [auto|]. intros k s' [[= -> ->]|Hk]%elem_of_cons; eauto.
Qed.

Context (env : Surroundings).

Lemma Server_ctor_inv g g' :
  Server_ctor path_exists driver redis_cluster env g = (Ok (), g') ->
  exists doc,
    conf_file env (CONFIGURATION_FILE (g_conf g)) = Some doc /\
    load_storage_solutions (getenv env) doc "STORAGE_SOLUTIONS" = Ok (STORAGE_SOLUTIONS (g_conf g')) /\
    engine_ctor (g_conf g') (g_dde g) = Ok (g_dde g') /\
    RPC_PORT (g_basket g') = SYMBIOS_PORT (g_conf g') /\
    IOFactory_ctor path_exists driver redis_cluster (MPI_RANK (g_basket g'))
      (STORAGE_SOLUTIONS (g_conf g')) (STORAGE_SOLUTIONS (g_conf g')) (g_clients g) = Ok (g_clients g').
Proof.
  intros ([] & g1 & E1 & E)%st_bind_inv.
  apply st_bind_inv in E as (? & ? & [= <- <-] & ([] & g2 & [= _ <-] & E)%st_bind_inv).
  apply st_bind_inv in E as ([] & g2 & E2 & E3).
  apply st_bind_inv in E1 as (? & ? & [= <- <-] & ([c b] & ? & [= E1 <-] & [= <-])%st_bind_inv).
  apply st_bind_inv in E2 as (? & ? & [= <- <-] & (e & ? & [= E2 <-] & [= <-])%st_bind_inv).
  apply st_bind_inv in E3 as (? & ? & [= <- <-] & (cl & ? & [= E3 <-] & [= <-])%st_bind_inv).
  apply ConfigureSymbiosServer_solutions in E1 as ((doc & Hf & Hl) & Hp). by exists doc.
Qed.

Lemma engine_ctor_maps c e e' :
  dense (STORAGE_SOLUTIONS c) -> engine_ctor c e = Ok e' -> maps_ok c (maps e) -> maps_ok c (maps e').
Proof.
  intros Hd He Hm. unfold engine_ctor in He.
  destruct (DATA_DISTRIBUTION_POLICY c); try by injection He as <-.
  apply outcome_bind_inv in He as (m & Em & [= <-]). pose proof Hd as (_ & _ & Hs).
  destruct (HeuristicsDDE_ctor_spec _ [] Hs) as (m' & Em' & Ht). rewrite Em in Em'.
  injection Em' as <-. intros t k Hk. specialize (Ht t). simpl in *. rewrite Hk in Ht.
  destruct Ht as (s & Hin & _). by apply dense_range in Hin.
Qed.

(** The state of a process that has not started. *)
Definition fresh (c : Conf) (b : BasketConf) : Globals := mkGlobals c b (mkDDE 0 0 []) [].

(** The configuration file has at most 2^15 storage solutions. *)
Definition few_solutions (c : Conf) : Prop :=
  forall doc l, conf_file env (CONFIGURATION_FILE c) = Some doc ->
    doc !! "STORAGE_SOLUTIONS" = Some (JArray l) -> zlen l <= 2 ^ 15.

Lemma Server_ctor_started c b g :
  few_solutions c -> Server_ctor path_exists driver redis_cluster env (fresh c b) = (Ok (), g) ->
  dense (STORAGE_SOLUTIONS (g_conf g)) /\ maps_ok (g_conf g) (maps (g_dde g)) /\
  (forall k s, find_solution k (STORAGE_SOLUTIONS (g_conf g)) = Some (Some s) ->
     connected (MPI_RANK (g_basket g)) (STORAGE_SOLUTIONS (g_conf g)) (g_clients g) (io_client_type_ s)).
Proof.
  intros Hf (doc & Hdoc & Hl & He & _ & Hc)%Server_ctor_inv.
  apply IOFactory_ctor_spec in Hc as (Hs & _ & Hc); [|done].
  assert (dense (STORAGE_SOLUTIONS (g_conf g))) as Hd.
  { apply (load_dense _ _ _ _ (fun l => Hf doc l Hdoc) Hl Hs). }
  split; [done|]. split; [by apply (engine_ctor_maps _ _ _ Hd He)|].
  intros k s Hk%find_solution_in. by apply Hc in Hk.
Qed.

(** ** The requests a started server places *)

(** The parts of a sequence of requests, in order. *)
Definition place_all (rand sequence : nat -> Z) (reqs : list (Data * Data))
    : ST (Conf * DDE) (list DataDistribution) :=
  fold_st (fun acc r => ds ← Distribute rand sequence r.1 r.2; mret (acc ++ ds)) [] reqs.

Lemma place_all_carries rand sequence reqs acc c e :
  dense (STORAGE_SOLUTIONS c) -> STORAGE_SOLUTIONS c <> [] -> maps_ok c (maps e) ->
  (forall n, 0 <= sequence n < 2 ^ 64) -> (forall n, 0 <= rand n < 2 ^ 31) ->
  exists ds e',
    fold_st (fun acc r => ds ← Distribute rand sequence r.1 r.2; mret (acc ++ ds)) acc reqs (c, e) =
      (Ok (acc ++ ds), (c, e')) /\
    Forall (fun d => exists r s, r ∈ reqs /\ source_data_ d = r.1 /\
      find_solution (storage_index_ (destination_data_ d)) (STORAGE_SOLUTIONS c) = Some (Some s)) ds.
Proof.
  intros Hd Hne Hm Hs Hr. revert acc e Hm. induction reqs as [|r reqs IH]; intros acc e Hm; cbn [fold_st].
  { exists [], e. by rewrite app_nil_r. }
  destruct (Distribute_parts rand sequence r.1 r.2 c e) as (ds & e1 & E & Hm1 & Hc); [done..|].
  destruct (IH (acc ++ ds) e1 Hm1) as (ds' & e2 & E' & Hf).
  exists (ds ++ ds'), e2. split.
  - rewrite (st_bind_Ok _ _ _ (acc ++ ds) (c, e1)); [by rewrite E', app_assoc|].
    by rewrite (st_bind_Ok _ _ _ _ _ E).
  - apply Forall_app. split.
    + destruct (DATA_DISTRIBUTION_POLICY c); [..|by rewrite Hc];
        destruct Hc as (k & s & Hk & ->); apply Forall_singleton; exists r, s;
        (split; [by left|done]).
    + eapply Forall_impl; [exact Hf|]. intros d (r' & s & Hin & ?). exists r', s. split; [by right|done].
Qed.

(** C6: whatever requests a server gets whose constructor has returned, every part
    its engine returns carries one of them to a configured solution, and the
    client of that solution exists and has connected. *)
Theorem started_server_places c b g rand sequence reqs :
  few_solutions c -> Server_ctor path_exists driver redis_cluster env (fresh c b) = (Ok (), g) ->
  STORAGE_SOLUTIONS (g_conf g) <> [] ->
  (forall n, 0 <= sequence n < 2 ^ 64) -> (forall n, 0 <= rand n < 2 ^ 31) ->
  exists ds e,
    place_all rand sequence reqs (g_conf g, g_dde g) = (Ok ds, (g_conf g, e)) /\
    Forall (fun d => exists r s, r ∈ reqs /\ source_data_ d = r.1 /\
      find_solution (storage_index_ (destination_data_ d)) (STORAGE_SOLUTIONS (g_conf g)) = Some (Some s) /\
      connected (MPI_RANK (g_basket g)) (STORAGE_SOLUTIONS (g_conf g)) (g_clients g) (io_client_type_ s)) ds.
Proof.
  intros Hf Hg Hne Hs Hr. destruct (Server_ctor_started c b g Hf Hg) as (Hd & Hm & Hc).
  destruct (place_all_carries rand sequence reqs [] _ _ Hd Hne Hm Hs Hr) as (ds & e & E & H).
  exists ds, e. split; [exact E|]. eapply Forall_impl; [exact H|].
  intros d (r & s & Hr' & Hsrc & Hk). exists r, s. eauto.
Qed.

End started.

(** A malformed end point of a MongoDB solution leaves the constructor as an
    exception of mongocxx, which is no [ErrorException]. *)
Theorem malformed_uri_escapes driver rank solutions i e database collection :
  find_solution i solutions = Some (Some (MongoSS e database collection)) ->
  md_instance driver = Ok () -> md_uri driver e = Throw MongoException ->
  MongoIOClient_ctor driver rank solutions i = Throw MongoException.
Proof. intros Hf Hi Hu. unfold MongoIOClient_ctor, IOClient_solution. rewrite Hf. cbn. by rewrite Hi, Hu. Qed.
