(* ===== verification/Daemon.v ===== *)
(** * Daemon: the server process, src/symbios/server/daemon.h and main.cpp

    [Run] constructs the server, takes over signals and waits for the promise
    [exitSignal], in the main thread or in a worker.  A run of the process is a
    list of events: a turn of the main thread, a turn of the worker, or a signal
    that arrives between two of them.  A handler calls functions that are not
    safe in a handler, MPI_Finalize among them: the model is a run that survives
    this.  A signal whose default action is to stop the process takes no turn. *)

From S2P Require Import Prelude CText Effects Types Config Startup.

(** ** Signals *)

Inductive signal := SIGTERM | SIGHUP | SIGABRT | SIGSEGV | SIGBUS | SIGCHLD | SIGTSTP | SIGTTOU | SIGTTIN.

#[global] Instance signal_eq_dec : EqDecision signal.
Proof. solve_decision. Defined.

(** The numbers of Linux, on which the status of a killed process depends. *)
Definition signum (s : signal) : Z :=
  match s with
  | SIGHUP => 1 | SIGABRT => 6 | SIGBUS => 7 | SIGSEGV => 11 | SIGTERM => 15
  | SIGCHLD => 17 | SIGTSTP => 20 | SIGTTIN => 21 | SIGTTOU => 22
  end.

Inductive disposition := SIG_DFL | SIG_IGN | Handler.

(** The default action ends the process, or does not. *)
Definition default_kills (s : signal) : bool :=
  match s with SIGTERM | SIGHUP | SIGABRT | SIGSEGV | SIGBUS => true | _ => false end.

Definition dispositions : Type := signal -> disposition.

Definition signal_ (s : signal) (d : disposition) (h : dispositions) : dispositions :=
  fun s' => if decide (s' = s) then d else h s'.

Definition no_handlers : dispositions := fun _ => SIG_DFL.

Definition catchSignals (h : dispositions) : dispositions :=
  signal_ SIGTTIN SIG_IGN (signal_ SIGTTOU SIG_IGN (signal_ SIGTSTP SIG_IGN (signal_ SIGCHLD SIG_IGN
    (signal_ SIGBUS Handler (signal_ SIGSEGV Handler (signal_ SIGABRT Handler
      (signal_ SIGHUP Handler (signal_ SIGTERM Handler h)))))))).

(** ** The process *)

(** Where the main thread is: the statements of [Run] and behind it. *)
Inductive pc :=
| AtFuture | AtConstruct | AtCatch | AtMark | AtThread | AtBarrier | AtWait | AtSleep | Returned.

(** The worker thread: not started, running, or ended. *)
Inductive thread := NoThread | Running | Ended.

Record Process (X : Type) := mkProcess {
  globals : X;                  (* what the constructor of the server changes *)
  main_log_file : string;       (* the static member *)
  spawn_thread_ : bool;
  wait_ : bool;
  is_running_ : option bool;    (* [None] until [Run] sets it *)
  exitSignal : bool;            (* the promise has its value *)
  future_taken : bool;
  worker : thread;
  handlers : dispositions;
  files : gmap string (list ascii);
  finalized : nat;              (* calls of MPI_Finalize *)
  at_pc : pc;
}.
Arguments mkProcess {X}.
Arguments globals {X}. Arguments main_log_file {X}. Arguments spawn_thread_ {X}. Arguments wait_ {X}.
Arguments is_running_ {X}. Arguments exitSignal {X}. Arguments future_taken {X}. Arguments worker {X}.
Arguments handlers {X}. Arguments files {X}. Arguments finalized {X}. Arguments at_pc {X}.

Inductive event := Turn | WorkerTurn | Signal (on_worker : bool) (s : signal).

Section daemon.
Context {X : Type} (construct : ST X unit).
(** Whether a file can be opened for append, and whether the library's
    singleton destroys its instance at exit. *)
Context (can_append : string -> bool) (destroys : bool).
Implicit Types p : Process X.

Definition set_globals (x : X) p : Process X :=
  mkProcess x (main_log_file p) (spawn_thread_ p) (wait_ p) (is_running_ p) (exitSignal p)
    (future_taken p) (worker p) (handlers p) (files p) (finalized p) (at_pc p).
Definition set_running (b : bool) p : Process X :=
  mkProcess (globals p) (main_log_file p) (spawn_thread_ p) (wait_ p) (Some b) (exitSignal p)
    (future_taken p) (worker p) (handlers p) (files p) (finalized p) (at_pc p).
Definition set_exit p : Process X :=
  mkProcess (globals p) (main_log_file p) (spawn_thread_ p) (wait_ p) (is_running_ p) true
    (future_taken p) (worker p) (handlers p) (files p) (finalized p) (at_pc p).
Definition take_future p : Process X :=
  mkProcess (globals p) (main_log_file p) (spawn_thread_ p) (wait_ p) (is_running_ p) (exitSignal p)
    true (worker p) (handlers p) (files p) (finalized p) (at_pc p).
Definition set_worker (t : thread) p : Process X :=
  mkProcess (globals p) (main_log_file p) (spawn_thread_ p) (wait_ p) (is_running_ p) (exitSignal p)
    (future_taken p) t (handlers p) (files p) (finalized p) (at_pc p).
Definition set_handlers (h : dispositions) p : Process X :=
  mkProcess (globals p) (main_log_file p) (spawn_thread_ p) (wait_ p) (is_running_ p) (exitSignal p)
    (future_taken p) (worker p) h (files p) (finalized p) (at_pc p).
Definition set_files (f : gmap string (list ascii)) p : Process X :=
  mkProcess (globals p) (main_log_file p) (spawn_thread_ p) (wait_ p) (is_running_ p) (exitSignal p)
    (future_taken p) (worker p) (handlers p) f (finalized p) (at_pc p).
Definition finalize p : Process X :=
  mkProcess (globals p) (main_log_file p) (spawn_thread_ p) (wait_ p) (is_running_ p) (exitSignal p)
    (future_taken p) (worker p) (handlers p) (files p) (S (finalized p)) (at_pc p).
Definition goto (l : pc) p : Process X :=
  mkProcess (globals p) (main_log_file p) (spawn_thread_ p) (wait_ p) (is_running_ p) (exitSignal p)
    (future_taken p) (worker p) (handlers p) (files p) (finalized p) l.

Definition modify (f : Process X -> Process X) : ST (Process X) unit := fun p => (Ok (), f p).

(** The constructor does not keep the name it is given: its parameter hides the
    static member, which stays empty. *)
Definition Daemon_ctor (main_log_file : string) (spawn_thread wait : bool) (x : X)
    (fs : gmap string (list ascii)) : Process X :=
  mkProcess x "" spawn_thread wait None false false NoThread no_handlers fs 0 AtFuture.

(** [ofstream] in append mode; a file that cannot be opened takes nothing. *)
Definition logMessage (filename message : string) : ST (Process X) unit := fun p =>
  (Ok (), if can_append filename
          then set_files (<[filename := default [] (files p !! filename) ++ chars message]> (files p)) p
          else p).

Definition future_error : exn := StdException "std::future_error".
Definition set_value : ST (Process X) unit := fun p =>
  if exitSignal p then (Throw future_error, p) else (Ok (), set_exit p).

(** [worker.join ()] in the worker itself ([on_worker]) or without a thread
    throws; otherwise the worker ends when its future is ready. *)
Definition join (on_worker : bool) : ST (Process X) unit := fun p =>
  match worker p with
  | NoThread => (Throw (StdException "std::system_error"), p)
  | Ended => (Ok (), p)
  | Running =>
      if on_worker then (Throw (StdException "std::system_error"), p)
      else if exitSignal p then (Ok (), set_worker Ended p) else (Undefined NoReturn, p)
  end.

Definition Stop (on_worker : bool) : ST (Process X) unit :=
  p ← get_state;
  match is_running_ p with
  | None => undefined UninitRead
  | Some true =>
      (if spawn_thread_ p then set_value;; join on_worker else mret ());;
      modify (set_running false)
  | Some false => mret ()
  end.

(** [exit]: the destructor calls [Stop].  An exception out of a destructor
    terminates the process; SIGABRT's handler then raises a signal that is
    blocked, and [abort] ends it. *)
Definition exit_ (on_worker : bool) (status : Z) : ST (Process X) unit := fun p =>
  if destroys then
    match Stop on_worker p with
    | (Ok _, p') => (Exit status, p')
    | (Throw _, p') => (Exit abort_status, p')
    | r => r
    end
  else (Exit status, p).

(** The branches of [signalHandler]. *)
Definition on_SIGHUP : ST (Process X) unit :=
  p ← get_state; logMessage (main_log_file p) "hangup signal caught".

Definition on_SIGTERM (on_worker : bool) : ST (Process X) unit :=
  p ← get_state;
  logMessage (main_log_file p) "terminate signal caught";;
  modify finalize;;
  exit_ on_worker 0.

(** A signal without a handler. *)
Definition default_action (s : signal) : ST (Process X) unit :=
  if default_kills s then lift (Exit (128 + signum s)) else mret ().

(** [raise (SIGTERM)]. *)
Definition raise_SIGTERM (on_worker : bool) : ST (Process X) unit :=
  p ← get_state;
  match handlers p SIGTERM with
  | SIG_DFL => default_action SIGTERM
  | SIG_IGN => mret ()
  | Handler => on_SIGTERM on_worker
  end.

(** The stack is printed before [raise]. *)
Definition signalHandler (on_worker : bool) (s : signal) : ST (Process X) unit :=
  match s with
  | SIGHUP => on_SIGHUP
  | SIGTERM => on_SIGTERM on_worker
  | _ => raise_SIGTERM on_worker
  end.

Definition deliver (on_worker : bool) (s : signal) : ST (Process X) unit :=
  p ← get_state;
  match handlers p s with
  | SIG_DFL => default_action s
  | SIG_IGN => mret ()
  | Handler => signalHandler on_worker s
  end.

(** [Server::RunInternal]: [wait_for] until it does not time out. *)
Definition RunInternal_waits p : bool := negb (exitSignal p).

(** One statement of [Run]. *)
Definition run_turn : ST (Process X) unit :=
  p ← get_state;
  match at_pc p with
  | AtFuture =>
      if future_taken p then lift (Throw future_error)
      else modify (fun p => goto AtConstruct (take_future p))
  | AtConstruct => fun p =>
      match construct (globals p) with
      | (Ok _, x) => (Ok (), goto AtCatch (set_globals x p))
      | (Exit c, x) => exit_ false c (set_globals x p)
      | (o, x) => (o, set_globals x p)
      end
  | AtCatch => modify (fun p => goto AtMark (set_handlers (catchSignals (handlers p)) p))
  | AtMark => modify (fun p => goto (if spawn_thread_ p then AtThread else AtBarrier) (set_running true p))
  | AtThread => modify (fun p => goto AtBarrier (set_worker Running p))
  | AtBarrier =>
      modify (goto (if spawn_thread_ p then if wait_ p then AtSleep else Returned else AtWait))
  | AtWait => if RunInternal_waits p then mret () else modify (goto Returned)
  | AtSleep => mret ()
  | Returned => mret ()
  end.

Definition worker_turn : ST (Process X) unit :=
  p ← get_state;
  match worker p with
  | Running => if RunInternal_waits p then mret () else modify (set_worker Ended)
  | _ => mret ()
  end.

(** A signal is handled by the worker only while there is one. *)
Definition step (e : event) : ST (Process X) unit :=
  match e with
  | Turn => run_turn
  | WorkerTurn => worker_turn
  | Signal on_worker s =>
      p ← get_state;
      deliver (on_worker && match worker p with Running => true | _ => false end) s
  end.

Definition run (events : list event) : ST (Process X) unit := for_each step events.

End daemon.

(** ** main.cpp *)

(** [if (argc > 1)]. *)
Definition main_conf (argv : list string) (c : Conf) : Conf :=
  match argv with _ :: file :: _ => set_configuration_file file c | _ => c end.

Definition main_globals (argv : list string) (c : Conf) (b : BasketConf) : Globals :=
  fresh (main_conf argv c) (set_backed_dir (SERVER_DIR (main_conf argv c)) b).

(** The process in front of [daemon->Run ()]. *)
Definition main_process (argv : list string) (c : Conf) (b : BasketConf)
    (fs : gmap string (list ascii)) : Process Globals :=
  Daemon_ctor "./single_node_symbios_server.log" false true (main_globals argv c b) fs.

(** ** The life of the server *)

Lemma catchSignals_at h s :
  catchSignals h s = match s with SIGCHLD | SIGTSTP | SIGTTOU | SIGTTIN => SIG_IGN | _ => Handler end.
Proof. by destruct s. Qed.

(** The signals whose handler ends the process. *)
Definition fatal (e : event) : bool :=
  match e with
  | Signal _ SIGTERM | Signal _ SIGABRT | Signal _ SIGSEGV | Signal _ SIGBUS => true
  | _ => false
  end.

Section life.
Context {X : Type} (construct : ST X unit) (can_append : string -> bool) (destroys : bool).
Implicit Types p : Process X.
Hypothesis no_empty_name : can_append "" = false.

(** A server that waits in the main thread with the signals taken over. *)
Definition waiting p : Prop :=
  at_pc p = AtWait /\ spawn_thread_ p = false /\ exitSignal p = false /\ worker p = NoThread /\
  main_log_file p = "" /\ is_running_ p = Some true /\ exists h, handlers p = catchSignals h.

(** Behind [exit]. *)
Definition ended p : Process X := if destroys then set_running false (finalize p) else finalize p.

Lemma log_nothing message p :
  main_log_file p = "" -> logMessage can_append (main_log_file p) message p = (Ok (), p).
Proof. intros ->. unfold logMessage. by rewrite no_empty_name. Qed.

Lemma waiting_fatal on_worker p :
  waiting p -> on_SIGTERM can_append destroys on_worker p = (Exit 0, ended p).
Proof.
  intros (_ & Hs & _ & _ & Hl & Hr & _). unfold on_SIGTERM.
  rewrite (st_bind_Ok _ _ _ p p), (st_bind_Ok _ _ _ _ _ (log_nothing _ _ Hl)) by done.
  rewrite (st_bind_Ok _ _ _ () (finalize p)) by done. unfold exit_, ended.
  destruct destroys; [|done]. unfold Stop. rewrite (st_bind_Ok _ _ _ (finalize p) (finalize p)) by done.
  cbn [is_running_ spawn_thread_ finalize]. by rewrite Hr, Hs.
Qed.

Lemma waiting_step e p :
  waiting p ->
  step construct can_append destroys e p = if fatal e then (Exit 0, ended p) else (Ok (), p).
Proof.
  intros Hp. pose proof Hp as (Hpc & Hs & He & Hw & Hl & Hr & h & Hh).
  destruct e as [| |on_worker s]; cbn [step fatal].
  - unfold run_turn. rewrite (st_bind_Ok _ _ _ p p), Hpc by done. unfold RunInternal_waits. by rewrite He.
  - unfold worker_turn. by rewrite (st_bind_Ok _ _ _ p p), Hw.
  - rewrite (st_bind_Ok _ _ _ p p), Hw, andb_false_r by done. unfold deliver.
    rewrite (st_bind_Ok _ _ _ p p), Hh, catchSignals_at by done.
    destruct s; cbn [signalHandler]; try done; [by apply waiting_fatal|by apply (log_nothing _ p)|..];
      unfold raise_SIGTERM; rewrite (st_bind_Ok _ _ _ p p), Hh, catchSignals_at by done; by apply waiting_fatal.
Qed.

Lemma waiting_run events p :
  waiting p ->
  run construct can_append destroys events p = if existsb fatal events then (Exit 0, ended p) else (Ok (), p).
Proof.
  intros Hp. induction events as [|e events IH]; [done|]. unfold run. cbn [for_each existsb].
  pose proof (waiting_step e p Hp) as E. destruct (fatal e).
  - unfold mbind, st_bind. by rewrite E.
  - by rewrite (st_bind_Ok _ _ _ _ _ E).
Qed.

Lemma construct_turn p :
  at_pc p = AtConstruct ->
  run_turn construct destroys p =
    match construct (globals p) with
    | (Ok _, x) => (Ok (), goto AtCatch (set_globals x p))
    | (Exit c, x) => exit_ destroys false c (set_globals x p)
    | (o, x) => (o, set_globals x p)
    end.
Proof. intros Hpc. unfold run_turn. by rewrite (st_bind_Ok _ _ _ p p), Hpc by done. Qed.

(** ** Any run *)

(** What holds of a daemon without a worker as long as it runs: its promise
    never gets a value, [Run] does not return, no file is written. *)
Definition unspawned (fs : gmap string (list ascii)) p : Prop :=
  spawn_thread_ p = false /\ exitSignal p = false /\ worker p = NoThread /\ main_log_file p = "" /\
  files p = fs /\ at_pc p <> Returned /\ at_pc p <> AtThread /\ at_pc p <> AtSleep.

Definition kept (fs : gmap string (list ascii)) (n : nat) (r : outcome unit * Process X) : Prop :=
  files r.2 = fs /\ (r.1 = Ok () -> unspawned fs r.2 /\ finalized r.2 = n) /\
  (finalized r.2 <= S n)%nat.

Lemma exit_kept fs n p status :
  unspawned fs p -> (finalized p <= S n)%nat -> kept fs n (exit_ destroys false status p).
Proof.
  intros (Hs & _ & _ & _ & Hf & _) Hn. unfold kept, exit_. destruct destroys; [|by repeat split].
  unfold Stop. rewrite (st_bind_Ok _ _ _ p p) by done.
  destruct (is_running_ p) as [[]|]; rewrite ?Hs; by repeat split.
Qed.

Lemma same_kept fs p : unspawned fs p -> kept fs (finalized p) (Ok (), p).
Proof. intros Hp. split; [apply Hp|]. split; [done|simpl; lia]. Qed.

Lemma SIGTERM_kept fs p : unspawned fs p -> kept fs (finalized p) (on_SIGTERM can_append destroys false p).
Proof.
  intros Hp. pose proof Hp as (_ & _ & _ & Hl & _). unfold on_SIGTERM.
  rewrite (st_bind_Ok _ _ _ p p), (st_bind_Ok _ _ _ _ _ (log_nothing _ _ Hl)) by done.
  rewrite (st_bind_Ok _ _ _ () (finalize p)) by done. by apply exit_kept.
Qed.

Lemma default_kept fs s p : unspawned fs p -> kept fs (finalized p) (default_action s p).
Proof.
  intros Hp. unfold default_action. destruct (default_kills s); [|by apply same_kept].
  split; [apply Hp|]. split; [done|simpl; lia].
Qed.

Lemma deliver_kept fs s p :
  unspawned fs p -> kept fs (finalized p) (deliver can_append destroys false s p).
Proof.
  intros Hp. pose proof Hp as (_ & _ & _ & Hl & _). unfold deliver. rewrite (st_bind_Ok _ _ _ p p) by done.
  assert (kept fs (finalized p) (raise_SIGTERM can_append destroys false p)) as Hr.
  { unfold raise_SIGTERM. rewrite (st_bind_Ok _ _ _ p p) by done.
    destruct (handlers p SIGTERM); [by apply default_kept|by apply same_kept|by apply SIGTERM_kept]. }
  destruct (handlers p s); [by apply default_kept|by apply same_kept|].
  destruct s; try exact Hr; [by apply SIGTERM_kept|].
  cbn [signalHandler]. unfold on_SIGHUP. rewrite (st_bind_Ok _ _ _ p p), log_nothing by done.
  by apply same_kept.
Qed.

Lemma turn_kept fs p : unspawned fs p -> kept fs (finalized p) (run_turn construct destroys p).
Proof.
  intros Hp. pose proof Hp as (Hs & He & Hw & Hl & Hf & Hret & Hth & Hsl).
  unfold run_turn. rewrite (st_bind_Ok _ _ _ p p) by done.
  destruct (at_pc p) eqn:Hpc; try done.
  - destruct (future_taken p); (split; [done|]; split; [|simpl; lia]); by repeat split.
  - destruct (construct (globals p)) as [[[]| | |c] x].
    + split; [done|]. split; [by repeat split|simpl; lia].
    + split; [done|]. split; [done|simpl; lia].
    + split; [done|]. split; [done|simpl; lia].
    + apply exit_kept; [|simpl; lia]. unfold unspawned. cbn. by rewrite Hpc.
  - split; [done|]. split; [by repeat split|simpl; lia].
  - unfold modify. rewrite Hs. split; [done|]. split; [by repeat split|simpl; lia].
  - unfold modify. rewrite Hs. split; [done|]. split; [by repeat split|simpl; lia].
  - unfold RunInternal_waits. rewrite He. by apply same_kept.
Qed.

Lemma step_kept fs e p :
  unspawned fs p -> kept fs (finalized p) (step construct can_append destroys e p).
Proof.
  intros Hp. pose proof Hp as (_ & _ & Hw & _). destruct e as [| |on_worker s]; cbn [step].
  - by apply turn_kept.
  - unfold worker_turn. rewrite (st_bind_Ok _ _ _ p p), Hw by done. by apply same_kept.
  - rewrite (st_bind_Ok _ _ _ p p), Hw, andb_false_r by done. by apply deliver_kept.
Qed.

Lemma run_kept fs events p :
  unspawned fs p -> kept fs (finalized p) (run construct can_append destroys events p).
Proof.
  revert p. induction events as [|e events IH]; intros p Hp; [by apply same_kept|].
  unfold run. cbn [for_each]. pose proof (step_kept fs e p Hp) as (Hf & Hok & Hn).
  unfold mbind, st_bind.
  destruct (step construct can_append destroys e p) as [[[]| | |] p1] eqn:E; [|by repeat split..].
  destruct (Hok eq_refl) as [Hp1 <-]. by apply IH.
Qed.

End life.

(** ** The server of main.cpp *)

Section server.
Context (path_exists : string -> bool) (driver : MongoDriver).
Context (redis_cluster : list ascii -> Z -> outcome unit) (env : Surroundings).
Context (can_append : string -> bool) (destroys : bool).
Abbreviation server_ctor := (Server_ctor path_exists driver redis_cluster env).
Abbreviation server_run := (run server_ctor can_append destroys).

(** Whenever signals arrive, the server process never returns from [Run], its
    promise never gets a value, MPI_Finalize is called once at most and only at
    the end, and the log file is never written. *)
Theorem server_never_returns argv c b fs events o p :
  can_append "" = false -> server_run events (main_process argv c b fs) = (o, p) ->
  files p = fs /\ (finalized p <= 1)%nat /\
  (o = Ok () -> at_pc p <> Returned /\ exitSignal p = false /\ finalized p = 0%nat).
Proof.
  intros Ha E.
  assert (unspawned fs (main_process argv c b fs)) as Hp by by repeat split.
  pose proof (run_kept server_ctor can_append destroys Ha fs events _ Hp) as (Hf & Hok & Hn).
  rewrite E in Hf, Hok, Hn. split; [done|]. split; [done|]. intros ->.
  destruct (Hok eq_refl) as [(_ & He & _ & _ & _ & Hr & _) H0]. done.
Qed.

(** The process when the server waits. *)
Definition serving (g : Globals) (fs : gmap string (list ascii)) : Process Globals :=
  mkProcess g "" false true (Some true) false true NoThread (catchSignals no_handlers) fs 0 AtWait.

(** C7: A server whose constructor returns reaches its wait loop in five turns and
    stays there, whatever else happens, until the first fatal signal; it then
    finalizes MPI and exits with status 0, a crash no less than SIGTERM. *)
Theorem server_serves_until_signal argv c b fs events g :
  can_append "" = false -> server_ctor (main_globals argv c b) = (Ok (), g) ->
  server_run (replicate 5 Turn ++ events) (main_process argv c b fs) =
    if existsb fatal events then (Exit 0, ended destroys (serving g fs)) else (Ok (), serving g fs).
Proof.
  intros Ha Hg.
  assert (server_run (replicate 5 Turn) (main_process argv c b fs) = (Ok (), serving g fs)) as E.
  { unfold run. cbn [replicate]. cbn [for_each step].
    rewrite (st_bind_Ok _ _ _ () (goto AtConstruct (take_future (main_process argv c b fs)))) by done.
    rewrite (st_bind_Ok _ _ _ () (goto AtCatch (set_globals g (take_future (main_process argv c b fs))))).
    - by repeat split.
    - rewrite construct_turn by done. change (globals _) with (main_globals argv c b). by rewrite Hg. }
  rewrite <- (waiting_run server_ctor can_append destroys Ha events (serving g fs)) by by repeat split; eauto.
  revert E. generalize (replicate 5 Turn) (main_process argv c b fs). intros l. induction l as [|e l IH]; intros p.
  { by intros [= ->]. }
  unfold run. cbn [app for_each]. intros ([] & p1 & E1 & E2)%st_bind_inv.
  rewrite (st_bind_Ok _ _ _ _ _ E1). by apply IH.
Qed.

End server.

(** Where a daemon has a worker, SIGTERM in the worker makes it join itself, and
    the process aborts. *)
Theorem worker_takes_SIGTERM {X} (construct : ST X unit) can_append (p : Process X) h :
  handlers p = catchSignals h -> worker p = Running -> spawn_thread_ p = true ->
  is_running_ p = Some true -> exitSignal p = false ->
  (step construct can_append true (Signal true SIGTERM) p).1 = Exit abort_status.
Proof.
  intros Hh Hw Hs Hr He. cbn [step]. rewrite (st_bind_Ok _ _ _ p p), Hw by done. cbn [andb].
  unfold deliver. rewrite (st_bind_Ok _ _ _ p p), Hh, catchSignals_at by done. cbn [signalHandler].
  unfold on_SIGTERM, logMessage, modify, exit_, Stop, set_value, join, mbind, st_bind, get_state. cbn.
  destruct (can_append (main_log_file p)); cbn; rewrite Hr, Hs; cbn; rewrite He; cbn; by rewrite Hw.
Qed.

(** Without a configuration file the constructor of the server exits, and the
    destructor of the daemon reads a member that was never set. *)
Theorem exit_reads_uninitialised path_exists driver redis_cluster env can_append argv c b fs :
  conf_file env (CONFIGURATION_FILE (main_conf argv c)) = None ->
  (run (Server_ctor path_exists driver redis_cluster env) can_append true [Turn; Turn]
     (main_process argv c b fs)).1 = Undefined UninitRead.
Proof.
  intros Hf.
  assert (exists x, Server_ctor path_exists driver redis_cluster env (main_globals argv c b) = (Exit 1, x)) as (x & E).
  { eexists. unfold Server_ctor, configure, lift, mbind, st_bind. cbn. by rewrite Hf. }
  unfold run. cbn [for_each step].
  rewrite (st_bind_Ok _ _ _ () (goto AtConstruct (take_future (main_process argv c b fs)))) by done.
  unfold mbind, st_bind. rewrite construct_turn by done.
  change (globals _) with (main_globals argv c b). by rewrite E.
Qed.
