(* ===== verification/Server.v ===== *)
(** * Server: src/symbios/server/server.cpp

    The request handlers: [Store] distributes a request, records it in the
    metadata and writes every part; [Locate] reads every part and joins them;
    [Size] adds the sizes of the parts; [Delete] removes parts and metadata.
    The state is the configuration, the state of the distribution engines and
    the stores. *)

From S2P Require Import Prelude CText Effects Types Services IOClient World Msgpack Config.
From S2P Require Import Distribution Metadata.

Section server.
Context {R M : Type} `{RedisService R} `{MongoService M} `{Msgpack}.
Context (rand sequence : nat -> Z).

Record Server := mkServer { s_conf : Conf; s_dde : DDE; s_world : World R M }.

Definition with_engine {A} (m : ST (Conf * DDE) A) : ST Server A := fun s =>
  let '(o, (c, e)) := m (s_conf s, s_dde s) in (o, mkServer c e (s_world s)).

Definition with_stores {A} (m : Conf -> ST (World R M) A) : ST Server A := fun s =>
  let '(o, w) := m (s_conf s) (s_world s) in (o, mkServer (s_conf s) (s_dde s) w).

(** The client of the part's destination writes the part. *)
Definition write_part (c : Conf) (d : DataDistribution) : ST (World R M) unit :=
  on_client c (storage_index_ (destination_data_ d))
    (fun cl => Write cl (source_data_ d) (destination_data_ d));;
  mret ().

Definition Server_Store (source destination : Data) : ST Server Z :=
  distributions ← with_engine (Distribute rand sequence source destination);
  distributions ← with_stores (fun c => Metadata.Store c destination distributions);
  with_stores (fun c => for_each (write_part c) distributions);;
  s ← get_state;
  mret (SERVER_COUNT (s_conf s)).

(** The first loop of [Locate]: the parts, read, and their total in an [int]. *)
Definition read_part (c : Conf) (acc : Z * list Data) (d : DataDistribution)
    : ST (World R M) (Z * list Data) :=
  d' ← on_client c (storage_index_ (destination_data_ d))
         (fun cl => Read cl (source_data_ d) (destination_data_ d));
  mret (i32 (acc.1 + data_size_ d'), acc.2 ++ [d']).

(** The second loop: each part is copied behind the previous ones. *)
Definition copy_part (acc : buffer * Z) (d : Data) : outcome (buffer * Z) :=
  let n := data_size_ d -u position_ d in
  bytes ← mem_read (buffer_ d) (position_ d) n;
  buf ← mem_write acc.1 acc.2 bytes;
  Ok (buf, i64 (acc.2 + n)).

Fixpoint copy_parts (acc : buffer * Z) (l : list Data) : outcome (buffer * Z) :=
  match l with
  | [] => Ok acc
  | d :: l' => acc' ← copy_part acc d; copy_parts acc' l'
  end.

Definition Server_Locate (source destination : Data) : ST Server Data :=
  distributions ← with_stores (fun c => Metadata.Locate c source);
  parts ← with_stores (fun c => fold_st (read_part c) (0, []) distributions.1);
  joined ← lift (copy_parts (malloc (u64 parts.1), 0) parts.2);
  mret (set_buffer joined.1 destination).

Definition Server_Size (request : Data) : ST Server Z :=
  located ← try_catch catches_ErrorException
              (r ← with_stores (fun c => Metadata.Locate c request); mret (Some r.1))
              (mret None);
  match located with
  | None => mret 0
  | Some distributions =>
      total_size ← with_stores (fun c =>
        fold_st (fun total d =>
          n ← on_client c (storage_index_ (destination_data_ d))
                (fun cl => Size cl (destination_data_ d));
          mret (i32 (total + n))) 0 distributions);
      mret (u64 total_size)
  end.

(** [status && Remove (...)] stops removing after a failure. *)
Definition remove_part (c : Conf) (status : bool) (d : DataDistribution) : ST (World R M) bool :=
  if status then on_client c (storage_index_ (destination_data_ d))
                   (fun cl => Remove cl (source_data_ d))
  else mret false.

Definition Server_Delete (request : Data) : ST Server bool :=
  located ← try_catch catches_ErrorException
              (r ← with_stores (fun c => Metadata.Locate c request); mret (Some r.1))
              (mret None);
  match located with
  | None => mret false
  | Some distributions =>
      status ← with_stores (fun c => fold_st (remove_part c) true distributions);
      if status : bool then with_stores (fun c => Metadata.Delete c request) else mret false
  end.

(** ** A sequence of requests *)

Inductive request :=
| StoreRequest (source destination : Data)
| LocateRequest (source destination : Data)
| SizeRequest (r : Data)
| DeleteRequest (r : Data).

Inductive reply :=
| Stored (servers : Z)
| Located (d : Data)
| Sized (n : Z)
| Deleted (b : bool)
| Failed.

(** The handler bound to each name; an [ErrorException] is the RPC's failure. *)
Definition serve (q : request) : ST Server reply :=
  try_catch catches_ErrorException
    match q with
    | StoreRequest source destination => n ← Server_Store source destination; mret (Stored n)
    | LocateRequest source destination => d ← Server_Locate source destination; mret (Located d)
    | SizeRequest r => n ← Server_Size r; mret (Sized n)
    | DeleteRequest r => b ← Server_Delete r; mret (Deleted b)
    end
    (mret Failed).

Fixpoint serve_all (qs : list request) : ST Server (list reply) :=
  match qs with
  | [] => mret []
  | q :: qs' => a ← serve q; l ← serve_all qs'; mret (a :: l)
  end.

End server.
Arguments Server R M : clear implicits.
