(* ===== verification/ServerSpec.v ===== *)
(** * ServerSpec: the server implements a map from names to bytes

    The abstract state is a finite map from object names to their bytes.
    [rep] relates it to the server's state; each handler refines its abstract
    operation, for objects of one segment, and so does a sequence of requests. *)

From S2P Require Import Prelude CText Effects Types Services KeyValueSpec IOClient World.
From S2P Require Import Msgpack Config Distribution Metadata MetadataSpec Server.

(** ** The abstract operations *)

Abbreviation objects := (gmap string (list ascii)) (only parsing).

Definition abs_store (id : string) (position : Z) (bytes : list ascii) (m : objects) : objects :=
  <[id := exact_value (m !! id) position bytes]> m.

Definition abs_read (n : Z) (v : list ascii) : list ascii := slice 0 (wanted n v) v.

Section refinement.
Context {R M : Type} `{RedisLaws R} `{MongoLaws M} `{MsgpackLaws}.
Context (rand sequence : nat -> Z).
Context (Hrand : forall n, 0 <= rand n < 2 ^ 31) (Hseq : forall n, 0 <= sequence n < 2 ^ 64).
Implicit Types s : Server R M.

Definition conf_runs (c : Conf) : Prop :=
  conf_ok c /\ STORAGE_SOLUTIONS c <> [] /\ DATA_DISTRIBUTION_POLICY c <> DYNAMIC_PROGRAMMING_POLICY.

Definition object_in s (id : string) (o : option (list ascii)) : Prop :=
  match o with
  | Some v => (0 < zlen v <= MAX_OBJ_SIZE (s_conf s)) /\
      exists p tp link tk, stored (s_conf s) (s_world s) id v p tp link tk
  | None => absent (s_conf s) (s_world s) id
  end.

Record rep s (m : objects) : Prop := {
  rep_conf : conf_runs (s_conf s);
  rep_maps : maps_ok (s_conf s) (maps (s_dde s));
  rep_up : world_up (s_world s);
  rep_objects : forall id, object_in s id (m !! id);
}.

Lemma kv_exact_all ty o p n : kv_exact o p n = true -> wexact (R := R) (M := M) ty o p n = true.
Proof. by destruct ty. Qed.

(** The objects other than [id] are untouched by a change of its keys. *)
Lemma object_in_frame s s' id id' o :
  s_conf s' = s_conf s -> id' <> id ->
  (forall ty k, k <> meta_id id -> k <> segment_id id 0 ->
     wobj (s_world s') ty k = wobj (s_world s) ty k) ->
  object_in s id' o -> object_in s' id' o.
Proof.
  intros Ec Hne F.
  assert (forall ty, wobj (s_world s') ty (meta_id id') = wobj (s_world s) ty (meta_id id')) as F1.
  { intros ty. apply F; [intros E%meta_id_inj; done|].
    intros E. by apply (segment_meta id id'). }
  assert (forall ty, wobj (s_world s') ty (segment_id id' 0) = wobj (s_world s) ty (segment_id id' 0)) as F2.
  { intros ty. apply F; [apply segment_meta|]. intros E%segment_id_inj; done. }
  unfold object_in. rewrite Ec. destruct o as [v|].
  - intros [Hv (p & tp & link & tk & [Hm Hl Hh Hd He])]. split; [done|]. exists p, tp, link, tk.
    split; [by eapply meta_stored_frame|done..| |].
    + by rewrite F2.
    + intros. rewrite F2. auto.
  - intros [Ha1 Ha2]. split; intros; rewrite ?F1, ?F2; eauto.
Qed.

(** ** Store *)

(** A store of [bytes] at an offset where every store places them exactly. *)
Record store_request (c : Conf) (m : objects) (src dst : Data) (bytes : list ascii) : Prop := {
  sr_bytes : exists cs, buffer_ src = Some cs /\ slice 0 (zlen bytes) cs = Some <$> bytes /\
                        zlen bytes <= zlen cs;
  sr_src : position_ src = 0 /\ data_size_ src = zlen bytes /\ bytes <> [];
  sr_size : 0 <= position_ dst /\ position_ dst + zlen bytes <= MAX_OBJ_SIZE c;
  sr_exact : kv_exact (m !! id_ dst) (position_ dst) (zlen bytes) = true;
  sr_dst : is_u64 (data_size_ dst) /\ zlen (chars (id_ dst)) <= 255;
  sr_index : exists ti, type_at c (storage_index_ dst) ti;
}.

Lemma write_part_ok c w d cs bytes ty :
  type_at c (storage_index_ (destination_data_ d)) ty ->
  world_up w -> buffer_ (source_data_ d) = Some cs -> position_ (source_data_ d) = 0 ->
  bytes <> [] -> data_size_ (source_data_ d) = zlen bytes ->
  slice 0 (zlen bytes) cs = Some <$> bytes -> zlen bytes <= zlen cs -> zlen bytes <= transfer_max ->
  0 <= position_ (destination_data_ d) -> position_ (destination_data_ d) + zlen bytes < 2 ^ 62 ->
  wexact (R := R) (M := M) ty (wobj w ty (id_ (destination_data_ d))) (position_ (destination_data_ d)) (zlen bytes) = true ->
  zlen (default [] (wobj w ty (id_ (destination_data_ d)))) <= transfer_max ->
  exists w', write_part (R := R) (M := M) c d w = (Ok (), w') /\
    updates w w' ty (id_ (destination_data_ d))
      (Some (exact_value (wobj w ty (id_ (destination_data_ d))) (position_ (destination_data_ d)) bytes)).
Proof.
  intros Ht Hu Hb Hp Hne Hn Hs Hl Htr Hd0 Hd1 Hx Ho.
  destruct (world_write ty w (source_data_ d) (destination_data_ d) cs bytes) as (w' & E & F);
    try done.
  exists w'. split; [|done]. unfold write_part. erewrite st_bind_Ok; [done|].
  by rewrite (on_client_ok _ _ ty).
Qed.

Lemma zlen_exact_value old p (bytes : list ascii) :
  0 <= p -> zlen (exact_value old p bytes) = Z.max (zlen (default [] old)) (p + zlen bytes).
Proof. intros. unfold exact_value. rewrite zlen_splice by done. lia. Qed.

(** What [Metadata.Store] leaves for the write: one part of the object, in a
    store that alone may hold its data. *)
Lemma metadata_store_part c w m_id o dst k src ti :
  conf_ok c -> world_up w -> id_ dst = m_id ->
  object_in (mkServer c (mkDDE 0 0 []) w) m_id o ->
  0 <= position_ dst < MAX_OBJ_SIZE c -> (o = None -> position_ dst = 0) ->
  is_u64 (data_size_ dst) -> zlen (chars m_id) <= 255 ->
  type_at c (storage_index_ dst) ti -> (exists tk, type_at c k tk) ->
  let d := mkDataDistribution src (set_storage_index k dst) (storage_index_ src) in
  exists d' w' p tp link tk, Metadata.Store c dst [d] w = (Ok [d'], w') /\ world_up w' /\
    source_data_ d' = src /\ id_ (destination_data_ d') = segment_id m_id 0 /\
    position_ (destination_data_ d') = position_ dst /\
    storage_index_ (destination_data_ d') = storage_index_ link /\
    meta_stored c w' m_id p tp link /\ id_ link = segment_id m_id 0 /\
    type_at c (storage_index_ link) tk /\ wobj w' tk (segment_id m_id 0) = o /\
    (forall ty, ty <> tk -> wobj w' ty (segment_id m_id 0) = None) /\
    (forall ty k', k' <> meta_id m_id -> wobj w' ty k' = wobj w ty k').
Proof.
  intros Hc Hu Hid Ho Hp Hn Hds Hl Hti (tk & Htk) d. destruct o as [v|]; simpl in Ho.
  - destruct Ho as [_ (p & tp & link & tl & [Hm Hli Hh Hd He])].
    exists (set_destination (fun dest => set_storage_index (storage_index_ link) (set_id (id_ link) dest)) d).
    exists w, p, tp, link, tl. subst m_id. split; [by eapply Store_existing|].
    repeat (split; [done|]). done.
  - pose proof Ho as [_ Hz]. subst m_id.
    destruct (Store_new c w dst d ti tk) as (w' & E & U & Hm & F); try done; [by apply Hn|].
    exists (set_destination (set_id (segment_id (id_ dst) 0)) d), w', (storage_index_ dst), ti.
    exists (set_buffer None (set_id (segment_id (id_ dst) 0) (set_storage_index k dst))), tk. repeat (split; [done|]).
    repeat split; intros; rewrite ?F by (done || apply segment_meta); auto.
Qed.

Lemma Server_Store_ok s m src dst bytes :
  rep s m -> store_request (s_conf s) m src dst bytes ->
  exists s', Server_Store rand sequence src dst s = (Ok (SERVER_COUNT (s_conf s)), s') /\
    s_conf s' = s_conf s /\ rep s' (abs_store (id_ dst) (position_ dst) bytes m).
Proof.
  intros [(Hc & Hne & Hpol) Hmaps Hu Hobj] [(cs & Hb & Hs & Hcs) (Hp & Hn & Hnb) [Hd0 Hd1] Hx [Hds Hl] (ti & Hti)].
  destruct s as [c e w]; simpl in *. pose proof (conf_max c Hc) as Hmax. pose proof (zlen_pos _ Hnb).
  unfold transfer_max in *. unfold Server_Store.
  destruct (Distribute_parts rand sequence src dst c e (conf_dense c Hc) Hne Hmaps (Hseq _) (Hrand _))
    as (ds & e' & Ed & Hm' & Hds').
  assert (carries src dst c ds) as (k & sk & Hk & ->) by (by destruct (DATA_DISTRIBUTION_POLICY c)).
  pose proof (Hobj (id_ dst)) as Ho.
  destruct (metadata_store_part c w (id_ dst) (m !! id_ dst) dst k src ti)
    as (d' & w1 & p & tp & link & tk & E1 & U1 & G1 & G2 & G3 & G4 & G5 & G6 & G7 & G8 & G9 & F1);
    try done; try lia.
  { intros Hnone. rewrite Hnone in Hx. simpl in Hx. zcases_in Hx; done. }
  { by exists (io_client_type_ sk), sk. }
  destruct (write_part_ok c w1 d' cs bytes tk) as (w2 & E2 & U2 & O2 & F2);
    rewrite ?G1, ?G2, ?G3, ?G4, ?G8; try done; unfold transfer_max; try lia; try by apply kv_exact_all.
  { destruct (m !! id_ dst) as [v|]; simpl in *; [lia|]. rewrite zlen_nil. lia. }
  rewrite ?G2, ?G3, ?G8 in *.
  exists (mkServer c e' w2). split; [|split; [done|]].
  - erewrite st_bind_Ok; [|unfold with_engine; simpl; by rewrite Ed].
    erewrite st_bind_Ok; [|unfold with_stores; simpl; by rewrite E1].
    rewrite (st_bind_Ok _ _ _ () (mkServer c e' w2)); [done|]. unfold with_stores; cbn [s_conf s_world for_each].
    by rewrite (st_bind_Ok _ _ _ _ _ E2).
  - split; [done|done|done|]. intros id. unfold abs_store.
    destruct (decide (id = id_ dst)) as [->|Hid].
    + rewrite lookup_insert_eq. simpl. rewrite zlen_exact_value by done.
      assert (zlen (default [] (m !! id_ dst)) <= MAX_OBJ_SIZE c).
      { destruct (m !! id_ dst); simpl in *; [lia|]. rewrite zlen_nil. lia. }
      split; [lia|]. exists p, tp, link, tk. split; try done.
      * eapply meta_stored_frame, G5. intros ty. apply F2. intros [= _ E]. by apply (segment_meta (id_ dst) (id_ dst)).
      * intros ty Hty. rewrite F2 by congruence. by apply G9.
    + rewrite lookup_insert_ne by done. eapply (object_in_frame (mkServer c e w)); [done|exact Hid| |apply Hobj].
      intros ty k' Hk1 Hk2. simpl. rewrite F2 by congruence. by apply F1.
Qed.

(** ** Locate *)

(** A request from offset 0 of an object of one segment is one part. *)
Lemma locate_one c link r :
  conf_ok c -> position_ r = 0 -> is_u64 (data_size_ r) ->
  let part := set_data_size (Z.min (data_size_ r) (MAX_OBJ_SIZE c)) (set_position 0 link) in
  locate_segments c r [link] = [mkDataDistribution part part (storage_index_ link)].
Proof.
  intros Hc Hp Hd part. pose proof (conf_max c Hc). pose proof (max_obj_ok c Hc) as E.
  unfold is_u64, transfer_max in *. unfold locate_segments. rewrite Hp, E, Z.div_0_l by lia.
  change (u64 (i32 0)) with 0. change (0 <? zlen [link]) with true. cbn [drop Z.to_nat locate_loop].
  rewrite !Z.add_0_l. rewrite (u64_small (data_size_ r)) by lia. change (Z.to_nat 0) with 0%nat. cbn [drop locate_loop].
  assert ((0 <=? data_size_ r / MAX_OBJ_SIZE c) = true) as ->.
  { apply Z.leb_le, Z.div_pos; lia. }
  rewrite orb_true_r, E, Z.mod_0_l by lia.
  assert ((if data_size_ r =? 0 then 0 else 0) = 0) as -> by (by destruct (_ =? 0)).
  rewrite Z.sub_0_r. change (u64 0) with 0. rewrite u64_small by lia.
  assert ((if data_size_ r <? MAX_OBJ_SIZE c then data_size_ r else MAX_OBJ_SIZE c) =
          Z.min (data_size_ r) (MAX_OBJ_SIZE c)) as -> by (zcases; lia).
  done.
Qed.

(** A request of a configured store for at most the object's size from its start. *)
Record whole_request (c : Conf) (r : Data) : Prop := {
  wr_position : position_ r = 0;
  wr_size : is_u64 (data_size_ r);
  wr_index : exists ti, type_at c (storage_index_ r) ti;
}.

Lemma Locate_object s m r v :
  rep s m -> whole_request (s_conf s) r -> m !! id_ r = Some v ->
  exists link tk md,
    let part := set_data_size (Z.min (data_size_ r) (MAX_OBJ_SIZE (s_conf s))) (set_position 0 link) in
    Metadata.Locate (s_conf s) r (s_world s) =
      (Ok ([mkDataDistribution part part (storage_index_ link)], md), s_world s) /\
    id_ link = segment_id (id_ r) 0 /\ type_at (s_conf s) (storage_index_ link) tk /\
    wobj (s_world s) tk (segment_id (id_ r) 0) = Some v /\
    (forall ty, ty <> tk -> wobj (s_world s) ty (segment_id (id_ r) 0) = None).
Proof.
  intros [(Hc & _) _ Hu Hobj] [Hp Hd (ti & Hti)] Hv.
  pose proof (Hobj (id_ r)) as Ho. rewrite Hv in Ho. destruct Ho as [_ (p & tp & link & tk & [Hm Hl Hh Hd' He])].
  eexists link, tk, _. split; [|done]. rewrite <- (locate_one (s_conf s) link r) by done.
  by apply (Locate_stored _ _ (id_ r) p tp link r (storage_index_ r) ti).
Qed.

Lemma Locate_missing s m r :
  rep s m -> whole_request (s_conf s) r -> m !! id_ r = None ->
  exists e, Metadata.Locate (s_conf s) r (s_world s) = (Throw (ErrorException e), s_world s).
Proof.
  intros [_ _ Hu Hobj] [_ _ (ti & Hti)] Hv. pose proof (Hobj (id_ r)) as Ho. rewrite Hv in Ho.
  by eapply Locate_absent.
Qed.

Lemma with_stores_Ok {A} (f : Conf -> ST (World R M) A) s a :
  f (s_conf s) (s_world s) = (Ok a, s_world s) -> with_stores f s = (Ok a, s).
Proof. intros E. unfold with_stores. rewrite E. by destruct s. Qed.

Lemma Server_Locate_ok s m src dst v :
  rep s m -> whole_request (s_conf s) src -> m !! id_ src = Some v -> data_size_ src <= zlen v ->
  Server_Locate src dst s = (Ok (set_buffer (Some (Some <$> abs_read (data_size_ src) v)) dst), s).
Proof.
  intros Hr Hw Hv Hn. destruct (Locate_object s m src v Hr Hw Hv) as (link & tk & md & E & Hl & Hk & Hd & _).
  destruct Hr as [(Hc & _) _ Hu Hobj]. pose proof (Hobj (id_ src)) as Ho. rewrite Hv in Ho.
  destruct Ho as [Hvl _]. destruct Hw as [_ Hds _]. unfold is_u64 in Hds.
  pose proof (conf_max _ Hc). unfold Server_Locate.
  assert (Hwant : 0 < wanted (data_size_ src) v <= zlen v) by (unfold wanted; zcases; lia).
  unfold transfer_max in *. rewrite Z.min_l in E by lia.
  erewrite st_bind_Ok by (apply with_stores_Ok, E). cbn [fst].
  set (part := set_data_size (data_size_ src) (set_position 0 link)) in *.
  set (read := set_data_size (wanted (data_size_ src) v)
                 (set_buffer (Some (Some <$> abs_read (data_size_ src) v)) part)).
  erewrite (st_bind_Ok _ _ _ (wanted (data_size_ src) v, [read])).
  2: { apply with_stores_Ok. cbn [fold_st]. erewrite st_bind_Ok; [done|]. unfold read_part.
       erewrite st_bind_Ok.
       2: { rewrite (on_client_ok _ _ tk) by done. cbn [source_data_ destination_data_].
            apply (world_read tk _ part part v (wanted (data_size_ src) v));
              subst part; cbn [id_ position_ data_size_ set_data_size set_position];
              rewrite ?Hl, ?wreads_0; unfold transfer_max; try done; lia. }
       cbn [fst snd data_size_ set_data_size]. unfold mret, st_ret. rewrite Z.add_0_l, i32_small by lia. done. }
  assert (zlen (Some <$> abs_read (data_size_ src) v) = wanted (data_size_ src) v) as Hz.
  { rewrite zlen_fmap. apply zlen_slice; lia. }
  assert (data_size_ read -u position_ read = wanted (data_size_ src) v) as Hn'.
  { subst read part. cbn. rewrite Z.sub_0_r. apply u64_small. lia. }
  assert (copy_parts (malloc (u64 (wanted (data_size_ src) v)), 0) [read] =
          Ok (Some (Some <$> abs_read (data_size_ src) v), wanted (data_size_ src) v)) as Ecopy.
  { cbn [copy_parts]. unfold copy_part. rewrite Hn'. change (position_ read) with 0.
    change (buffer_ read) with (Some (Some <$> abs_read (data_size_ src) v)).
    rewrite mem_read_in by lia. cbn [fst snd]. rewrite <- Hz, slice_whole, Hz.
    unfold mbind; cbn [outcome_bind]. rewrite u64_small, malloc_write by lia. cbn [outcome_bind].
    by rewrite Z.add_0_l, i64_small by lia. }
  cbn [fst snd]. erewrite st_bind_Ok; [|unfold lift; by rewrite Ecopy]. done.
Qed.

(** The exception of a missing object reaches the caller. *)
Lemma with_stores_Throw {A} (f : Conf -> ST (World R M) A) s e :
  f (s_conf s) (s_world s) = (Throw e, s_world s) -> with_stores f s = (Throw e, s).
Proof. intros E. unfold with_stores. rewrite E. by destruct s. Qed.

Lemma Server_Locate_missing s m src dst :
  rep s m -> whole_request (s_conf s) src -> m !! id_ src = None ->
  exists e, Server_Locate src dst s = (Throw (ErrorException e), s).
Proof.
  intros Hr Hw Hv. destruct (Locate_missing s m src Hr Hw Hv) as (e & E). exists e.
  unfold Server_Locate. apply st_bind_Throw. by apply with_stores_Throw.
Qed.

(** ** Size *)

Lemma Server_Size_ok s m r :
  rep s m -> whole_request (s_conf s) r ->
  Server_Size r s = (Ok (zlen (default [] (m !! id_ r))), s).
Proof.
  intros Hr Hw. unfold Server_Size. destruct (m !! id_ r) as [v|] eqn:Hv.
  - destruct (Locate_object s m r v Hr Hw Hv) as (link & tk & md & E & Hl & Hk & Hd & _).
    destruct Hr as [(Hc & _) _ Hu Hobj]. pose proof (Hobj (id_ r)) as Ho. rewrite Hv in Ho.
    destruct Ho as [Hvl _]. pose proof (conf_max _ Hc). unfold transfer_max in *.
    erewrite st_bind_Ok.
    2: { apply try_catch_Ok. by erewrite st_bind_Ok by (apply with_stores_Ok, E). }
    cbn [fst]. erewrite (st_bind_Ok _ _ _ (zlen v)).
    2: { apply with_stores_Ok. cbn [fold_st]. erewrite st_bind_Ok; [done|].
         erewrite st_bind_Ok.
         2: { rewrite (on_client_ok _ _ tk) by done. apply world_size; [done|].
              cbn. rewrite Hl, Hd. unfold transfer_max. simpl. lia. }
         cbn [id_ destination_data_ set_data_size set_position]. rewrite Hl, Hd. change (default [] (Some v)) with v.
         unfold mret, st_ret. by rewrite Z.add_0_l, i32_small by lia. }
    unfold mret, st_ret. change (default [] (Some v)) with v. by rewrite u64_small by lia.
  - destruct (Locate_missing s m r Hr Hw Hv) as (e & E).
    rewrite (st_bind_Ok _ _ _ None s); [done|].
    rewrite (try_catch_Throw _ _ _ _ (ErrorException e) s); [done| |done].
    by apply st_bind_Throw, with_stores_Throw.
Qed.

(** ** Delete *)

Lemma Server_Delete_ok s m r :
  rep s m -> whole_request (s_conf s) r ->
  exists s', Server_Delete r s = (Ok (bool_decide (is_Some (m !! id_ r))), s') /\
    s_conf s' = s_conf s /\ rep s' (delete (id_ r) m).
Proof.
  intros Hr Hw. unfold Server_Delete. destruct (m !! id_ r) as [v|] eqn:Hv.
  - destruct (Locate_object s m r v Hr Hw Hv) as (link & tk & md & E & Hl & Hk & Hd & He).
    destruct Hr as [(Hc & Hne & Hpol) Hmaps Hu Hobj]. destruct s as [c e w]. simpl in *.
    destruct (world_remove tk w (set_data_size (Z.min (data_size_ r) (MAX_OBJ_SIZE c)) (set_position 0 link)) Hu)
      as (w1 & E1 & U1 & O1 & F1).
    destruct (Delete_ok c w1 r Hc U1) as (w2 & E2 & U2 & G1 & F2).
    cbn [id_ set_data_size set_position] in O1, F1. rewrite Hl in O1, F1.
    exists (mkServer c e w2). split; [|split; [done|]].
    { erewrite st_bind_Ok.
      2: { apply try_catch_Ok. erewrite st_bind_Ok; [done|]. apply with_stores_Ok. exact E. }
      cbn [fst]. erewrite (st_bind_Ok _ _ _ true (mkServer c e w1)).
      2: { unfold with_stores. cbn [s_conf s_world s_dde fold_st]. unfold remove_part.
           erewrite st_bind_Ok; [done|]. rewrite (on_client_ok _ _ tk) by done. exact E1. }
      unfold with_stores. cbn [s_conf s_world s_dde]. by rewrite E2. }
    split; [done|done|done|]. intros id. destruct (decide (id = id_ r)) as [->|Hid].
    + rewrite lookup_delete_eq. split; [done|]. intros ty. simpl. rewrite F2 by apply segment_meta.
      destruct (decide (ty = tk)) as [->|]; [done|]. rewrite F1 by congruence. by apply He.
    + rewrite lookup_delete_ne by done.
      eapply (object_in_frame (mkServer c e w)); [done|exact Hid| |apply Hobj].
      intros ty k Hk1 Hk2. simpl. rewrite F2 by done. apply F1. congruence.
  - destruct (Locate_missing s m r Hr Hw Hv) as (e & E). exists s.
    rewrite delete_id by done. split; [|done].
    rewrite (st_bind_Ok _ _ _ None s); [done|].
    rewrite (try_catch_Throw _ _ _ _ (ErrorException e) s); [done| |done].
    by apply st_bind_Throw, with_stores_Throw.
Qed.

(** ** Sequences of requests *)

(** An abstract request: the bytes of a store instead of a buffer. *)
Inductive abs_request :=
| AStore (id : string) (position : Z) (bytes : list ascii)
| ALocate (id : string) (size : Z) (destination : Data)
| ASize (id : string)
| ADelete (id : string).

Definition abs_serve (servers : Z) (q : abs_request) (m : objects) : reply * objects :=
  match q with
  | AStore id position bytes => (Stored servers, abs_store id position bytes m)
  | ALocate id size dst =>
      (match m !! id with
       | Some v => Located (set_buffer (Some (Some <$> abs_read size v)) dst)
       | None => Failed
       end, m)
  | ASize id => (Sized (zlen (default [] (m !! id))), m)
  | ADelete id => (Deleted (bool_decide (is_Some (m !! id))), delete id m)
  end.

Fixpoint abs_serve_all (servers : Z) (qs : list abs_request) (m : objects) : list reply * objects :=
  match qs with
  | [] => ([], m)
  | q :: qs' =>
      let '(a, m1) := abs_serve servers q m in
      let '(l, m2) := abs_serve_all servers qs' m1 in (a :: l, m2)
  end.

(** A request of the server stands for an abstract one, in the state [m]. *)
Inductive stands_for (c : Conf) (m : objects) : request -> abs_request -> Prop :=
| sf_store src dst bytes :
    store_request c m src dst bytes ->
    stands_for c m (StoreRequest src dst) (AStore (id_ dst) (position_ dst) bytes)
| sf_locate src dst :
    whole_request c src -> (forall v, m !! id_ src = Some v -> data_size_ src <= zlen v) ->
    stands_for c m (LocateRequest src dst) (ALocate (id_ src) (data_size_ src) dst)
| sf_size r : whole_request c r -> stands_for c m (SizeRequest r) (ASize (id_ r))
| sf_delete r : whole_request c r -> stands_for c m (DeleteRequest r) (ADelete (id_ r)).

Inductive stand_for (c : Conf) (servers : Z) : objects -> list request -> list abs_request -> Prop :=
| sfs_nil m : stand_for c servers m [] []
| sfs_cons m q a qs aqs :
    stands_for c m q a -> stand_for c servers (abs_serve servers a m).2 qs aqs ->
    stand_for c servers m (q :: qs) (a :: aqs).

Lemma serve_refines s m q a :
  rep s m -> stands_for (s_conf s) m q a ->
  exists s', serve rand sequence q s = (Ok (abs_serve (SERVER_COUNT (s_conf s)) a m).1, s') /\
    s_conf s' = s_conf s /\ rep s' (abs_serve (SERVER_COUNT (s_conf s)) a m).2.
Proof.
  intros Hr [src dst bytes Hq|src dst Hq Hn|r Hq|r Hq]; unfold serve; cbn [abs_serve fst snd].
  - destruct (Server_Store_ok s m src dst bytes Hr Hq) as (s' & E & Hc & Hr').
    exists s'. split; [|done]. apply try_catch_Ok. by st_step E.
  - exists s. split; [|done]. destruct (m !! id_ src) as [v|] eqn:Hv.
    + apply try_catch_Ok. pose proof (Server_Locate_ok s m src dst v Hr Hq Hv (Hn _ eq_refl)) as E.
      by st_step E.
    + destruct (Server_Locate_missing s m src dst Hr Hq Hv) as (e & E).
      rewrite (try_catch_Throw _ _ _ _ (ErrorException e) s); [done| |done]. by apply st_bind_Throw.
  - exists s. split; [|done]. apply try_catch_Ok. pose proof (Server_Size_ok s m r Hr Hq) as E.
    by st_step E.
  - destruct (Server_Delete_ok s m r Hr Hq) as (s' & E & Hc & Hr').
    exists s'. split; [|done]. apply try_catch_Ok. by st_step E.
Qed.

Lemma serve_all_refines c sv m qs aqs :
  stand_for c sv m qs aqs -> forall s, s_conf s = c -> SERVER_COUNT c = sv -> rep s m ->
  exists s', serve_all rand sequence qs s = (Ok (abs_serve_all sv aqs m).1, s') /\
    rep s' (abs_serve_all sv aqs m).2.
Proof.
  induction 1 as [m|m q a qs aqs Hqa Hqs IH]; intros s Ec Hsv Hr; [by exists s|].
  rewrite <- Ec in Hqa. destruct (serve_refines s m q a Hr Hqa) as (s1 & E1 & Hc1 & Hr1).
  rewrite Ec, Hsv in E1, Hr1. cbn [serve_all abs_serve_all]. st_step E1.
  destruct (abs_serve sv a m) as [ans m1]. cbn [fst snd] in *.
  destruct (IH s1 ltac:(congruence) Hsv Hr1) as (s2 & E2 & Hr2). st_step E2.
  destruct (abs_serve_all sv aqs m1) as [l m2]. by exists s2.
Qed.

(** C2: A sequence of requests on objects of one segment gets the replies of a map
    from names to bytes, whichever configured store a request names, for the
    requests of [stand_for]: a store creates an object at offset 0, or overwrites
    one where its store writes exactly ([kv_exact]: Redis and MongoDB from offset 0
    or ending before the end of the value, or beyond its end, and so not the append
    that starts at the end, where the code loses a byte); Locate, Size and Delete
    start at offset 0, and Locate asks for at most the length. The configuration has
    at most one solution per storage type and not the dynamic-programming policy;
    the services are up and the requests come one after the other. *)
Theorem server_refines_map s m qs aqs :
  rep s m -> stand_for (s_conf s) (SERVER_COUNT (s_conf s)) m qs aqs ->
  exists s', serve_all rand sequence qs s =
      (Ok (abs_serve_all (SERVER_COUNT (s_conf s)) aqs m).1, s') /\
    rep s' (abs_serve_all (SERVER_COUNT (s_conf s)) aqs m).2.
Proof. intros Hr Hq. by eapply serve_all_refines. Qed.

End refinement.
