(* ===== verification/ReadParts.v ===== *)
(** * ReadParts: joining the parts of a read, in Locate of src/symbios/server/server.cpp

    The two loops of [Locate] read the parts and copy their bytes one behind the
    other; the total they allocate counts the position of a part as well as its
    bytes, so it is large enough as long as it does not overflow. *)

From S2P Require Import Prelude CText Effects Types Services KeyValueSpec IOClient World.
From S2P Require Import Msgpack Config Distribution Metadata MetadataSpec Segments Chunks Server ServerSpec.

Lemma splice_splice_at {A} (z : A) off a b old :
  0 <= off -> splice z (off + zlen a) b (splice z off a old) = splice z off (a ++ b) old.
Proof.
  intros Ho. pose proof (zlen_nonneg a). apply list_eq. intros i. rewrite !lookup_splice, zlen_app by lia.
  unfold zlen in *. destruct (decide (Z.of_nat i < off)).
  { by rewrite decide_True by lia. }
  destruct (decide (Z.of_nat i < off + Z.of_nat (length a))).
  - rewrite decide_True by lia. rewrite lookup_app_l by lia.
    destruct (lookup_lt_is_Some_2 a (i - Z.to_nat off)) as [x ->]; [lia|done].
  - rewrite (lookup_app_r a) by lia.
    destruct (decide (Z.of_nat i < off + Z.of_nat (length a) + Z.of_nat (length b))),
      (decide (Z.of_nat i < off + (Z.of_nat (length a) + Z.of_nat (length b)))); try lia; [|done].
    f_equal. lia.
Qed.

Section parts.
Context {R M : Type} `{RedisLaws R} `{MongoLaws M}.
Context (c : Conf).
Implicit Types w : World R M.

(** The destination of a part that was read. *)
Definition read_result (d : DataDistribution) (b : list ascii) : Data :=
  let dest := destination_data_ d in
  set_data_size (position_ dest + zlen b)
    (set_buffer (Some (replicate (Z.to_nat (position_ dest)) None ++ (Some <$> b))) dest).

Definition part_reads w (d : DataDistribution) (b : list ascii) : Prop :=
  0 <= position_ (destination_data_ d) /\
  on_client c (storage_index_ (destination_data_ d))
    (fun cl => Read cl (source_data_ d) (destination_data_ d)) w = (Ok (read_result d b), w).

(** What the first loop adds up. *)
Definition read_total (ds : list DataDistribution) (bs : list (list ascii)) : Z :=
  foldr Z.add 0 (zip_with (fun d b => position_ (destination_data_ d) + zlen b) ds bs).

Lemma read_total_cons d b ds bs :
  read_total (d :: ds) (b :: bs) = position_ (destination_data_ d) + zlen b + read_total ds bs.
Proof. done. Qed.

Lemma read_total_nonneg w ds bs : Forall2 (part_reads w) ds bs -> zlen (mjoin bs) <= read_total ds bs.
Proof.
  induction 1 as [|d b ds bs [Hp _] Hf IH]; [done|].
  change (mjoin (b :: bs)) with (b ++ mjoin bs). rewrite zlen_app, read_total_cons. lia.
Qed.

Lemma read_loop w ds bs acc :
  Forall2 (part_reads w) ds bs -> 0 <= acc.1 -> acc.1 + read_total ds bs < 2 ^ 31 ->
  fold_st (read_part c) acc ds w = (Ok (acc.1 + read_total ds bs, acc.2 ++ zip_with read_result ds bs), w).
Proof.
  intros Hf. revert acc. induction Hf as [|d b ds bs [Hp Hr] Hf IH]; intros [n l] Hn Ht; cbn [fst snd] in *.
  - cbn. by rewrite Z.add_0_r, app_nil_r.
  - pose proof (read_total_nonneg w ds bs Hf). pose proof (zlen_nonneg (mjoin bs)). pose proof (zlen_nonneg b).
    rewrite read_total_cons in Ht |- *. cbn [fold_st].
    rewrite (st_bind_Ok _ _ _ (n + (position_ (destination_data_ d) + zlen b), l ++ [read_result d b]) w).
    + rewrite IH by (cbn; lia). cbn [fst snd]. rewrite <- app_assoc. do 2 f_equal. f_equal. lia.
    + unfold read_part. rewrite (st_bind_Ok _ _ _ _ _ Hr). cbn [read_result data_size_ set_data_size fst snd].
      by rewrite i32_small by lia.
Qed.

Lemma copy_part_ok d b cs at_ :
  0 <= position_ (destination_data_ d) -> position_ (destination_data_ d) + zlen b < 2 ^ 62 ->
  0 <= at_ -> at_ + zlen b <= zlen cs -> zlen cs < 2 ^ 62 ->
  copy_part (Some cs, at_) (read_result d b) = Ok (Some (splice None at_ (Some <$> b) cs), at_ + zlen b).
Proof.
  intros Hp Hd Ha Hb Hc. pose proof (zlen_nonneg b). unfold copy_part.
  cbn [read_result data_size_ position_ buffer_ set_data_size set_buffer fst snd].
  replace (position_ (destination_data_ d) + zlen b -u position_ (destination_data_ d)) with (zlen b)
    by (rewrite Z.add_simpl_l; symmetry; apply u64_small; lia).
  assert (zlen (replicate (Z.to_nat (position_ (destination_data_ d))) (@None ascii)) = position_ (destination_data_ d))
    as Ez by (unfold zlen; rewrite length_replicate; lia).
  rewrite mem_read_in by (rewrite ?zlen_app, ?zlen_fmap; lia). unfold mbind; cbn [outcome_bind].
  rewrite slice_skip by lia. rewrite Ez, Z.sub_diag. rewrite <- (zlen_fmap Some b), slice_whole.
  rewrite mem_write_in by (rewrite ?zlen_fmap; lia). cbn [outcome_bind].
  by rewrite i64_small by (rewrite zlen_fmap; lia).
Qed.

Lemma copy_loop w ds bs cs at_ :
  Forall2 (part_reads w) ds bs -> 0 <= at_ -> at_ + zlen (mjoin bs) <= zlen cs -> zlen cs < 2 ^ 62 ->
  read_total ds bs < 2 ^ 31 ->
  copy_parts (Some cs, at_) (zip_with read_result ds bs) =
    Ok (Some (splice None at_ (Some <$> mjoin bs) cs), at_ + zlen (mjoin bs)).
Proof.
  intros Hf. revert cs at_. induction Hf as [|d b ds bs [Hp Hr] Hf IH]; intros cs at_ Ha Hb Hc Ht.
  { change (mjoin (@nil (list ascii))) with (@nil ascii) in *. cbn. rewrite Z.add_0_r. do 3 f_equal.
    apply list_eq. intros i. rewrite lookup_splice by done. change (zlen (@nil (option ascii))) with 0 in *.
    change (zlen (@nil ascii)) with 0 in *. destruct (decide (Z.of_nat i < at_)).
    - by destruct (lookup_zlen cs i) as [x ->]; [lia|].
    - by rewrite decide_False by lia. }
  change (mjoin (b :: bs)) with (b ++ mjoin bs) in *. rewrite zlen_app in Hb.
  pose proof (zlen_nonneg (mjoin bs)). pose proof (zlen_nonneg b).
  pose proof (read_total_nonneg w ds bs Hf). rewrite read_total_cons in Ht. cbn [zip_with copy_parts].
  rewrite copy_part_ok by lia. unfold mbind; cbn [outcome_bind].
  rewrite IH; [|lia|rewrite zlen_splice, ?zlen_fmap by done; lia|rewrite zlen_splice, zlen_fmap by done; lia|lia].
  rewrite <- (zlen_fmap Some b) at 1. rewrite splice_splice_at by done. rewrite <- fmap_app, zlen_app.
  by rewrite Z.add_assoc.
Qed.

(** Both loops: the buffer starts with the bytes of the parts. *)
Lemma joined_parts w ds bs :
  Forall2 (part_reads w) ds bs -> read_total ds bs < 2 ^ 31 ->
  exists cells, copy_parts (malloc (u64 (read_total ds bs)), 0) (zip_with read_result ds bs) =
      Ok (Some cells, zlen (mjoin bs)) /\
    zlen cells = read_total ds bs /\ slice 0 (zlen (mjoin bs)) cells = Some <$> mjoin bs.
Proof.
  intros Hf Ht. pose proof (read_total_nonneg w ds bs Hf). pose proof (zlen_nonneg (mjoin bs)).
  rewrite u64_small by lia. unfold malloc.
  assert (zlen (replicate (Z.to_nat (read_total ds bs)) (@None ascii)) = read_total ds bs) as Ez
    by (unfold zlen; rewrite length_replicate; lia).
  rewrite (copy_loop w) by (done || lia). eexists. split; [done|]. split.
  - rewrite zlen_splice, zlen_fmap by done. lia.
  - rewrite <- (zlen_fmap Some (mjoin bs)). by apply slice_splice.
Qed.

(** ** The total of a range *)

Lemma i32_wraps a : exists q, i32 a = a + q * 2 ^ 32.
Proof.
  pose proof (Z.div_mod a (2 ^ 32) ltac:(lia)). unfold i32, to_signed. cbn zeta.
  destruct (_ <? _); [exists (- (a / 2 ^ 32))|exists (- (a / 2 ^ 32) - 1)]; lia.
Qed.

Lemma i32_add_l a b : i32 (i32 a + b) = i32 (a + b).
Proof.
  destruct (i32_wraps a) as [q ->]. unfold i32, to_signed.
  replace (a + q * 2 ^ 32 + b) with (a + b + q * 2 ^ 32) by lia. by rewrite Z.mod_add by lia.
Qed.

(** The first loop without a bound: the total is an [int]. *)
Lemma read_loop_wraps w ds bs acc :
  Forall2 (part_reads w) ds bs -> ds <> [] ->
  fold_st (read_part c) acc ds w = (Ok (i32 (acc.1 + read_total ds bs), acc.2 ++ zip_with read_result ds bs), w).
Proof.
  intros Hf. revert acc. induction Hf as [|d b ds bs [Hp Hr] Hf IH]; intros [n l] Hne; [done|]. clear Hne.
  assert (forall X, read_part c (n, l) d w = X -> X = (Ok (i32 (n + (position_ (destination_data_ d) + zlen b)),
    l ++ [read_result d b]), w)) as Hpart.
  { intros X <-. unfold read_part. by rewrite (st_bind_Ok _ _ _ _ _ Hr). }
  specialize (Hpart _ eq_refl). cbn [fold_st]. rewrite (st_bind_Ok _ _ _ _ _ Hpart). rewrite read_total_cons.
  destruct Hf as [|d' b' ds bs Hd' Hf].
  - cbn. by rewrite !Z.add_0_r.
  - rewrite IH by done. cbn [fst snd]. rewrite i32_add_l, <- app_assoc.
    do 3 f_equal. f_equal. lia.
Qed.

(** Parts of full segments, one behind the other, add up quadratically. *)
Lemma read_total_full X ds bs p :
  length ds = length bs ->
  (forall (j : nat) d b, ds !! j = Some d -> bs !! j = Some b ->
    position_ (destination_data_ d) = (p + Z.of_nat j) * X /\ zlen b = X) ->
  2 * read_total ds bs = X * zlen ds * (2 * p + zlen ds + 1).
Proof.
  revert bs p. induction ds as [|d ds IH]; intros [|b bs] p Hl Hp; try done; [change (2 * 0 = X * 0 * (2 * p + 0 + 1)); lia|].
  injection Hl as Hl. destruct (Hp 0%nat d b eq_refl eq_refl) as [E1 E2].
  assert (2 * read_total ds bs = X * zlen ds * (2 * (p + 1) + zlen ds + 1)) as E.
  { apply IH; [done|]. intros j d' b' Hd Hb. destruct (Hp (S j) d' b' Hd Hb) as [-> ->]. split; [f_equal; lia|done]. }
  rewrite read_total_cons, E1, E2, zlen_cons. lia.
Qed.

(** 46 segments of 2 MB, 92 MB, overflow it. *)
Lemma read_total_overflow ds bs :
  length ds = length bs -> zlen ds = 46 ->
  (forall (j : nat) d b, ds !! j = Some d -> bs !! j = Some b ->
    position_ (destination_data_ d) = Z.of_nat j * 2 ^ 21 /\ zlen b = 2 ^ 21) ->
  read_total ds bs = 2267021312 /\ i32 (read_total ds bs) = - 2027945984.
Proof.
  intros Hl Hn Hp. pose proof (read_total_full (2 ^ 21) ds bs 0 Hl Hp) as E. rewrite Hn in E.
  assert (read_total ds bs = 2267021312) as -> by lia. done.
Qed.

End parts.
