(* ===== verification/MultiSpec.v ===== *)
(** * MultiSpec: the server implements a store of objects of any size

    The abstract state maps the name of an object to its home, the storage index
    of its primary metadata, and its bytes.  [rep] relates it to the server's
    state.  Every handler refines its abstract operation on objects of any number
    of segments, and so does a sequence of requests: a store that stays inside one
    segment, a read of the whole object or, from files, of a range, the size and
    the deletion. *)

From S2P Require Import Prelude CText Effects Types Services FileIO KeyValueSpec IOClient World.
From S2P Require Import Msgpack Config Distribution Metadata MetadataSpec Segments Chunks ObjectSpec.
From S2P Require Import Server ServerSpec ReadParts.

Module Multi.

Abbreviation objects := (gmap string (Z * list ascii)) (only parsing).

Section refinement.
Context {R M : Type} `{RedisLaws R} `{MongoLaws M} `{MsgpackLaws}.
Context (rand sequence : nat -> Z).
Context (Hrand : forall n, 0 <= rand n < 2 ^ 31) (Hseq : forall n, 0 <= sequence n < 2 ^ 64).
Implicit Types s : Server R M.

Definition object_in (c : Conf) (w : World R M) (id : string) (o : option (Z * list ascii)) : Prop :=
  match o with
  | Some (p, v) => exists links, object_at c w id v p links
  | None => object_absent c w id
  end.

Record rep s (m : objects) : Prop := {
  rep_conf : conf_runs (s_conf s);
  rep_maps : maps_ok (s_conf s) (maps (s_dde s));
  rep_up : world_up (s_world s);
  rep_objects : forall id, name_ok id -> object_in (s_conf s) (s_world s) id (m !! id);
}.

Lemma object_kept c w w' id o : same_keys w w' id -> object_in c w id o -> object_in c w' id o.
Proof.
  intros F. destruct o as [[p v]|]; simpl; [|by apply object_absent_frame].
  intros [links Ho]. exists links. by eapply object_at_frame.
Qed.

(** Changing the keys of one object leaves the others alone. *)
Lemma other_keys w w' id id' :
  name_ok id -> name_ok id' -> id' <> id ->
  (forall ty key, key <> meta_id id -> (forall i, 0 <= i -> key <> segment_id id i) ->
    wobj w' ty key = wobj w ty key) -> same_keys w w' id'.
Proof.
  intros Hn Hn' Hne F. split.
  - intros ty. apply F; [by intros E%meta_id_inj|]. intros i Hi E. by apply (segment_meta_key id id' i).
  - intros ty i Hi. apply F; [by apply segment_meta_key|]. intros j Hj E.
    by destruct (segment_key_inj id' id i j Hn' Hn Hi Hj E).
Qed.

Lemma rep_change c e w e' w' m id o :
  name_ok id -> rep (mkServer c e w) m -> maps_ok c (maps e') -> world_up w' ->
  (forall ty key, key <> meta_id id -> (forall i, 0 <= i -> key <> segment_id id i) ->
    wobj w' ty key = wobj w ty key) ->
  object_in c w' id o -> rep (mkServer c e' w') (partial_alter (fun _ => o) id m).
Proof.
  intros Hn [Hc Hm Hu Ho] Hm' Hu' F Hid. split; try done. intros id' Hn'. simpl in *.
  destruct (decide (id' = id)) as [->|Hne]; [by rewrite lookup_partial_alter_eq|].
  rewrite lookup_partial_alter_ne by done. eapply object_kept; [|by apply Ho].
  by apply (other_keys w w' id id').
Qed.

(** ** Store *)

Definition bytes_at (o : option (Z * list ascii)) : list ascii := default [] (snd <$> o).

(** What the store of the segment may hold: the segment, or nothing yet. *)
Definition segment_before (X k : Z) (v : list ascii) : option (list ascii) :=
  if decide (k * X < zlen v) then Some (chunk X k v) else None.

Record store_request (c : Conf) (m : objects) (src dst : Data) (bytes : list ascii) : Prop := {
  sr_bytes : exists cs, buffer_ src = Some cs /\ slice 0 (zlen bytes) cs = Some <$> bytes /\
                        zlen bytes <= zlen cs;
  sr_src : position_ src = 0 /\ data_size_ src = zlen bytes;
  sr_inside : inside_segment c (bytes_at (m !! id_ dst)) (position_ dst) bytes;
  sr_exact : forall i ty, type_at c i ty ->
    wexact (R := R) (M := M) ty (segment_before (MAX_OBJ_SIZE c) (position_ dst / MAX_OBJ_SIZE c) (bytes_at (m !! id_ dst)))
      (position_ dst mod MAX_OBJ_SIZE c) (zlen bytes) = true;
  sr_dst : is_u64 (data_size_ dst) /\ name_ok (id_ dst);
  sr_index : exists ti, type_at c (storage_index_ dst) ti;
  sr_home : forall p v, m !! id_ dst = Some (p, v) -> storage_index_ dst = p;
}.

Lemma Store_any c w id o dst d bytes k tk ti :
  conf_ok c -> world_up w -> name_ok id -> object_in c w id o -> id_ dst = id ->
  type_at c (storage_index_ dst) ti -> (forall p v, o = Some (p, v) -> storage_index_ dst = p) ->
  id_ (destination_data_ d) = id -> position_ (destination_data_ d) = position_ dst ->
  is_u64 (data_size_ (destination_data_ d)) -> storage_index_ (destination_data_ d) = k -> type_at c k tk ->
  inside_segment c (bytes_at o) (position_ dst) bytes ->
  exists d' link links w', Metadata.Store c dst [d] w = (Ok [d'], w') /\
    store_opened c w w' id (bytes_at o) (storage_index_ dst) (position_ dst) d d' links link.
Proof.
  intros Hc Hu Hn Ho Hid Hti Hp Hdi Hdp Hds Hk Htk Hin. destruct o as [[p v]|]; simpl in *.
  - destruct Ho as [links Ho]. specialize (Hp _ _ eq_refl) as Hp'.
    change (bytes_at (Some (p, v))) with v in *.
    destruct (Z.lt_ge_cases (position_ dst / MAX_OBJ_SIZE c * MAX_OBJ_SIZE c) (zlen v)) as [Hlt|Hge].
    + destruct (Store_segment c Hc w id v p links dst d bytes) as (d' & link & E & Ho'); try done.
      exists d', link, links, w. by rewrite Hp'.
    + destruct (Store_extend c Hc w id v p links dst d bytes k tk) as (d' & link & links' & w' & E & Ho'); try done.
      exists d', link, links', w'. by rewrite Hp'.
  - by apply (Store_first c Hc w id dst d bytes ti k tk).
Qed.

Definition abs_store (id : string) (p pos : Z) (bytes : list ascii) (m : objects) : objects :=
  <[id := (p, exact_value (Some (bytes_at (m !! id))) pos bytes)]> m.

Lemma Server_Store_object s m src dst bytes :
  rep s m -> store_request (s_conf s) m src dst bytes ->
  exists s', Server_Store rand sequence src dst s = (Ok (SERVER_COUNT (s_conf s)), s') /\
    s_conf s' = s_conf s /\ rep s' (abs_store (id_ dst) (storage_index_ dst) (position_ dst) bytes m).
Proof.
  intros Hr [(cs & Hb & Hs & Hcs) (Hp & Hsz) Hin Hx [Hds Hn] (ti & Hti) Hhome].
  pose proof Hr as [(Hc & Hne & Hpol) Hmaps Hu Hobj].
  destruct s as [c e w]; simpl in *. pose proof (conf_max c Hc) as Hmax.
  pose proof Hin as ([Hp0 _] & Hnb & Hfit & _). unfold transfer_max in *. unfold Server_Store.
  destruct (Distribute_parts rand sequence src dst c e (conf_dense c Hc) Hne Hmaps (Hseq _) (Hrand _))
    as (ds & e' & Ed & Hm' & Hds').
  assert (carries src dst c ds) as (k & sk & Hk & ->) by (by destruct (DATA_DISTRIBUTION_POLICY c)).
  set (d := mkDataDistribution src (set_storage_index k dst) (storage_index_ src)).
  destruct (Store_any c w (id_ dst) (m !! id_ dst) dst d bytes k (io_client_type_ sk) ti)
    as (d' & link & links & w1 & E1 & [U1 Hopen Hl G1 G2 G3 G4 F1]); try done; try by auto.
  { by exists sk. }
  subst d. cbn [source_data_] in *.
  destruct (inside_split c Hc _ _ _ Hin) as (Hpos & Hk0 & Hr0 & Hbz & Hkv & _).
  destruct (oo_links _ _ _ _ _ _ _ Hopen _ _ Hl) as (_ & _ & _ & _ & tk & Htk & Ew & _).
  set (v := bytes_at (m !! id_ dst)) in *. set (X := MAX_OBJ_SIZE c) in *.
  assert (zlen (default [] (wobj w1 tk (segment_id (id_ dst) (position_ dst / X)))) <= X) as Hseg.
  { rewrite Ew. case_decide; simpl; [apply chunk_present; (done || lia)|unfold zlen; simpl; lia]. }
  destruct (write_part_ok c w1 d' cs bytes tk) as (w2 & E2 & Up); rewrite ?G1, ?G2, ?G3, ?G4;
    try done; unfold transfer_max; try lia.
  { rewrite Ew. by apply (Hx (storage_index_ link)). }
  rewrite G2, G3 in Up.
  exists (mkServer c e' w2). split; [|split; [done|]].
  - erewrite st_bind_Ok; [|unfold with_engine; simpl; by rewrite Ed].
    erewrite st_bind_Ok; [|unfold with_stores; simpl; by rewrite E1].
    rewrite (st_bind_Ok _ _ _ () (mkServer c e' w2)); [done|]. unfold with_stores; cbn [s_conf s_world for_each].
    by rewrite (st_bind_Ok _ _ _ _ _ E2).
  - pose proof Up as (U2 & _ & F2). eapply rep_change; [exact Hn|exact Hr|done|done| |].
    + intros ty key Hk1 Hk2. rewrite F2 by (intros [= _ ->]; by apply (Hk2 (position_ dst / X))). by apply F1.
    + exists links. by eapply (open_write c Hc w1 w2).
Qed.

(** ** The parts of a whole object *)

(** The request that stands for a whole object: offset and size zero. *)
Record whole_request (r : Data) : Prop := { wh_position : position_ r = 0; wh_size : data_size_ r = 0 }.

Definition whole_part (link : Data) : DataDistribution :=
  let part := set_data_size 0 (set_position 0 link) in mkDataDistribution part part (storage_index_ link).

Lemma locate_loop_all c e i links off : locate_loop c true e i links off 0 0 = whole_part <$> links.
Proof.
  revert i off. induction links as [|link links IH]; intros i off; [done|].
  cbn [locate_loop orb]. rewrite fmap_cons, Z.sub_0_r.
  assert ((if 0 <? u64 (max_obj c) then 0 else u64 (max_obj c)) = 0) as ->.
  { pose proof (Z.mod_pos_bound (max_obj c) (2 ^ 64) ltac:(lia)).
    destruct (Z.ltb_spec 0 (u64 (max_obj c))); [done|]. unfold u64 in *. lia. }
  rewrite Z.sub_diag. change (u64 0) with 0. change (i32 (0 + 0)) with 0. by rewrite IH.
Qed.

Lemma locate_whole c r links :
  conf_ok c -> whole_request r -> links <> [] -> zlen links < 2 ^ 31 ->
  locate_segments c r links = whole_part <$> links.
Proof.
  intros Hc [Hp Hd] Hne Hl. pose proof (conf_max c Hc). unfold locate_segments. rewrite Hp, Hd, max_obj_ok by done.
  rewrite Z.div_0_l by lia. change (u64 (i32 0)) with 0. pose proof (zlen_pos _ Hne).
  destruct (Z.ltb_spec 0 (zlen links)); [|lia]. apply locate_loop_all.
Qed.

(** The links in order and the segments they name. *)
Lemma object_links c w id v p links j link :
  conf_ok c -> object_at c w id v p links -> link_list (segments (MAX_OBJ_SIZE c) v) links !! j = Some link ->
  Z.of_nat j * MAX_OBJ_SIZE c < zlen v /\ segment_at c w id v (Z.of_nat j) link.
Proof.
  intros Hc Ho Hj. pose proof (X_pos c Hc) as HX. pose proof (segments_nonneg (MAX_OBJ_SIZE c) HX v).
  assert (Z.of_nat j < segments (MAX_OBJ_SIZE c) v) as Hlt.
  { apply lookup_lt_Some in Hj. pose proof (zlen_link_list (segments (MAX_OBJ_SIZE c) v) links ltac:(done)).
    unfold zlen in *. lia. }
  rewrite link_list_lookup in Hj by done. apply segments_iff in Hlt; [|done].
  destruct (ob_present _ _ _ _ _ _ Ho (Z.of_nat j)) as [l El]; [lia|done|]. rewrite El in Hj. injection Hj as <-.
  by destruct (ob_links _ _ _ _ _ _ Ho _ _ El) as (_ & ? & ?).
Qed.

Lemma link_list_chunks c v links : conf_ok c ->
  length (link_list (segments (MAX_OBJ_SIZE c) v) links) = length (chunks (MAX_OBJ_SIZE c) v).
Proof. intros Hc. by rewrite length_chunks; unfold link_list; rewrite length_fmap, length_seqZ. Qed.

Lemma object_segments c w id v p links : conf_ok c -> object_at c w id v p links ->
  0 < segments (MAX_OBJ_SIZE c) v < 2 ^ 20.
Proof.
  intros Hc Ho. pose proof (X_pos c Hc) as HX. destruct (ob_size _ _ _ _ _ _ Ho) as [Hv Hm].
  destruct (object_max_bounds c Hc) as (_ & _ & ?). split; [apply segments_iff; lia|].
  apply Z.nle_gt. intros Hle. assert (2 ^ 20 - 1 < segments (MAX_OBJ_SIZE c) v) as Hs by lia.
  apply segments_iff in Hs; [|done]. lia.
Qed.

Lemma object_whole_parts c w id v p links r :
  conf_ok c -> object_at c w id v p links -> whole_request r ->
  let ds := locate_segments c r (link_list (segments (MAX_OBJ_SIZE c) v) links) in
  length ds = length (chunks (MAX_OBJ_SIZE c) v) /\
  (forall j d, ds !! j = Some d -> exists link, d = whole_part link /\
    Z.of_nat j * MAX_OBJ_SIZE c < zlen v /\ segment_at c w id v (Z.of_nat j) link) /\
  (forall i link, links !! i = Some link -> whole_part link ∈ ds).
Proof.
  intros Hc Ho Hr. pose proof (object_segments c w id v p links Hc Ho) as Hs.
  pose proof (X_pos c Hc) as HX. cbn zeta.
  rewrite locate_whole; [|done|done|intros E; apply (f_equal zlen) in E;
    rewrite zlen_link_list in E by lia; unfold zlen in E; simpl in E; lia|rewrite zlen_link_list by lia; lia].
  split; [by rewrite length_fmap, link_list_chunks|]. split.
  - intros j d Hj. rewrite list_lookup_fmap in Hj. destruct (_ !! j) as [link|] eqn:El; [|done].
    injection Hj as <-. exists link. split; [done|]. by eapply object_links.
  - intros i link Hi. apply list_elem_of_fmap. exists link. split; [done|].
    destruct (ob_links _ _ _ _ _ _ Ho i link Hi) as (Hi0 & Hiv & _).
    apply (list_elem_of_lookup_2 _ (Z.to_nat i)). rewrite link_list_lookup.
    + by rewrite Z2Nat.id, Hi.
    + rewrite Z2Nat.id by done. by apply segments_iff.
Qed.

(** ** Reading *)

(** The parts of [Metadata.Locate], read and joined. *)
Lemma Server_Locate_parts s src dst ds md bs :
  Metadata.Locate (s_conf s) src (s_world s) = (Ok (ds, md), s_world s) ->
  Forall2 (part_reads (s_conf s) (s_world s)) ds bs -> read_total ds bs < 2 ^ 31 ->
  exists cells, Server_Locate src dst s = (Ok (set_buffer (Some cells) dst), s) /\
    zlen cells = read_total ds bs /\ slice 0 (zlen (mjoin bs)) cells = Some <$> mjoin bs.
Proof.
  intros E Hf Ht. destruct (joined_parts _ _ _ _ Hf Ht) as (cells & Ec & Hz & Hs).
  exists cells. split; [|done]. pose proof (read_total_nonneg _ _ _ _ Hf). pose proof (zlen_nonneg (mjoin bs)).
  unfold Server_Locate. erewrite st_bind_Ok by (apply with_stores_Ok, E). cbn [fst].
  erewrite st_bind_Ok by (apply with_stores_Ok, (read_loop _ _ _ _ (0, []) Hf); simpl; lia).
  cbn [fst snd]. rewrite Z.add_0_l, app_nil_l. erewrite st_bind_Ok; [|unfold lift; by rewrite Ec]. done.
Qed.

Lemma whole_part_reads c w id v link i :
  conf_ok c -> world_up w -> segment_at c w id v i link -> 0 <= i -> i * MAX_OBJ_SIZE c < zlen v ->
  part_reads c w (whole_part link) (chunk (MAX_OBJ_SIZE c) i v).
Proof.
  intros Hc Hu (Hid & _ & tk & Htk & Ek & _) Hi Hv. pose proof (X_pos c Hc) as HX.
  pose proof (chunk_present (MAX_OBJ_SIZE c) HX i v Hi Hv) as Hz. pose proof (conf_max c Hc).
  split; [done|]. cbn [whole_part source_data_ destination_data_ storage_index_ set_data_size set_position].
  rewrite (on_client_ok _ _ tk) by done.
  rewrite (world_read tk w _ _ (chunk (MAX_OBJ_SIZE c) i v) (zlen (chunk (MAX_OBJ_SIZE c) i v)));
    cbn; rewrite ?Hid, ?wreads_0; try done; try lia.
  by rewrite slice_whole.
Qed.

Lemma read_total_zero ds bs :
  length ds = length bs -> (forall d, d ∈ ds -> position_ (destination_data_ d) = 0) ->
  read_total ds bs = zlen (mjoin bs).
Proof.
  revert bs. induction ds as [|d ds IH]; intros [|b bs] Hl Hp; try done. injection Hl as Hl.
  change (mjoin (b :: bs)) with (b ++ mjoin bs). rewrite read_total_cons, zlen_app.
  rewrite (Hp d), IH by (done || by left || (intros; apply Hp; by right)). lia.
Qed.

Lemma Locate_present s m r p v :
  rep s m -> name_ok (id_ r) -> m !! id_ r = Some (p, v) -> storage_index_ r = p ->
  exists links, object_at (s_conf s) (s_world s) (id_ r) v p links /\
    Metadata.Locate (s_conf s) r (s_world s) =
      (Ok (locate_segments (s_conf s) r (link_list (segments (MAX_OBJ_SIZE (s_conf s)) v) links),
           mkMetadata false p links), s_world s).
Proof.
  intros [(Hc & _) _ Hu Hobj] Hn Hv Hp. pose proof (Hobj _ Hn) as Ho. rewrite Hv in Ho.
  destruct Ho as [links Ho]. exists links. split; [done|]. by apply (Locate_object_at _ Hc _ (id_ r) v p links r).
Qed.

Lemma Locate_none s m r ti :
  rep s m -> name_ok (id_ r) -> m !! id_ r = None -> type_at (s_conf s) (storage_index_ r) ti ->
  exists e, Metadata.Locate (s_conf s) r (s_world s) = (Throw (ErrorException e), s_world s).
Proof.
  intros [(Hc & _) _ Hu Hobj] Hn Hv Ht. pose proof (Hobj _ Hn) as Ho. rewrite Hv in Ho.
  by apply (Locate_object_absent _ _ r ti).
Qed.

Lemma Server_Locate_whole s m src dst p v :
  rep s m -> name_ok (id_ src) -> whole_request src -> m !! id_ src = Some (p, v) -> storage_index_ src = p ->
  Server_Locate src dst s = (Ok (set_buffer (Some (Some <$> v)) dst), s).
Proof.
  intros Hr Hn Hw Hv Hp. destruct (Locate_present s m src p v Hr Hn Hv Hp) as (links & Ho & E).
  destruct Hr as [(Hc & _) _ Hu _]. pose proof (X_pos _ Hc) as HX.
  destruct (object_whole_parts _ _ _ v p links src Hc Ho Hw) as (Hlen & Hparts & _).
  destruct (ob_size _ _ _ _ _ _ Ho) as [Hv0 Hvm]. destruct (object_max_bounds _ Hc) as (_ & ? & _).
  set (ds := locate_segments _ _ _) in *.
  assert (read_total ds (chunks (MAX_OBJ_SIZE (s_conf s)) v) = zlen v) as Ht.
  { rewrite <- (mjoin_chunks _ HX v) at 2. apply read_total_zero; [done|].
    intros d [j Hj]%list_elem_of_lookup_1. destruct (Hparts j d Hj) as (link & -> & _). done. }
  destruct (Server_Locate_parts s src dst ds (mkMetadata false p links) (chunks (MAX_OBJ_SIZE (s_conf s)) v) E)
    as (cells & -> & Hz & Hs); [|lia|].
  { apply Forall2_same_length_lookup_2; [done|]. intros j d b Hj Hb.
    destruct (Hparts j d Hj) as (link & -> & Hjv & Hat). rewrite chunks_lookup, decide_True in Hb by done.
    injection Hb as <-. apply (whole_part_reads _ _ (id_ src)); done || lia. }
  rewrite (mjoin_chunks _ HX) in Hs. rewrite Ht in Hz. rewrite <- Hz, slice_whole in Hs. by rewrite Hs.
Qed.

(** ** Size *)

Lemma size_loop c w ds ns n :
  Forall2 (fun d k => 0 <= k /\ on_client c (storage_index_ (destination_data_ d))
    (fun cl => Size cl (destination_data_ d)) w = (Ok k, w)) ds ns ->
  0 <= n -> n + foldr Z.add 0 ns < 2 ^ 31 ->
  fold_st (fun total d =>
    k ← on_client c (storage_index_ (destination_data_ d)) (fun cl => Size cl (destination_data_ d));
    mret (i32 (total + k))) n ds w = (Ok (n + foldr Z.add 0 ns), w).
Proof.
  intros Hf. revert n. induction Hf as [|d k ds ns [Hk Hd] Hf IH]; intros n Hn Hb; cbn [foldr fold_st] in *.
  { by rewrite Z.add_0_r. }
  assert (0 <= foldr Z.add 0 ns).
  { clear -Hf. induction Hf as [|? ? ? ? [? _]]; simpl; lia. }
  rewrite (st_bind_Ok _ _ _ (n + k) w).
  - rewrite IH by lia. do 2 f_equal. lia.
  - rewrite (st_bind_Ok _ _ _ _ _ Hd). unfold mret, st_ret. by rewrite i32_small by lia.
Qed.

Lemma sum_zlen (bs : list (list ascii)) : foldr Z.add 0 (zlen <$> bs) = zlen (mjoin bs).
Proof.
  induction bs as [|b bs IH]; [done|]. change (mjoin (b :: bs)) with (b ++ mjoin bs).
  rewrite zlen_app, <- IH. done.
Qed.

Lemma Server_Size_present s m r p v :
  rep s m -> name_ok (id_ r) -> whole_request r -> m !! id_ r = Some (p, v) -> storage_index_ r = p ->
  Server_Size r s = (Ok (zlen v), s).
Proof.
  intros Hr Hn Hw Hv Hp. destruct (Locate_present s m r p v Hr Hn Hv Hp) as (links & Ho & E).
  destruct Hr as [(Hc & _) _ Hu _]. pose proof (X_pos _ Hc) as HX. pose proof (conf_max _ Hc).
  destruct (object_whole_parts _ _ _ v p links r Hc Ho Hw) as (Hlen & Hparts & _).
  destruct (ob_size _ _ _ _ _ _ Ho) as [Hv0 Hvm]. destruct (object_max_bounds _ Hc) as (_ & ? & _).
  set (ds := locate_segments _ _ _) in *. unfold Server_Size.
  erewrite st_bind_Ok by (apply try_catch_Ok; by erewrite st_bind_Ok by (apply with_stores_Ok, E)).
  cbn [fst]. erewrite (st_bind_Ok _ _ _ (zlen v)).
  { unfold mret, st_ret. by rewrite u64_small by lia. }
  apply with_stores_Ok. rewrite (size_loop _ _ _ (zlen <$> chunks (MAX_OBJ_SIZE (s_conf s)) v)).
  - by rewrite sum_zlen, mjoin_chunks.
  - apply Forall2_same_length_lookup_2; [by rewrite length_fmap|]. intros j d n Hj Hb.
    destruct (Hparts j d Hj) as (link & -> & Hjv & Hid & _ & tk & Htk & Ek & _).
    rewrite list_lookup_fmap, chunks_lookup, decide_True in Hb by done. injection Hb as <-.
    pose proof (chunk_present _ HX (Z.of_nat j) v ltac:(lia) Hjv). split; [lia|].
    rewrite (on_client_ok _ _ tk) by done. rewrite world_size; cbn; rewrite ?Hid, ?Ek; done || (simpl; lia).
  - done.
  - rewrite sum_zlen, mjoin_chunks by done. lia.
Qed.

(** The handlers that answer without the object. *)
Lemma Server_Size_none s m r ti :
  rep s m -> name_ok (id_ r) -> m !! id_ r = None -> type_at (s_conf s) (storage_index_ r) ti ->
  Server_Size r s = (Ok 0, s).
Proof.
  intros Hr Hn Hv Ht. destruct (Locate_none s m r ti Hr Hn Hv Ht) as (e & E). unfold Server_Size.
  rewrite (st_bind_Ok _ _ _ None s); [done|].
  rewrite (try_catch_Throw _ _ _ _ (ErrorException e) s); [done| |done].
  by apply st_bind_Throw, with_stores_Throw.
Qed.

Lemma Server_Delete_none s m r ti :
  rep s m -> name_ok (id_ r) -> m !! id_ r = None -> type_at (s_conf s) (storage_index_ r) ti ->
  Server_Delete r s = (Ok false, s).
Proof.
  intros Hr Hn Hv Ht. destruct (Locate_none s m r ti Hr Hn Hv Ht) as (e & E). unfold Server_Delete.
  rewrite (st_bind_Ok _ _ _ None s); [done|].
  rewrite (try_catch_Throw _ _ _ _ (ErrorException e) s); [done| |done].
  by apply st_bind_Throw, with_stores_Throw.
Qed.

Lemma Server_Locate_none s m src dst ti :
  rep s m -> name_ok (id_ src) -> m !! id_ src = None -> type_at (s_conf s) (storage_index_ src) ti ->
  exists e, Server_Locate src dst s = (Throw (ErrorException e), s).
Proof.
  intros Hr Hn Hv Ht. destruct (Locate_none s m src ti Hr Hn Hv Ht) as (e & E). exists e.
  unfold Server_Locate. apply st_bind_Throw. by apply with_stores_Throw.
Qed.

(** ** Delete *)

Lemma remove_loop c ds : Forall (fun d => exists ty, type_at c (storage_index_ (destination_data_ d)) ty) ds ->
  forall w, world_up (R := R) (M := M) w ->
  exists w', fold_st (remove_part c) true ds w = (Ok true, w') /\ world_up w' /\
    (forall d ty, d ∈ ds -> type_at c (storage_index_ (destination_data_ d)) ty ->
      wobj w' ty (id_ (source_data_ d)) = None) /\
    (forall ty key, wobj w ty key = None -> wobj w' ty key = None) /\
    (forall ty key, (forall d, d ∈ ds -> id_ (source_data_ d) <> key) -> wobj w' ty key = wobj w ty key).
Proof.
  induction 1 as [|d ds (ty & Hty) _ IH]; intros w Hu.
  { exists w. split; [done|]. split; [done|]. split; [|done]. intros d ty Hd. by apply not_elem_of_nil in Hd. }
  destruct (world_remove ty w (source_data_ d) Hu) as (w1 & E1 & U1 & O1 & F1).
  destruct (IH w1 U1) as (w2 & E2 & U2 & G1 & G2 & G3).
  assert (forall ty' key, wobj w ty' key = None -> wobj w1 ty' key = None) as Gn.
  { intros ty' key Ho. destruct (decide ((ty', key) = (ty, id_ (source_data_ d)))) as [[= -> ->]|]; [done|].
    by rewrite F1. }
  exists w2. split; [|split; [done|]; split; [|split]].
  - cbn [fold_st]. rewrite (st_bind_Ok _ _ _ true w1); [done|]. unfold remove_part.
    by rewrite (on_client_ok _ _ ty).
  - intros d' ty' [->|Hin]%elem_of_cons Ht'; [|by apply G1]. rewrite (type_at_unique c _ _ _ Ht' Hty). by apply G2.
  - intros ty' key Ho. by apply G2, Gn.
  - intros ty' key Hk. rewrite G3 by (intros d' Hd'; apply Hk; by right). apply F1.
    intros [= _ ->]. by apply (Hk d); [left|].
Qed.

Lemma Server_Delete_present s m r p v :
  rep s m -> name_ok (id_ r) -> whole_request r -> m !! id_ r = Some (p, v) -> storage_index_ r = p ->
  exists s', Server_Delete r s = (Ok true, s') /\ s_conf s' = s_conf s /\ rep s' (delete (id_ r) m).
Proof.
  intros Hr Hn Hw Hv Hp. destruct (Locate_present s m r p v Hr Hn Hv Hp) as (links & Ho & E).
  pose proof Hr as [(Hc & _) Hmaps Hu _]. pose proof (X_pos _ Hc) as HX.
  destruct (object_whole_parts _ _ _ v p links r Hc Ho Hw) as (Hlen & Hparts & Hin).
  set (ds := locate_segments _ _ _) in *. destruct s as [c e w]; cbn [s_conf s_world s_dde] in *.
  assert (forall d, d ∈ ds -> exists i, 0 <= i /\ id_ (source_data_ d) = segment_id (id_ r) i) as Hids.
  { intros d [j Hj]%list_elem_of_lookup_1. destruct (Hparts j d Hj) as (link & -> & _ & Hid & _).
    exists (Z.of_nat j). split; [lia|done]. }
  destruct (remove_loop c ds) with (w := w) as (w1 & E1 & U1 & G1 & G2 & G3); [|done|].
  { apply Forall_forall. intros d [j Hj]%list_elem_of_lookup_1.
    destruct (Hparts j d Hj) as (link & -> & _ & _ & _ & tk & Htk & _). by exists tk. }
  destruct (Delete_ok c w1 r Hc U1) as (w2 & E2 & U2 & G4 & F2).
  exists (mkServer c e w2). split; [|split; [done|]].
  - unfold Server_Delete. erewrite st_bind_Ok.
    2: { apply try_catch_Ok. erewrite st_bind_Ok; [done|]. apply with_stores_Ok. exact E. }
    cbn [fst]. fold ds. erewrite (st_bind_Ok _ _ _ true (mkServer c e w1)).
    2: { unfold with_stores. cbn [s_conf s_world s_dde]. by rewrite E1. }
    unfold with_stores. cbn [s_conf s_world s_dde]. by rewrite E2.
  - eapply (rep_change c e w e w2 m (id_ r) None); [exact Hn|exact Hr|done|done| |].
    + intros ty key Hk1 Hk2. rewrite F2 by done. apply G3. intros d Hd Ek.
      destruct (Hids d Hd) as (i & Hi & Ei). apply (Hk2 i); congruence.
    + split; [exact G4|]. intros ty i Hi. rewrite F2 by (by apply segment_meta_key).
      destruct (Z.lt_ge_cases (i * MAX_OBJ_SIZE c) (zlen v)) as [Hlt|Hge].
      2: { apply G2. by apply (ob_beyond _ _ _ _ _ _ Ho). }
      destruct (ob_present _ _ _ _ _ _ Ho i Hi Hlt) as [link Hl].
      destruct (ob_links _ _ _ _ _ _ Ho i link Hl) as (_ & _ & Hid & _ & tk & Htk & _ & Hother).
      destruct (decide (ty = tk)) as [->|Hty]; [|by apply G2, Hother].
      rewrite <- Hid. apply (G1 (whole_part link)); [by apply (Hin i)|done].
Qed.

(** ** Reading a range *)

(** Files serve any range; the key-value stores one part that starts where they
    can read. *)
Record range_request (c : Conf) (r : Data) (v : list ascii) : Prop := {
  rr_range : 0 <= position_ r /\ 0 < data_size_ r /\ position_ r + data_size_ r <= zlen v;
  rr_total : ((position_ r + data_size_ r) / MAX_OBJ_SIZE c + 1 - position_ r / MAX_OBJ_SIZE c) *
    (data_size_ r + MAX_OBJ_SIZE c) < 2 ^ 31;
  rr_store : forall i ty, type_at c i ty -> ty = FILE_IO \/
    (wreads (R := R) (M := M) ty (position_ r mod MAX_OBJ_SIZE c) = true /\
     position_ r mod MAX_OBJ_SIZE c + data_size_ r < MAX_OBJ_SIZE c);
}.

(** Where the parts go and where the first one starts. *)
Lemma locate_loop_positions c X e i links off left dpos j d :
  max_obj c = X -> 0 < X < 2 ^ 62 -> 0 <= left -> 0 <= dpos -> dpos + left < 2 ^ 31 ->
  locate_loop c false e i links off left dpos !! j = Some d ->
  dpos <= position_ (destination_data_ d) <= dpos + left /\
  (j = 0%nat -> position_ (destination_data_ d) = dpos /\ position_ (source_data_ d) = off mod X).
Proof.
  intros HX HX0. revert i off left dpos j. induction links as [|link links IH]; intros i off left dpos j Hl Hd Hb; [done|].
  cbn [locate_loop orb]. destruct (i <=? e); [|done]. rewrite HX.
  pose proof (Z.mod_pos_bound off X ltac:(lia)). rewrite (u64_small (X - off mod X)) by lia. destruct j as [|j].
  - intros [= <-]. cbn. rewrite u64_small by lia. lia.
  - cbn [lookup list_lookup]. intros Hj.
    destruct (Z.ltb_spec left (X - off mod X)).
    + rewrite i32_small, Z.sub_diag in Hj by lia. change (u64 0) with 0 in Hj. apply IH in Hj as [? _]; [|lia..]. split; [lia|done].
    + rewrite i32_small, (u64_small (left - _)) in Hj by lia. apply IH in Hj as [? _]; [|lia..]. split; [lia|done].
Qed.

Lemma wanted_inside link seg d :
  part_inside link seg d ->
  0 <= wanted (data_size_ (source_data_ d)) seg /\
  position_ (source_data_ d) + wanted (data_size_ (source_data_ d)) seg <= zlen seg /\
  zlen (part_bytes d seg) = wanted (data_size_ (source_data_ d)) seg.
Proof.
  intros (_ & _ & Hp & Hd & Hz & Hb). pose proof (zlen_nonneg seg). unfold part_bytes, wanted in *.
  zcases; [rewrite Hz by done|]; repeat split; try lia; apply zlen_slice; lia.
Qed.

Lemma file_part_reads w d seg :
  world_up w -> wobj w FILE_IO (id_ (source_data_ d)) = Some seg -> zlen seg <= transfer_max ->
  0 <= position_ (source_data_ d) -> (data_size_ (source_data_ d) = 0 -> position_ (source_data_ d) = 0) ->
  0 <= wanted (data_size_ (source_data_ d)) seg ->
  position_ (source_data_ d) + wanted (data_size_ (source_data_ d)) seg <= zlen seg ->
  zlen (part_bytes d seg) = wanted (data_size_ (source_data_ d)) seg ->
  0 <= position_ (destination_data_ d) < 2 ^ 31 ->
  Read (client (R := R) (M := M) FILE_IO) (source_data_ d) (destination_data_ d) w = (Ok (read_result d (part_bytes d seg)), w).
Proof.
  intros (Uf & _) Ho Hm Hp Hz Hw0 Hw Hr Hd. pose proof Uf as (_ & _ & Hrw). unfold transfer_max in *.
  cbn [client zoom_client Read]. unfold zoom. change (Read file_client) with FileIOClient.Read.
  rewrite (FileIOClient.Read_ok _ _ _ seg (wanted (data_size_ (source_data_ d)) seg)); try lia.
  - unfold read_result. rewrite Hr. by destruct w.
  - by apply file_up_ready.
  - done.
  - unfold wanted in *. zcases; [rewrite Hz by done; lia|done].
Qed.

Lemma range_part_reads c w id v i link d :
  conf_ok c -> world_up w -> segment_at c w id v i link -> 0 <= i -> i * MAX_OBJ_SIZE c < zlen v ->
  part_inside link (chunk (MAX_OBJ_SIZE c) i v) d -> 0 <= position_ (destination_data_ d) < 2 ^ 31 ->
  (forall i ty, type_at c i ty -> ty = FILE_IO \/
    (wreads (R := R) (M := M) ty (position_ (source_data_ d)) = true /\ position_ (destination_data_ d) = 0)) ->
  part_reads c w d (part_bytes d (chunk (MAX_OBJ_SIZE c) i v)).
Proof.
  intros Hc Hu (Hid & _ & tk & Htk & Ek & _) Hi Hv Hpart Hd Hty. pose proof (X_pos c Hc) as HX.
  pose proof (chunk_present (MAX_OBJ_SIZE c) HX i v Hi Hv). pose proof (conf_max c Hc).
  destruct (wanted_inside _ _ _ Hpart) as (Hw0 & Hw & Hr). destruct Hpart as (Hs & Hx & Hp & Hds & Hz & _).
  split; [lia|]. rewrite Hx, (on_client_ok _ _ tk) by done. destruct (Hty _ _ Htk) as [->|[Hrd Hd0]].
  - apply file_part_reads; rewrite ?Hs, ?Hid; done || lia.
  - rewrite (world_read tk w _ _ (chunk (MAX_OBJ_SIZE c) i v)
      (wanted (data_size_ (source_data_ d)) (chunk (MAX_OBJ_SIZE c) i v)));
      rewrite ?Hs, ?Hid; try done; try lia.
    unfold read_result. by rewrite Hd0, Hr.
Qed.

Lemma read_total_bound ds bs B :
  (forall j d b, ds !! j = Some d -> bs !! j = Some b -> position_ (destination_data_ d) + zlen b <= B) ->
  0 <= B -> read_total ds bs <= zlen ds * B.
Proof.
  revert bs. induction ds as [|d ds IH]; intros [|b bs] Hp HB; [done|done|..].
  - pose proof (zlen_nonneg (d :: ds)). change (read_total (d :: ds) []) with 0. nia.
  - rewrite read_total_cons, zlen_cons. pose proof (Hp 0%nat d b eq_refl eq_refl).
    assert (read_total ds bs <= zlen ds * B) by (apply IH; [intros j; apply (Hp (S j))|done]). lia.
Qed.

(** The parts of a range against the segments they name. *)
Definition range_segments (c : Conf) (r : Data) (v : list ascii) : list (list ascii) :=
  drop (Z.to_nat (position_ r / MAX_OBJ_SIZE c)) (chunks (MAX_OBJ_SIZE c) v).

Lemma range_segments_lookup c r v (j : nat) sg :
  conf_ok c -> 0 <= position_ r / MAX_OBJ_SIZE c -> range_segments c r v !! j = Some sg ->
  exists i, i = position_ r / MAX_OBJ_SIZE c + Z.of_nat j /\ i * MAX_OBJ_SIZE c < zlen v /\
    sg = chunk (MAX_OBJ_SIZE c) i v /\ zlen sg <= MAX_OBJ_SIZE c.
Proof.
  intros Hc Hk Hs0. pose proof (X_pos c Hc) as HX. unfold range_segments in Hs0.
  rewrite lookup_drop, chunks_lookup in Hs0 by done. case_decide as Hlt; [|done]. injection Hs0 as <-.
  assert (Z.of_nat (Z.to_nat (position_ r / MAX_OBJ_SIZE c) + j) = position_ r / MAX_OBJ_SIZE c + Z.of_nat j)
    as E by lia. rewrite E in Hlt |- *.
  exists (position_ r / MAX_OBJ_SIZE c + Z.of_nat j). split; [done|]. split; [exact Hlt|]. split; [done|].
  apply chunk_present; (done || lia).
Qed.

Lemma range_cut c links r v :
  conf_ok c -> 0 < segments (MAX_OBJ_SIZE c) v < 2 ^ 20 -> zlen v < 2 ^ 31 -> range_request c r v ->
  let X := MAX_OBJ_SIZE c in
  let k := position_ r / X in
  let all := link_list (segments X v) links in
  let ds := locate_segments c r all in
  0 <= k /\ zlen ds <= (position_ r + data_size_ r) / X + 1 - k /\
  (forall (j : nat) d, ds !! j = Some d -> exists link sg, all !! (Z.to_nat k + j)%nat = Some link /\
    range_segments c r v !! j = Some sg /\ part_inside link sg d /\
    0 <= position_ (destination_data_ d) <= data_size_ r /\
    (j = 0%nat -> position_ (destination_data_ d) = 0 /\ position_ (source_data_ d) = position_ r mod X)) /\
  exists tail, mjoin (zip_with part_bytes ds (range_segments c r v)) = slice (position_ r) (data_size_ r) v ++ tail.
Proof.
  intros Hc Hs Hz [(Hp & Hn & Hv) _ _] X k all ds. pose proof (X_pos c Hc : 0 < X) as HX.
  pose proof (conf_max c Hc : 0 < X <= transfer_max) as Hmax. unfold transfer_max in Hmax. fold X in Hs.
  assert (max_obj c = X) as HmX by (by rewrite max_obj_ok).
  set (e := (position_ r + data_size_ r) / X) in *. set (o := position_ r mod X) in *.
  assert (0 <= k) as Hk0 by (apply Z.div_pos; lia).
  assert (position_ r = k * X + o) as Hko by (pose proof (Z.div_mod (position_ r) X ltac:(lia)); lia).
  pose proof (Z.mod_pos_bound (position_ r) X HX : 0 <= o < X) as Ho'.
  assert (k < segments X v) as Hks by (apply segments_iff; [done|lia]).
  pose proof (mjoin_chunks X HX v) as Ej.
  assert (Z.to_nat k < length (chunks X v))%nat as Hkl by (rewrite length_chunks; lia).
  destruct (segmented_drop X (Z.to_nat k) _ (chunks_segmented X HX v) Hkl) as (Hd & pre & Epre & Hpre).
  change (drop (Z.to_nat k) (chunks X v)) with (range_segments c r v) in Hd, Epre.
  set (segs := range_segments c r v) in *. rewrite Z2Nat.id in Hpre by done. rewrite Ej in Epre.
  assert (zlen v = k * X + zlen (mjoin segs)) as Hvz by (rewrite Epre, zlen_app; lia).
  assert (ds = locate_loop c false e k (drop (Z.to_nat k) all) (position_ r) (data_size_ r) 0) as Eds.
  { apply (locate_segments_loop c X); unfold all; rewrite ?zlen_link_list; fold k; (done || lia). }
  assert (length (drop (Z.to_nat k) all) = length segs) as Hls.
  { unfold segs, range_segments. fold X k. rewrite !length_drop. f_equal. by apply link_list_chunks. }
  assert (k <= e) as Hke by (apply Z.div_le_mono; lia).
  split; [done|]. split; [rewrite Eds; apply locate_loop_count; lia|]. split.
  - intros j d Hj. rewrite Eds in Hj.
    destruct (locate_loop_inside c X HmX ltac:(lia) _ segs k (position_ r) o (data_size_ r) 0 j d Hls Hd Hk0 Hko Ho'
      ltac:(lia) ltac:(lia) ltac:(lia) ltac:(lia) Hj) as (link & sg & Hl & Hs0 & Hpart).
    apply (locate_loop_positions c X) in Hj as [Hj Hfirst]; [|done|lia..].
    rewrite lookup_drop in Hl. exists link, sg. do 3 (split; [done|]). split; [lia|done].
  - rewrite Eds. eexists. unfold e.
    rewrite (locate_loop_bytes c X HmX ltac:(lia) (drop (Z.to_nat k) all) segs k (position_ r) o) by (done || lia).
    f_equal. rewrite Epre, slice_skip by lia. f_equal. lia.
Qed.

Lemma range_parts c w id v p links r :
  conf_ok c -> world_up w -> object_at c w id v p links -> range_request c r v ->
  let ds := locate_segments c r (link_list (segments (MAX_OBJ_SIZE c) v) links) in
  let bs := zip_with part_bytes ds (range_segments c r v) in
  Forall2 (part_reads c w) ds bs /\ read_total ds bs < 2 ^ 31 /\
  exists tail, mjoin bs = slice (position_ r) (data_size_ r) v ++ tail.
Proof.
  intros Hc Hu Ho Hr ds bs. pose proof (X_pos c Hc) as HX.
  destruct (ob_size _ _ _ _ _ _ Ho) as [Hv0 Hvm]. destruct (object_max_bounds c Hc) as (_ & Hom & _).
  destruct (range_cut c links r v Hc (object_segments c w id v p links Hc Ho) ltac:(lia) Hr)
    as (Hk & Hcount & Hparts & Htail). fold ds bs in Hcount, Hparts, Htail.
  destruct Hr as [(Hp & Hn & Hv) Ht Hty]. pose proof (conf_max c Hc) as Hmax. unfold transfer_max in Hmax.
  set (X := MAX_OBJ_SIZE c) in *. set (k := position_ r / X) in *.
  assert (forall (j : nat) d b, ds !! j = Some d -> bs !! j = Some b -> exists link sg,
    b = part_bytes d sg /\ link_list (segments X v) links !! (Z.to_nat k + j)%nat = Some link /\
    range_segments c r v !! j = Some sg /\ part_inside link sg d /\
    0 <= position_ (destination_data_ d) <= data_size_ r /\
    (j = 0%nat -> position_ (destination_data_ d) = 0 /\ position_ (source_data_ d) = position_ r mod X)) as Hboth.
  { intros j d b Hj Hb. apply lookup_zip_with_Some in Hb as (d' & sg & -> & Hj' & Hs0).
    rewrite Hj in Hj'. injection Hj' as <-. destruct (Hparts j d Hj) as (link & s1 & Hl & Hs1 & Hrest).
    rewrite Hs0 in Hs1. injection Hs1 as <-. by exists link, sg. }
  split; [|split; [|done]].
  - apply Forall2_same_length_lookup_2.
    { unfold bs. rewrite length_zip_with. rewrite Nat.min_l; [done|]. apply Nat.nlt_ge. intros Hlt.
      destruct (lookup_lt_is_Some_2 ds _ Hlt) as [d Hj]. destruct (Hparts _ _ Hj) as (? & ? & _ & Hs0 & _).
      apply lookup_lt_Some in Hs0. lia. }
    intros j d b Hj Hb. destruct (Hboth j d b Hj Hb) as (link & sg & -> & Hl & Hs0 & Hpart & Hpd & Hfirst).
    destruct (object_links c w id v p links _ link Hc Ho Hl) as [Hlt Hat].
    destruct (range_segments_lookup c r v j sg Hc Hk Hs0) as (i & Ei & Hi & -> & _). fold X k in Ei, Hi.
    assert (Z.of_nat (Z.to_nat k + j) = i) as Eq by lia. rewrite Eq in *.
    apply (range_part_reads c w id v i link); try done; try lia.
    intros i' ty Hi'. destruct (Hty i' ty Hi') as [->|[Hrd Hsmall]]; [by left|]. right.
    pose proof (Z.mod_pos_bound (position_ r) X HX). pose proof (Z.div_mod (position_ r) X ltac:(lia)).
    assert ((position_ r + data_size_ r) / X = k) as Ek
      by (symmetry; apply (Z.div_unique _ _ _ (position_ r mod X + data_size_ r)); lia).
    assert (j = 0%nat) as -> by (apply lookup_lt_Some in Hj; unfold zlen in Hcount; lia).
    by destruct (Hfirst eq_refl) as [-> ->].
  - assert (read_total ds bs <= zlen ds * (data_size_ r + X)); [|nia].
    apply read_total_bound; [|lia]. intros j d b Hj Hb.
    destruct (Hboth j d b Hj Hb) as (link & sg & -> & Hl & Hs0 & Hpart & Hpd & _).
    destruct (wanted_inside _ _ _ Hpart) as (? & ? & ->). destruct Hpart as (_ & _ & ? & _).
    destruct (range_segments_lookup c r v j sg Hc Hk Hs0) as (_ & _ & _ & _ & ?). lia.
Qed.

Lemma slice_0_prefix {A} m (l a t : list A) : slice 0 m l = a ++ t -> slice 0 (zlen a) l = a.
Proof.
  unfold slice. rewrite drop_0, zlen_to_nat. intros E. assert (length a <= Z.to_nat m)%nat.
  { apply (f_equal length) in E. rewrite length_take, length_app in E. lia. }
  rewrite <- (Nat.min_l (length a) (Z.to_nat m)) by done. by rewrite <- take_take, E, take_app_length.
Qed.

Lemma Server_Locate_range s m src dst p v :
  rep s m -> name_ok (id_ src) -> range_request (s_conf s) src v -> m !! id_ src = Some (p, v) ->
  storage_index_ src = p ->
  exists cells, Server_Locate src dst s = (Ok (set_buffer (Some cells) dst), s) /\
    slice 0 (data_size_ src) cells = Some <$> slice (position_ src) (data_size_ src) v.
Proof.
  intros Hr Hn Hq Hv Hp. destruct (Locate_present s m src p v Hr Hn Hv Hp) as (links & Ho & E).
  destruct Hr as [(Hc & _) _ Hu _]. destruct (range_parts _ _ _ v p links src Hc Hu Ho Hq) as (Hf & Ht & tail & Et).
  destruct (Server_Locate_parts s src dst _ _ _ E Hf Ht) as (cells & -> & Hz & Hs).
  exists cells. split; [done|]. destruct Hq as [(Hq0 & Hq1 & Hq2) _ _].
  rewrite Et, fmap_app in Hs. apply slice_0_prefix in Hs. by rewrite zlen_fmap, zlen_slice in Hs by lia.
Qed.

(** ** Sequences of requests *)

Inductive abs_request :=
| AStore (id : string) (home position : Z) (bytes : list ascii)
| ALocate (id : string) (position size : Z) (destination : Data)
| ASize (id : string)
| ADelete (id : string).

(** The state after a request. *)
Definition abs_next (q : abs_request) (m : objects) : objects :=
  match q with
  | AStore id p pos bytes => abs_store id p pos bytes m
  | ADelete id => delete id m
  | _ => m
  end.

(** The replies to a request: a read of size zero returns the object, another
    one a buffer that starts with the range. *)
Definition answers (servers : Z) (m : objects) (q : abs_request) (a : reply) : Prop :=
  match q with
  | AStore _ _ _ _ => a = Stored servers
  | ALocate id pos n dst =>
      match m !! id with
      | Some (_, v) => exists cells, a = Located (set_buffer (Some cells) dst) /\
          if decide (n = 0) then cells = Some <$> v else slice 0 n cells = Some <$> slice pos n v
      | None => a = Failed
      end
  | ASize id => a = Sized (zlen (bytes_at (m !! id)))
  | ADelete id => a = Deleted (bool_decide (is_Some (m !! id)))
  end.

Fixpoint answer_all (servers : Z) (m : objects) (qs : list abs_request) (l : list reply) : Prop :=
  match qs, l with
  | [], [] => True
  | q :: qs', a :: l' => answers servers m q a /\ answer_all servers (abs_next q m) qs' l'
  | _, _ => False
  end.

Definition abs_after (qs : list abs_request) (m : objects) : objects := foldl (fun m q => abs_next q m) m qs.

(** A request names its object and, for one that exists, its home. *)
Record named (c : Conf) (m : objects) (r : Data) : Prop := {
  nm_name : name_ok (id_ r);
  nm_index : exists ti, type_at c (storage_index_ r) ti;
  nm_home : forall p v, m !! id_ r = Some (p, v) -> storage_index_ r = p;
}.

Inductive stands_for (c : Conf) (m : objects) : request -> abs_request -> Prop :=
| sf_store src dst bytes : store_request c m src dst bytes ->
    stands_for c m (StoreRequest src dst) (AStore (id_ dst) (storage_index_ dst) (position_ dst) bytes)
| sf_whole src dst : named c m src -> whole_request src ->
    stands_for c m (LocateRequest src dst) (ALocate (id_ src) 0 0 dst)
| sf_range src dst : named c m src -> (forall p v, m !! id_ src = Some (p, v) -> range_request c src v) ->
    data_size_ src <> 0 ->
    stands_for c m (LocateRequest src dst) (ALocate (id_ src) (position_ src) (data_size_ src) dst)
| sf_size r : named c m r -> whole_request r -> stands_for c m (SizeRequest r) (ASize (id_ r))
| sf_delete r : named c m r -> whole_request r -> stands_for c m (DeleteRequest r) (ADelete (id_ r)).

Inductive stand_for (c : Conf) : objects -> list request -> list abs_request -> Prop :=
| sfs_nil m : stand_for c m [] []
| sfs_cons m q a qs aqs : stands_for c m q a -> stand_for c (abs_next a m) qs aqs ->
    stand_for c m (q :: qs) (a :: aqs).

Lemma serve_locate s m src dst n :
  rep s m -> named (s_conf s) m src ->
  (forall p v, m !! id_ src = Some (p, v) -> exists cells,
    Server_Locate src dst s = (Ok (set_buffer (Some cells) dst), s) /\
    if decide (n = 0) then cells = Some <$> v else slice 0 n cells = Some <$> slice (position_ src) n v) ->
  exists a, serve rand sequence (LocateRequest src dst) s = (Ok a, s) /\
    answers (SERVER_COUNT (s_conf s)) m (ALocate (id_ src) (position_ src) n dst) a.
Proof.
  intros Hr [Hn (ti & Ht) Hh] Hl. unfold serve, answers. destruct (m !! id_ src) as [[p v]|] eqn:Hv.
  - destruct (Hl p v eq_refl) as (cells & E & Hc). exists (Located (set_buffer (Some cells) dst)).
    split; [apply try_catch_Ok; by st_step E|]. by exists cells.
  - destruct (Server_Locate_none s m src dst ti Hr Hn Hv Ht) as (e & E). exists Failed. split; [|done].
    rewrite (try_catch_Throw _ _ _ _ (ErrorException e) s); [done| |done]. by apply st_bind_Throw.
Qed.

Lemma serve_object s m q a :
  rep s m -> stands_for (s_conf s) m q a ->
  exists b s', serve rand sequence q s = (Ok b, s') /\ answers (SERVER_COUNT (s_conf s)) m a b /\
    s_conf s' = s_conf s /\ rep s' (abs_next a m).
Proof.
  intros Hr [src dst bytes Hq|src dst Hnm Hw|src dst Hnm Hq Hnz|r Hnm Hw|r Hnm Hw].
  - destruct (Server_Store_object s m src dst bytes Hr Hq) as (s' & E & Hc & Hr'). eexists _, s'.
    split; [apply try_catch_Ok; by st_step E|done].
  - destruct (serve_locate s m src dst 0 Hr Hnm) as (b & E & Hb).
    { intros p v Hv. exists (Some <$> v). split; [|done]. destruct Hnm as [Hn _ Hh].
      apply (Server_Locate_whole s m src dst p v); (done || by eapply Hh). }
    destruct Hw as [Hp _]. rewrite Hp in Hb. by exists b, s.
  - destruct (serve_locate s m src dst (data_size_ src) Hr Hnm) as (b & E & Hb); [|by exists b, s].
    intros p v Hv. destruct Hnm as [Hn _ Hh].
    destruct (Server_Locate_range s m src dst p v) as (cells & E & Hc); try done; [by eapply Hq|by eapply Hh|].
    exists cells. split; [done|]. by rewrite decide_False.
  - destruct Hnm as [Hn (ti & Ht) Hh].
    assert (Server_Size r s = (Ok (zlen (bytes_at (m !! id_ r))), s)) as E.
    { destruct (m !! id_ r) as [[p v]|] eqn:Hv; [by eapply Server_Size_present; eauto|by eapply Server_Size_none]. }
    eexists _, s. split; [apply try_catch_Ok; by st_step E|done].
  - destruct Hnm as [Hn (ti & Ht) Hh]. unfold answers, abs_next. destruct (m !! id_ r) as [[p v]|] eqn:Hv.
    + destruct (Server_Delete_present s m r p v Hr Hn Hw Hv) as (s' & E & Hc & Hr'); [by eapply Hh|].
      eexists _, s'. split; [apply try_catch_Ok; by st_step E|done].
    + pose proof (Server_Delete_none s m r ti Hr Hn Hv Ht) as E. rewrite delete_id by done.
      eexists _, s. split; [apply try_catch_Ok; by st_step E|done].
Qed.

Lemma serve_all_objects c m qs aqs :
  stand_for c m qs aqs -> forall s, s_conf s = c -> rep s m ->
  exists l s', serve_all rand sequence qs s = (Ok l, s') /\ answer_all (SERVER_COUNT c) m aqs l /\
    rep s' (abs_after aqs m).
Proof.
  induction 1 as [m|m q a qs aqs Hqa Hqs IH]; intros s Ec Hr; [by exists [], s|].
  rewrite <- Ec in Hqa. destruct (serve_object s m q a Hr Hqa) as (b & s1 & E1 & Hb & Hc1 & Hr1).
  destruct (IH s1 ltac:(congruence) Hr1) as (l & s2 & E2 & Hl & Hr2).
  exists (b :: l), s2. rewrite <- Ec in *. cbn [serve_all]. st_step E1. by st_step E2.
Qed.

(** C1: A sequence of requests on objects of any number of segments gets the replies
    of a map from names to bytes ([answer_all]), for the requests of [stand_for].
    The configuration has solutions 0 to n-1, at most one per storage type, a
    segment size within the transfer limit, and not the dynamic-programming policy;
    the services are up and the requests come one after the other. Names have at
    most 255 characters and do not end in a digit ([name_ok]), and a request names
    the solution the object was first stored through ([at_home]). A store has at
    least one byte, stays inside one segment, starts at or before the end of the
    object, and lies where every configured client writes exactly ([sr_exact]):
    POSIX anywhere, Redis and MongoDB at the start of the segment or ending before
    the end of its value, so not an append to a segment in progress, where the code
    loses a byte. Whole objects are read with any stores; a range is read if all
    stores are POSIX, or if it lies in one segment, ends before it does and starts
    where every configured client reads from ([range_request]). *)
Theorem server_refines_objects s m qs aqs :
  rep s m -> stand_for (s_conf s) m qs aqs ->
  exists l s', serve_all rand sequence qs s = (Ok l, s') /\
    answer_all (SERVER_COUNT (s_conf s)) m aqs l /\ rep s' (abs_after aqs m).
Proof. intros Hr Hq. by eapply serve_all_objects. Qed.

End refinement.
End Multi.
