(* ===== verification/Client.v ===== *)
(** * Client: src/symbios/client/client.cpp

    Every call picks a server with [rand ()] and sends its arguments packed;
    the servers share the storage systems and keep their own configuration and
    engines.  The RPC library is modelled by what it carries: a [Data] arrives
    as the conversion of its packed object, and a C++ exception in a handler
    reaches the caller as an RPC error. *)

From S2P Require Import Prelude CText Effects Types Services IOClient World Msgpack Config.
From S2P Require Import Distribution Metadata Server.

Definition rpc_error : exn := StdException "rpc::rpc_error".

Section client.
Context {R M : Type} `{RedisService R} `{MongoService M} `{Msgpack}.
Context (rand sequence : nat -> Z).   (* in the servers *)
Context (client_rand : nat -> Z).     (* in the client *)

Record Cluster := mkCluster {
  cl_servers : list (Conf * DDE);
  cl_world : World R M;
  cl_calls : nat;
}.

(** A [Data] argument or result as it arrives. *)
Definition carry (d : Data) : outcome Data := o ← pack_Data d; convert_Data Data0 o.

(** [rpc->call (server, ...)] with [server = rand () % NUM_SERVERS]. *)
Definition call {A} (handler : ST (Server R M) A) : ST Cluster A := fun s =>
  let s' := mkCluster (cl_servers s) (cl_world s) (S (cl_calls s)) in
  if zlen (cl_servers s) =? 0 then (Undefined DivByZero, s') else
  let server := Z.to_nat (client_rand (cl_calls s) mod zlen (cl_servers s)) in
  match cl_servers s !! server with
  | None => (Throw rpc_error, s')
  | Some (c, e) =>
      let '(o, sv) := handler (mkServer c e (cl_world s)) in
      (match o with Throw _ => Throw rpc_error | _ => o end,
       mkCluster (<[server := (s_conf sv, s_dde sv)]> (cl_servers s)) (s_world sv) (S (cl_calls s)))
  end.

Definition Client_StoreRequest (source destination : Data) : ST Cluster unit :=
  source' ← lift (carry source);
  destination' ← lift (carry destination);
  call (Server_Store rand sequence source' destination');;
  mret ().

(** The result is copied into the caller's buffer, which is allocated if null. *)
Definition Client_LocateRequest (source destination : Data) : ST Cluster Data :=
  source' ← lift (carry source);
  destination' ← lift (carry destination);
  r ← call (d ← Server_Locate source' destination'; lift (carry d));
  let buf := match buffer_ destination with None => malloc (data_size_ r) | b => b end in
  bytes ← lift (mem_read (buffer_ r) 0 (data_size_ r));
  buf' ← lift (mem_write buf 0 bytes);
  mret (set_buffer buf' destination).

Definition Client_Delete (request : Data) : ST Cluster bool :=
  request' ← lift (carry request); call (Server_Delete request').

Definition Client_Size (request : Data) : ST Cluster Z :=
  request' ← lift (carry request); call (Server_Size request').

End client.
Arguments Cluster R M : clear implicits.

(** ** What arrives *)

(** A [Data] without a buffer, or with one of its size, arrives unchanged. *)
Section carry.
Context `{MsgpackLaws}.

Lemma carry_link d : link_ok d -> carry d = Ok d.
Proof.
  intros Hd. destruct (pack_Data_ok d Hd) as (o & Ep & _ & Ec).
  unfold carry. rewrite Ep. exact Ec.
Qed.

Lemma carry_bytes d (bytes : list ascii) cs :
  Data_wf d -> buffer_ d = Some cs -> data_size_ d = zlen bytes -> bytes <> [] ->
  slice 0 (zlen bytes) cs = Some <$> bytes -> zlen bytes <= zlen cs ->
  carry d = Ok (set_buffer (Some (Some <$> bytes)) d).
Proof.
  intros (Hp & Hs & Hi) Hb Hn Hne Hc Hl. unfold is_u64, is_u16 in *. unfold carry, pack_Data.
  pose proof (zlen_nonneg bytes).
  rewrite Hb, Hn, mem_read_in by lia. unfold mbind; cbn [outcome_bind]. rewrite Hc, defined_chars.
  cbn [outcome_bind]. unfold convert_Data, as_CharStruct. cbn [array_at lookup list_lookup].
  unfold mbind; cbn [outcome_bind]. rewrite convert_pack_CharStruct. cbn [outcome_bind].
  rewrite (as_unsigned_ok 64 (position_ d)) by lia. cbn [outcome_bind as_string].
  rewrite (as_unsigned_ok 64 (zlen bytes)) by lia. cbn [outcome_bind].
  assert (string_read bytes 0 (zlen bytes) = Ok (Some <$> bytes)) as Hr.
  { rewrite string_read_in by lia. by rewrite slice_whole. }
  destruct bytes as [|b bytes]; [done|]. rewrite Hr. cbn [outcome_bind].
  rewrite malloc_write by (rewrite ?zlen_fmap; lia). cbn [outcome_bind].
  rewrite (as_unsigned_ok 16 (storage_index_ d)) by lia. cbn [outcome_bind].
  destruct d; simpl in *. by subst.
Qed.

End carry.
