(* ===== verification/ClusterSpec.v ===== *)
(** * ClusterSpec: what the servers implement, a cluster of them implements

    The servers of a cluster share the stores and have an engine each.  A relation
    between a server and an abstract state that does not depend on the engine
    ([ServerRep]) lifts to clusters, and a handler that keeps it on every server
    keeps it through [call], whichever server the call reaches. *)

From S2P Require Import Prelude CText Effects Types Services KeyValueSpec IOClient World.
From S2P Require Import Msgpack Config Distribution Metadata MetadataSpec Server Client.

Class ServerRep {R M A : Type} (rep : Server R M -> A -> Prop) : Prop := {
  rep_engine_maps s m : rep s m -> maps_ok (s_conf s) (maps (s_dde s));
  rep_engine c e e' w m : maps_ok c (maps e') -> rep (mkServer c e w) m -> rep (mkServer c e' w) m;
}.

Lemma maps_ok_nil c : maps_ok c [].
Proof. by intros t k. Qed.

Section cluster.
Context {R M A : Type} `{RedisLaws R} `{MongoLaws M} `{MsgpackLaws}.
Context (rep : Server R M -> A -> Prop) `{!ServerRep rep} (client_rand : nat -> Z).
Implicit Types s : Cluster R M.

Record represents (c : Conf) s (m : A) : Prop := {
  cr_servers : cl_servers s <> [];
  cr_engines : Forall (fun x => x.1 = c /\ maps_ok c (maps x.2)) (cl_servers s);
  cr_objects : rep (mkServer c (mkDDE 0 0 []) (cl_world s)) m;
}.

(** The server a call reaches is one of the cluster's. *)
Lemma call_reaches {B} (h : ST (Server R M) B) c s m :
  represents c s m ->
  exists i e, cl_servers s !! i = Some (c, e) /\ maps_ok c (maps e) /\
    call client_rand h s =
      (let '(o, sv) := h (mkServer c e (cl_world s)) in
       (match o with Throw _ => Throw rpc_error | _ => o end,
        mkCluster (<[i := (s_conf sv, s_dde sv)]> (cl_servers s)) (s_world sv) (S (cl_calls s)))).
Proof.
  intros [Hne He Hr]. pose proof (zlen_pos _ Hne) as Hpos. unfold call.
  destruct (Z.eqb_spec (zlen (cl_servers s)) 0); [lia|].
  pose proof (Z.mod_pos_bound (client_rand (cl_calls s)) _ Hpos) as Hi.
  set (i := Z.to_nat (client_rand (cl_calls s) mod zlen (cl_servers s))).
  assert (i < length (cl_servers s))%nat as Hlt by (unfold zlen in *; lia).
  apply lookup_lt_is_Some_2 in Hlt as [[c' e] Ei].
  pose proof (proj1 (Forall_lookup _ _) He _ _ Ei) as [Ec Hm]. simpl in Ec, Hm. subst c'.
  exists i, e. by rewrite Ei.
Qed.

(** A handler that maps a represented state to a represented one; the result may
    depend on the server that is reached. *)
Lemma call_some {B} (h : ST (Server R M) B) (Q : B -> Prop) c s m m' :
  represents c s m ->
  (forall sv, s_conf sv = c -> rep sv m ->
     exists a sv', h sv = (Ok a, sv') /\ Q a /\ s_conf sv' = c /\ rep sv' m') ->
  exists a s', call client_rand h s = (Ok a, s') /\ Q a /\ represents c s' m'.
Proof.
  intros Hs Hh. destruct (call_reaches h c s m Hs) as (i & e & Ei & Hm & ->).
  destruct Hs as [Hne He Hr].
  destruct (Hh (mkServer c e (cl_world s))) as (a & [c' e' w'] & -> & Ha & Hc & Hr');
    [done|by eapply rep_engine|].
  simpl in Hc. subst c'. eexists _, _. split; [done|]. split; [exact Ha|].
  pose proof (rep_engine_maps _ _ Hr') as Hm'. split; simpl.
  - by destruct (cl_servers s), i.
  - apply Forall_insert; done.
  - eapply rep_engine; [apply maps_ok_nil|exact Hr'].
Qed.

Lemma call_ok {B} (h : ST (Server R M) B) c s m m' a :
  represents c s m ->
  (forall sv, s_conf sv = c -> rep sv m ->
     exists sv', h sv = (Ok a, sv') /\ s_conf sv' = c /\ rep sv' m') ->
  exists s', call client_rand h s = (Ok a, s') /\ represents c s' m'.
Proof.
  intros Hs Hh. destruct (call_some h (eq a) c s m m' Hs) as (? & s' & E & <- & Hs'); [|by exists s'].
  intros sv Hc Hr. destruct (Hh sv Hc Hr) as (sv' & ? & ? & ?). by exists a, sv'.
Qed.

(** A handler that throws leaves the stores as they are. *)
Lemma call_throw {B} (h : ST (Server R M) B) c s m :
  represents c s m ->
  (forall sv, s_conf sv = c -> rep sv m -> exists e, h sv = (Throw e, sv)) ->
  exists s', call client_rand h s = (Throw rpc_error, s') /\ represents c s' m.
Proof.
  intros Hs Hh. destruct (call_reaches h c s m Hs) as (i & e & Ei & Hm & ->).
  destruct Hs as [Hne He Hr].
  destruct (Hh (mkServer c e (cl_world s))) as (x & ->); [done|by eapply rep_engine|].
  eexists. split; [done|]. simpl. rewrite list_insert_id by done. by split.
Qed.

(** ** The client's calls, given what the handlers do *)

(** Arguments that fit their fields and have no buffer. *)
Definition plain (d : Data) : Prop := link_ok d.

Lemma Client_Size_call c s m r n :
  represents c s m -> plain r ->
  (forall sv, s_conf sv = c -> rep sv m -> Server_Size r sv = (Ok n, sv)) ->
  exists s', Client_Size client_rand r s = (Ok n, s') /\ represents c s' m.
Proof.
  intros Hs Hp Hh. unfold Client_Size. erewrite st_bind_Ok; [|unfold lift; by rewrite carry_link].
  apply (call_ok _ c s m); [done|]. intros sv Ec Hr. exists sv. by rewrite Hh.
Qed.

Lemma Client_Delete_call c s m m' r b :
  represents c s m -> plain r ->
  (forall sv, s_conf sv = c -> rep sv m ->
     exists sv', Server_Delete r sv = (Ok b, sv') /\ s_conf sv' = s_conf sv /\ rep sv' m') ->
  exists s', Client_Delete client_rand r s = (Ok b, s') /\ represents c s' m'.
Proof.
  intros Hs Hp Hh. unfold Client_Delete. erewrite st_bind_Ok; [|unfold lift; by rewrite carry_link].
  apply (call_ok _ c s m); [done|]. intros sv Ec Hr. destruct (Hh sv Ec Hr) as (sv' & ? & ? & ?).
  exists sv'. by rewrite <- Ec.
Qed.

(** The servers get the bytes of the caller's buffer and no others. *)
Lemma Client_StoreRequest_call rand sequence c s m m' src dst bytes cs n :
  represents c s m -> Data_wf src -> plain dst ->
  buffer_ src = Some cs -> data_size_ src = zlen bytes -> bytes <> [] ->
  slice 0 (zlen bytes) cs = Some <$> bytes -> zlen bytes <= zlen cs ->
  (forall sv, s_conf sv = c -> rep sv m ->
     exists sv', Server_Store rand sequence (set_buffer (Some (Some <$> bytes)) src) dst sv = (Ok n, sv') /\
       s_conf sv' = s_conf sv /\ rep sv' m') ->
  exists s', Client_StoreRequest rand sequence client_rand src dst s = (Ok (), s') /\ represents c s' m'.
Proof.
  intros Hs Hsrc Hdst Hb Hn Hne Hc Hl Hh.
  destruct (call_ok (Server_Store rand sequence (set_buffer (Some (Some <$> bytes)) src) dst) c s m m' n)
    as (s' & E & Hs'); [done| |].
  { intros sv Ec Hr. destruct (Hh sv Ec Hr) as (sv' & ? & ? & ?). exists sv'. by rewrite <- Ec. }
  exists s'. split; [|done]. unfold Client_StoreRequest.
  erewrite st_bind_Ok; [|unfold lift; by rewrite (carry_bytes src bytes cs)].
  erewrite st_bind_Ok; [|unfold lift; by rewrite carry_link]. by st_step E.
Qed.

(** The arguments arrive as [src'] and [dst'], and the client gets the first
    [data_size_ dst] bytes of what the server located, in front of what its buffer
    holds behind them. *)
Lemma Client_LocateRequest_fills c s m src src' dst dst' buf bytes :
  represents c s m -> carry src = Ok src' -> carry dst = Ok dst' -> Data_wf dst' -> bytes <> [] ->
  data_size_ dst' = zlen bytes ->
  mem_write (match buffer_ dst with None => malloc (zlen bytes) | b => b end) 0 (Some <$> bytes) = Ok buf ->
  (forall sv, s_conf sv = c -> rep sv m ->
     exists cells, Server_Locate src' dst' sv = (Ok (set_buffer (Some cells) dst'), sv) /\
       slice 0 (zlen bytes) cells = Some <$> bytes) ->
  exists s', Client_LocateRequest client_rand src dst s = (Ok (set_buffer buf dst), s') /\ represents c s' m.
Proof.
  intros Hs Hps Hpd Hwf Hne Hn Hbuf Hh. set (r := set_buffer (Some (Some <$> bytes)) dst').
  destruct (call_ok (d ← Server_Locate src' dst'; lift (carry d)) c s m m r) as (s' & E & Hs'); [done| |].
  { intros sv Ec Hr. exists sv. split; [|done]. destruct (Hh sv Ec Hr) as (cells & El & Hc).
    st_step El. unfold lift. rewrite (carry_bytes _ bytes cells); try done.
    apply (f_equal length) in Hc. unfold slice in Hc.
    rewrite length_fmap, length_take, length_drop in Hc. unfold zlen in *. lia. }
  exists s'. split; [|done]. unfold Client_LocateRequest.
  erewrite st_bind_Ok; [|unfold lift; by rewrite Hps].
  erewrite st_bind_Ok; [|unfold lift; by rewrite Hpd]. st_step E.
  pose proof (zlen_nonneg bytes). assert (zlen bytes < 2 ^ 64) as Hz.
  { rewrite <- Hn. destruct Hwf as (_ & Hd & _). apply Hd. }
  change (data_size_ r) with (data_size_ dst'). rewrite Hn.
  erewrite st_bind_Ok.
  2: { unfold lift. change (buffer_ r) with (Some (Some <$> bytes)).
       rewrite mem_read_in by (rewrite ?zlen_fmap; lia). by rewrite slice_fmap, slice_whole. }
  by erewrite st_bind_Ok by (unfold lift; by rewrite Hbuf).
Qed.

Lemma Client_LocateRequest_call c s m src dst bytes :
  represents c s m -> plain src -> plain dst -> bytes <> [] -> data_size_ dst = zlen bytes ->
  (forall sv, s_conf sv = c -> rep sv m ->
     exists cells, Server_Locate src dst sv = (Ok (set_buffer (Some cells) dst), sv) /\
       slice 0 (zlen bytes) cells = Some <$> bytes) ->
  exists s', Client_LocateRequest client_rand src dst s =
      (Ok (set_buffer (Some (Some <$> bytes)) dst), s') /\ represents c s' m.
Proof.
  intros Hs Hps Hpd Hne Hn Hh. pose proof (zlen_nonneg bytes).
  apply (Client_LocateRequest_fills c s m src src dst dst _ bytes); try done.
  - by apply carry_link.
  - by apply carry_link.
  - apply Hpd.
  - assert (buffer_ dst = None) as -> by apply Hpd.
    assert (zlen bytes < 2 ^ 64) by (rewrite <- Hn; destruct Hpd as [_ (_ & Hd & _)]; apply Hd).
    by rewrite malloc_write by (rewrite ?zlen_fmap; lia).
Qed.

Lemma Client_LocateRequest_throws c s m src dst :
  represents c s m -> plain src -> plain dst ->
  (forall sv, s_conf sv = c -> rep sv m -> exists e, Server_Locate src dst sv = (Throw e, sv)) ->
  exists s', Client_LocateRequest client_rand src dst s = (Throw rpc_error, s') /\ represents c s' m.
Proof.
  intros Hs Hps Hpd Hh.
  destruct (call_throw (d ← Server_Locate src dst; lift (carry d)) c s m) as (s' & E & Hs'); [done| |].
  { intros sv Ec Hr. destruct (Hh sv Ec Hr) as (e & E). exists e. by apply st_bind_Throw. }
  exists s'. split; [|done]. unfold Client_LocateRequest.
  erewrite st_bind_Ok; [|unfold lift; by rewrite carry_link].
  erewrite st_bind_Ok; [|unfold lift; by rewrite carry_link]. by st_step E.
Qed.

End cluster.
