(* ===== verification/ClientSpec.v ===== *)
(** * ClientSpec: the client against the abstract map

    A cluster represents a map of objects when each of its servers does; the
    client's calls then have the results of the map's operations, whichever
    server they reach. *)

From S2P Require Import Prelude CText Effects Types Services KeyValueSpec IOClient World.
From S2P Require Import Msgpack Config Distribution Metadata MetadataSpec Server ServerSpec.
From S2P Require Import Client ClusterSpec.

Section cluster.
Context {R M : Type} `{RedisLaws R} `{MongoLaws M} `{MsgpackLaws}.
Context (rand sequence client_rand : nat -> Z).
Context (Hrand : forall n, 0 <= rand n < 2 ^ 31) (Hseq : forall n, 0 <= sequence n < 2 ^ 64).
Implicit Types s : Cluster R M.

#[export] Instance server_rep : ServerRep (rep (R := R) (M := M)).
Proof. split; [by intros s m []|]. intros c e e' w m Hm [? ? ? ?]. by split. Qed.

Definition cluster_rep : Conf -> Cluster R M -> objects -> Prop := represents rep.

(** ** The calls *)

Lemma Client_Size_ok c s m r :
  cluster_rep c s m -> plain r -> whole_request c r ->
  exists s', Client_Size client_rand r s = (Ok (zlen (default [] (m !! id_ r))), s') /\
    cluster_rep c s' m.
Proof.
  intros Hs Hp Hw. apply (Client_Size_call rep); [done|done|]. intros sv Ec Hr.
  apply Server_Size_ok; [done|by rewrite Ec].
Qed.

Lemma Client_Delete_ok c s m r :
  cluster_rep c s m -> plain r -> whole_request c r ->
  exists s', Client_Delete client_rand r s = (Ok (bool_decide (is_Some (m !! id_ r))), s') /\
    cluster_rep c s' (delete (id_ r) m).
Proof.
  intros Hs Hp Hw. apply (Client_Delete_call rep _ c s m); [done|done|]. intros sv Ec Hr.
  apply Server_Delete_ok; [done|by rewrite Ec].
Qed.

Lemma Client_StoreRequest_ok c s m src dst bytes :
  cluster_rep c s m -> Data_wf src -> plain dst -> store_request c m src dst bytes ->
  exists s', Client_StoreRequest rand sequence client_rand src dst s = (Ok (), s') /\
    cluster_rep c s' (abs_store (id_ dst) (position_ dst) bytes m).
Proof.
  intros Hs Hsrc Hdst Hq. pose proof Hq as [(cs & Hb & Hc & Hl) (Hp & Hn & Hne) Q3 Q4 Q5 Q6].
  assert (store_request c m (set_buffer (Some (Some <$> bytes)) src) dst bytes) as Hq'.
  { split; try done. exists (Some <$> bytes). rewrite slice_fmap, slice_whole, zlen_fmap. done. }
  apply (Client_StoreRequest_call rep client_rand rand sequence c s m _ src dst bytes cs (SERVER_COUNT c)); try done.
  intros sv Ec Hr. rewrite <- Ec. apply Server_Store_ok; [done..|by rewrite Ec].
Qed.

(** The client gets [data_size_ dst] bytes: it asks for as many as it has room for. *)
Lemma Client_LocateRequest_ok c s m src dst v :
  cluster_rep c s m -> plain src -> plain dst -> whole_request c src ->
  m !! id_ src = Some v -> 0 < data_size_ src <= zlen v -> data_size_ dst = data_size_ src ->
  exists s', Client_LocateRequest client_rand src dst s =
      (Ok (set_buffer (Some (Some <$> slice 0 (data_size_ src) v)) dst), s') /\ cluster_rep c s' m.
Proof.
  intros Hs Hps Hpd Hw Hv Hn Hd. set (bytes := slice 0 (data_size_ src) v).
  assert (zlen bytes = data_size_ src) as Hz by (apply zlen_slice; lia).
  apply (Client_LocateRequest_call rep); try done; [by intros E; rewrite E, zlen_nil in Hz; lia|lia|].
  intros sv Ec Hr. exists (Some <$> bytes). split; [|by rewrite slice_fmap, slice_whole].
  rewrite (Server_Locate_ok sv m src dst v Hr) by (rewrite ?Ec; (done || lia)).
  unfold abs_read, wanted. by destruct (Z.eqb_spec (data_size_ src) 0); [lia|].
Qed.

Lemma Client_LocateRequest_missing c s m src dst :
  cluster_rep c s m -> plain src -> plain dst -> whole_request c src -> m !! id_ src = None ->
  exists s', Client_LocateRequest client_rand src dst s = (Throw rpc_error, s') /\ cluster_rep c s' m.
Proof.
  intros Hs Hps Hpd Hw Hv. apply (Client_LocateRequest_throws rep); [done..|]. intros sv Ec Hr.
  destruct (Server_Locate_missing sv m src dst Hr) as (e & E); [by rewrite Ec|done|by eexists].
Qed.

(** The life of an object, whichever server each call reaches: what is stored is
    located, measured and deleted, and then it is gone. *)
Theorem client_lifecycle c s m src dst bytes ask into :
  cluster_rep c s m -> Data_wf src -> plain dst -> store_request c m src dst bytes ->
  m !! id_ dst = None ->
  plain ask -> plain into -> whole_request c ask -> id_ ask = id_ dst ->
  data_size_ ask = zlen bytes -> data_size_ into = zlen bytes ->
  exists s1 s2 s3 s4 s5,
    Client_StoreRequest rand sequence client_rand src dst s = (Ok (), s1) /\
    Client_LocateRequest client_rand ask into s1 = (Ok (set_buffer (Some (Some <$> bytes)) into), s2) /\
    Client_Size client_rand ask s2 = (Ok (zlen bytes), s3) /\
    Client_Delete client_rand ask s3 = (Ok true, s4) /\
    Client_LocateRequest client_rand ask into s4 = (Throw rpc_error, s5).
Proof.
  intros Hs Hsrc Hdst Hq Hfree Hask Hinto Hw Hid Hn Hn'.
  pose proof Hq as [_ (_ & _ & Hne) [Hp0 _] Hx _ _]. pose proof (zlen_pos _ Hne).
  assert (position_ dst = 0) as Hp by (rewrite Hfree in Hx; by apply Z.eqb_eq in Hx).
  destruct (Client_StoreRequest_ok c s m src dst bytes) as (s1 & E1 & R1); [done..|].
  assert (abs_store (id_ dst) (position_ dst) bytes m !! id_ ask = Some bytes) as Hl.
  { unfold abs_store, exact_value. rewrite Hid, lookup_insert_eq, Hfree, Hp. simpl.
    by rewrite splice_nil. }
  destruct (Client_LocateRequest_ok c s1 _ ask into bytes R1) as (s2 & E2 & R2);
    try done; [rewrite Hn; lia|by rewrite Hn|].
  destruct (Client_Size_ok c s2 _ ask R2) as (s3 & E3 & R3); [done..|].
  destruct (Client_Delete_ok c s3 _ ask R3) as (s4 & E4 & R4); [done..|].
  destruct (Client_LocateRequest_missing c s4 _ ask into R4) as (s5 & E5 & _);
    [done..|apply lookup_delete_eq|].
  exists s1, s2, s3, s4, s5. rewrite Hl in E3, E4. rewrite Hn, slice_whole in E2. done.
Qed.

End cluster.
