(* ===== verification/ClientObjects.v ===== *)
(** * ClientObjects: the client of a cluster against the store of objects

    The calls of the client, through whichever server of the cluster each reaches,
    have the results of the abstract store of MultiSpec: objects of any number of
    segments, stored segment by segment, read whole or in ranges, measured and
    deleted.  The client gets the bytes it has room for. *)

From S2P Require Import Prelude CText Effects Types Services FileIO KeyValueSpec IOClient World.
From S2P Require Import Msgpack Config Distribution Metadata MetadataSpec Segments Chunks ObjectSpec.
From S2P Require Import Server ServerSpec MultiSpec Client ClusterSpec.

Import Multi.

Inductive client_reply := Done | Got (d : Data) | HasSize (n : Z) | WasDeleted (b : bool) | RpcFailed.

Definition is_rpc_error (e : exn) : bool := bool_decide (e = rpc_error).

Section client.
Context {R M : Type} `{RedisService R} `{MongoService M} `{Msgpack}.
Context (rand sequence client_rand : nat -> Z).

(** A call of the client's program, and a program of them. *)
Definition ask (q : request) : ST (Cluster R M) client_reply :=
  try_catch is_rpc_error
    match q with
    | StoreRequest src dst => Client_StoreRequest rand sequence client_rand src dst;; mret Done
    | LocateRequest src dst => d ← Client_LocateRequest client_rand src dst; mret (Got d)
    | SizeRequest r => n ← Client_Size client_rand r; mret (HasSize n)
    | DeleteRequest r => b ← Client_Delete client_rand r; mret (WasDeleted b)
    end
    (mret RpcFailed).

Fixpoint ask_all (qs : list request) : ST (Cluster R M) (list client_reply) :=
  match qs with
  | [] => mret []
  | q :: qs' => a ← ask q; l ← ask_all qs'; mret (a :: l)
  end.

End client.

(** ** The abstract store *)

Inductive abs_call :=
| CStore (id : string) (home position : Z) (bytes : list ascii)
| CLocate (id : string) (position : Z) (destination : Data)
| CSize (id : string)
| CDelete (id : string).

Definition abs_ask (q : abs_call) (m : objects) : client_reply * objects :=
  match q with
  | CStore id home position bytes => (Done, abs_store id home position bytes m)
  | CLocate id position dst =>
      (match m !! id with
       | Some (_, v) => Got (set_buffer (Some (Some <$> slice position (data_size_ dst) v)) dst)
       | None => RpcFailed
       end, m)
  | CSize id => (HasSize (zlen (bytes_at (m !! id))), m)
  | CDelete id => (WasDeleted (bool_decide (is_Some (m !! id))), delete id m)
  end.

Fixpoint abs_ask_all (qs : list abs_call) (m : objects) : list client_reply * objects :=
  match qs with
  | [] => ([], m)
  | q :: qs' =>
      let '(a, m1) := abs_ask q m in let '(l, m2) := abs_ask_all qs' m1 in (a :: l, m2)
  end.

Section refinement.
Context {R M : Type} `{RedisLaws R} `{MongoLaws M} `{MsgpackLaws}.
Context (rand sequence client_rand : nat -> Z).
Context (Hrand : forall n, 0 <= rand n < 2 ^ 31) (Hseq : forall n, 0 <= sequence n < 2 ^ 64).
Implicit Types s : Cluster R M.

#[export] Instance objects_rep : ServerRep (rep (R := R) (M := M)).
Proof. split; [by intros s m []|]. intros c e e' w m Hm [? ? ? ?]. by split. Qed.

Definition cluster_objects : Conf -> Cluster R M -> objects -> Prop := represents rep.

(** A read asks for as many bytes as the destination says, at most for those the
    range or the whole object has. *)
Definition readable_range (c : Conf) (src dst : Data) (v : list ascii) : Prop :=
  0 < data_size_ dst /\
  (whole_request src /\ data_size_ dst <= zlen v \/
   range_request (R := R) (M := M) c src v /\ data_size_ dst <= data_size_ src).

(** A call stands for an abstract one, in the state [m]. *)
Inductive calls_for (c : Conf) (m : objects) : request -> abs_call -> Prop :=
| cf_store src dst bytes : Data_wf src -> plain dst -> store_request (R := R) (M := M) c m src dst bytes ->
    calls_for c m (StoreRequest src dst) (CStore (id_ dst) (storage_index_ dst) (position_ dst) bytes)
| cf_locate src dst : plain src -> plain dst -> named c m src ->
    (forall p v, m !! id_ src = Some (p, v) -> readable_range c src dst v) ->
    calls_for c m (LocateRequest src dst) (CLocate (id_ src) (position_ src) dst)
| cf_size r : plain r -> named c m r -> whole_request r -> calls_for c m (SizeRequest r) (CSize (id_ r))
| cf_delete r : plain r -> named c m r -> whole_request r -> calls_for c m (DeleteRequest r) (CDelete (id_ r)).

Inductive calls_for_all (c : Conf) : objects -> list request -> list abs_call -> Prop :=
| cfs_nil m : calls_for_all c m [] []
| cfs_cons m q a qs aqs : calls_for c m q a -> calls_for_all c (abs_ask a m).2 qs aqs ->
    calls_for_all c m (q :: qs) (a :: aqs).

(** ** The calls *)

Lemma Client_Size_object c s m r :
  cluster_objects c s m -> plain r -> named c m r -> whole_request r ->
  exists s', Client_Size client_rand r s = (Ok (zlen (bytes_at (m !! id_ r))), s') /\ cluster_objects c s' m.
Proof.
  intros Hs Hp [Hn (ti & Ht) Hh] Hw. apply (Client_Size_call rep); [done..|]. intros sv Ec Hr. rewrite <- Ec in *.
  destruct (m !! id_ r) as [[p v]|] eqn:Hv; [by eapply Server_Size_present; eauto|by eapply Server_Size_none].
Qed.

Lemma Client_Delete_object c s m r :
  cluster_objects c s m -> plain r -> named c m r -> whole_request r ->
  exists s', Client_Delete client_rand r s = (Ok (bool_decide (is_Some (m !! id_ r))), s') /\
    cluster_objects c s' (delete (id_ r) m).
Proof.
  intros Hs Hp [Hn (ti & Ht) Hh] Hw. apply (Client_Delete_call rep _ c s m); [done..|]. intros sv Ec Hr.
  rewrite <- Ec in *. destruct (m !! id_ r) as [[p v]|] eqn:Hv.
  - by apply (Server_Delete_present sv m r p v); [..|eapply Hh].
  - rewrite delete_id by done. exists sv. by rewrite (Server_Delete_none sv m r ti).
Qed.

Lemma Client_StoreRequest_object c s m src dst bytes :
  cluster_objects c s m -> Data_wf src -> plain dst -> store_request (R := R) (M := M) c m src dst bytes ->
  exists s', Client_StoreRequest rand sequence client_rand src dst s = (Ok (), s') /\
    cluster_objects c s' (abs_store (id_ dst) (storage_index_ dst) (position_ dst) bytes m).
Proof.
  intros Hs Hsrc Hdst Hq. pose proof Hq as [(cs & Hb & Hc & Hl) (Hp & Hn) Hin Q3 Q4 Q5 Q6].
  assert (store_request (R := R) (M := M) c m (set_buffer (Some (Some <$> bytes)) src) dst bytes) as Hq'.
  { split; try done. exists (Some <$> bytes). rewrite slice_fmap, slice_whole, zlen_fmap. done. }
  destruct Hin as (_ & Hne & _).
  apply (Client_StoreRequest_call rep client_rand rand sequence c s m _ src dst bytes cs (SERVER_COUNT c)); try done.
  intros sv Ec Hr. rewrite <- Ec. apply Server_Store_object; [done..|by rewrite Ec].
Qed.

Lemma slice_prefix {A} n k off (l : list A) : 0 <= k <= n -> slice 0 k (slice off n l) = slice off k l.
Proof. intros Hk. unfold slice. rewrite drop_0, take_take. f_equal. lia. Qed.

Lemma slice_shorter {A} n k (l l' : list A) off : 0 <= k <= n ->
  slice 0 n l = slice off n l' -> slice 0 k l = slice off k l'.
Proof. intros Hk E. rewrite <- (slice_prefix n k 0 l), E, slice_prefix by done. done. Qed.

Lemma Client_LocateRequest_object c s m src dst p v :
  cluster_objects c s m -> plain src -> plain dst -> named c m src ->
  m !! id_ src = Some (p, v) -> readable_range c src dst v ->
  exists s', Client_LocateRequest client_rand src dst s =
      (Ok (set_buffer (Some (Some <$> slice (position_ src) (data_size_ dst) v)) dst), s') /\
    cluster_objects c s' m.
Proof.
  intros Hs Hps Hpd [Hn (ti & Ht) Hh] Hv [Hd Hor].
  set (bytes := slice (position_ src) (data_size_ dst) v).
  assert (zlen bytes = data_size_ dst) as Hz.
  { apply zlen_slice; [|lia|]; destruct Hor as [[[Hp _] ?]|[[(? & ? & ?) _ _] ?]]; lia. }
  apply (Client_LocateRequest_call rep); try done; [by intros E; rewrite E, zlen_nil in Hz; lia|].
  intros sv Ec Hr. rewrite Hz. destruct Hor as [[Hw Hle]|[Hrange Hle]].
  - exists (Some <$> v). split; [apply (Server_Locate_whole sv m src dst p v); (done || by eapply Hh)|].
    unfold bytes. destruct Hw as [-> _]. by rewrite slice_fmap.
  - destruct (Server_Locate_range sv m src dst p v) as (cells & E & Hc); rewrite ?Ec; try done; [by eapply Hh|].
    exists cells. split; [done|]. unfold bytes. rewrite <- slice_fmap in Hc |- *.
    apply (slice_shorter (data_size_ src)); [lia|done].
Qed.

Lemma Client_LocateRequest_none c s m src dst :
  cluster_objects c s m -> plain src -> plain dst -> named c m src -> m !! id_ src = None ->
  exists s', Client_LocateRequest client_rand src dst s = (Throw rpc_error, s') /\ cluster_objects c s' m.
Proof.
  intros Hs Hps Hpd [Hn (ti & Ht) Hh] Hv. apply (Client_LocateRequest_throws rep); [done..|]. intros sv Ec Hr.
  destruct (Server_Locate_none sv m src dst ti) as (e & E); rewrite ?Ec; try done. by eexists.
Qed.

(** ** Programs of calls *)

Lemma ask_object c s m q a :
  cluster_objects c s m -> calls_for c m q a ->
  exists s', ask rand sequence client_rand q s = (Ok (abs_ask a m).1, s') /\ cluster_objects c s' (abs_ask a m).2.
Proof.
  intros Hs [src dst bytes Hsrc Hdst Hq|src dst Hps Hpd Hnm Hr|r Hp Hnm Hw|r Hp Hnm Hw]; unfold ask; cbn [abs_ask fst snd].
  - destruct (Client_StoreRequest_object c s m src dst bytes) as (s' & E & Hs'); [done..|].
    exists s'. split; [|done]. apply try_catch_Ok. by st_step E.
  - destruct (m !! id_ src) as [[p v]|] eqn:Hv.
    + destruct (Client_LocateRequest_object c s m src dst p v) as (s' & E & Hs'); try done; [by eapply Hr|].
      exists s'. split; [|done]. apply try_catch_Ok. by st_step E.
    + destruct (Client_LocateRequest_none c s m src dst) as (s' & E & Hs'); [done..|].
      exists s'. split; [|done]. rewrite (try_catch_Throw _ _ _ _ rpc_error s'); [done| |done].
      by apply st_bind_Throw.
  - destruct (Client_Size_object c s m r) as (s' & E & Hs'); [done..|].
    exists s'. split; [|done]. apply try_catch_Ok. by st_step E.
  - destruct (Client_Delete_object c s m r) as (s' & E & Hs'); [done..|].
    exists s'. split; [|done]. apply try_catch_Ok. by st_step E.
Qed.

Lemma ask_all_objects c m qs aqs s :
  calls_for_all c m qs aqs -> cluster_objects c s m ->
  exists s', ask_all rand sequence client_rand qs s = (Ok (abs_ask_all aqs m).1, s') /\
    cluster_objects c s' (abs_ask_all aqs m).2.
Proof.
  intros Hq. revert s. induction Hq as [m|m q a qs aqs Hqa Hqs IH]; intros s Hs; [by exists s|].
  destruct (ask_object c s m q a Hs Hqa) as (s1 & E1 & Hs1). destruct (IH s1 Hs1) as (s2 & E2 & Hs2).
  cbn [ask_all abs_ask_all]. destruct (abs_ask a m) as [r m1]. cbn [fst snd] in *.
  destruct (abs_ask_all aqs m1) as [l m2]. exists s2. split; [|done]. st_step E1. by st_step E2.
Qed.

(** C3: whatever servers its calls reach, a program of client calls gets the replies
    of a map from names to bytes, and absent objects fail, for the calls of
    [calls_for_all]: the servers share a configuration with at most one solution per
    storage type, the services are up, names do not end in a digit ([name_ok]), a
    call names the home of its object, and stores lie inside one segment where every
    configured client writes exactly ([sr_exact]). Whole objects are located with
    any stores; ranges over several segments only if all stores are POSIX, and
    otherwise ranges inside one segment that end before it does, at an offset every
    configured client reads from ([range_request]). *)
Theorem client_refines_objects c m qs aqs s :
  calls_for_all c m qs aqs -> cluster_objects c s m ->
  exists s', ask_all rand sequence client_rand qs s = (Ok (abs_ask_all aqs m).1, s') /\
    cluster_objects c s' (abs_ask_all aqs m).2.
Proof. apply ask_all_objects. Qed.

End refinement.
