(* ===== verification/Posix.v ===== *)
(** * Posix: the intercepted stdio calls, src/symbios/client/posix.cpp

    [Posix] maps the [FILE *] handles it gave out to a [PosixStat]; [fopen],
    [fclose], [fseek], [fread] and [fwrite] go through the client for these
    handles and to libc for all others.  [fmemopen] and the libc functions are
    not modelled: an intercepted [fopen] takes the handle [fmemopen] returned,
    and a call that goes to libc returns [Real]. *)

From S2P Require Import Prelude CText Effects Types Services IOClient World Msgpack Config.
From S2P Require Import Distribution Metadata Server Client.

Record PosixStat := mkPosixStat {
  filename_ : string;
  file_pointer_ : Z;
  file_size_ : Z;
  mode_ : string;
  stat_storage_index : Z;
}.

Definition PosixStat0 : PosixStat := mkPosixStat "" 0 0 "" 0.

Definition set_file_pointer (p : Z) (st : PosixStat) : PosixStat :=
  mkPosixStat (filename_ st) p (file_size_ st) (mode_ st) (stat_storage_index st).
Definition set_file_size (n : Z) (st : PosixStat) : PosixStat :=
  mkPosixStat (filename_ st) (file_pointer_ st) n (mode_ st) (stat_storage_index st).

(** What a call returns: its own result, or whatever libc's function returns. *)
Inductive intercepted (A : Type) := Result (a : A) | Real.
Arguments Result {A} a.
Arguments Real {A}.

Inductive seek_origin := SEEK_SET | SEEK_CUR | SEEK_END.

(** [return -1] from a function of type [size_t]. *)
Definition size_t_minus_1 : Z := 2 ^ 64 - 1.

Section posix.
Context {R M : Type} `{RedisService R} `{MongoService M} `{Msgpack}.
Context (rand sequence client_rand : nat -> Z).

Record Posix := mkPosix {
  fileDescriptorMap_ : gmap Z PosixStat;
  px_cluster : Cluster R M;
}.

Definition with_client {A} (m : ST (Cluster R M) A) : ST Posix A := fun s =>
  let '(o, cl) := m (px_cluster s) in (o, mkPosix (fileDescriptorMap_ s) cl).

Definition set_stat (fh : Z) (st : PosixStat) : ST Posix bool := fun s =>
  (Ok (negb (bool_decide (is_Some (fileDescriptorMap_ s !! fh)))),
   mkPosix (<[fh := st]> (fileDescriptorMap_ s)) (px_cluster s)).

Definition erase (fh : Z) : ST Posix unit := fun s =>
  (Ok (), mkPosix (delete fh (fileDescriptorMap_ s)) (px_cluster s)).

Definition is_append (mode : string) : bool :=
  bool_decide (mode = "a+") || bool_decide (mode = "a").

Definition is_rewind (mode : string) : bool :=
  bool_decide (mode = "w") || bool_decide (mode = "w+") ||
  bool_decide (mode = "r") || bool_decide (mode = "r+").

Definition UpdateOnOpen (fh : Z) (stat : PosixStat) : ST Posix bool :=
  erase fh;;
  let source := set_storage_index (stat_storage_index stat) (set_id (filename_ stat) Data0) in
  let stat := if is_rewind (mode_ stat) then set_file_pointer 0 stat else stat in
  size ← with_client (Client_Size client_rand source);
  let stat := set_file_size size stat in
  stat ← (if bool_decide (mode_ stat = "w+") then
            with_client (Client_Delete client_rand source);; mret (set_file_size 0 stat)
          else mret stat);
  let stat := if is_append (mode_ stat) then set_file_pointer (file_size_ stat) stat else stat in
  set_stat fh stat.

Definition isFileDescriptorTracked (fh : Z) : ST Posix bool := fun s =>
  (Ok (bool_decide (is_Some (fileDescriptorMap_ s !! fh))), s).

Definition UpdateOnClose (fh : Z) : ST Posix bool := fun s =>
  match fileDescriptorMap_ s !! fh with
  | Some _ => (Ok true, mkPosix (delete fh (fileDescriptorMap_ s)) (px_cluster s))
  | None => (Ok false, s)
  end.

Definition GetStat (fh : Z) : ST Posix (bool * PosixStat) := fun s =>
  match fileDescriptorMap_ s !! fh with
  | Some st => (Ok (true, st), s)
  | None => (Ok (false, PosixStat0), s)
  end.

(** The new pointer; [SEEK_END] subtracts the offset. *)
Definition seek_pointer (st : PosixStat) (offset : Z) (origin : seek_origin) : Z :=
  match origin with
  | SEEK_CUR => u64 (file_pointer_ st + offset)
  | SEEK_SET => u64 offset
  | SEEK_END => u64 (file_size_ st - offset)
  end.

Definition UpdateOnSeek (fh : Z) (offset : Z) (origin : seek_origin) : ST Posix Z := fun s =>
  match fileDescriptorMap_ s !! fh with
  | Some st =>
      if is_append (mode_ st) then (Ok (i32 (file_size_ st)), s)
      else (Ok 0, mkPosix (<[fh := set_file_pointer (seek_pointer st offset origin) st]>
                             (fileDescriptorMap_ s)) (px_cluster s))
  | None => (Ok (-1), s)
  end.

(** ** The stdio functions *)

(** The loop of [fopen] over the configured solutions: the index of the first
    file solution whose mount point is a prefix of the name. *)
Fixpoint mount_of (filename : string) (solutions : solution_map) : outcome (option Z) :=
  match solutions with
  | [] => Ok None
  | (_, None) :: _ => Undefined NullDeref
  | (i, Some s) :: solutions' =>
      match io_client_type_ s with
      | FILE_IO => if String.prefix (end_point_ s) filename then Ok (Some i)
                   else mount_of filename solutions'
      | _ => mount_of filename solutions'
      end
  end.

(** [conf] is the configuration of the client's process. *)
Definition fopen (conf : Conf) (filename mode : string) (fh : Z) : ST Posix (intercepted Z) :=
  if String.prefix (CONFIGURATION_FILE conf) filename then mret Real else
  mount ← lift (mount_of filename (STORAGE_SOLUTIONS conf));
  match mount with
  | None => mret Real
  | Some i =>
      let stat := mkPosixStat filename 0 0 mode i in
      UpdateOnOpen fh stat;;
      mret (Result fh)
  end.

Definition fclose (stream : Z) : ST Posix (intercepted Z) :=
  tracked ← isFileDescriptorTracked stream;
  if tracked : bool then UpdateOnClose stream;; mret (Result 0) else mret Real.

Definition fseek (stream offset : Z) (origin : seek_origin) : ST Posix (intercepted Z) :=
  tracked ← isFileDescriptorTracked stream;
  if tracked : bool then r ← UpdateOnSeek stream offset origin; mret (Result r) else mret Real.

(** The result and the bytes stored at [ptr]. *)
Definition fread (size count : Z) (stream : Z) : ST Posix (intercepted (Z * list cell)) :=
  tracked ← isFileDescriptorTracked stream;
  if tracked : bool then
    let data_size := u64 (size * count) in
    stat ← GetStat stream;
    if negb stat.1 then mret (Result (0, [])) else
    if file_size_ stat.2 <? file_pointer_ stat.2 +u data_size
    then mret (Result (size_t_minus_1, [])) else
    let source := set_data_size data_size
                    (set_position (file_pointer_ stat.2) (set_id (filename_ stat.2) Data0)) in
    let destination := set_position 0 source in
    d ← with_client (Client_LocateRequest client_rand source destination);
    if negb (data_size_ d =? data_size) then mret (Result (data_size_ d, [])) else
    bytes ← lift (mem_read (buffer_ d) 0 (data_size_ d));
    mret (Result (data_size_ d, bytes))
  else mret Real.

(** [ptr] is the memory the caller passes. *)
Definition fwrite (ptr : buffer) (size count : Z) (stream : Z) : ST Posix (intercepted Z) :=
  tracked ← isFileDescriptorTracked stream;
  if tracked : bool then
    let data_size := u64 (size * count) in
    stat ← GetStat stream;
    if negb stat.1 then mret (Result 0) else
    if file_size_ stat.2 <? file_pointer_ stat.2 +u data_size
    then mret (Result size_t_minus_1) else
    let destination := set_data_size data_size
                         (set_position (file_pointer_ stat.2) (set_id (filename_ stat.2) Data0)) in
    bytes ← lift (mem_read ptr 0 data_size);
    buf ← lift (mem_write (malloc data_size) 0 bytes);
    let source := set_buffer buf (set_position 0 destination) in
    with_client (Client_StoreRequest rand sequence client_rand source destination);;
    (if file_size_ stat.2 <? data_size +u file_pointer_ stat.2
     then set_stat stream (set_file_size (data_size +u file_pointer_ stat.2) stat.2);; mret ()
     else mret ());;
    mret (Result data_size)
  else mret Real.

End posix.
Arguments Posix R M : clear implicits.
