(* ===== verification/PosixSpec.v ===== *)
(** * PosixSpec: what the intercepted stdio calls do to files

    Over a cluster that represents a map of objects: opening finds the size of
    the object, a write inside the file followed by a read returns the written
    bytes, and no write can make a file longer. *)

From S2P Require Import Prelude CText Effects Types Services KeyValueSpec IOClient World.
From S2P Require Import Msgpack Config Distribution Metadata MetadataSpec Server ServerSpec.
From S2P Require Import Client ClusterSpec ClientSpec Posix.

(** ** Independent of the storage *)

Section frame.
Context {R M : Type} `{RedisService R} `{MongoService M} `{Msgpack}.
Context (rand sequence client_rand : nat -> Z).
Implicit Types s : Posix R M.

Definition keeps {A} (m : ST (Posix R M) A) : Prop :=
  forall s, fileDescriptorMap_ (m s).2 = fileDescriptorMap_ s.

Lemma keeps_bind {A B} (m : ST (Posix R M) A) (f : A -> ST (Posix R M) B) :
  keeps m -> (forall a, keeps (f a)) -> keeps (m ≫= f).
Proof.
  intros Hm Hf s. unfold mbind, st_bind. specialize (Hm s).
  destruct (m s) as [[a|e|u|x] s']; simpl in *; try done. by rewrite Hf.
Qed.

Lemma keeps_ret {A} (a : A) : keeps (mret a).
Proof. done. Qed.

Lemma keeps_lift {A} (o : outcome A) : keeps (lift o).
Proof. done. Qed.

Lemma keeps_client {A} (m : ST (Cluster R M) A) : keeps (with_client m).
Proof. intros s. unfold with_client. by destruct (m (px_cluster s)). Qed.

Lemma keeps_tracked fh : keeps (isFileDescriptorTracked fh).
Proof. done. Qed.

Lemma keeps_stat fh : keeps (GetStat fh).
Proof. intros s. unfold GetStat. by destruct (fileDescriptorMap_ s !! fh). Qed.

(** Reading does not move the file pointer. *)
Theorem fread_keeps_pointer size count stream s :
  fileDescriptorMap_ (fread client_rand size count stream s).2 = fileDescriptorMap_ s.
Proof.
  revert s. change (keeps (fread client_rand size count stream)).
  apply keeps_bind; [apply keeps_tracked|]. intros []; [|apply keeps_ret].
  apply keeps_bind; [apply keeps_stat|]. intros [[] st]; simpl; [|apply keeps_ret].
  destruct (_ <? _); [apply keeps_ret|].
  apply keeps_bind; [apply keeps_client|]. intros d. destruct (negb _); [apply keeps_ret|].
  apply keeps_bind; [apply keeps_lift|]. intros; apply keeps_ret.
Qed.

(** The branch that would record a longer file is never taken, because a write
    beyond the recorded size has already returned. *)
Theorem fwrite_keeps_size ptr size count stream s :
  fileDescriptorMap_ (fwrite rand sequence client_rand ptr size count stream s).2 =
    fileDescriptorMap_ s.
Proof.
  revert s. change (keeps (fwrite rand sequence client_rand ptr size count stream)).
  apply keeps_bind; [apply keeps_tracked|]. intros []; [|apply keeps_ret].
  apply keeps_bind; [apply keeps_stat|]. intros [[] st]; simpl; [|apply keeps_ret].
  destruct (Z.ltb_spec (file_size_ st) (file_pointer_ st +u u64 (size * count))); [apply keeps_ret|].
  repeat (apply keeps_bind; [first [apply keeps_lift|apply keeps_client]|intros]).
  apply keeps_bind; [|intros; apply keeps_ret]. rewrite Z.add_comm.
  destruct (Z.ltb_spec (file_size_ st) (file_pointer_ st +u u64 (size * count))); [lia|apply keeps_ret].
Qed.

(** A write that ends beyond the recorded size stores nothing. *)
Theorem fwrite_refuses_extension ptr size count stream st s :
  fileDescriptorMap_ s !! stream = Some st ->
  file_size_ st < file_pointer_ st +u u64 (size * count) ->
  fwrite rand sequence client_rand ptr size count stream s = (Ok (Result size_t_minus_1), s).
Proof.
  intros Hs Hlt. unfold fwrite. erewrite st_bind_Ok by done.
  rewrite bool_decide_eq_true_2 by eauto. erewrite st_bind_Ok; [|unfold GetStat; by rewrite Hs].
  simpl. by destruct (Z.ltb_spec (file_size_ st) (file_pointer_ st +u u64 (size * count))); [|lia].
Qed.

Lemma fclose_tracked stream s :
  is_Some (fileDescriptorMap_ s !! stream) ->
  fclose stream s = (Ok (Result 0), mkPosix (delete stream (fileDescriptorMap_ s)) (px_cluster s)).
Proof.
  intros Hs. unfold fclose. erewrite st_bind_Ok by done. rewrite bool_decide_eq_true_2 by done.
  destruct Hs as [st Hs]. erewrite st_bind_Ok; [done|]. unfold UpdateOnClose. by rewrite Hs.
Qed.

Lemma fseek_tracked stream offset origin st s :
  fileDescriptorMap_ s !! stream = Some st -> is_append (mode_ st) = false ->
  fseek stream offset origin s =
    (Ok (Result 0), mkPosix (<[stream := set_file_pointer (seek_pointer st offset origin) st]>
                               (fileDescriptorMap_ s)) (px_cluster s)).
Proof.
  intros Hs Ha. unfold fseek. erewrite st_bind_Ok by done. rewrite bool_decide_eq_true_2 by eauto.
  erewrite st_bind_Ok; [done|]. unfold UpdateOnSeek. by rewrite Hs, Ha.
Qed.

Lemma with_client_Ok {A} (m : ST (Cluster R M) A) s a cl :
  m (px_cluster s) = (Ok a, cl) ->
  with_client m s = (Ok a, mkPosix (fileDescriptorMap_ s) cl).
Proof. intros E. unfold with_client. by rewrite E. Qed.

Lemma with_client_Throw {A} (m : ST (Cluster R M) A) s e cl :
  m (px_cluster s) = (Throw e, cl) ->
  with_client m s = (Throw e, mkPosix (fileDescriptorMap_ s) cl).
Proof. intros E. unfold with_client. by rewrite E. Qed.

(** The record of a freshly opened file whose object has [n] bytes. *)
Definition opened_size (filename mode : string) (i n : Z) : PosixStat :=
  let size := if bool_decide (mode = "w+") then 0 else n in
  mkPosixStat filename (if is_append mode then size else 0) size mode i.

Lemma fseek_append stream offset origin st s :
  fileDescriptorMap_ s !! stream = Some st -> is_append (mode_ st) = true ->
  fseek stream offset origin s = (Ok (Result (i32 (file_size_ st))), s).
Proof.
  intros Hs Ha. unfold fseek. erewrite st_bind_Ok by done. rewrite bool_decide_eq_true_2 by eauto.
  erewrite st_bind_Ok; [done|]. unfold UpdateOnSeek. by rewrite Hs, Ha.
Qed.

(** A stream that is not tracked belongs to libc. *)
Lemma untracked stream s :
  fileDescriptorMap_ s !! stream = None ->
  (forall offset origin, fseek stream offset origin s = (Ok Real, s)) /\ fclose stream s = (Ok Real, s) /\
  (forall size count, fread client_rand size count stream s = (Ok Real, s)) /\
  (forall ptr size count, fwrite rand sequence client_rand ptr size count stream s = (Ok Real, s)).
Proof.
  intros Hs. unfold fseek, fclose, fread, fwrite, isFileDescriptorTracked.
  repeat split; intros; erewrite st_bind_Ok by done; by rewrite Hs.
Qed.

(** What [fopen] asks the client for, and does with the answers. *)
Lemma fopen_calls conf filename mode fh i s n b cl cl' :
  let src := set_storage_index i (set_id filename Data0) in
  String.prefix (CONFIGURATION_FILE conf) filename = false ->
  mount_of filename (STORAGE_SOLUTIONS conf) = Ok (Some i) ->
  Client_Size client_rand src (px_cluster s) = (Ok n, cl) ->
  Client_Delete client_rand src cl = (Ok b, cl') ->
  fopen client_rand conf filename mode fh s =
    (Ok (Result fh), mkPosix (<[fh := opened_size filename mode i n]> (fileDescriptorMap_ s))
                             (if bool_decide (mode = "w+") then cl' else cl)).
Proof.
  intros src Hpre Hm E1 E2. unfold fopen. rewrite Hpre. erewrite st_bind_Ok; [|unfold lift; by rewrite Hm].
  set (s' := mkPosix _ _). assert (UpdateOnOpen client_rand fh (mkPosixStat filename 0 0 mode i) s = (Ok true, s')) as E;
    [|cbv beta iota zeta; by st_step E].
  unfold UpdateOnOpen. erewrite st_bind_Ok by done. cbn [stat_storage_index filename_ mode_]. fold src.
  replace (if is_rewind mode then set_file_pointer 0 (mkPosixStat filename 0 0 mode i)
           else mkPosixStat filename 0 0 mode i) with (mkPosixStat filename 0 0 mode i)
    by (by destruct (is_rewind mode)).
  erewrite st_bind_Ok by (apply with_client_Ok; exact E1). unfold s', opened_size, set_file_size. cbn [mode_].
  destruct (bool_decide_reflect (mode = "w+")) as [->|Hne].
  - erewrite st_bind_Ok by (erewrite st_bind_Ok by (apply with_client_Ok; exact E2); done).
    unfold set_stat. cbn. by rewrite lookup_delete_eq, insert_delete_eq.
  - erewrite st_bind_Ok by done. unfold set_stat. cbn. rewrite lookup_delete_eq, insert_delete_eq.
    by destruct (is_append mode).
Qed.

(** The request a stream at a position makes. *)
Definition stream_request (st : PosixStat) (n : Z) : Data :=
  set_data_size n (set_position (file_pointer_ st) (set_id (filename_ st) Data0)).

Definition refused (st : PosixStat) (n : Z) : bool := file_size_ st <? file_pointer_ st +u n.

Lemma fread_refused size count stream st s :
  fileDescriptorMap_ s !! stream = Some st -> refused st (u64 (size * count)) = true ->
  fread client_rand size count stream s = (Ok (Result (size_t_minus_1, [])), s).
Proof.
  intros Hs Hr. unfold fread. erewrite st_bind_Ok by done. rewrite bool_decide_eq_true_2 by eauto.
  erewrite st_bind_Ok; [|unfold GetStat; by rewrite Hs]. cbn [fst snd negb]. fold (refused st (u64 (size * count))).
  by rewrite Hr.
Qed.

Lemma fread_calls size count stream st s bytes cl :
  let n := u64 (size * count) in
  fileDescriptorMap_ s !! stream = Some st -> refused st n = false -> zlen bytes = n ->
  Client_LocateRequest client_rand (stream_request st n) (set_position 0 (stream_request st n)) (px_cluster s) =
    (Ok (set_buffer (Some (Some <$> bytes)) (set_position 0 (stream_request st n))), cl) ->
  fread client_rand size count stream s = (Ok (Result (n, Some <$> bytes)), mkPosix (fileDescriptorMap_ s) cl).
Proof.
  intros n Hs Hr Hz E. unfold fread. erewrite st_bind_Ok by done. rewrite bool_decide_eq_true_2 by eauto. fold n.
  erewrite st_bind_Ok; [|unfold GetStat; by rewrite Hs]. cbn [fst snd negb]. fold (refused st n). rewrite Hr.
  fold (stream_request st n). erewrite st_bind_Ok by (apply with_client_Ok; exact E).
  cbn [data_size_ set_buffer set_position set_data_size stream_request buffer_].
  rewrite Z.eqb_refl. cbn [negb]. pose proof (zlen_nonneg bytes). erewrite st_bind_Ok; [done|]. unfold lift.
  rewrite mem_read_in by (rewrite ?zlen_fmap; lia). by rewrite <- Hz, <- (zlen_fmap Some bytes), slice_whole.
Qed.

Lemma fread_throws size count stream st s e cl :
  let n := u64 (size * count) in
  fileDescriptorMap_ s !! stream = Some st -> refused st n = false ->
  Client_LocateRequest client_rand (stream_request st n) (set_position 0 (stream_request st n)) (px_cluster s) =
    (Throw e, cl) ->
  fread client_rand size count stream s = (Throw e, mkPosix (fileDescriptorMap_ s) cl).
Proof.
  intros n Hs Hr E. unfold fread. erewrite st_bind_Ok by done. rewrite bool_decide_eq_true_2 by eauto. fold n.
  erewrite st_bind_Ok; [|unfold GetStat; by rewrite Hs]. cbn [fst snd negb]. fold (refused st n). rewrite Hr.
  fold (stream_request st n). by apply st_bind_Throw, with_client_Throw.
Qed.

Lemma fwrite_calls ptr size count stream st s bytes cl :
  let n := u64 (size * count) in
  fileDescriptorMap_ s !! stream = Some st -> refused st n = false -> zlen bytes = n ->
  mem_read ptr 0 n = Ok (Some <$> bytes) ->
  Client_StoreRequest rand sequence client_rand
    (set_buffer (Some (Some <$> bytes)) (set_position 0 (stream_request st n))) (stream_request st n) (px_cluster s) =
    (Ok (), cl) ->
  fwrite rand sequence client_rand ptr size count stream s = (Ok (Result n), mkPosix (fileDescriptorMap_ s) cl).
Proof.
  intros n Hs Hr Hz Hptr E. unfold fwrite. erewrite st_bind_Ok by done. rewrite bool_decide_eq_true_2 by eauto. fold n.
  erewrite st_bind_Ok; [|unfold GetStat; by rewrite Hs]. cbn [fst snd negb]. fold (refused st n). rewrite Hr.
  fold (stream_request st n). rewrite Hptr. unfold lift at 1. erewrite st_bind_Ok by done.
  pose proof (zlen_nonneg bytes).
  erewrite st_bind_Ok; [|unfold lift; by rewrite malloc_write by (rewrite ?zlen_fmap; lia)].
  erewrite st_bind_Ok by (apply with_client_Ok; exact E).
  unfold refused in Hr. rewrite Z.add_comm, Hr. by erewrite st_bind_Ok.
Qed.

End frame.

(** ** Over the map of objects *)

Section files.
Context {R M : Type} `{RedisLaws R} `{MongoLaws M} `{MsgpackLaws}.
Context (rand sequence client_rand : nat -> Z).
Context (Hrand : forall n, 0 <= rand n < 2 ^ 31) (Hseq : forall n, 0 <= sequence n < 2 ^ 64).
Implicit Types s : Posix R M.

Lemma mount_of_type conf filename i :
  conf_ok conf -> mount_of filename (STORAGE_SOLUTIONS conf) = Ok (Some i) ->
  type_at conf i FILE_IO.
Proof.
  intros Hc Hm. assert (exists sol, (i, Some sol) ∈ STORAGE_SOLUTIONS conf /\ io_client_type_ sol = FILE_IO)
    as (sol & Hin & Ht).
  { clear Hc. induction (STORAGE_SOLUTIONS conf) as [|[j [sol|]] l IH]; simpl in Hm; try done.
    destruct (io_client_type_ sol) eqn:Et; [destruct (String.prefix _ _)|..];
      [injection Hm as ->; exists sol; split; [left|done]|..];
      (destruct (IH Hm) as (sol' & ? & ?); exists sol'; split; [by right|done]). }
  exists sol. split; [|done]. apply find_solution_elem; [|done]. apply dense_NoDup, Hc.
Qed.

(** The record of a freshly opened file. *)
Definition opened (filename mode : string) (i : Z) (o : option (list ascii)) : PosixStat :=
  opened_size filename mode i (zlen (default [] o)).

(** A file on a mounted file system is opened: its record has the size of the
    object and, in append mode, points to its end; "w+" deletes the object. *)
Theorem fopen_opens conf filename mode fh i s m :
  cluster_rep conf (px_cluster s) m ->
  String.prefix (CONFIGURATION_FILE conf) filename = false ->
  mount_of filename (STORAGE_SOLUTIONS conf) = Ok (Some i) ->
  exists s', fopen client_rand conf filename mode fh s = (Ok (Result fh), s') /\
    fileDescriptorMap_ s' =
      <[fh := opened filename mode i (m !! filename)]> (fileDescriptorMap_ s) /\
    cluster_rep conf (px_cluster s') (if bool_decide (mode = "w+") then delete filename m else m).
Proof.
  intros Hr Hpre Hm. pose proof Hr as [_ _ [(Hc & _) _ _ _]].
  pose proof (mount_of_type _ _ _ Hc Hm) as Hty. pose proof (type_at_range _ _ _ Hc Hty) as Hi.
  set (src := set_storage_index i (set_id filename Data0)).
  assert (plain src) as Hp by (repeat split; unfold is_u64, is_u16; simpl; lia).
  assert (whole_request conf src) as Hw by (split; [done|unfold is_u64; simpl; lia|by exists FILE_IO]).
  destruct (Client_Size_ok client_rand conf (px_cluster s) m src Hr Hp Hw) as (c1 & E1 & Hr1).
  destruct (Client_Delete_ok client_rand conf c1 m src Hr1 Hp Hw) as (c2 & E2 & Hr2).
  eexists. split; [by eapply fopen_calls|]. split; [done|]. cbn [px_cluster].
  by destruct (bool_decide (mode = "w+")).
Qed.

(** Requests of the stdio calls name storage index 0. *)
Lemma index_0 c (cl : Cluster R M) m : cluster_rep c cl m -> exists ty, type_at c 0 ty.
Proof.
  intros [_ _ [(Hc & Hne & _) _ _ _]]. pose proof (zlen_pos _ Hne).
  destruct (dense_find _ 0 (conf_dense _ Hc)) as (sol & E); [cbn [s_conf] in *; lia|].
  by exists (io_client_type_ sol), sol.
Qed.

(** A tracked stream at the start of a file of [v]. *)
Definition at_start s (stream : Z) (m : objects) (v : list ascii) : Prop :=
  exists st, fileDescriptorMap_ s !! stream = Some st /\ file_pointer_ st = 0 /\
    file_size_ st = zlen v /\ m !! filename_ st = Some v /\ zlen (chars (filename_ st)) <= 255.

Lemma rep_object_size c (cl : Cluster R M) m id v :
  cluster_rep c cl m -> m !! id = Some v -> 0 < zlen v <= MAX_OBJ_SIZE c /\ MAX_OBJ_SIZE c <= transfer_max.
Proof.
  intros [_ _ [(Hc & _) _ _ Hobj]] Hv. specialize (Hobj id). rewrite Hv in Hobj.
  destruct Hobj as [Hz _]. pose proof (conf_max _ Hc). simpl in *. lia.
Qed.

Lemma fread_start c s m stream v size count :
  cluster_rep c (px_cluster s) m -> at_start s stream m v ->
  0 < u64 (size * count) <= zlen v ->
  exists s', fread client_rand size count stream s =
      (Ok (Result (u64 (size * count), Some <$> slice 0 (u64 (size * count)) v)), s') /\
    cluster_rep c (px_cluster s') m /\ fileDescriptorMap_ s' = fileDescriptorMap_ s.
Proof.
  intros Hr (st & Hs & Hp & Hz & Hv & Hl) Hn. set (n := u64 (size * count)) in *.
  destruct (rep_object_size _ _ _ _ _ Hr Hv) as [Hvz Hmax]. unfold transfer_max in *.
  destruct (index_0 _ _ _ Hr) as (ty & Hty).
  set (src := set_data_size n (set_position 0 (set_id (filename_ st) Data0))).
  destruct (Client_LocateRequest_ok client_rand c (px_cluster s) m src (set_position 0 src) v)
    as (cl & E & Hr'); try done.
  { repeat split; unfold is_u64, is_u16; simpl; lia. }
  { repeat split; unfold is_u64, is_u16; simpl; lia. }
  { split; [done|unfold is_u64; simpl; lia|by exists ty]. }
  exists (mkPosix (fileDescriptorMap_ s) cl). split; [|done].
  apply (fread_calls client_rand size count stream st s (slice 0 n v)); try done.
  - unfold refused. fold n. rewrite Hz, Hp, Z.add_0_l, u64_small by lia. apply Z.ltb_ge; lia.
  - apply zlen_slice; lia.
  - unfold stream_request. rewrite Hp. exact E.
Qed.

Lemma fwrite_start c s m stream v size count ptr bytes :
  cluster_rep c (px_cluster s) m -> at_start s stream m v ->
  u64 (size * count) = zlen bytes -> 0 < zlen bytes <= zlen v ->
  mem_read ptr 0 (zlen bytes) = Ok (Some <$> bytes) ->
  exists s', fwrite rand sequence client_rand ptr size count stream s = (Ok (Result (zlen bytes)), s') /\
    (exists st, fileDescriptorMap_ s !! stream = Some st /\
       cluster_rep c (px_cluster s') (<[filename_ st := splice nul 0 bytes v]> m)) /\
    fileDescriptorMap_ s' = fileDescriptorMap_ s.
Proof.
  intros Hr (st & Hs & Hp & Hz & Hv & Hl) En Hn Hptr.
  destruct (rep_object_size _ _ _ _ _ Hr Hv) as [Hvz Hmax]. unfold transfer_max in *.
  destruct (index_0 _ _ _ Hr) as (ty & Hty).
  set (dst := set_data_size (zlen bytes) (set_position 0 (set_id (filename_ st) Data0))).
  set (src := set_buffer (Some (Some <$> bytes)) (set_position 0 dst)).
  destruct (Client_StoreRequest_ok rand sequence client_rand Hrand Hseq c (px_cluster s) m src dst bytes)
    as (cl & E & Hr'); try done.
  { repeat split; unfold is_u64, is_u16; simpl; lia. }
  { repeat split; unfold is_u64, is_u16; simpl; lia. }
  { split.
    - exists (Some <$> bytes). by rewrite slice_fmap, slice_whole, zlen_fmap.
    - split; [done|]. split; [done|]. intros ->. unfold zlen in Hn; simpl in Hn; lia.
    - simpl. lia.
    - simpl. by rewrite Hv.
    - simpl. unfold is_u64. lia.
    - by exists ty. }
  exists (mkPosix (fileDescriptorMap_ s) cl). split; [|split; [|done]].
  - rewrite <- En in *. apply (fwrite_calls rand sequence client_rand ptr size count stream st s bytes); try done.
    + unfold refused. rewrite Hz, Hp, Z.add_0_l, u64_small by lia. apply Z.ltb_ge. lia.
    + unfold stream_request. rewrite Hp, En. exact E.
  - exists st. split; [done|]. simpl in *. unfold abs_store, exact_value in Hr'. simpl in Hr'.
    rewrite Hv in Hr'. exact Hr'.
Qed.

(** Bytes written inside a file come back when they are read. *)
Theorem fwrite_fread c s m stream v size count ptr bytes :
  cluster_rep c (px_cluster s) m -> at_start s stream m v ->
  u64 (size * count) = zlen bytes -> 0 < zlen bytes <= zlen v ->
  mem_read ptr 0 (zlen bytes) = Ok (Some <$> bytes) ->
  exists s1 s2,
    fwrite rand sequence client_rand ptr size count stream s = (Ok (Result (zlen bytes)), s1) /\
    fread client_rand size count stream s1 = (Ok (Result (zlen bytes, Some <$> bytes)), s2).
Proof.
  intros Hr Hst En Hn Hptr.
  destruct (fwrite_start c s m stream v size count ptr bytes Hr Hst En Hn Hptr)
    as (s1 & E1 & (st & Hs & Hr1) & F1).
  destruct Hst as (st' & Hs' & Hp & Hz & Hv & Hl). rewrite Hs' in Hs. injection Hs as ->.
  assert (zlen (splice nul 0 bytes v) = zlen v) as Hzs by (rewrite zlen_splice; lia).
  destruct (fread_start c s1 _ stream (splice nul 0 bytes v) size count Hr1) as (s2 & E2 & _).
  { exists st. rewrite F1, Hzs. repeat split; try done. apply lookup_insert_eq. }
  { lia. }
  exists s1, s2. split; [done|]. rewrite E2, En. by rewrite slice_splice by lia.
Qed.

End files.
