(* ===== verification/PosixObjects.v ===== *)
(** * PosixObjects: programs over intercepted files

    A program opens files of a mounted file system, moves their pointers, reads,
    writes and closes them.  [abs_stdio] says what each call does to the open
    streams and the objects; the code, through the client, the cluster, the
    metadata and the stores, refines it for objects of any number of segments whose
    home is the first configured solution, the one [fread] and [fwrite] name. *)

From S2P Require Import Prelude CText Effects Types Services FileIO KeyValueSpec IOClient World.
From S2P Require Import Msgpack Config Distribution Metadata MetadataSpec Segments Chunks ObjectSpec.
From S2P Require Import Server ServerSpec MultiSpec Client ClusterSpec ClientObjects Posix PosixSpec.

Import Multi.

(** ** Programs *)

Inductive stdio_call :=
| Fopen (filename mode : string) (fh : Z)
| Fseek (stream offset : Z) (origin : seek_origin)
| Fread (size count stream : Z)
| Fwrite (bytes : list ascii) (size count stream : Z)
| Fclose (stream : Z).

(** A result, the bytes a read stored, or the exception of a failed call. *)
Inductive stdio_reply :=
| Returned (r : intercepted Z)
| ReadBytes (r : intercepted (Z * list cell))
| Uncaught.

Section programs.
Context {R M : Type} `{RedisService R} `{MongoService M} `{Msgpack}.
Context (rand sequence client_rand : nat -> Z) (conf : Conf).

Definition stdio (q : stdio_call) : ST (Posix R M) stdio_reply :=
  try_catch is_rpc_error
    match q with
    | Fopen filename mode fh => r ← fopen client_rand conf filename mode fh; mret (Returned r)
    | Fseek stream offset origin => r ← fseek stream offset origin; mret (Returned r)
    | Fread size count stream => r ← fread client_rand size count stream; mret (ReadBytes r)
    | Fwrite bytes size count stream =>
        r ← fwrite rand sequence client_rand (Some (Some <$> bytes)) size count stream; mret (Returned r)
    | Fclose stream => r ← fclose stream; mret (Returned r)
    end
    (mret Uncaught).

Fixpoint stdio_all (qs : list stdio_call) : ST (Posix R M) (list stdio_reply) :=
  match qs with
  | [] => mret []
  | q :: qs' => a ← stdio q; l ← stdio_all qs'; mret (a :: l)
  end.

End programs.

(** ** What the calls do *)

(** The open streams and the objects. *)
Record files := mkFiles { streams : gmap Z PosixStat; objs : gmap string (Z * list ascii) }.

Definition bytes_of_object (id : string) (f : files) : list ascii := bytes_at (objs f !! id).

Definition move (st : PosixStat) (offset : Z) (origin : seek_origin) : Z * PosixStat :=
  if is_append (mode_ st) then (i32 (file_size_ st), st)
  else (0, set_file_pointer (seek_pointer st offset origin) st).

(** A stream that is not open belongs to libc.  Reads and writes beyond the size
    the stream recorded are refused; neither moves the pointer, and no write
    changes the recorded size. *)
Definition abs_stdio (q : stdio_call) (f : files) : stdio_reply * files :=
  match q with
  | Fopen filename mode fh =>
      (Returned (Result fh),
       mkFiles (<[fh := opened_size filename mode 0 (zlen (bytes_of_object filename f))]> (streams f))
               (if bool_decide (mode = "w+") then delete filename (objs f) else objs f))
  | Fseek stream offset origin =>
      match streams f !! stream with
      | Some st => let '(r, st') := move st offset origin in
                   (Returned (Result r), mkFiles (<[stream := st']> (streams f)) (objs f))
      | None => (Returned Real, f)
      end
  | Fread size count stream =>
      let n := u64 (size * count) in
      match streams f !! stream with
      | Some st =>
          (if refused st n then ReadBytes (Result (size_t_minus_1, []))
           else match objs f !! filename_ st with
                | Some (_, v) => ReadBytes (Result (n, Some <$> slice (file_pointer_ st) n v))
                | None => Uncaught
                end, f)
      | None => (ReadBytes Real, f)
      end
  | Fwrite bytes size count stream =>
      let n := u64 (size * count) in
      match streams f !! stream with
      | Some st =>
          if refused st n then (Returned (Result size_t_minus_1), f)
          else (Returned (Result n),
                mkFiles (streams f) (abs_store (filename_ st) 0 (file_pointer_ st) bytes (objs f)))
      | None => (Returned Real, f)
      end
  | Fclose stream =>
      match streams f !! stream with
      | Some _ => (Returned (Result 0), mkFiles (delete stream (streams f)) (objs f))
      | None => (Returned Real, f)
      end
  end.

Fixpoint abs_stdio_all (qs : list stdio_call) (f : files) : list stdio_reply * files :=
  match qs with
  | [] => ([], f)
  | q :: qs' =>
      let '(a, f1) := abs_stdio q f in let '(l, f2) := abs_stdio_all qs' f1 in (a :: l, f2)
  end.

Section refinement.
Context {R M : Type} `{RedisLaws R} `{MongoLaws M} `{MsgpackLaws}.
Context (rand sequence client_rand : nat -> Z) (conf : Conf).
Context (Hrand : forall n, 0 <= rand n < 2 ^ 31) (Hseq : forall n, 0 <= sequence n < 2 ^ 64).
Implicit Types s : Posix R M.

Record posix_files s (f : files) : Prop := {
  pf_streams : fileDescriptorMap_ s = streams f;
  pf_objects : cluster_objects conf (px_cluster s) (objs f);
}.

(** The file is there to be used: a name the stores tell from others, and its
    home, if it has one, the first solution. *)
Definition file_ok (f : files) (filename : string) : Prop :=
  name_ok filename /\ forall p v, objs f !! filename = Some (p, v) -> p = 0.

(** What the program may ask for: the parts of a file the stores can read and
    write exactly. *)
Definition call_within (f : files) (q : stdio_call) : Prop :=
  match q with
  | Fopen filename mode fh =>
      String.prefix (CONFIGURATION_FILE conf) filename = false /\
      mount_of filename (STORAGE_SOLUTIONS conf) = Ok (Some 0) /\ file_ok f filename
  | Fread size count stream =>
      let n := u64 (size * count) in
      forall st, streams f !! stream = Some st -> refused st n = false ->
        file_ok f (filename_ st) /\ is_u64 (file_pointer_ st) /\ 0 < n /\
        forall p v, objs f !! filename_ st = Some (p, v) ->
          range_request (R := R) (M := M) conf (stream_request st n) v
  | Fwrite bytes size count stream =>
      let n := u64 (size * count) in
      forall st, streams f !! stream = Some st -> refused st n = false ->
        file_ok f (filename_ st) /\ is_u64 (file_pointer_ st) /\ n = zlen bytes /\
        store_request (R := R) (M := M) conf (objs f)
          (set_buffer (Some (Some <$> bytes)) (set_position 0 (stream_request st n))) (stream_request st n) bytes
  | _ => True
  end.

Inductive calls_within : files -> list stdio_call -> Prop :=
| cs_nil f : calls_within f []
| cs_cons f q qs : call_within f q -> calls_within (abs_stdio q f).2 qs -> calls_within f (q :: qs).

Lemma type_0 cl m : cluster_objects conf cl m -> exists ty, type_at conf 0 ty.
Proof.
  intros [_ _ [(Hc & Hne & _) _ _ _]]. pose proof (zlen_pos _ Hne).
  destruct (dense_find _ 0 (conf_dense _ Hc)) as (sol & E); [cbn [s_conf] in *; lia|].
  by exists (io_client_type_ sol), sol.
Qed.

Lemma named_0 cl f filename r :
  cluster_objects conf cl (objs f) -> file_ok f filename -> id_ r = filename -> storage_index_ r = 0 ->
  named conf (objs f) r.
Proof.
  intros Hc [Hn Hp] Hid Hi. split; rewrite ?Hid, ?Hi; [done|by eapply type_0|].
  intros p v Hv. symmetry. by eapply Hp.
Qed.

Lemma plain_stream st n : is_u64 (file_pointer_ st) -> plain (stream_request st (u64 n)).
Proof.
  intros Hp. repeat split; unfold is_u64, is_u16, u64 in *; simpl; try lia;
    pose proof (Z.mod_pos_bound n (2 ^ 64)); lia.
Qed.

Lemma stdio_Ok {A} (m : ST (Posix R M) A) (k : A -> stdio_reply) h s a s' :
  m s = (Ok a, s') -> try_catch is_rpc_error (r ← m; mret (k r)) h s = (Ok (k a), s').
Proof. intros E. apply try_catch_Ok. by st_step E. Qed.

(** ** The calls *)

Lemma fopen_refines s f filename mode fh :
  posix_files s f -> call_within f (Fopen filename mode fh) ->
  exists s', stdio rand sequence client_rand conf (Fopen filename mode fh) s = (Ok (Returned (Result fh)), s') /\
    posix_files s' (abs_stdio (Fopen filename mode fh) f).2.
Proof.
  intros [Hs Hc] (Hpre & Hm & Hf). set (r := set_storage_index 0 (set_id filename Data0)).
  assert (plain r) as Hp by (repeat split; unfold is_u64, is_u16; simpl; lia).
  assert (named conf (objs f) r) as Hnm by (by eapply named_0).
  destruct (Client_Size_object client_rand conf (px_cluster s) (objs f) r) as (c1 & E1 & Hc1); [done..|].
  destruct (Client_Delete_object client_rand conf c1 (objs f) r) as (c2 & E2 & Hc2); [done..|].
  eexists. split; [apply (stdio_Ok _ Returned); by eapply fopen_calls|]. split.
  - cbn. by rewrite Hs.
  - cbn. by destruct (bool_decide (mode = "w+")).
Qed.

(** The state after a call that changes neither streams nor objects. *)
Lemma posix_files_same s f cl :
  posix_files s f -> cluster_objects conf cl (objs f) -> posix_files (mkPosix (fileDescriptorMap_ s) cl) f.
Proof. by intros [? ?] ?. Qed.

Lemma fseek_refines s f stream offset origin :
  posix_files s f ->
  exists s', stdio rand sequence client_rand conf (Fseek stream offset origin) s =
      (Ok (abs_stdio (Fseek stream offset origin) f).1, s') /\
    posix_files s' (abs_stdio (Fseek stream offset origin) f).2.
Proof.
  intros Hf. pose proof Hf as [Hs Hc]. unfold abs_stdio. destruct (streams f !! stream) as [st|] eqn:E; rewrite <- Hs in E.
  - unfold move. destruct (is_append (mode_ st)) eqn:Ea.
    + exists s. split; [apply (stdio_Ok _ Returned); by apply fseek_append|]. split; [|done].
      cbn. by rewrite <- Hs, insert_id.
    + eexists. split; [apply (stdio_Ok _ Returned); by apply fseek_tracked|]. split; [|done].
      cbn. by rewrite Hs.
  - exists s. split; [|done]. apply (stdio_Ok _ Returned).
    by apply (untracked rand sequence client_rand).
Qed.

Lemma fclose_refines s f stream :
  posix_files s f ->
  exists s', stdio rand sequence client_rand conf (Fclose stream) s = (Ok (abs_stdio (Fclose stream) f).1, s') /\
    posix_files s' (abs_stdio (Fclose stream) f).2.
Proof.
  intros Hf. pose proof Hf as [Hs Hc]. unfold abs_stdio. destruct (streams f !! stream) as [st|] eqn:E; rewrite <- Hs in E.
  - eexists. split; [apply (stdio_Ok _ Returned); by apply fclose_tracked|]. split; [|done]. cbn. by rewrite Hs.
  - exists s. split; [|done]. apply (stdio_Ok _ Returned). by apply (untracked rand sequence client_rand).
Qed.

Lemma fread_refines s f size count stream :
  posix_files s f -> call_within f (Fread size count stream) ->
  exists s', stdio rand sequence client_rand conf (Fread size count stream) s =
      (Ok (abs_stdio (Fread size count stream) f).1, s') /\
    posix_files s' (abs_stdio (Fread size count stream) f).2.
Proof.
  intros Hf Hok. pose proof Hf as [Hs Hc]. unfold abs_stdio. cbn [call_within] in Hok. set (n := u64 (size * count)) in *.
  destruct (streams f !! stream) as [st|] eqn:E; rewrite <- Hs in E.
  2: { exists s. split; [|done]. apply (stdio_Ok _ ReadBytes). by apply (untracked rand sequence client_rand). }
  destruct (refused st n) eqn:Er.
  { exists s. split; [|done]. apply (stdio_Ok _ ReadBytes). by eapply fread_refused. }
  destruct (Hok st) as (Hfile & Hp & Hn & Hrange); [done..|]. clear Hok.
  pose proof (plain_stream st (size * count) Hp : plain (stream_request st n)) as Hps.
  assert (plain (set_position 0 (stream_request st n))) as Hpd.
  { destruct Hps as [? (? & ? & ?)]. split; [done|]. split; [unfold is_u64; cbn; lia|done]. }
  assert (named conf (objs f) (stream_request st n)) as Hnm by (by eapply named_0).
  destruct (objs f !! filename_ st) as [[p v]|] eqn:Ev.
  - specialize (Hrange p v eq_refl). pose proof Hrange as [(Hr0 & Hr1 & Hr2) _ _].
    destruct (Client_LocateRequest_object client_rand conf (px_cluster s) (objs f) (stream_request st n)
      (set_position 0 (stream_request st n)) p v) as (cl & El & Hcl); try done.
    { split; [done|]. right. split; [done|]. cbn. lia. }
    exists (mkPosix (fileDescriptorMap_ s) cl). split; [|by apply posix_files_same].
    apply (stdio_Ok _ ReadBytes). apply (fread_calls client_rand size count stream st); try done. apply zlen_slice; cbn in *; lia.
  - destruct (Client_LocateRequest_none client_rand conf (px_cluster s) (objs f) (stream_request st n)
      (set_position 0 (stream_request st n))) as (cl & El & Hcl); [done..|].
    exists (mkPosix (fileDescriptorMap_ s) cl). split; [|by apply posix_files_same]. unfold stdio.
    rewrite (try_catch_Throw _ _ _ _ rpc_error (mkPosix (fileDescriptorMap_ s) cl)); [done| |done].
    apply st_bind_Throw. by apply (fread_throws client_rand size count stream st).
Qed.

Lemma fwrite_refines s f bytes size count stream :
  posix_files s f -> call_within f (Fwrite bytes size count stream) ->
  exists s', stdio rand sequence client_rand conf (Fwrite bytes size count stream) s =
      (Ok (abs_stdio (Fwrite bytes size count stream) f).1, s') /\
    posix_files s' (abs_stdio (Fwrite bytes size count stream) f).2.
Proof.
  intros Hf Hok. pose proof Hf as [Hs Hc]. unfold abs_stdio. cbn [call_within] in Hok. set (n := u64 (size * count)) in *.
  destruct (streams f !! stream) as [st|] eqn:E; rewrite <- Hs in E.
  2: { exists s. split; [|done]. apply (stdio_Ok _ Returned). by apply (untracked rand sequence client_rand). }
  destruct (refused st n) eqn:Er.
  { exists s. split; [|done]. apply (stdio_Ok _ Returned). 
    eapply fwrite_refuses_extension; [done|]. by apply Z.ltb_lt. }
  destruct (Hok st) as (Hfile & Hp & Hn & Hq); [done..|]. clear Hok.
  pose proof (plain_stream st (size * count) Hp : plain (stream_request st n)) as Hps.
  destruct (Client_StoreRequest_object rand sequence client_rand Hrand Hseq conf (px_cluster s) (objs f)
    (set_buffer (Some (Some <$> bytes)) (set_position 0 (stream_request st n))) (stream_request st n) bytes)
    as (cl & Es & Hcl); try done.
  { destruct Hps as [_ (? & ? & ?)]. split; [unfold is_u64; cbn; lia|done]. }
  exists (mkPosix (fileDescriptorMap_ s) cl). split; [|by split].
  apply (stdio_Ok _ Returned). apply (fwrite_calls rand sequence client_rand _ size count stream st _ bytes); try done.
  fold n. rewrite Hn. rewrite mem_read_in by (rewrite ?zlen_fmap; pose proof (zlen_nonneg bytes); lia).
  by rewrite <- (zlen_fmap Some bytes), slice_whole.
Qed.

Lemma stdio_refines s f q :
  posix_files s f -> call_within f q ->
  exists s', stdio rand sequence client_rand conf q s = (Ok (abs_stdio q f).1, s') /\ posix_files s' (abs_stdio q f).2.
Proof.
  intros Hf Hq. destruct q; [by apply fopen_refines|by apply fseek_refines|by apply fread_refines
    |by apply fwrite_refines|by apply fclose_refines].
Qed.

(** C4: A program over intercepted files gets the results of the abstract calls
    through the client, a server of the cluster, the metadata and the stores, for
    the calls of [calls_within]: the files are mounted on solution 0, which is also
    their home, and the reads and writes that are not refused are ranges and stores
    that [client_refines_objects] covers. So a read after a seek is covered with
    POSIX stores only, or inside one segment and before its end (with MongoDB
    configured, at its start). Reads and writes beyond the recorded size are
    refused, and a read of a file another stream deleted fails, without that
    restriction. *)
Theorem stdio_refines_files qs f s :
  calls_within f qs -> posix_files s f ->
  exists s', stdio_all rand sequence client_rand conf qs s = (Ok (abs_stdio_all qs f).1, s') /\
    posix_files s' (abs_stdio_all qs f).2.
Proof.
  intros Hq. revert s. induction Hq as [f|f q qs Hq Hqs IH]; intros s Hf; [by exists s|].
  destruct (stdio_refines s f q Hf Hq) as (s1 & E1 & Hf1). destruct (IH s1 Hf1) as (s2 & E2 & Hf2).
  cbn [stdio_all abs_stdio_all]. destruct (abs_stdio q f) as [a f1]. cbn [fst snd] in *.
  destruct (abs_stdio_all qs f1) as [l f2]. exists s2. split; [|done]. st_step E1. by st_step E2.
Qed.

End refinement.
