(* ===== verification/Iris.v ===== *)
(** * Iris: common/src/common/iris.cpp

    The emulation layer maps a byte range of a file to fixed-size objects
    ([DataMapper_map]) and reads, writes or removes each of them through one
    I/O client ([IRIS]), or sends the whole request to the servers ([NIOBE],
    [SYMBIOS]).  Printing is not modelled; the byte that [print_p] writes
    behind the data is. *)

From S2P Require Import Prelude CText Effects Types Services IOClient World Msgpack Config.
From S2P Require Import Distribution Metadata Server Client Startup.

Inductive IOLib := POSIX | IRIS | NIOBE | SYMBIOS.
Inductive OPType := READ | WRITE | DELETE.

Record DataDescriptor := mkDataDescriptor {
  dd_id : string;
  dd_position : Z;
  dd_size : Z;
  chunk_index : Z;
}.

(** [slice_str]: the characters [start .. end] and a terminator, into a buffer. *)
Definition slice_str (str : list cell) (buf : buffer) (start end_ : Z) : outcome buffer :=
  bytes ← mem_read (Some str) start (end_ - start + 1);
  buf' ← mem_write buf 0 bytes;
  mem_write buf' (end_ - start + 1) [Some nul].

(** ** DataMapper *)

(** One object of the range that starts at [curr_pos]. *)
Definition next_object (maxObjSize : Z) (id : string) (curr_pos remaining : Z) : DataDescriptor :=
  let index := Z.quot curr_pos maxObjSize in
  let position := Z.rem curr_pos maxObjSize in
  let room := maxObjSize - position in
  let size := if u64 room <? remaining then room else i64 remaining in
  mkDataDescriptor (id +:+ to_string index) position size (u32 index).

(** The loop; the fuel bounds the number of objects. *)
Fixpoint map_loop (fuel : nat) (maxObjSize : Z) (id : string) (curr_pos remaining : Z)
    : outcome (list DataDescriptor) :=
  if remaining =? 0 then Ok [] else
  match fuel with
  | O => Undefined NoReturn
  | S fuel =>
      let obj := next_object maxObjSize id curr_pos remaining in
      l ← map_loop fuel maxObjSize id (i64 (curr_pos + dd_size obj)) (remaining -u dd_size obj);
      Ok (obj :: l)
  end.

Definition DataMapper_map (maxObjSize : Z) (src : DataDescriptor) : outcome (list DataDescriptor) :=
  if u64 (dd_size src) =? 0 then Ok []
  else if maxObjSize =? 0 then Undefined DivByZero
  else map_loop (Z.to_nat (u64 (dd_size src) / maxObjSize + 2)) maxObjSize (dd_id src)
         (dd_position src) (u64 (dd_size src)).

(** ** LibHandler *)

Record LibHandler := mkLibHandler {
  lib_type : IOLib;
  db_type : Z;
  max_obj_size : Z;
  print_p : bool;
  file_ : string;
}.

(** What the constructor does behind the client's: it replaces the client's
    configuration by the one solution of the handler's type, under index 0. *)
Definition LibHandler_ctor (file : string) (lib : IOLib) (io_type max : Z) (print : bool) (c : Conf)
    : LibHandler * Conf :=
  (mkLibHandler lib (u16 io_type) max print file,
   match lib with
   | SYMBIOS | NIOBE =>
       set_policy RANDOM_POLICY
         (set_solutions [(0, (index_solution (u16 io_type) (STORAGE_SOLUTIONS c)).1)] c)
   | _ => c
   end).

(** The whole constructor: for the modes that use servers a client is made first,
    which loads the configuration [symbios_conf] names.  The barriers have no
    effect here. *)
Definition LibHandler_new (env : Surroundings) (file : string) (lib : IOLib) (io_type max : Z) (print : bool)
    (symbios_conf : string) : ST Globals LibHandler :=
  (match lib with
   | SYMBIOS | NIOBE =>
       g ← get_state;
       put_state (mkGlobals (set_configuration_file symbios_conf (g_conf g))
                    (set_backed_dir (SERVER_DIR (g_conf g)) (g_basket g)) (g_dde g) (g_clients g));;
       Client_ctor env
   | _ => mret ()
   end);;
  g ← get_state;
  let '(h, c) := LibHandler_ctor file lib io_type max print (g_conf g) in
  put_state (mkGlobals c (g_basket g) (g_dde g) (g_clients g));;
  mret h.

Section iris.
Context {R M : Type} `{RedisService R} `{MongoService M} `{Msgpack}.
Context (rand sequence client_rand : nat -> Z).
Context (c : Conf).   (* of the client's process *)

Definition with_world {A} (m : ST (World R M) A) : ST (Cluster R M) A := fun s =>
  let '(o, w) := m (cl_world s) in (o, mkCluster (cl_servers s) w (cl_calls s)).

(** [objs[0].chunk_index], read before the loop that computes a minimum. *)
Definition min_chunk_index (objs : list DataDescriptor) : outcome Z :=
  match objs with
  | [] => Undefined OutOfBounds
  | o :: _ => Ok (foldl (fun a x => Z.min a (chunk_index x)) (chunk_index o) objs)
  end.

(** [doOp]: the object holds the client of its type, looked up when it is
    constructed; [type_], a [uint16_t] that passes through an [int16_t], is
    unchanged. *)
Definition doOp : Type := IOClient (World R M).
Definition doOp_ctor (type_ : Z) : ST (World R M) doOp := lift (GetIOClient (STORAGE_SOLUTIONS c) type_).
Definition doOp_Write (operation : doOp) (source destination : Data) : ST (World R M) Data :=
  Write operation source destination.
Definition doOp_Read (operation : doOp) (source destination : Data) : ST (World R M) Data :=
  Read operation source destination.
Definition doOp_Remove (operation : doOp) (source : Data) : ST (World R M) unit := Remove operation source;; mret ().

(** The write loop: the source position runs through the caller's data. *)
Fixpoint write_objects (operation : doOp) (h : LibHandler) (data : buffer) (source_position : Z)
    (objs : list DataDescriptor) : ST (World R M) unit :=
  match objs with
  | [] => mret ()
  | i :: objs' =>
      let dest_data := mkData (dd_id i) (u64 (dd_position i)) None (u64 (dd_size i)) (db_type h) in
      let src_data := mkData EmptyString (u64 source_position) data (u64 (dd_size i)) 0 in
      doOp_Write operation src_data dest_data;;
      write_objects operation h data (i64 (source_position + u64 (dd_size i))) objs'
  end.

Definition do_mapped_write (h : LibHandler) (offset request_size : Z) (data : buffer)
    : ST (Cluster R M) unit :=
  match lib_type h with
  | IRIS =>
      objs ← lift (DataMapper_map (u32 (max_obj_size h))
                     (mkDataDescriptor (file_ h) offset (i64 request_size) 0));
      lift (min_chunk_index objs);;
      with_world (operation ← doOp_ctor (db_type h); write_objects operation h data 0 objs)
  | SYMBIOS | NIOBE =>
      let destination := mkData (file_ h) (u64 offset) None request_size (db_type h) in
      let source := set_position 0 (set_buffer data destination) in
      Client_StoreRequest rand sequence client_rand source destination
  | POSIX => lift (Exit 3)
  end.

Definition remove_object_of (operation : doOp) (h : LibHandler) (i : DataDescriptor) : ST (World R M) unit :=
  doOp_Remove operation (mkData (dd_id i) (u64 (dd_position i)) None 0 (db_type h)).

Definition do_mapped_delete (h : LibHandler) (offset request_size : Z) (data : buffer)
    : ST (Cluster R M) unit :=
  objs ← lift (DataMapper_map (u32 (max_obj_size h))
                 (mkDataDescriptor (file_ h) offset (i64 request_size) 0));
  lift (min_chunk_index objs);;
  match lib_type h with
  | IRIS => with_world (operation ← doOp_ctor (db_type h); for_each (remove_object_of operation h) objs)
  | SYMBIOS | NIOBE =>
      let source := mkData (file_ h) (u64 offset) data request_size (db_type h) in
      Client_Delete client_rand source;;
      mret ()
  | POSIX => lift (Exit 3)
  end.

(** The read loop; the bytes are printed or dropped. *)
Fixpoint read_objects (operation : doOp) (h : LibHandler) (request_size data_offset : Z) (objs : list DataDescriptor)
    : ST (World R M) unit :=
  match objs with
  | [] => mret ()
  | i :: objs' =>
      let src_data := mkData (dd_id i) (u64 (dd_position i)) None (u64 (dd_size i)) (db_type h) in
      let room := if request_size <? u64 (data_offset + dd_size i)
                  then request_size -u u64 data_offset else u64 (dd_size i) in
      let dest_data := mkData EmptyString 0 None room 0 in
      d ← doOp_Read operation src_data dest_data;
      (if print_p h then lift (mem_write (buffer_ d) (dd_size i) [Some nul]);; mret () else mret ());;
      let data_offset' := i32 (data_offset + u64 (dd_size i)) in
      if request_size <? u64 data_offset' then mret ()
      else read_objects operation h request_size data_offset' objs'
  end.

Definition do_mapped_read (h : LibHandler) (offset request_size : Z) (data : buffer)
    : ST (Cluster R M) buffer :=
  objs ← lift (DataMapper_map (u32 (max_obj_size h))
                 (mkDataDescriptor (file_ h) offset (i64 request_size) 0));
  match lib_type h with
  | IRIS => with_world (operation ← doOp_ctor (db_type h); read_objects operation h request_size 0 objs);; mret data
  | SYMBIOS | NIOBE =>
      let source := mkData (file_ h) (u64 offset) data request_size (db_type h) in
      d ← Client_LocateRequest client_rand source (set_position 0 source);
      mret (buffer_ d)
  | POSIX => lift (Exit 3)
  end.

(** [LibHandler::run]: the caller's buffer after the call. *)
Definition LibHandler_run (h : LibHandler) (op : OPType) (offset request_size : Z) (data : buffer)
    : ST (Cluster R M) buffer :=
  match op with
  | READ => do_mapped_read h offset request_size data
  | WRITE => do_mapped_write h offset request_size data;; mret data
  | DELETE => do_mapped_delete h offset request_size data;; mret data
  end.

End iris.

(** ** The map covers the request exactly *)

Section mapper.
Context (X : Z) (HX : 0 < X < 2 ^ 32).

(** The objects cut [[p, p + n)] at the multiples of [X]. *)
Fixpoint tiles (id : string) (p n : Z) (objs : list DataDescriptor) : Prop :=
  match objs with
  | [] => n = 0
  | o :: objs' =>
      0 < dd_size o <= n /\ dd_id o = id +:+ to_string (p / X) /\
      dd_position o = p mod X /\ dd_position o + dd_size o <= X /\
      (dd_size o = n \/ dd_position o + dd_size o = X) /\ chunk_index o = u32 (p / X) /\
      tiles id (p + dd_size o) (n - dd_size o) objs'
  end.

Lemma next_object_ok id p n :
  0 <= p -> 0 < n -> p + n < 2 ^ 63 ->
  next_object X id p n =
    mkDataDescriptor (id +:+ to_string (p / X)) (p mod X) (Z.min (X - p mod X) n) (u32 (p / X)).
Proof.
  intros Hp Hn Hb. pose proof (Z.mod_pos_bound p X). unfold next_object.
  rewrite Z.quot_div_nonneg, Z.rem_mod_nonneg by lia. rewrite u64_small, i64_small by lia.
  f_equal. zcases; lia.
Qed.

Lemma map_loop_tiles fuel id p n :
  0 <= p -> 0 <= n -> p + n < 2 ^ 63 -> (0 < n -> p mod X + n <= Z.of_nat fuel * X) ->
  exists objs, map_loop fuel X id p n = Ok objs /\ tiles id p n objs.
Proof.
  revert p n. induction fuel as [|fuel IH]; intros p n Hp Hn Hb Hf;
    pose proof (Z.mod_pos_bound p X ltac:(lia)); cbn [map_loop].
  - destruct (Z.eqb_spec n 0) as [->|]; [by exists []|lia].
  - destruct (Z.eqb_spec n 0) as [->|]; [by exists []|].
    rewrite next_object_ok by lia. cbn [dd_size].
    set (k := Z.min (X - p mod X) n). rewrite i64_small, u64_small by lia.
    assert (k = n \/ (p + k) mod X = 0) as Hk.
    { subst k. destruct (Z.min_spec (X - p mod X) n) as [[? E]|[? E]]; rewrite E; [|by left]. right.
      replace (p + (X - p mod X)) with (0 + (p / X + 1) * X) by (pose proof (Z.div_mod p X); lia).
      rewrite Z.mod_add by lia. apply Z.mod_0_l. lia. }
    destruct (IH (p + k) (n - k)) as (objs & E & T); [lia..| |].
    { intros Hnk. destruct Hk as [?|E]; [lia|]. rewrite E. subst k. lia. }
    exists (mkDataDescriptor (id +:+ to_string (p / X)) (p mod X) k (u32 (p / X)) :: objs).
    rewrite E. split; [done|]. cbn [tiles dd_size dd_id dd_position chunk_index].
    subst k. repeat split; try done; lia.
Qed.

Lemma map_tiles src :
  0 <= dd_position src -> 0 <= dd_size src -> dd_position src + dd_size src < 2 ^ 63 ->
  exists objs, DataMapper_map X src = Ok objs /\
    tiles (dd_id src) (dd_position src) (dd_size src) objs.
Proof.
  intros Hp Hn Hb. unfold DataMapper_map. rewrite u64_small by lia.
  destruct (Z.eqb_spec (dd_size src) 0) as [->|]; [by exists []|].
  destruct (Z.eqb_spec X 0); [lia|]. apply map_loop_tiles; [lia..|].
  pose proof (Z.mod_pos_bound (dd_position src) X ltac:(lia)).
  pose proof (Z.div_mod (dd_size src) X ltac:(lia)).
  pose proof (Z.mod_pos_bound (dd_size src) X ltac:(lia)).
  assert (0 <= dd_size src / X) by (apply Z.div_pos; lia).
  rewrite Z2Nat.id by lia. nia.
Qed.

(** C30: the objects of a request tile it: they follow each other, each lies
    inside the object its index names, and together they have the request's
    size; the loop ends. *)
Theorem DataMapper_map_tiles src :
  0 <= dd_position src -> 0 <= dd_size src -> dd_position src + dd_size src < 2 ^ 63 ->
  exists objs, DataMapper_map X src = Ok objs /\
    tiles (dd_id src) (dd_position src) (dd_size src) objs.
Proof. apply map_tiles. Qed.

End mapper.
