(* ===== verification/IrisSpec.v ===== *)
(** * IrisSpec: reads and writes through the object map

    A write of whole objects to a key-value store puts every byte of the
    caller's data into the object of its offset; the same write to a file
    store drops every object but the first; a printing read writes behind the
    buffer it allocated. *)

From S2P Require Import Prelude CText Effects Types Services FileIO KeyValueIO KeyValueSpec.
From S2P Require Import IOClient World Msgpack Config Distribution Metadata MetadataSpec.
From S2P Require Import Server Client Startup Iris.

Section iris_spec.
Context {R M : Type} `{RedisLaws R} `{MongoLaws M}.
Context (c : Conf).
Implicit Types w : World R M.

(** A new key of a key-value store gets the bytes at the source's position. *)
Lemma kv_write_new ty w src dst bytes :
  ty <> FILE_IO -> world_up w -> wobj w ty (id_ dst) = None ->
  mem_read (buffer_ src) (position_ src) (data_size_ src) ≫= defined = Ok bytes ->
  exists w' src', Write (client ty) src dst w = (Ok src', w') /\
    updates w w' ty (id_ dst) (Some bytes).
Proof.
  intros Hty (U1 & U2 & U3) Ho Hb. unfold updates, world_up. destruct ty; [done|..].
  - cbn [client zoom_client Write wobj] in *. unfold zoom. simpl in Ho.
    destruct (redis_set_up (w_redis w) (id_ dst) bytes U2) as (r' & Es & Hu' & Hv').
    exists (set_redis r' w), src. split.
    + simpl. unfold RedisIOClient.Write. rewrite redis_get_up, Ho, Hb by done.
      unfold mbind, st_bind, lift, RedisIOClient.put; cbn [outcome_bind]. by rewrite Es.
    + split; [done|]. simpl. rewrite Hv'. split; [apply lookup_insert_eq|].
      intros [] k Hk; simpl; try done. rewrite Hv', lookup_insert_ne; congruence.
  - cbn [client zoom_client Write wobj] in *. unfold zoom. simpl in Ho, U3.
    destruct (mongo_insert_key (w_mongo w) (id_ dst) bytes U3 Ho) as (m' & E & Um & Om & Fm).
    exists (set_mongo m' w), src. split.
    + simpl. unfold MongoIOClient.Write. erewrite st_bind_Ok.
      2: { rewrite (try_catch_Throw _ _ _ _ (ErrorException READ_MONGODB_DATA_FAILED) (w_mongo w));
           [done| |done]. eapply st_bind_Throw. by apply mongo_read_missing. }
      rewrite Hb. unfold lift. by erewrite !st_bind_Ok by done.
    + split; [done|]. simpl. split; [done|].
      intros [] k Hk; simpl; try done. apply Fm. congruence.
Qed.

(** The constructor of [doOp] finds the client of the configured type. *)
Lemma doOp_ctor_ok i ty w : type_at c i ty -> doOp_ctor c i w = (Ok (client ty), w).
Proof. intros (s & E & <-). unfold doOp_ctor, lift. by rewrite (GetIOClient_ok _ _ s). Qed.

(** The constructor runs before the loop: a read of no bytes already needs a
    configured solution. *)
Lemma read_nothing_needs_client client_rand `{Msgpack} h offset data (s : Cluster R M) :
  lib_type h = IRIS -> find_solution (db_type h) (STORAGE_SOLUTIONS c) = None ->
  (do_mapped_read client_rand c h offset 0 data s).1 = Undefined NullDeref.
Proof.
  intros Hl Hn. unfold do_mapped_read, DataMapper_map. cbn [dd_size]. change (u64 (i64 0) =? 0) with true.
  cbn [lift]. rewrite Hl. unfold lift, with_world, doOp_ctor, GetIOClient, index_solution, mbind, st_bind, lift.
  by rewrite Hn.
Qed.

(** A handler that uses servers has configured a client from its file, which then
    knows one solution, of the handler's type. *)
Lemma LibHandler_new_client env file lib io_type max print symbios_conf g h g' :
  lib = SYMBIOS \/ lib = NIOBE ->
  LibHandler_new env file lib io_type max print symbios_conf g = (Ok h, g') ->
  h = mkLibHandler lib (u16 io_type) max print file /\
  exists g1, (exists doc, conf_file env symbios_conf = Some doc) /\
    g_conf g' = (LibHandler_ctor file lib io_type max print (g_conf g1)).2 /\
    STORAGE_SOLUTIONS (g_conf g') = [(0, (index_solution (u16 io_type) (STORAGE_SOLUTIONS (g_conf g1))).1)].
Proof.
  intros Hl E. assert (exists g1, (exists doc, conf_file env symbios_conf = Some doc) /\
    (let '(h, c) := LibHandler_ctor file lib io_type max print (g_conf g1) in
      put_state (mkGlobals c (g_basket g1) (g_dde g1) (g_clients g1));; mret h) g1 = (Ok h, g')) as (g1 & Hd & E1).
  { unfold LibHandler_new in E.
    assert (forall (m : ST Globals unit) k, (m;; k) g = (Ok h, g') -> exists g1, m g = (Ok (), g1) /\ k g1 = (Ok h, g')) as B.
    { intros m k. unfold mbind, st_bind. destruct (m g) as [[[]| | |] g1]; intros E0; try done. by exists g1. }
    apply B in E as (g1 & Ec & E). exists g1. split; [|exact E].
    assert ((Client_ctor env (mkGlobals (set_configuration_file symbios_conf (g_conf g))
      (set_backed_dir (SERVER_DIR (g_conf g)) (g_basket g)) (g_dde g) (g_clients g))) = (Ok (), g1)) as Ec'
      by by destruct Hl as [-> | ->].
    unfold Client_ctor, configure, ConfigureSymbiosClient, LoadConfiguration in Ec'.
    cbn [g_conf g_basket CONFIGURATION_FILE set_configuration_file] in Ec'.
    revert Ec'. unfold mbind at 1 2, st_bind at 1 2. unfold mbind at 1, st_bind at 1. cbn [get_state g_conf CONFIGURATION_FILE set_configuration_file].
    destruct (conf_file env symbios_conf) as [doc|]; [by exists doc|done]. }
  destruct Hl as [-> | ->]; cbn in E1; injection E1 as <- <-; (split; [done|]; by exists g1).
Qed.

Section chunks.
Context (X : Z) (HX : 0 < X < 2 ^ 32).
Context (h : LibHandler) (ty : IOClientType) (Hty : ty <> FILE_IO).

(** The object of index [j] of the file. *)
Definition object_key (j : Z) : string := file_ h +:+ to_string j.

Lemma object_key_inj j j' : object_key j = object_key j' -> j = j'.
Proof. unfold object_key. intros E%string_app_inj_l. by apply to_string_inj. Qed.

(** The bytes of a file that starts at [p]. *)
Definition file_bytes (bytes : list ascii) (p : Z) (o : DataDescriptor) (off : Z) : list ascii :=
  slice (off - p) (dd_size o) bytes.

Lemma write_objects_ok objs w (bytes : list ascii) p0 p n :
  tiles X (file_ h) p n objs -> p mod X = 0 -> 0 <= p0 <= p -> p - p0 + n = zlen bytes ->
  p + n < 2 ^ 62 -> world_up w ->
  (forall j, p / X <= j -> wobj w ty (object_key j) = None) ->
  exists w', write_objects (client ty) h (Some (Some <$> bytes)) (p - p0) objs w = (Ok (), w') /\ world_up w' /\
    (forall j, p / X <= j -> j * X < p + n ->
       wobj w' ty (object_key j) = Some (slice (j * X - p0) (Z.min X (p + n - j * X)) bytes)) /\
    (forall ty' k, (ty' <> ty \/ forall j, p / X <= j -> k <> object_key j) -> wobj w' ty' k = wobj w ty' k).
Proof.
  revert w p n. induction objs as [|o objs IH]; intros w p n T Hp Hp0 Hlen Hb Hu Hfree.
  - simpl in T. subst n. exists w. split; [done|]. split; [done|]. split; [|done].
    intros j Hj Hj'. pose proof (Z.div_mod p X). nia.
  - cbn [tiles] in T. destruct T as (Hs & Hid & Hpos & Hfit & Hend & _ & T). rewrite Hp in *.
    assert (p = p / X * X) as Ep by (pose proof (Z.div_mod p X); lia).
    destruct (kv_write_new ty w (mkData EmptyString (u64 (p - p0)) (Some (Some <$> bytes)) (u64 (dd_size o)) 0)
                (mkData (dd_id o) (u64 (dd_position o)) None (u64 (dd_size o)) (db_type h))
                (slice (p - p0) (dd_size o) bytes)) as (w1 & src' & E1 & U1 & O1 & F1); try done.
    { cbn [id_]. rewrite Hid. apply Hfree. lia. }
    { cbn [buffer_ position_ data_size_]. rewrite !u64_small by lia.
      rewrite mem_read_in by (rewrite ?zlen_fmap; lia).
      unfold mbind; cbn [outcome_bind]. by rewrite slice_fmap, defined_chars. }
    cbn [id_] in O1, F1. rewrite Hid in O1, F1. fold (object_key (p / X)) in O1, F1.
    assert (write_objects (client ty) h (Some (Some <$> bytes)) (p - p0) (o :: objs) w =
            write_objects (client ty) h (Some (Some <$> bytes)) (p + dd_size o - p0) objs w1) as Estep.
    { cbn [write_objects]. erewrite st_bind_Ok by exact E1.
      rewrite u64_small, i64_small by lia. f_equal. lia. }
    rewrite Estep. destruct Hend as [Hlast|Hfull].
    + assert (objs = []) as ->.
      { destruct objs as [|o' objs]; [done|]. cbn [tiles] in T. lia. }
      exists w1. split; [done|]. split; [done|]. split.
      * intros j Hj Hj'. assert (j = p / X) as -> by nia. rewrite O1. do 2 f_equal; lia.
      * intros ty' k Hk. apply F1. intros [= -> ->]. destruct Hk as [?|Hk]; [done|]. by apply (Hk (p / X)).
    + assert ((p + dd_size o) mod X = 0 /\ (p + dd_size o) / X = p / X + 1) as [Hm' Hd'].
      { replace (p + dd_size o) with ((p / X + 1) * X) by lia. rewrite Z.mod_mul, Z.div_mul by lia. done. }
      destruct (IH w1 (p + dd_size o) (n - dd_size o)) as (w' & E & U & G1 & G2); try done; try lia.
      { intros j Hj. rewrite Hd' in Hj. rewrite F1; [apply Hfree; lia|].
        intros [= Hk%object_key_inj]. lia. }
      exists w'. split; [done|]. split; [done|]. rewrite Hd' in G1, G2. split.
      * intros j Hj Hj'. destruct (decide (j = p / X)) as [->|Hne].
        -- rewrite G2; [rewrite O1; do 2 f_equal; lia|]. right. intros j Hj2 Hk%object_key_inj. lia.
        -- replace (p + n - j * X) with (p + dd_size o + (n - dd_size o) - j * X) by lia. apply G1; lia.
      * intros ty' k Hk. rewrite G2; [apply F1|].
        -- intros [= -> ->]. destruct Hk as [?|Hk]; [done|]. by apply (Hk (p / X)).
        -- destruct Hk as [?|Hk]; [by left|]. right. intros j Hj. apply Hk. lia.
Qed.

(** A printing read writes its terminator one byte behind the buffer. *)
Theorem print_overflows w o objs request_size v :
  print_p h = true -> world_up w -> wobj w ty (dd_id o) = Some v -> dd_position o = 0 ->
  0 < dd_size o <= zlen v -> zlen v <= transfer_max ->
  read_objects (client ty) h request_size 0 (o :: objs) w = (Undefined OutOfBounds, w).
Proof.
  intros Hpr Hu Ho Hp Hs Hv. unfold transfer_max in *. cbn [read_objects]. rewrite Hp.
  change (u64 0) with 0. rewrite (u64_small (dd_size o)) by lia.
  erewrite st_bind_Ok.
  2: { apply (world_read ty w (mkData (dd_id o) 0 None (dd_size o) (db_type h)) _ v (dd_size o));
         cbn [id_ data_size_ position_]; rewrite ?wreads_0; unfold wanted, transfer_max; try done; try lia.
       destruct (Z.eqb_spec (dd_size o) 0); [lia|done]. }
  cbn [buffer_ set_data_size set_buffer data_size_ position_]. rewrite Hpr.
  assert (zlen (Some <$> slice 0 (dd_size o) v) = dd_size o) as Hz.
  { rewrite zlen_fmap. apply zlen_slice; lia. }
  apply st_bind_Undefined, st_bind_Undefined. unfold lift, mem_write. rewrite Hz.
  change (zlen [Some nul]) with 1. zcases; simpl; try lia. done.
Qed.

End chunks.

(** C31: an aligned [IRIS] write of new objects to a key-value store: the
    object of each index holds the bytes of its range. *)
Theorem do_mapped_write_objects rand sequence client_rand `{Msgpack} (h : LibHandler) ty
    (s : Cluster R M) offset (bytes : list ascii) :
  ty <> FILE_IO -> type_at c (db_type h) ty -> lib_type h = IRIS -> 0 < max_obj_size h < 2 ^ 32 ->
  0 <= offset -> offset mod max_obj_size h = 0 -> bytes <> [] -> offset + zlen bytes < 2 ^ 62 ->
  world_up (cl_world s) ->
  (forall j, wobj (cl_world s) ty (object_key h j) = None) ->
  exists s', do_mapped_write rand sequence client_rand c h offset (zlen bytes) (Some (Some <$> bytes)) s =
      (Ok (), s') /\
    (forall j, offset <= j * max_obj_size h < offset + zlen bytes ->
       wobj (cl_world s') ty (object_key h j) =
         Some (slice (j * max_obj_size h - offset)
                 (Z.min (max_obj_size h) (offset + zlen bytes - j * max_obj_size h)) bytes)).
Proof.
  intros Hty Ht Hlib HX Ho Hal Hne Hb Hu Hfree. pose proof (zlen_pos _ Hne).
  unfold do_mapped_write. rewrite Hlib. rewrite u32_small, i64_small by lia.
  destruct (map_tiles (max_obj_size h) HX (mkDataDescriptor (file_ h) offset (zlen bytes) 0))
    as (objs & E & T); cbn [dd_position dd_size dd_id] in *; [lia..|].
  destruct (write_objects_ok (max_obj_size h) HX h ty Hty objs (cl_world s) bytes offset offset (zlen bytes))
    as (w' & Ew & _ & G & _); try done; try lia.
  erewrite st_bind_Ok by (unfold lift; by rewrite E).
  destruct objs as [|o objs]; [simpl in T; lia|]. erewrite st_bind_Ok by done.
  rewrite Z.sub_diag in Ew. unfold with_world. erewrite st_bind_Ok by by apply doOp_ctor_ok.
  rewrite Ew. eexists. split; [done|].
  intros j Hj. apply G; [|lia]. apply Z.div_le_upper_bound; lia.
Qed.

(** The POSIX client takes [data_size_ - position_] bytes: an object whose
    data starts [data_size_] bytes into the caller's buffer is not written. *)
Theorem file_chunk_lost (fs : FS) src dst :
  FileIOClient.ready fs (id_ dst) -> position_ src = data_size_ src ->
  0 <= position_ dst < 2 ^ 63 ->
  FileIOClient.Write src dst fs =
    (Ok src, set_files (<[id_ dst := file_content fs (id_ dst)]> (files fs)) fs).
Proof.
  intros (Hd & He & Hm) Hs Hp. unfold FileIOClient.Write, open_rdwr_creat.
  rewrite decide_False by done. rewrite FileIOClient.lseek_ok by lia.
  rewrite Hs, Z.sub_diag. change (u64 0) with 0. unfold mem_read. cbn [Z.eqb].
  unfold mbind; cbn [outcome_bind]. change (defined []) with (Ok (A := list ascii) []).
  unfold posix_write. cbn [io_error set_files]. rewrite He. by rewrite slice_nil.
Qed.

End iris_spec.
