(* ===== verification/ShadowLink.v ===== *)
(** * ShadowLink: old/internal_component/shadow_link

    The C predecessor of the metadata links: [symbios_metadata] records as
    '#'-separated text (common.c), kept in a Redis cluster (io_redis.c) or a
    MongoDB collection (io_mongo.c).  A C string is the list of its characters
    before the terminator; a character array is a buffer.  hiredis-vip and
    libmongoc are parameters. *)

From S2P Require Import Prelude CText Effects.

(** ** C strings *)

(** The characters before the first terminator. *)
Fixpoint cstr (s : list ascii) : list ascii :=
  match s with
  | [] => []
  | c :: s' => if decide (c = nul) then [] else c :: cstr s'
  end.

(** The string at the start of a buffer. *)
Fixpoint cells_cstr (cs : list cell) : outcome (list ascii) :=
  match cs with
  | [] => Undefined OutOfBounds
  | None :: _ => Undefined UninitRead
  | Some c :: cs' => if decide (c = nul) then Ok [] else s ← cells_cstr cs'; Ok (c :: s)
  end.

Definition c_string (buf : buffer) : outcome (list ascii) :=
  match buf with None => Undefined NullDeref | Some cs => cells_cstr cs end.

(** [strcpy (buf + off, s)]. *)
Definition strcpy (buf : buffer) (off : Z) (s : list ascii) : outcome buffer :=
  mem_write buf off (Some <$> (cstr s ++ [nul])).

Lemma cstr_id s : nul ∉ s -> cstr s = s.
Proof.
  induction s as [|c s IH]; [done|]. rewrite not_elem_of_cons. intros [Hc Hs]. simpl.
  rewrite decide_False by congruence. by rewrite IH.
Qed.

Lemma cstr_app s rest : nul ∉ s -> cstr (s ++ nul :: rest) = s.
Proof.
  induction s as [|c s IH]; [done|]. rewrite not_elem_of_cons. intros [Hc Hs]. simpl.
  rewrite decide_False by congruence. by rewrite IH.
Qed.

Lemma cstr_terminated s : nul ∉ s -> cstr (s ++ [nul]) = s.
Proof. apply cstr_app. Qed.

Lemma cells_cstr_app s rest : nul ∉ s -> cells_cstr ((Some <$> s) ++ Some nul :: rest) = Ok s.
Proof.
  induction s as [|c s IH]; intros Hs; csimpl; [done|].
  rewrite not_elem_of_cons in Hs. destruct Hs as [Hc Hs].
  rewrite decide_False by congruence. rewrite IH by done. done.
Qed.

(** ** common.c *)

Definition charset : list ascii :=
  chars "abcdefghijklmnopqrstuvwxyzABCDEFGHIJKLMNOPQRSTUVWXYZ0123456789,.-#'?!".

(** [randstring]: [key n] is the value of [rand ()] for character [n]. *)
Definition randstring (key : nat -> Z) (length : Z) : outcome (option (list ascii)) :=
  if length =? 0 then Ok None else
  Ok (Some ((fun n => default nul (charset !! Z.to_nat (key n mod zlen charset)))
              <$> seq 0 (Z.to_nat length))).

(** [genstring] fills its allocation, terminator included. *)
Definition genstring (length : Z) : buffer :=
  if length =? 0 then None else Some (replicate (Z.to_nat (length + 1)) (Some "A"%char)).

(** [enum target_stor]. *)
Definition UNKNOWN : Z := -1.
Definition PFS1 : Z := 0.
Definition PFS2 : Z := 1.
Definition REDIS : Z := 2.
Definition MONGO : Z := 3.

Record symbios_metadata := mkMeta {
  primary : bool;
  data_id : list ascii;
  target_stor : Z;
  server : option (list ascii);
  port : Z;
  offset : Z;
}.

(** What a query leaves usable of a record: the pointers [data_id] and [server]
    of its result point into an array of the call that has returned. *)
Record scalars := mkScalars { q_primary : bool; q_target_stor : Z; q_port : Z; q_offset : Z }.

Definition scalars_of (m : symbios_metadata) : scalars :=
  mkScalars (primary m) (target_stor m) (port m) (offset m).

Definition SERDE_MD_SEP : ascii := "#"%char.

Definition field (s : list ascii) : list ascii := s ++ [SERDE_MD_SEP].

(** The text; [%d] prints the low 32 bits of the [size_t] offset. *)
Definition metadata_text (m : symbios_metadata) : list ascii :=
  field (data_id m) ++ field (if primary m then ["1"%char] else ["0"%char]) ++
  field (dec (target_stor m)) ++ field (default [] (server m)) ++
  field (dec (port m)) ++ field (dec (i32 (offset m))).

(** It is assembled in an allocation of 1024 bytes. *)
Definition serialize_metadata (m : symbios_metadata) : outcome (list ascii) :=
  if zlen (metadata_text m) <? 1024 then Ok (metadata_text m) else Undefined OutOfBounds.

(** [atoi (strtok (NULL, SEP))]: a missing token is a null pointer. *)
Definition atoi_token (rest : list ascii) : outcome (Z * list ascii) :=
  match strtok SERDE_MD_SEP rest with
  | None => Undefined NullDeref
  | Some (tok, rest') => Ok (atoi tok, rest')
  end.

Definition deserialize_metadata (s : list ascii) : outcome symbios_metadata :=
  match strtok SERDE_MD_SEP s with
  | None => Undefined NullDeref   (* the next [strtok] returns NULL as well *)
  | Some (id, r1) =>
      '(flag, r2) ← atoi_token r1;
      if negb (flag =? 0) then Ok (mkMeta true id (-1) None (-1) (2 ^ 64 - 1)) else
      '(target, r3) ← atoi_token r2;
      let '(srv, r4) := match strtok SERDE_MD_SEP r3 with
                        | None => (None, []) | Some (tok, r) => (Some tok, r) end in
      '(prt, r5) ← atoi_token r4;
      if (target =? PFS1) || (target =? PFS2) then
        '(off, _) ← atoi_token r5; Ok (mkMeta false id target srv prt (u64 off))
      else Ok (mkMeta false id target srv prt (2 ^ 64 - 1))
  end.

(** *** Round trip *)

(** A field the separator can delimit. *)
Definition clean (s : list ascii) : Prop := s <> [] /\ (SERDE_MD_SEP ∉ s) /\ (nul ∉ s).

Lemma strtok_field tok rest : clean tok -> strtok SERDE_MD_SEP (field tok ++ rest) = Some (tok, rest).
Proof.
  intros (Hne & Hd & _). unfold field. rewrite <- app_assoc. by apply strtok_token.
Qed.

Lemma dec_clean n : clean (dec n).
Proof. split; [apply dec_nonempty|]. split; by apply dec_notin. Qed.

Lemma atoi_token_dec n rest :
  - 2 ^ 31 <= n < 2 ^ 31 -> atoi_token (field (dec n) ++ rest) = Ok (n, rest).
Proof.
  intros Hn. unfold atoi_token. rewrite strtok_field by apply dec_clean. by rewrite atoi_dec.
Qed.

(** What can be stored and found again: C integers, no separator in the text
    fields, a server for a link, an offset only on the file systems.  Of a
    primary record only the name matters. *)
Record link_ok (m : symbios_metadata) : Prop := {
  lo_server : exists s, server m = Some s /\ clean s;
  lo_target : - 2 ^ 31 <= target_stor m < 2 ^ 31;
  lo_port : - 2 ^ 31 <= port m < 2 ^ 31;
  lo_offset : 0 <= offset m < 2 ^ 31;
}.

Record meta_ok (m : symbios_metadata) : Prop := {
  mo_id : clean (data_id m);
  mo_text : nul ∉ default [] (server m);
  mo_link : primary m = false -> link_ok m;
}.

(** What comes back: nothing but the name of a primary record, and no offset
    outside the file systems. *)
Definition restored (m : symbios_metadata) : symbios_metadata :=
  if primary m then mkMeta true (data_id m) (-1) None (-1) (2 ^ 64 - 1)
  else mkMeta false (data_id m) (target_stor m) (server m) (port m)
         (if (target_stor m =? PFS1) || (target_stor m =? PFS2) then offset m else 2 ^ 64 - 1).

Lemma deserialize_text m : meta_ok m -> deserialize_metadata (metadata_text m) = Ok (restored m).
Proof.
  intros [Hid _ Hlink]. unfold deserialize_metadata, metadata_text, restored.
  rewrite strtok_field by done. destruct (primary m).
  - change ["1"%char] with (dec 1). rewrite atoi_token_dec by lia. done.
  - destruct (Hlink eq_refl) as [(srv & Hs & Hsrv) Ht Hp Ho]. rewrite Hs, i32_small by lia.
    cbn [default from_option].
    change ["0"%char] with (dec 0). rewrite atoi_token_dec by lia.
    unfold mbind; cbn [outcome_bind Z.eqb negb]. rewrite atoi_token_dec by lia.
    cbn [outcome_bind]. rewrite strtok_field by done. rewrite atoi_token_dec by lia. cbn [outcome_bind].
    destruct (_ || _); [|done].
    rewrite <- (app_nil_r (field (dec (offset m)))), atoi_token_dec by lia.
    cbn [outcome_bind]. rewrite u64_small by lia. done.
Qed.

(** C37: the text of a record gives the record back, up to the fields the text does
    not keep ([restored]), for the records of [meta_ok]: the name has no separator,
    and a link has a server, a target and a port that are ints, and an offset below
    2^31. The text must fit the array of 1024 characters. A link without a server
    comes back wrong ([deserialize_no_server]). *)
Theorem deserialize_serialize_metadata m :
  meta_ok m -> zlen (metadata_text m) < 1024 ->
  exists s, serialize_metadata m = Ok s /\ deserialize_metadata s = Ok (restored m).
Proof.
  intros Hm Hl. exists (metadata_text m). unfold serialize_metadata. zcases; [|lia].
  split; [done|]. by apply deserialize_text.
Qed.

(** Without a server the empty field disappears: the port is read as the
    server and the offset as the port. *)
Theorem deserialize_no_server id target prt off :
  clean id -> - 2 ^ 31 <= target < 2 ^ 31 -> 1 < target -> - 2 ^ 31 <= prt < 2 ^ 31 -> 0 <= off < 2 ^ 31 ->
  deserialize_metadata (metadata_text (mkMeta false id target None prt off)) =
    Ok (mkMeta false id target (Some (dec prt)) off (2 ^ 64 - 1)).
Proof.
  intros Hid Ht Ht1 Hp Ho. unfold deserialize_metadata, metadata_text.
  cbn [data_id primary target_stor server port offset default from_option].
  rewrite strtok_field by done. change ["0"%char] with (dec 0). rewrite i32_small by lia.
  rewrite atoi_token_dec by lia. unfold mbind; cbn [outcome_bind Z.eqb negb].
  rewrite atoi_token_dec by lia. cbn [outcome_bind].
  change (field [] ++ field (dec prt) ++ field (dec off))
    with (SERDE_MD_SEP :: (field (dec prt) ++ field (dec off))).
  rewrite strtok_skip, strtok_field by apply dec_clean.
  rewrite <- (app_nil_r (field (dec off))), atoi_token_dec by lia. cbn [outcome_bind].
  unfold PFS1, PFS2. zcases; try lia. done.
Qed.

(** The text fits the buffer when the names are short. *)
Lemma metadata_text_length m :
  - 2 ^ 31 <= target_stor m < 2 ^ 31 -> - 2 ^ 31 <= port m < 2 ^ 31 ->
  zlen (data_id m) + zlen (default [] (server m)) <= 800 -> zlen (metadata_text m) < 1024.
Proof.
  intros Ht Hp Hl. unfold metadata_text, field. rewrite !zlen_app.
  assert (- 2 ^ 31 <= i32 (offset m) < 2 ^ 31) as Hi.
  { unfold i32, to_signed. pose proof (Z.mod_pos_bound (offset m) (2 ^ 32)). zcases; lia. }
  pose proof (zlen_dec_int _ Ht). pose proof (zlen_dec_int _ Hp). pose proof (zlen_dec_int _ Hi).
  assert (zlen (if primary m then ["1"%char] else ["0"%char]) = 1) as -> by (by destruct (primary m)).
  change (zlen [SERDE_MD_SEP]) with 1. lia.
Qed.

(** Every generated character comes from the table. *)
Lemma randstring_charset key length s :
  randstring key length = Ok (Some s) -> 0 <= length ->
  zlen s = length /\ Forall (fun c => c ∈ charset) s.
Proof.
  unfold randstring. destruct (Z.eqb_spec length 0); [done|]. intros [= <-] Hl. split.
  - unfold zlen. rewrite length_fmap, length_seq. lia.
  - apply Forall_fmap, Forall_forall. intros i _. simpl.
    assert (0 <= key i mod zlen charset < zlen charset) as Hk by (apply Z.mod_pos_bound; done).
    destruct (lookup_lt_is_Some_2 charset (Z.to_nat (key i mod zlen charset))) as [c Hc].
    { unfold zlen in *. lia. }
    rewrite Hc. by eapply list_elem_of_lookup_2.
Qed.

(** [genstring] leaves its string without a terminator. *)
Lemma genstring_unterminated n : 0 < n -> c_string (genstring n) = Undefined OutOfBounds.
Proof.
  intros Hn. unfold genstring. destruct (Z.eqb_spec n 0); [lia|]. simpl.
  generalize (Z.to_nat (n + 1)). intros k. induction k as [|k IH]; [done|]. simpl. by rewrite IH.
Qed.
