(* ===== verification/ShadowStore.v ===== *)
(** * ShadowStore: old/internal_component/shadow_link/io_redis.c and io_mongo.c

    Reads and writes of C strings in a Redis cluster (hiredis-vip) and in a
    MongoDB collection (libmongoc), whole or in documents of MAX_DOC_SIZE
    bytes, and the metadata records kept in them.  The two libraries are
    parameters: a class of commands each, with the laws of a service that is
    up.  Messages on the console are not modelled. *)

From S2P Require Import Prelude CText Effects ShadowLink.

(** ** The services *)

(** [redisClusterCommand]: [None] is a null reply, [Some None] a reply without
    text. *)
Class Hiredis (H : Type) := {
  hi_set : list ascii -> list ascii -> H -> option (option (list ascii)) * H;
  hi_get : list ascii -> H -> option (option (list ascii));
}.

Class HiredisLaws (H : Type) `{Hiredis H} := {
  hi_up : H -> Prop;
  hi_view : H -> gmap (list ascii) (list ascii);
  hi_set_up h k v : hi_up h ->
    exists h', hi_set k v h = (Some (Some (chars "OK")), h') /\ hi_up h' /\
               hi_view h' = <[k := v]> (hi_view h);
  hi_get_up h k : hi_up h -> hi_get k h = Some (hi_view h !! k);
}.

(** A document: its text fields in order. *)
Definition document : Type := list (list ascii * list ascii).

(** [bson_iter_find]: the first field of a name. *)
Fixpoint bson_iter_find (key : list ascii) (doc : document) : option (list ascii) :=
  match doc with
  | [] => None
  | (k, v) :: doc' => if decide (k = key) then Some v else bson_iter_find key doc'
  end.

Definition ID_FIELD : list ascii := chars "_id".

Class Mongoc (D : Type) := {
  mc_insert : document -> D -> bool * D;
  mc_find : list ascii -> D -> list document;   (* by "_id" *)
}.

(** "_id" is unique: a second insert of it fails. *)
Class MongocLaws (D : Type) `{Mongoc D} := {
  mc_up : D -> Prop;
  mc_view : D -> gmap (list ascii) document;
  mc_insert_up d id doc : mc_up d -> bson_iter_find ID_FIELD doc = Some id -> mc_view d !! id = None ->
    exists d', mc_insert doc d = (true, d') /\ mc_up d' /\ mc_view d' = <[id := doc]> (mc_view d);
  mc_insert_taken d id doc : mc_up d -> bson_iter_find ID_FIELD doc = Some id ->
    is_Some (mc_view d !! id) -> mc_insert doc d = (false, d);
  mc_find_up d id : mc_up d -> mc_find id d = option_list (mc_view d !! id);
}.

(** Reference instances. *)
#[global] Instance hiredis_ref : Hiredis (gmap (list ascii) (list ascii)) := {
  hi_set k v h := (Some (Some (chars "OK")), <[k := v]> h);
  hi_get k h := Some (h !! k);
}.

#[global] Instance hiredis_ref_laws : HiredisLaws (gmap (list ascii) (list ascii)).
Proof. refine {| hi_up := fun _ => True; hi_view := fun h => h |}; simpl; eauto. Defined.

(** Documents without an "_id" are not kept here. *)
#[global] Instance mongoc_ref : Mongoc (gmap (list ascii) document) := {
  mc_insert doc d :=
    match bson_iter_find ID_FIELD doc with
    | None => (false, d)
    | Some id => match d !! id with Some _ => (false, d) | None => (true, <[id := doc]> d) end
    end;
  mc_find id d := option_list (d !! id);
}.

#[global] Instance mongoc_ref_laws : MongocLaws (gmap (list ascii) document).
Proof.
  refine {| mc_up := fun _ => True; mc_view := fun d => d |}; simpl; try done.
  - intros d id doc _ Hid E. rewrite Hid, E. eauto.
  - intros d id doc _ Hid [x E]. by rewrite Hid, E.
Defined.

(** ** io_redis.c *)

Definition REDIS_HOST_BASE : list ascii := chars "ares-stor-".
Definition REDIS_HOST_START : Z := 1.
Definition REDIS_HOST_COUNT : nat := 4.
Definition REDIS_PORT_BASE : Z := 7000.

(** [%02d] of a number below 100. *)
Definition dec2 (n : Z) : list ascii := if n <? 10 then "0"%char :: dec n else dec n.

Definition node_name (i : nat) : list ascii :=
  REDIS_HOST_BASE ++ dec2 (REDIS_HOST_START + Z.of_nat i) ++ [":"%char] ++
  dec (REDIS_PORT_BASE + Z.of_nat i).

(** Appends to the caller's string. *)
Definition genNodeList (nodelist : list ascii) : list ascii :=
  foldl (fun l i => l ++ node_name i ++ (if (i =? REDIS_HOST_COUNT - 1)%nat then [] else [","%char]))
    nodelist (seq 0 REDIS_HOST_COUNT).

(** The C string of a line as [fgets] returns it, its last character cut off,
    and its port, in an array of 128 characters. *)
Definition host_entry (i : Z) (line : list ascii) : outcome (list ascii) :=
  let node := cstr line in
  let tmp := take (length node - 1) node ++ [":"%char] ++ dec (REDIS_PORT_BASE + i) ++ [","%char] in
  if bool_decide (node = []) then Undefined OutOfBounds
  else if zlen tmp <? 128 then Ok tmp else Undefined OutOfBounds.

(** The loop over the lines; each turn consumes a character, so the length of
    the file bounds the turns. *)
Fixpoint host_entries (fuel : nat) (i : Z) (text nodelist : list ascii) : outcome (list ascii) :=
  match fgets 128 text with
  | None => Ok nodelist
  | Some (line, text') =>
      match fuel with
      | O => Undefined NoReturn
      | S fuel => tmp ← host_entry i line; host_entries fuel (i + 1) text' (nodelist ++ tmp)
      end
  end.

(** [None] is a null name, [Some None] a file that cannot be opened. *)
Definition genNodeListFromHostfile (hostfile : option (option (list ascii))) (nodelist : list ascii)
    : outcome (list ascii) :=
  match hostfile with
  | None | Some None => Exit (-1)
  | Some (Some text) =>
      l ← host_entries (length text) 0 text nodelist;
      if bool_decide (l = []) then Undefined OutOfBounds else Ok (take (length l - 1) l)
  end.

(** [redisClusterConnect2]: [None] without a context, otherwise whether its
    error flag is clear. *)
Definition connector : Type := list ascii -> option bool.

(** The list is built in 2048 bytes, its last comma included. *)
Definition node_array (l : list ascii) : outcome (list ascii) :=
  if zlen l + 1 <? 2048 then Ok l else Undefined OutOfBounds.

Definition connect_nodes (connect : connector) (nodelist : list ascii) : Z :=
  match connect nodelist with Some false => -1 | _ => 0 end.

Definition connectToRedisServer (connect : connector) : outcome Z :=
  nodelist ← node_array (genNodeList []);
  Ok (connect_nodes connect nodelist).

Definition connectToRedisServerWithHostfile (connect : connector)
    (hostfile : option (option (list ascii))) : outcome Z :=
  l ← genNodeListFromHostfile hostfile [];
  nodelist ← node_array l;
  Ok (connect_nodes connect nodelist).

Section redis.
Context {H : Type} `{Hiredis H}.

(** [strcmp (reply->str, "OK")] needs a reply with text. *)
Definition check_reply (reply : option (option (list ascii))) : outcome unit :=
  match reply with
  | Some (Some _) => Ok ()
  | _ => Undefined NullDeref
  end.

Definition write_redis_sized (key : list ascii) (value : buffer) (length : Z) : ST H unit := fun h =>
  match mem_read value 0 length ≫= defined with
  | Ok bytes => let '(reply, h') := hi_set key bytes h in (check_reply reply, h')
  | Throw e => (Throw e, h)
  | Undefined u => (Undefined u, h)
  | Exit c => (Exit c, h)
  end.

Definition write_redis (key value : list ascii) : ST H unit :=
  write_redis_sized key (Some (Some <$> value)) (zlen value).

(** The value is printed; the caller's pointer is not changed. *)
Definition read_redis (key : list ascii) : ST H unit := fun h => (check_reply (hi_get key h), h).

Definition read_redis_sized (key : list ascii) (value : buffer) (length : Z) : ST H buffer := fun h =>
  match hi_get key h with
  | Some (Some s) => (strcpy value 0 s, h)
  | _ => (Undefined NullDeref, h)
  end.

Definition create_symbios_metadata_redis (m : symbios_metadata) : ST H unit :=
  s ← lift (serialize_metadata m);
  write_redis_sized (data_id m) (Some (Some <$> s)) (zlen s).

Definition query_symbios_metadata_by_id_redis (id : list ascii) : ST H scalars :=
  metadata_str ← read_redis_sized id (malloc 1024) 1024;
  s ← lift (c_string metadata_str);
  m ← lift (deserialize_metadata s);
  mret (scalars_of m).

End redis.

(** ** io_mongo.c *)

Definition MAX_DOC_SIZE : Z := 8 * 1024 * 1024.

Definition MONGODB_HOST : list ascii := chars "ares-comp-25-40g".
Definition MONGODB_PORT : Z := 27017.
Definition EXIT_FAILURE : Z := 1.

(** After a successful ping, [bson_destroy (insert)] reads a pointer that was
    never set; [ping] is false also when the URI or the client is refused. *)
Definition connectToMongoDBServerWithURI (ping : list ascii -> bool) (uri_string : list ascii)
    : outcome Z :=
  if ping uri_string then Undefined UninitRead else Ok EXIT_FAILURE.

Definition connectToMongoDBServerMPI (ping : list ascii -> bool) (hostname : list ascii) : outcome Z :=
  let uri_string := chars "mongodb://" ++ hostname ++ [":"%char] ++ dec MONGODB_PORT in
  if zlen uri_string <? 1024 then connectToMongoDBServerWithURI ping uri_string
  else Undefined OutOfBounds.

Definition connectToMongoDBServer (ping : list ascii -> bool) : outcome Z :=
  connectToMongoDBServerMPI ping MONGODB_HOST.

Section mongo.
Context {D : Type} `{Mongoc D}.
Context (max : Z).   (* MAX_DOC_SIZE *)

Definition sub_key (key : list ascii) (i : Z) : list ascii := key ++ ["_"%char] ++ dec i.

Definition text_doc (id bytes : list ascii) : document := [(ID_FIELD, id); (id, bytes)].

(** [char sub_key_str[1024]]. *)
Definition sub_key_str (key : list ascii) (i : Z) : outcome (list ascii) := sprintf_to 1024 (sub_key key i).

(** The name of the document, in an array of 30 characters, is made unique with
    the process number and a random number. *)
Definition write_mongo (process_id random : Z) (key : list ascii) : ST D unit := fun d =>
  let id := key ++ dec process_id ++ dec random in
  if zlen id <? 30 then
    let '(_, d') := mc_insert [(ID_FIELD, id); (key, chars "mongodb")] d in (Ok (), d')
  else (Undefined OutOfBounds, d).

(** One document; a failed insert is reported and the loop goes on. *)
Definition insert_doc (id bytes : list ascii) : ST D unit := fun d =>
  let '(_, d') := mc_insert (text_doc id bytes) d in (Ok (), d').

(** The loop over the documents of a long value; its fuel bounds their number. *)
Fixpoint write_docs (fuel : nat) (key : list ascii) (buf : buffer)
    (length count finished_length sub_length : Z) : ST D unit :=
  if finished_length <? length then
    match fuel with
    | O => undefined NoReturn
    | S fuel =>
        id ← lift (sub_key_str key count);
        bytes ← lift (mem_read buf finished_length sub_length ≫= defined);
        insert_doc id bytes;;
        let finished_length := i32 (finished_length + sub_length) in
        let sub_length := if length <? i32 (finished_length + max) then length mod max else sub_length in
        write_docs fuel key buf length (count + 1) finished_length sub_length
    end
  else mret ().

Definition write_mongo_sized (key : list ascii) (buf : buffer) (length : Z) : ST D unit :=
  if max <? length then
    write_docs (Z.to_nat (length / max + 1)) key buf length 0 0 max
  else
    bytes ← lift (mem_read buf 0 length ≫= defined);
    insert_doc key bytes.

(** [while (mongoc_cursor_next (...))]: each matching document that has the
    field is copied to the same place. *)
Definition copy_docs (key : list ascii) (buf : buffer) (off : Z) : ST D buffer := fun d =>
  (foldl (fun b doc => b' ← b;
            match bson_iter_find key doc with Some v => strcpy b' off v | None => Ok b' end)
     (Ok buf) (mc_find key d), d).

Fixpoint read_docs (n : nat) (key : list ascii) (i : Z) (buf : buffer) (off : Z) : ST D buffer :=
  match n with
  | O => mret buf
  | S n =>
      id ← lift (sub_key_str key i);
      buf' ← copy_docs id buf off;
      read_docs n key (i + 1) buf' (off + max)
  end.

(** [ceil ((double) length / MAX_DOC_SIZE)] is exact for an [int]. *)
Definition doc_count (length : Z) : Z := (length + max - 1) / max.

Definition read_mongo_sized (key : list ascii) (buf : buffer) (length : Z) : ST D buffer :=
  if max <? length then read_docs (Z.to_nat (doc_count length)) key 0 buf 0
  else copy_docs key buf 0.

Definition create_symbios_metadata_mongo (m : symbios_metadata) : ST D unit :=
  s ← lift (serialize_metadata m);
  write_mongo_sized (data_id m) (Some (Some <$> (s ++ [nul]))) (zlen s + 1).

Definition query_symbios_metadata_by_id_mongo (id : list ascii) : ST D scalars :=
  metadata_str ← read_mongo_sized id (malloc 1024) 1024;
  s ← lift (c_string metadata_str);
  m ← lift (deserialize_metadata s);
  mret (scalars_of m).

End mongo.

(** ** Metadata records in the stores *)

Lemma sub_key_inj k1 k2 i j : sub_key k1 i = sub_key k2 j -> i = j.
Proof.
  unfold sub_key. cbn [app]. intros [_ E]%last_sep_inj; [by apply dec_inj|by apply dec_notin..].
Qed.

Lemma sub_key_not_id key i : sub_key key i <> ID_FIELD.
Proof.
  unfold sub_key, ID_FIELD. intros E. apply (f_equal (fun l => last l)) in E.
  rewrite !last_app in E.
  destruct (last (dec i)) as [c|] eqn:L.
  - assert (c = "d"%char) as -> by (simpl in E; congruence).
    assert ("d"%char ∈ dec i) as Hin by (apply last_Some_elem_of in L; done).
    revert Hin. by apply dec_notin.
  - by apply last_None, dec_nonempty in L.
Qed.

Lemma metadata_text_no_nul m : meta_ok m -> nul ∉ metadata_text m.
Proof.
  intros [(_ & _ & Hid) Hsn _]. unfold metadata_text, field.
  rewrite !not_elem_of_app.
  assert (nul ∉ [SERDE_MD_SEP]) by (rewrite not_elem_of_cons, elem_of_nil; split; [done|tauto]).
  assert (nul ∉ (if primary m then ["1"%char] else ["0"%char])).
  { destruct (primary m); rewrite not_elem_of_cons, elem_of_nil; (split; [done|tauto]). }
  pose proof (dec_clean (target_stor m)) as (_ & _ & ?). pose proof (dec_clean (port m)) as (_ & _ & ?).
  pose proof (dec_clean (i32 (offset m))) as (_ & _ & ?). tauto.
Qed.

(** A short string copied into the 1024 bytes of a query. *)
Lemma strcpy_fresh (s : list ascii) :
  nul ∉ s -> zlen s < 1024 ->
  exists cs, strcpy (malloc 1024) 0 s = Ok (Some cs) /\ cells_cstr cs = Ok s.
Proof.
  intros Hs Hl. unfold strcpy, malloc. rewrite cstr_id by done. pose proof (zlen_nonneg s).
  assert (zlen (Some <$> (s ++ [nul])) = zlen s + 1) as Hz.
  { rewrite zlen_fmap, zlen_app. change (zlen [nul]) with 1. lia. }
  assert (zlen (replicate (Z.to_nat 1024) (@None ascii)) = 1024) as Hr.
  { unfold zlen. rewrite length_replicate. lia. }
  rewrite mem_write_in by lia. eexists. split; [done|]. rewrite splice_inside by lia.
  rewrite fmap_app, take_0. cbn [app]. rewrite <- app_assoc. by apply cells_cstr_app.
Qed.

Section records.
Context {H : Type} `{HiredisLaws H}.

Lemma create_redis_ok (h : H) m :
  hi_up h -> zlen (metadata_text m) < 1024 ->
  exists h', create_symbios_metadata_redis m h = (Ok (), h') /\ hi_up h' /\
    hi_view h' = <[data_id m := metadata_text m]> (hi_view h).
Proof.
  intros Hu Hl. pose proof (zlen_nonneg (metadata_text m)).
  destruct (hi_set_up h (data_id m) (metadata_text m) Hu) as (h' & E & Hu' & Hv).
  exists h'. split; [|done]. unfold create_symbios_metadata_redis, serialize_metadata. zcases; [|lia].
  erewrite st_bind_Ok by done. unfold write_redis_sized.
  rewrite mem_read_in by (rewrite ?zlen_fmap; lia). rewrite slice_fmap, slice_whole.
  unfold mbind; cbn [outcome_bind]. rewrite defined_chars. by rewrite E.
Qed.

Lemma query_redis_found (h : H) m :
  hi_up h -> meta_ok m -> zlen (metadata_text m) < 1024 ->
  hi_view h !! data_id m = Some (metadata_text m) ->
  query_symbios_metadata_by_id_redis (data_id m) h = (Ok (scalars_of (restored m)), h).
Proof.
  intros Hu Hm Hl Hv.
  destruct (strcpy_fresh (metadata_text m)) as (cs & Ec & Es); [by apply metadata_text_no_nul|done|].
  unfold query_symbios_metadata_by_id_redis.
  erewrite (st_bind_Ok _ _ _ (Some cs) h).
  2: { unfold read_redis_sized. rewrite hi_get_up, Hv by done. by rewrite Ec. }
  erewrite st_bind_Ok; [|unfold lift; simpl; by rewrite Es].
  erewrite st_bind_Ok; [done|]. unfold lift. by rewrite deserialize_text.
Qed.

(** A record written to Redis is found under its name. *)
Theorem redis_metadata_roundtrip (h : H) m :
  hi_up h -> meta_ok m -> zlen (metadata_text m) < 1024 ->
  exists h', create_symbios_metadata_redis m h = (Ok (), h') /\ hi_up h' /\
    query_symbios_metadata_by_id_redis (data_id m) h' = (Ok (scalars_of (restored m)), h').
Proof.
  intros Hu Hm Hl. destruct (create_redis_ok h m Hu Hl) as (h' & E & Hu' & Hv).
  exists h'. split; [done|]. split; [done|]. apply query_redis_found; try done.
  by rewrite Hv, lookup_insert_eq.
Qed.

End records.

Section documents.
Context {D : Type} `{MongocLaws D}.

Lemma copy_docs_found (d : D) key bytes buf off :
  mc_up d -> key <> ID_FIELD -> mc_view d !! key = Some (text_doc key bytes) ->
  copy_docs key buf off d = (strcpy buf off bytes, d).
Proof.
  intros Hu Hk Hv. unfold copy_docs. rewrite mc_find_up, Hv by done. simpl.
  by rewrite decide_False, decide_True by congruence.
Qed.

Lemma query_mongo_found (d : D) m :
  mc_up d -> meta_ok m -> zlen (metadata_text m) < 1024 ->
  data_id m <> ID_FIELD ->
  mc_view d !! data_id m = Some (text_doc (data_id m) (metadata_text m ++ [nul])) ->
  query_symbios_metadata_by_id_mongo MAX_DOC_SIZE (data_id m) d = (Ok (scalars_of (restored m)), d).
Proof.
  intros Hu Hm Hl Hk Hv. pose proof (metadata_text_no_nul m Hm) as Hn.
  destruct (strcpy_fresh (metadata_text m)) as (cs & Ec & Es); [done..|].
  unfold query_symbios_metadata_by_id_mongo, read_mongo_sized. simpl.
  erewrite (st_bind_Ok _ _ _ (Some cs) d).
  2: { rewrite (copy_docs_found d _ (metadata_text m ++ [nul])) by done. f_equal. rewrite <- Ec.
       unfold strcpy. by rewrite cstr_terminated, cstr_id. }
  erewrite st_bind_Ok; [|unfold lift; simpl; by rewrite Es].
  erewrite st_bind_Ok; [done|]. unfold lift. by rewrite deserialize_text.
Qed.

Lemma create_mongo_ok (d : D) m :
  zlen (metadata_text m) < 1024 ->
  create_symbios_metadata_mongo MAX_DOC_SIZE m d = insert_doc (data_id m) (metadata_text m ++ [nul]) d.
Proof.
  intros Hx. pose proof (zlen_nonneg (metadata_text m)).
  unfold create_symbios_metadata_mongo, serialize_metadata. zcases; [|lia].
  erewrite st_bind_Ok by done. unfold write_mongo_sized, MAX_DOC_SIZE.
  destruct (Z.ltb_spec (8 * 1024 * 1024) (zlen (metadata_text m) + 1)); [lia|].
  assert (zlen (metadata_text m ++ [nul]) = zlen (metadata_text m) + 1) as <- by (rewrite zlen_app; done).
  pose proof (zlen_nonneg (metadata_text m ++ [nul])).
  erewrite st_bind_Ok; [done|]. unfold lift. rewrite mem_read_in by (rewrite ?zlen_fmap; lia).
  rewrite slice_fmap, slice_whole. unfold mbind; cbn [outcome_bind]. by rewrite defined_chars.
Qed.

(** The first record of a name is found; a second one of the same name is
    rejected without an error, and the first stays. *)
Theorem mongo_metadata_roundtrip (d : D) m m2 :
  mc_up d -> meta_ok m -> zlen (metadata_text m) < 1024 ->
  zlen (metadata_text m2) < 1024 -> data_id m2 = data_id m -> data_id m <> ID_FIELD ->
  mc_view d !! data_id m = None ->
  exists d', create_symbios_metadata_mongo MAX_DOC_SIZE m d = (Ok (), d') /\
    query_symbios_metadata_by_id_mongo MAX_DOC_SIZE (data_id m) d' = (Ok (scalars_of (restored m)), d') /\
    create_symbios_metadata_mongo MAX_DOC_SIZE m2 d' = (Ok (), d').
Proof.
  intros Hu Hm Hl Hl2 Hid Hkey Hfree.
  destruct (mc_insert_up d (data_id m) (text_doc (data_id m) (metadata_text m ++ [nul])) Hu eq_refl Hfree) as (d' & E & Hu' & Hv').
  exists d'. split; [|split].
  - rewrite create_mongo_ok by done. unfold insert_doc. by rewrite E.
  - apply query_mongo_found; try done. by rewrite Hv', lookup_insert_eq.
  - rewrite create_mongo_ok by done. unfold insert_doc. rewrite Hid.
    rewrite (mc_insert_taken _ (data_id m)); [done|done|done|]. rewrite Hv', lookup_insert_eq. eauto.
Qed.

(** *** Long values *)

Section chunks.
Context (max : Z) (Hmax : 0 < max < 2 ^ 30).


(** The [i]-th document of [bytes]. *)
Definition doc_bytes (bytes : list ascii) (i : Z) : list ascii :=
  slice (i * max) (Z.min max (zlen bytes - i * max)) bytes.

(** The keys of all documents fit their array. *)
Definition sub_keys_fit (key bytes : list ascii) : Prop :=
  forall i, 0 <= i -> i * max < zlen bytes -> zlen (sub_key key i) < 1024.

Lemma write_docs_ok fuel (d : D) key bytes count :
  let len := zlen bytes in
  sub_keys_fit key bytes -> mc_up d -> 0 <= count -> len + max < 2 ^ 31 -> len <= (count + Z.of_nat fuel) * max ->
  (forall i, count <= i -> mc_view d !! sub_key key i = None) ->
  let sub := if len <? count * max + max then len mod max else max in
  exists d', write_docs max fuel key (Some (Some <$> bytes)) len count (Z.min len (count * max)) sub d = (Ok (), d') /\
    mc_up d' /\
    (forall i, count <= i -> i * max < len -> mc_view d' !! sub_key key i = Some (text_doc (sub_key key i) (doc_bytes bytes i))) /\
    (forall k, (forall i, count <= i -> k <> sub_key key i) -> mc_view d' !! k = mc_view d !! k).
Proof.
  cbv zeta. revert d count. set (len := zlen bytes). pose proof (zlen_nonneg bytes).
  induction fuel as [|fuel IH]; intros d count Hfit Hu Hc Hlen Hf Hfree; cbn [write_docs].
  - rewrite Z.min_l by lia. rewrite Z.ltb_irrefl. exists d. split; [done|]. split; [done|].
    split; [|done]. intros i Hi Hi'. nia.
  - destruct (Z.ltb_spec (Z.min len (count * max)) len) as [Hlt|Hge].
    2: { exists d. split; [done|]. split; [done|]. split; [|done]. intros i Hi Hi'. nia. }
    rewrite Z.min_r by lia.
    assert ((if len <? count * max + max then len mod max else max) = Z.min max (len - count * max)) as ->.
    { destruct (Z.ltb_spec len (count * max + max)).
      - symmetry. rewrite Z.min_r by lia. apply (Z.mod_unique_pos _ _ count); lia.
      - lia. }
    set (sub := Z.min max (len - count * max)).
    erewrite st_bind_Ok by (unfold lift, sub_key_str; by rewrite sprintf_to_fits by (apply Hfit; lia)).
    erewrite st_bind_Ok.
    2: { unfold lift. rewrite mem_read_in by (rewrite ?zlen_fmap; fold len; lia). rewrite slice_fmap.
         unfold mbind; cbn [outcome_bind]. by rewrite defined_chars. }
    change (slice (count * max) sub bytes) with (doc_bytes bytes count).
    destruct (mc_insert_up d (sub_key key count) (text_doc (sub_key key count) (doc_bytes bytes count)) Hu eq_refl) as (d1 & E1 & U1 & V1).
    { apply Hfree. lia. }
    erewrite st_bind_Ok; [|unfold insert_doc; by rewrite E1].
    destruct (IH d1 (count + 1)) as (d' & E & U & G1 & G2); try done; try lia.
    { intros i Hi. rewrite V1, lookup_insert_ne; [apply Hfree; lia|]. intros Hk%sub_key_inj. lia. }
    exists d'. split; [|split; [done|split]].
    + rewrite <- E. rewrite (i32_small (count * max + sub)) by lia.
      assert (count * max + sub = Z.min len ((count + 1) * max)) as -> by lia.
      rewrite i32_small by lia. f_equal.
      destruct (Z.ltb_spec len (Z.min len ((count + 1) * max) + max));
        destruct (Z.ltb_spec len ((count + 1) * max + max)); lia.
    + intros i Hi Hi'. destruct (decide (i = count)) as [->|Hne].
      * rewrite G2; [by rewrite V1, lookup_insert_eq|]. intros j Hj Hk%sub_key_inj. lia.
      * apply G1; lia.
    + intros k Hk. rewrite G2; [|intros i Hi; apply Hk; lia].
      rewrite V1, lookup_insert_ne; [done|]. intros <-. by apply (Hk count).
Qed.

(** A copied document sits behind what was copied before. *)
Lemma strcpy_at cs off s :
  nul ∉ s -> 0 <= off -> off + zlen s + 1 <= zlen cs ->
  exists cs', strcpy (Some cs) off s = Ok (Some cs') /\ zlen cs' = zlen cs /\
    slice 0 (off + zlen s + 1) cs' = slice 0 off cs ++ (Some <$> (s ++ [nul])).
Proof.
  intros Hs Ho Hl. unfold strcpy. rewrite cstr_id by done. pose proof (zlen_nonneg s).
  assert (zlen (Some <$> (s ++ [nul])) = zlen s + 1) as Hz.
  { rewrite zlen_fmap, zlen_app. change (zlen [nul]) with 1. lia. }
  rewrite mem_write_in by lia. eexists. split; [done|]. split; [rewrite zlen_splice; lia|].
  rewrite splice_inside by lia. rewrite app_assoc.
  assert (slice 0 off cs = take (Z.to_nat off) cs) as -> by done.
  apply slice_0_app. rewrite zlen_app, Hz. unfold zlen in *. rewrite length_take. lia.
Qed.

Lemma read_docs_ok n (d : D) key bytes i cs :
  sub_keys_fit key bytes -> mc_up d -> nul ∉ bytes -> 0 <= i -> zlen bytes + 1 <= zlen cs ->
  (i + Z.of_nat n - 1) * max < zlen bytes <= (i + Z.of_nat n) * max -> (0 < n)%nat ->
  (forall j, i <= j -> j * max < zlen bytes -> mc_view d !! sub_key key j = Some (text_doc (sub_key key j) (doc_bytes bytes j))) ->
  slice 0 (i * max) cs = Some <$> slice 0 (i * max) bytes ->
  exists cs', read_docs max n key i (Some cs) (i * max) d = (Ok (Some cs'), d) /\
    slice 0 (zlen bytes + 1) cs' = Some <$> (bytes ++ [nul]).
Proof.
  revert i cs. induction n as [|n IH]; intros i cs Hfit Hu Hn Hi Hl Hb Hpos Hv Hpre; [lia|].
  assert (i * max < zlen bytes) as Hlt by nia.
  assert (zlen (doc_bytes bytes i) = Z.min max (zlen bytes - i * max)) as Hz.
  { unfold doc_bytes. apply zlen_slice; lia. }
  assert (nul ∉ doc_bytes bytes i) as Hnd.
  { unfold doc_bytes, slice. intros [k Hk]%list_elem_of_lookup_1.
    apply lookup_take_Some in Hk as [Hk _]. rewrite lookup_drop in Hk.
    by apply Hn, (list_elem_of_lookup_2 _ _ _ Hk). }
  destruct (strcpy_at cs (i * max) (doc_bytes bytes i)) as (cs1 & E1 & Z1 & S1); [done|lia|lia|].
  cbn [read_docs].
  erewrite st_bind_Ok by (unfold lift, sub_key_str; by rewrite sprintf_to_fits by (apply Hfit; lia)).
  erewrite st_bind_Ok.
  2: { rewrite (copy_docs_found d _ (doc_bytes bytes i)) by (done || apply sub_key_not_id || (apply Hv; lia)). by rewrite E1. }
  assert (slice 0 (i * max) bytes ++ doc_bytes bytes i = slice 0 (i * max + zlen (doc_bytes bytes i)) bytes) as Hcat.
  { rewrite Hz. unfold doc_bytes, slice. rewrite !drop_0.
    rewrite Z2Nat.inj_add by lia. apply take_take_drop. }
  rewrite Hpre in S1. destruct n as [|n].
  - assert (zlen (doc_bytes bytes i) = zlen bytes - i * max) as Hz' by lia.
    exists cs1. split; [done|].
    replace (zlen bytes + 1) with (i * max + zlen (doc_bytes bytes i) + 1) by lia. rewrite S1.
    rewrite !fmap_app, app_assoc, <- fmap_app, Hcat.
    replace (i * max + zlen (doc_bytes bytes i)) with (zlen bytes) by lia. by rewrite slice_whole.
  - assert (zlen (doc_bytes bytes i) = max) as Hz' by nia.
    replace (i * max + max) with ((i + 1) * max) by lia.
    apply IH; try done; try lia.
    + intros j Hj. apply Hv. lia.
    + rewrite Hz' in S1, Hcat. replace ((i + 1) * max) with (i * max + max) by lia.
      assert (slice 0 (i * max + max) cs1 = take (Z.to_nat (i * max + max)) (slice 0 (i * max + max + 1) cs1)) as ->.
      { unfold slice. rewrite take_take. f_equal. lia. }
      rewrite S1, fmap_app, app_assoc, <- fmap_app, Hcat.
      rewrite take_app_le; [apply take_ge|]; rewrite length_fmap;
        pose proof (zlen_slice 0 (i * max + max) bytes ltac:(lia) ltac:(lia) ltac:(lia)) as Hzz;
        unfold zlen in Hzz; lia.
Qed.

(** C35: A value longer than a document comes back whole and terminated, where no
    document is stored under the keys of its parts, those keys fit their array of
    1024 characters, the value has no null byte and is shorter than 2^31 by a
    document, and the caller's buffer has room for it. *)
Theorem mongo_long_roundtrip (d : D) key bytes cs :
  mc_up d -> nul ∉ bytes -> max < zlen bytes -> zlen bytes + max < 2 ^ 31 -> zlen bytes < zlen cs ->
  zlen (sub_key key ((zlen bytes - 1) / max)) < 1024 ->
  (forall i, 0 <= i -> mc_view d !! sub_key key i = None) ->
  exists d' cs',
    write_mongo_sized max key (Some (Some <$> bytes)) (zlen bytes) d = (Ok (), d') /\
    read_mongo_sized max key (Some cs) (zlen bytes) d' = (Ok (Some cs'), d') /\
    slice 0 (zlen bytes + 1) cs' = Some <$> (bytes ++ [nul]).
Proof.
  intros Hu Hn Hlong Hmach Hroom Hkey Hfree.
  assert (sub_keys_fit key bytes) as Hfit.
  { intros i Hi Hlt. revert Hkey. unfold sub_key. rewrite !zlen_app.
    enough (zlen (dec i) <= zlen (dec ((zlen bytes - 1) / max))) by lia.
    apply zlen_dec_mono. split; [done|]. apply Z.div_le_lower_bound; lia. }
  pose proof (Z.div_mod (zlen bytes) max ltac:(lia)).
  pose proof (Z.mod_pos_bound (zlen bytes) max ltac:(lia)).
  pose proof (Z.div_pos (zlen bytes) max ltac:(lia) ltac:(lia)).
  destruct (write_docs_ok (Z.to_nat (zlen bytes / max + 1)) d key bytes 0) as (d' & E & U & G & _);
    try done; try nia.
  revert E. destruct (Z.ltb_spec (zlen bytes) (0 * max + max)); [lia|]. rewrite Z.min_r by lia.
  intros E. set (n := doc_count max (zlen bytes)).
  assert ((n - 1) * max < zlen bytes <= n * max /\ 0 < n) as [Hn1 Hn2].
  { unfold n, doc_count. pose proof (Z.div_mod (zlen bytes + max - 1) max ltac:(lia)).
    pose proof (Z.mod_pos_bound (zlen bytes + max - 1) max ltac:(lia)). nia. }
  destruct (read_docs_ok (Z.to_nat n) d' key bytes 0 cs) as (cs' & R & S); try done; try lia.
  exists d', cs'. unfold write_mongo_sized, read_mongo_sized.
  destruct (Z.ltb_spec max (zlen bytes)); [|lia]. done.
Qed.

End chunks.

End documents.

(** ** The node list of a host file *)

Definition host_line (h : list ascii) : list ascii := h ++ [newline].

Definition node_at (i : Z) (h : list ascii) : list ascii := h ++ [":"%char] ++ dec (REDIS_PORT_BASE + i).

(** What the cluster client expects: "host:port" joined with commas. *)
Fixpoint join_nodes (i : Z) (hosts : list (list ascii)) : list ascii :=
  match hosts with
  | [] => []
  | [h] => node_at i h
  | h :: hosts' => node_at i h ++ [","%char] ++ join_nodes (i + 1) hosts'
  end.

Definition host_ok (h : list ascii) : Prop := (newline ∉ h) /\ (nul ∉ h) /\ zlen h <= 64.

Lemma host_entry_ok i h : host_ok h -> 0 <= i < 2 ^ 31 - REDIS_PORT_BASE ->
  host_entry i (host_line h) = Ok (node_at i h ++ [","%char]).
Proof.
  intros (Hn & H0 & Hl) Hi. unfold host_entry, host_line.
  rewrite cstr_id by (rewrite not_elem_of_app, not_elem_of_cons, elem_of_nil; split; [done|];
                      split; [done|tauto]).
  rewrite bool_decide_eq_false_2 by (by destruct h).
  rewrite length_app, Nat.add_sub, take_app_length.
  assert (zlen (dec (REDIS_PORT_BASE + i)) <= 34) as D by (apply zlen_dec_int; unfold REDIS_PORT_BASE in *; lia).
  rewrite !zlen_app. change (zlen [":"%char]) with 1. change (zlen [","%char]) with 1.
  destruct (Z.ltb_spec (zlen h + (1 + (zlen (dec (REDIS_PORT_BASE + i)) + 1))) 128); [|lia].
  unfold node_at. by rewrite <- !app_assoc.
Qed.

Lemma host_entries_ok hosts fuel i acc :
  hosts <> [] -> Forall host_ok hosts -> 0 <= i -> i + zlen hosts < 2 ^ 31 - REDIS_PORT_BASE ->
  (length hosts <= fuel)%nat ->
  host_entries fuel i (concat (host_line <$> hosts)) acc = Ok (acc ++ join_nodes i hosts ++ [","%char]).
Proof.
  revert fuel i acc. induction hosts as [|h hosts IH]; intros fuel i acc Hne Hall Hi Hlen Hf; [done|].
  destruct fuel as [|fuel]; [simpl in Hf; lia|]. apply Forall_cons in Hall as [Hh Hall].
  rewrite zlen_cons in Hlen. pose proof (zlen_nonneg hosts).
  rewrite fmap_cons. cbn [concat host_entries]. change (host_line h) with (h ++ [newline]) at 1.
  rewrite <- app_assoc. cbn [app]. pose proof Hh as (Hn & _ & Hl). unfold zlen in Hl.
  rewrite fgets_line by (done || lia). fold (host_line h). rewrite host_entry_ok by (done || lia).
  unfold mbind; cbn [outcome_bind].
  destruct hosts as [|h2 hosts].
  - cbn [fmap list_fmap concat join_nodes]. by destruct fuel.
  - rewrite IH by (done || lia || (simpl in *; lia)). cbn [join_nodes].
    by rewrite <- !app_assoc.
Qed.

Lemma concat_lines_length hosts : (length hosts <= length (concat (host_line <$> hosts)))%nat.
Proof.
  induction hosts as [|h hosts IH]; [done|]. cbn [fmap list_fmap concat]. unfold host_line at 1.
  rewrite !length_app. simpl in *. lia.
Qed.

(** A host file whose lines all end in a newline gives the nodes in order, each
    with the next port. *)
Theorem hostfile_nodes hosts :
  hosts <> [] -> Forall host_ok hosts -> zlen hosts < 2 ^ 31 - REDIS_PORT_BASE ->
  genNodeListFromHostfile (Some (Some (concat (host_line <$> hosts)))) [] = Ok (join_nodes 0 hosts).
Proof.
  intros Hne Hall Hl. unfold genNodeListFromHostfile.
  rewrite host_entries_ok by (done || lia || apply concat_lines_length).
  unfold mbind; cbn [outcome_bind app].
  rewrite bool_decide_eq_false_2 by (by destruct (join_nodes 0 hosts)).
  by rewrite length_app, Nat.add_sub, take_app_length.
Qed.

(** A last line without a newline loses its last character. *)
Theorem hostfile_unterminated h :
  host_ok h -> h <> [] ->
  genNodeListFromHostfile (Some (Some h)) [] = Ok (node_at 0 (take (length h - 1) h)).
Proof.
  intros (Hn & H0 & Hl) Hne. unfold genNodeListFromHostfile.
  destruct h as [|c h]; [done|]. cbn [host_entries length].
  change (fgets 128 (c :: h)) with (Some (read_line 127 (c :: h))).
  rewrite read_line_end by (try done; unfold zlen in Hl; lia).
  assert (zlen (take (length h) (c :: h)) <= 64) as Ht by (unfold zlen in *; rewrite length_take; lia).
  assert (host_entry 0 (c :: h) = Ok (node_at 0 (take (length h) (c :: h)) ++ [","%char])) as ->.
  { unfold host_entry. rewrite cstr_id by done. rewrite bool_decide_eq_false_2 by done.
    cbn [length]. rewrite Nat.sub_succ, Nat.sub_0_r, !zlen_app.
    change (zlen (dec (REDIS_PORT_BASE + 0))) with 4. change (zlen [":"%char]) with 1.
    change (zlen [","%char]) with 1.
    destruct (Z.ltb_spec (zlen (take (length h) (c :: h)) + (1 + (4 + 1))) 128); [|lia].
    unfold node_at. by rewrite <- !app_assoc. }
  unfold mbind; cbn [outcome_bind].
  assert (forall f l, host_entries f 1 [] l = Ok l) as -> by (by intros []). cbn [outcome_bind app].
  rewrite bool_decide_eq_false_2 by (by destruct (node_at 0 _)).
  rewrite length_app, Nat.add_sub, take_app_length, Nat.sub_succ, Nat.sub_0_r. done.
Qed.
