(* ===== verification/LinkBench.v ===== *)
(** * LinkBench: the metadata benchmarks of old/internal_component/shadow_link

    test_link_redis.c and test_link_mongo.c: each rank creates, or queries,
    [count] metadata records whose names come from [rand ()].  The two programs
    differ in the store they call, so the loops are written against an
    interface of two operations, which io_redis.c and io_mongo.c implement.
    Time measurement, MPI barriers and console output are not modelled. *)

From S2P Require Import Prelude CText Effects ShadowLink ShadowStore.

(** ** The interface of a metadata store *)

Class MetaStore (S : Type) := {
  create_md : symbios_metadata -> ST S unit;
  query_md : list ascii -> ST S scalars;
}.

(** A record a store can return: it fits the text buffers, and its name is not
    the field MongoDB keeps for itself. *)
Record storable (m : symbios_metadata) : Prop := {
  st_ok : meta_ok m;
  st_fits : zlen (metadata_text m) < 1024;
  st_name : data_id m <> ID_FIELD;
}.

Class MetaStoreLaws (S : Type) `{MetaStore S} := {
  ms_up : S -> Prop;
  ms_has : S -> list ascii -> symbios_metadata -> Prop;
  ms_free : S -> list ascii -> Prop;
  ms_create s m : ms_up s -> storable m -> ms_free s (data_id m) ->
    exists s', create_md m s = (Ok (), s') /\ ms_up s' /\ ms_has s' (data_id m) m /\
      forall id, id <> data_id m ->
        (forall x, ms_has s id x -> ms_has s' id x) /\ (ms_free s id -> ms_free s' id);
  ms_query s id m : ms_up s -> ms_has s id m -> query_md id s = (Ok (scalars_of (restored m)), s);
}.

(** *** Redis *)

Definition redis_meta {H} `{Hiredis H} : MetaStore H := {|
  create_md := create_symbios_metadata_redis;
  query_md := query_symbios_metadata_by_id_redis;
|}.

Definition redis_meta_laws {H} `{HiredisLaws H} : @MetaStoreLaws H redis_meta.
Proof.
  unshelve refine {|
    ms_up := hi_up : H -> Prop;
    ms_has h id m := id = data_id m /\ storable m /\ hi_view h !! id = Some (metadata_text m);
    ms_free h id := hi_view h !! id = None |}.
  - intros h m Hu [Hm Hl Hn] _. destruct (create_redis_ok h m Hu Hl) as (h' & E & Hu' & Hv).
    exists h'. split; [done|]. split; [done|]. split.
    + rewrite Hv, lookup_insert_eq. done.
    + intros id Hid. rewrite Hv, lookup_insert_ne by done. done.
  - intros h id m Hu (-> & [Hm Hl Hn] & Hv). by apply query_redis_found.
Defined.

(** *** MongoDB *)

Definition mongo_meta {D} `{Mongoc D} : MetaStore D := {|
  create_md := create_symbios_metadata_mongo MAX_DOC_SIZE;
  query_md := query_symbios_metadata_by_id_mongo MAX_DOC_SIZE;
|}.

Definition mongo_meta_laws {D} `{MongocLaws D} : @MetaStoreLaws D mongo_meta.
Proof.
  unshelve refine {|
    ms_up := mc_up : D -> Prop;
    ms_has d id m := id = data_id m /\ storable m /\
      mc_view d !! id = Some (text_doc id (metadata_text m ++ [nul]));
    ms_free d id := mc_view d !! id = None |}.
  - intros d m Hu Hst Hf.
    destruct (mc_insert_up d (data_id m) (text_doc (data_id m) (metadata_text m ++ [nul])) Hu eq_refl Hf)
      as (d' & E & Hu' & Hv').
    exists d'. split; [|split; [done|split]].
    + cbn [create_md mongo_meta]. rewrite create_mongo_ok by apply Hst. unfold insert_doc. by rewrite E.
    + by rewrite Hv', lookup_insert_eq.
    + intros id Hid. rewrite Hv', lookup_insert_ne by done. done.
  - intros d id m Hu (-> & [Hm Hl Hn] & Hv). by apply query_mongo_found.
Defined.

(** ** The programs *)

(** [redis_hosts] has no default: [None] is the uninitialised pointer. *)
Record arguments := mkArguments {
  count : Z;
  a_primary : bool;
  a_shadow : bool;
  a_target : option (list ascii);
  io_mode : Z;
  redis_hosts : option (option (list ascii));
}.

Definition default_arguments : arguments := mkArguments (-1) false false None (-1) None.

(** The exit status of [argp_usage]. *)
Definition EX_USAGE : Z := 64.

(** One option; [None] is ARGP_ERR_UNKNOWN. *)
Definition parse_opt_redis (key : ascii) (arg : list ascii) (a : arguments) : outcome (option arguments) :=
  if decide (key = "c"%char) then
    Ok (Some (mkArguments (atoi arg) (a_primary a) (a_shadow a) (a_target a) (io_mode a) (redis_hosts a)))
  else if decide (key = "p"%char) then
    if a_shadow a then Exit EX_USAGE
    else Ok (Some (mkArguments (count a) true (a_shadow a) (a_target a) (io_mode a) (redis_hosts a)))
  else if decide (key = "s"%char) then
    if a_primary a then Exit EX_USAGE
    else Ok (Some (mkArguments (count a) (a_primary a) true (a_target a) (io_mode a) (redis_hosts a)))
  else if decide (key = "t"%char) then
    Ok (Some (mkArguments (count a) (a_primary a) (a_shadow a) (Some arg) (io_mode a) (redis_hosts a)))
  else if decide (key = "m"%char) then
    Ok (Some (mkArguments (count a) (a_primary a) (a_shadow a) (a_target a) (atoi arg) (redis_hosts a)))
  else if decide (key = "r"%char) then
    Ok (Some (mkArguments (count a) (a_primary a) (a_shadow a) (a_target a) (io_mode a) (Some (Some arg))))
  else Ok None.

(** The same options without 'r'. *)
Definition parse_opt_mongo (key : ascii) (arg : list ascii) (a : arguments) : outcome (option arguments) :=
  if decide (key = "r"%char) then Ok None else parse_opt_redis key arg a.

(** The options [argp_parse] finds, in order; an unknown one is a usage error. *)
Definition parse_args (parse_opt : ascii -> list ascii -> arguments -> outcome (option arguments))
    (opts : list (ascii * list ascii)) : outcome arguments :=
  foldl (fun a o => a' ← a; r ← parse_opt o.1 o.2 a';
           match r with Some a'' => Ok a'' | None => Exit EX_USAGE end)
    (Ok default_arguments) opts.

(** [sprintf (key, "%s_%d_%d_%d", key_base, rank, rand (), i)]. *)
Definition test_key (key_base : list ascii) (rank random i : Z) : list ascii :=
  key_base ++ ["_"%char] ++ dec rank ++ ["_"%char] ++ dec random ++ ["_"%char] ++ dec i.

Definition test_metadata (conf : arguments) (key : list ascii) : symbios_metadata :=
  if a_primary conf then mkMeta true key UNKNOWN None (-1) (2 ^ 64 - 1)
  else mkMeta false key PFS1 (Some (chars "ares-stor-15")) 3334 (u64 (count conf * 16384)).

(** The offset of a record that is not primary is a product of [int]s. *)
Definition test_record (conf : arguments) (key : list ascii) : outcome symbios_metadata :=
  if a_primary conf || ((- 2 ^ 31 <=? count conf * 16384) && (count conf * 16384 <? 2 ^ 31))
  then Ok (test_metadata conf key) else Undefined SignedOverflow.

(** The key of the [i]-th record, in an array of 1024 characters. *)
Definition test_key_str (key_base : list ascii) (rank random i : Z) : outcome (list ascii) :=
  sprintf_to 1024 (test_key key_base rank random i).

Section bench.
Context {S : Type} `{MetaStore S}.
Context (rank : Z) (rand : nat -> Z).   (* [rand i] is the [i]-th number after [srand] *)

Fixpoint write_loop (conf : arguments) (key_base : list ascii) (i n : nat) : ST S unit :=
  match n with
  | O => mret ()
  | Datatypes.S n =>
      key ← lift (test_key_str key_base rank (rand i) (Z.of_nat i));
      m ← lift (test_record conf key);
      create_md m;;
      write_loop conf key_base (Datatypes.S i) n
  end.

Definition write_test (conf : arguments) (key_base : list ascii) : ST S unit :=
  write_loop conf key_base 0 (Z.to_nat (count conf)).

Fixpoint read_loop (key_base : list ascii) (i n : nat) : ST S unit :=
  match n with
  | O => mret ()
  | Datatypes.S n =>
      key ← lift (test_key_str key_base rank (rand i) (Z.of_nat i));
      _ ← query_md key;
      read_loop key_base (Datatypes.S i) n
  end.

Definition read_test (conf : arguments) (key_base : list ascii) : ST S unit :=
  read_loop key_base 0 (Z.to_nat (count conf)).

Definition do_test (conf : arguments) (key_base : list ascii) : ST S unit :=
  if io_mode conf =? 0 then write_test conf key_base
  else if io_mode conf =? 1 then read_test conf key_base
  else mret ().

End bench.

Definition KEY_BASE_STR : list ascii := chars "test".

(** [srand]. *)
Definition test_seed (rank count : Z) : Z := i32 (rank + count + rank * count).

Section redis_program.
Context {H : Type} `{Hiredis H}.

Definition write_test_redis := @write_test H redis_meta.
Definition read_test_redis := @read_test H redis_meta.
Definition do_test_redis := @do_test H redis_meta.

(** The result of the connection is not looked at. *)
Definition main_redis (files : list ascii -> option (list ascii)) (connect : connector)
    (random : Z -> nat -> Z) (rank : Z) (opts : list (ascii * list ascii)) : ST H unit :=
  conf ← lift (parse_args parse_opt_redis opts);
  match redis_hosts conf with
  | None => undefined UninitRead
  | Some hosts =>
      _ ← lift (connectToRedisServerWithHostfile connect (files <$> hosts));
      do_test_redis rank (random (test_seed rank (count conf))) conf KEY_BASE_STR
  end.

End redis_program.

Section mongo_program.
Context {D : Type} `{Mongoc D}.

Definition write_test_mongo := @write_test D mongo_meta.
Definition read_test_mongo := @read_test D mongo_meta.
Definition do_test_mongo := @do_test D mongo_meta.

Definition main_mongo (ping : list ascii -> bool) (hostname : list ascii)
    (random : Z -> nat -> Z) (rank : Z) (opts : list (ascii * list ascii)) : ST D unit :=
  conf ← lift (parse_args parse_opt_mongo opts);
  _ ← lift (connectToMongoDBServerMPI ping hostname);
  do_test_mongo rank (random (test_seed rank (count conf))) conf KEY_BASE_STR.

End mongo_program.

(** ** Written records are read back *)

Lemma test_key_sub base rank r i :
  test_key base rank r i = sub_key (base ++ ["_"%char] ++ dec rank ++ ["_"%char] ++ dec r) i.
Proof. unfold test_key, sub_key. by rewrite <- !app_assoc. Qed.

Lemma test_key_inj base rank r1 r2 i j : test_key base rank r1 i = test_key base rank r2 j -> i = j.
Proof. rewrite !test_key_sub. apply sub_key_inj. Qed.

Lemma test_key_clean base rank r i : clean base -> clean (test_key base rank r i).
Proof.
  intros (Hne & Hd & Hn). unfold test_key. split; [by destruct base|].
  pose proof (dec_clean rank) as (_ & ? & ?). pose proof (dec_clean r) as (_ & ? & ?).
  pose proof (dec_clean i) as (_ & ? & ?).
  split; rewrite !not_elem_of_app, !list_elem_of_singleton; repeat split; done.
Qed.

(** A test record fits and can be stored: fewer than 2^17 operations keep the
    offset an [int]. *)
Lemma zlen_test_key base rank r i :
  zlen base <= 600 -> - 2 ^ 31 <= rank < 2 ^ 31 -> - 2 ^ 31 <= r < 2 ^ 31 -> - 2 ^ 31 <= i < 2 ^ 31 ->
  zlen (test_key base rank r i) <= 710.
Proof.
  intros Hl Hrank Hr Hi. pose proof (zlen_dec_int _ Hrank). pose proof (zlen_dec_int _ Hr).
  pose proof (zlen_dec_int _ Hi). unfold test_key. rewrite !zlen_app. change (zlen ["_"%char]) with 1. lia.
Qed.

Lemma test_metadata_storable conf base rank r i :
  clean base -> zlen base <= 600 -> 0 <= count conf < 2 ^ 17 ->
  - 2 ^ 31 <= rank < 2 ^ 31 -> - 2 ^ 31 <= r < 2 ^ 31 -> - 2 ^ 31 <= i < 2 ^ 31 ->
  storable (test_metadata conf (test_key base rank r i)).
Proof.
  intros Hb Hl Hc Hrank Hr Hi. pose proof (test_key_clean base rank r i Hb) as Hk.
  pose proof (zlen_test_key base rank r i Hl Hrank Hr Hi) as Hz.
  assert (test_key base rank r i <> ID_FIELD) as Hid by (rewrite test_key_sub; apply sub_key_not_id).
  unfold test_metadata. rewrite u64_small by lia.
  split; destruct (a_primary conf); try done.
  - split; [done|apply not_elem_of_nil|done].
  - split; [done|simpl; notin|]. intros _. split; simpl; unfold PFS1; try lia.
    exists (chars "ares-stor-15"). split; [done|]. split; [done|]. split; notin.
  - apply metadata_text_length; cbn [target_stor port data_id server default from_option id]; unfold UNKNOWN; try lia; rewrite zlen_nil; lia.
  - apply metadata_text_length; cbn [target_stor port data_id server default from_option id]; unfold PFS1; try lia. change (zlen (chars "ares-stor-15")) with 12. lia.
Qed.

Section bench_proofs.
Context {S : Type} `{MetaStoreLaws S}.
Context (rank : Z) (rand : nat -> Z) (conf : arguments) (base : list ascii).
Context (Hrank : - 2 ^ 31 <= rank < 2 ^ 31) (Hrand : forall i, 0 <= rand i < 2 ^ 31).
Context (Hbase : clean base) (Hshort : zlen base <= 600) (Hcount : 0 <= count conf < 2 ^ 17).

Abbreviation key i := (test_key base rank (rand i) (Z.of_nat i)).

Lemma key_storable i : Z.of_nat i < 2 ^ 31 -> storable (test_metadata conf (key i)).
Proof. intros Hi. specialize (Hrand i). apply test_metadata_storable; try done; lia. Qed.

Lemma test_key_fits i : Z.of_nat i < 2 ^ 31 -> test_key_str base rank (rand i) (Z.of_nat i) = Ok (key i).
Proof.
  intros Hi. specialize (Hrand i). apply sprintf_to_fits.
  pose proof (zlen_test_key base rank (rand i) (Z.of_nat i)). lia.
Qed.

Lemma test_record_ok k : test_record conf k = Ok (test_metadata conf k).
Proof.
  unfold test_record. destruct (Z.leb_spec (- 2 ^ 31) (count conf * 16384)); [|lia].
  destruct (Z.ltb_spec (count conf * 16384) (2 ^ 31)); [|lia]. by rewrite orb_true_r.
Qed.

Lemma test_metadata_id k : data_id (test_metadata conf k) = k.
Proof. unfold test_metadata. by destruct (a_primary conf). Qed.

Lemma write_loop_ok n i s :
  Z.of_nat (i + n) < 2 ^ 31 -> ms_up s -> (forall j, (i <= j)%nat -> ms_free s (key j)) ->
  exists s', write_loop rank rand conf base i n s = (Ok (), s') /\ ms_up s' /\
    (forall j, (i <= j < i + n)%nat -> ms_has s' (key j) (test_metadata conf (key j))) /\
    (forall j x, (j < i)%nat -> ms_has s (key j) x -> ms_has s' (key j) x).
Proof.
  revert i s. induction n as [|n IH]; intros i s Hi Hu Hf; cbn [write_loop].
  { exists s. split; [done|]. split; [done|]. split; [intros; lia|done]. }
  destruct (ms_create s (test_metadata conf (key i)) Hu) as (s1 & E & U & Hhas & Hframe);
    rewrite ?test_metadata_id in *; [apply key_storable; lia|apply Hf; lia|].
  assert (forall j, j <> i -> key j <> key i) as Hne by (intros j Hj ?%test_key_inj; lia).
  destruct (IH (Datatypes.S i) s1) as (s' & E' & U' & G & G'); [lia|done| |].
  { intros j Hj. apply Hframe; [apply Hne; lia|apply Hf; lia]. }
  exists s'. unfold lift. rewrite test_key_fits by lia. erewrite st_bind_Ok by done.
  rewrite test_record_ok. erewrite !st_bind_Ok by done. split; [done|]. split; [done|]. split.
  - intros j Hj. destruct (decide (j = i)) as [->|]; [apply G'; [lia|done]|apply G; lia].
  - intros j x Hj Hx. apply G'; [lia|]. apply Hframe; [apply Hne; lia|done].
Qed.

Lemma read_loop_ok n i s :
  Z.of_nat (i + n) < 2 ^ 31 -> ms_up s -> (forall j, (i <= j < i + n)%nat -> ms_has s (key j) (test_metadata conf (key j))) ->
  read_loop rank rand base i n s = (Ok (), s).
Proof.
  revert i. induction n as [|n IH]; intros i Hi Hu Hh; cbn [read_loop]; [done|].
  unfold lift. rewrite test_key_fits by lia. erewrite st_bind_Ok by done.
  erewrite st_bind_Ok; [|apply ms_query; [done|apply Hh; lia]].
  apply IH; [lia|done|]. intros j Hj. apply Hh. lia.
Qed.

(** C36: on names that are free, the write test succeeds, every record it wrote is
    found again, and the read test with the same seed succeeds: for fewer than 2^17
    records, whose offset [count * 16384] is an int, and a key base that fits the
    array of keys. *)
Theorem link_test_roundtrip s :
  ms_up s -> (forall i, ms_free s (key i)) ->
  exists s', write_test rank rand conf base s = (Ok (), s') /\
    (forall i, Z.of_nat i < count conf ->
       query_md (key i) s' = (Ok (scalars_of (restored (test_metadata conf (key i)))), s')) /\
    read_test rank rand conf base s' = (Ok (), s').
Proof.
  intros Hu Hf.
  destruct (write_loop_ok (Z.to_nat (count conf)) 0 s) as (s' & E & U & G & _); [lia|done|done|].
  exists s'. split; [done|]. split.
  - intros i Hi. apply ms_query; [done|]. apply G. lia.
  - apply read_loop_ok; [lia|done|]. intros j Hj. apply G. lia.
Qed.

End bench_proofs.
