(* ===== verification/Engine.v ===== *)
(** * Engine: old/internal_component/engine

    The C prototype of the engine: each MPI rank replays the records of a trace
    on one of two parallel file systems, a Redis cluster or a MongoDB
    collection (test_engine.c, with its own io_redis.c, io_mongo.c and
    common.c).  The state is that of one rank; a broadcast gives every rank the
    value of rank 0.  stdio streams are modelled without their buffers, time
    measurement and console output are not modelled. *)

From S2P Require Import Prelude CText Effects ShadowLink ShadowStore.

(** ** io_redis.c and io_mongo.c of the engine *)

Module Io.
Section io.
Context {H D : Type} `{Hiredis H} `{Mongoc D}.
Context (max : Z).   (* MAX_DOC_SIZE *)

(** These functions have the same text as in shadow_link. *)
Definition genNodeList : list ascii -> list ascii := ShadowStore.genNodeList.
Definition genNodeListFromHostfile : option (option (list ascii)) -> list ascii -> outcome (list ascii) :=
  ShadowStore.genNodeListFromHostfile.
Definition connectToMongoDBServerWithURI : (list ascii -> bool) -> list ascii -> outcome Z :=
  ShadowStore.connectToMongoDBServerWithURI.
Definition connectToMongoDBServerMPI : (list ascii -> bool) -> list ascii -> outcome Z :=
  ShadowStore.connectToMongoDBServerMPI.
Definition connectToMongoDBServer : (list ascii -> bool) -> outcome Z := ShadowStore.connectToMongoDBServer.
Definition write_mongo : Z -> Z -> list ascii -> ST D unit := ShadowStore.write_mongo.
Definition randstring : (nat -> Z) -> Z -> outcome (option (list ascii)) := ShadowLink.randstring.
Definition genstring : Z -> buffer := ShadowLink.genstring.

(** The context, or a null pointer. *)
Definition connectToRedisServerWithHostfile (connect : connector)
    (hostfile : option (option (list ascii))) : outcome bool :=
  l ← genNodeListFromHostfile hostfile [];
  nodelist ← node_array l;
  Ok (bool_decide (connect nodelist = Some true)).

Definition connectToRedisServer (connect : connector) : outcome bool :=
  nodelist ← node_array (genNodeList []);
  Ok (bool_decide (connect nodelist = Some true)).

Definition write_redis (key value : list ascii) : ST H unit := fun h =>
  let '(reply, h') := hi_set key value h in (check_reply reply, h').

Definition write_redis_sized (key : list ascii) (value : buffer) (length : Z) : ST H unit := fun h =>
  match mem_read value 0 length ≫= defined with
  | Ok bytes => let '(reply, h') := hi_set key bytes h in (check_reply reply, h')
  | Throw e => (Throw e, h)
  | Undefined u => (Undefined u, h)
  | Exit c => (Exit c, h)
  end.

(** Only the parameter is set to the text of the reply: the caller's buffer
    stays as it was, and a reply without text is not noticed. *)
Definition read_redis_sized (key : list ascii) : ST H unit := fun h =>
  match hi_get key h with
  | None => (Undefined NullDeref, h)
  | Some _ => (Ok (), h)
  end.

(** Each document has a third field, "queryid". *)
Definition insert_doc (id bytes : list ascii) : ST D unit := fun d =>
  let '(_, d') := mc_insert [(ID_FIELD, id); (chars "queryid", id); (id, bytes)] d in (Ok (), d').

Fixpoint write_docs (fuel : nat) (key : list ascii) (buf : buffer)
    (length count finished_length sub_length : Z) : ST D unit :=
  if finished_length <? length then
    match fuel with
    | O => undefined NoReturn
    | S fuel =>
        id ← lift (sub_key_str key count);
        bytes ← lift (mem_read buf finished_length sub_length ≫= defined);
        insert_doc id bytes;;
        let finished_length := i32 (finished_length + sub_length) in
        let sub_length := if length <? i32 (finished_length + max) then length mod max else sub_length in
        write_docs fuel key buf length (count + 1) finished_length sub_length
    end
  else mret ().

Definition write_mongo_sized (key : list ascii) (buf : buffer) (length : Z) : ST D unit :=
  if max <? length then
    write_docs (Z.to_nat (length / max + 1)) key buf length 0 0 max
  else
    bytes ← lift (mem_read buf 0 length ≫= defined);
    insert_doc key bytes.

(** The documents are looked up and forgotten; the caller's buffer stays. *)
Definition read_mongo_sized (key : list ascii) (length : Z) : ST D unit := mret ().

End io.
End Io.

(** ** Placement policies *)

(** [sizeof target_stor_list]: four names of 32 characters. *)
Definition target_stor_list : list (list ascii) :=
  [chars "PFS1"; chars "PFS2"; chars "REDIS"; chars "MONGO"].
Definition sizeof_target_stor_list : Z := 4 * 32.

(** ** Trace records *)

Inductive io_ops := OPEN | READ | WRITE | SEEK | CLOSE.

#[global] Instance io_ops_eq_dec : EqDecision io_ops.
Proof. solve_decision. Defined.

(** [ops] is [None] until a line sets it. *)
Record trace_record := mkRecord { ops : option io_ops; size : Z; offset : Z }.

Definition malloc_record : trace_record := mkRecord None 0 0.

(** [char c] compared with EOF: the byte 255 ends the count as well. *)
Fixpoint get_record_count (trace : list ascii) : Z :=
  match trace with
  | [] => 0
  | c :: trace' =>
      if decide (c = ascii_of_nat 255) then 0
      else (if decide (c = newline) then 1 else 0) + get_record_count trace'
  end.

Definition names_op (token : list ascii) (upper lower : string) : bool :=
  strstr token (chars upper) || strstr token (chars lower).

(** A token that names no operation keeps the one of the record before. *)
Definition op_of_token (token : list ascii) (previous : option io_ops) : option io_ops :=
  if names_op token "OPEN" "open" then Some OPEN
  else if names_op token "READ" "read" then Some READ
  else if names_op token "WRITE" "write" then Some WRITE
  else if names_op token "SEEK" "seek" then Some SEEK
  else if names_op token "CLOSE" "close" then Some CLOSE
  else previous.

(** [atoi (strtok (NULL, ","))]. *)
Definition atoi_comma (rest : list ascii) : outcome (Z * list ascii) :=
  match strtok ","%char rest with
  | None => Undefined NullDeref
  | Some (tok, rest') => Ok (atoi tok, rest')
  end.

Definition parse_record (line : list ascii) (record : trace_record) : outcome trace_record :=
  match strtok ","%char (cstr line) with
  | None => Undefined NullDeref
  | Some (token, r1) =>
      '(off, r2) ← atoi_comma r1;
      '(sz, _) ← atoi_comma r2;
      Ok (mkRecord (op_of_token token (ops record)) (u64 sz) off)
  end.

(** The record and the rest of the trace; [None] at its end.  The second
    component is added to [total_size_per_rank]. *)
Definition next_trace_record (trace : list ascii) (record : trace_record)
    : outcome (option (trace_record * list ascii)) :=
  match fgets 1024 trace with
  | None => Ok None
  | Some (line, trace') => r ← parse_record line record; Ok (Some (r, trace'))
  end.

(** ** The state of a rank *)

(** A stream opened with "a+". *)
Record stream := mkStream { content : list ascii; fpos : Z }.

Record state (H D : Type) := mkState {
  dest_fp1 : option stream;
  dest_fp2 : option stream;
  redis_cc : option H;      (* the cluster behind the context *)
  collection : option D;
  buf : buffer;
  total_size_per_rank : Z;
  seed : Z;                 (* of [srand] *)
  calls : nat;              (* of [rand] since then *)
}.
Arguments mkState {H D}.
Arguments dest_fp1 {H D}. Arguments dest_fp2 {H D}. Arguments redis_cc {H D}.
Arguments collection {H D}. Arguments buf {H D}. Arguments total_size_per_rank {H D}.
Arguments seed {H D}. Arguments calls {H D}.

(** ** I/O *)

(** [fseek (fp, off, SEEK_SET)]. *)
Definition fseek_set (off : Z) (fp : stream) : option stream :=
  if off <? 0 then None else Some (mkStream (content fp) off).

(** A write goes to the end of the file, whatever the position. *)
Definition fwrite_append (bytes : list ascii) (fp : stream) : stream :=
  match bytes with
  | [] => fp
  | _ => mkStream (content fp ++ bytes) (zlen (content fp) + zlen bytes)
  end.

Definition fread_at (n : Z) (fp : stream) : list ascii * stream :=
  let bytes := slice (fpos fp) (Z.min n (Z.max 0 (zlen (content fp) - fpos fp))) (content fp) in
  (bytes, mkStream (content fp) (fpos fp + zlen bytes)).

(** The body of [pfs1_io] and [pfs2_io]: the file's stream and the buffer
    change.  [fwrite] and [fread] return unsigned counts, which are never below
    zero. *)
Definition stream_io (record : trace_record) (b : buffer) (dest_fp : option stream)
    : outcome (stream * buffer) :=
  match dest_fp with
  | None => Undefined NullDeref
  | Some fp =>
      match fseek_set (offset record) fp with
      | None => Exit 207
      | Some fp =>
          match ops record with
          | None => Undefined UninitRead
          | Some WRITE =>
              bytes ← mem_read b 0 (size record) ≫= defined;
              Ok (fwrite_append bytes fp, b)
          | Some READ =>
              let '(bytes, fp') := fread_at (size record) fp in
              b' ← mem_write b 0 (Some <$> bytes);
              Ok (fp', b')
          | Some _ => Ok (fp, b)
          end
      end
  end.

Section rank.
Context {H D : Type} `{Hiredis H} `{Mongoc D}.
Context (max : Z) (rnd : Z -> nat -> Z) (rank : Z).
Implicit Types s : state H D.

Definition set_fp1 (fp : option stream) s : state H D :=
  mkState fp (dest_fp2 s) (redis_cc s) (collection s) (buf s) (total_size_per_rank s) (seed s) (calls s).
Definition set_fp2 (fp : option stream) s : state H D :=
  mkState (dest_fp1 s) fp (redis_cc s) (collection s) (buf s) (total_size_per_rank s) (seed s) (calls s).
Definition set_redis (h : option H) s : state H D :=
  mkState (dest_fp1 s) (dest_fp2 s) h (collection s) (buf s) (total_size_per_rank s) (seed s) (calls s).
Definition set_mongo (d : option D) s : state H D :=
  mkState (dest_fp1 s) (dest_fp2 s) (redis_cc s) d (buf s) (total_size_per_rank s) (seed s) (calls s).
Definition set_buf (b : buffer) s : state H D :=
  mkState (dest_fp1 s) (dest_fp2 s) (redis_cc s) (collection s) b (total_size_per_rank s) (seed s) (calls s).
Definition add_total (n : Z) s : state H D :=
  mkState (dest_fp1 s) (dest_fp2 s) (redis_cc s) (collection s) (buf s)
    (i64 (total_size_per_rank s + i64 n)) (seed s) (calls s).
Definition srand (n : Z) s : state H D :=
  mkState (dest_fp1 s) (dest_fp2 s) (redis_cc s) (collection s) (buf s) (total_size_per_rank s) n 0.

Definition rand : ST (state H D) Z := fun s =>
  (Ok (rnd (seed s) (calls s)),
   mkState (dest_fp1 s) (dest_fp2 s) (redis_cc s) (collection s) (buf s) (total_size_per_rank s)
     (seed s) (S (calls s))).

Definition pfs1_io (record : trace_record) : ST (state H D) unit := fun s =>
  match stream_io record (buf s) (dest_fp1 s) with
  | Ok (fp, b) => (Ok (), set_buf b (set_fp1 (Some fp) s))
  | Throw e => (Throw e, s) | Undefined u => (Undefined u, s) | Exit c => (Exit c, s)
  end.

Definition pfs2_io (record : trace_record) : ST (state H D) unit := fun s =>
  match stream_io record (buf s) (dest_fp2 s) with
  | Ok (fp, b) => (Ok (), set_buf b (set_fp2 (Some fp) s))
  | Throw e => (Throw e, s) | Undefined u => (Undefined u, s) | Exit c => (Exit c, s)
  end.

(** A computation on the Redis context; a command on a null context gets a null
    reply, whose text is then read. *)
Definition on_redis (m : ST H unit) : ST (state H D) unit := fun s =>
  match redis_cc s with
  | None => (Undefined NullDeref, s)
  | Some h => let '(r, h') := m h in (r, set_redis (Some h') s)
  end.

Definition on_mongo (m : ST D unit) : ST (state H D) unit := fun s =>
  match collection s with
  | None => (Undefined NullDeref, s)
  | Some d => let '(r, d') := m d in (r, set_mongo (Some d') s)
  end.

Definition KEY_BASE_STR : list ascii := chars "test".

Definition io_key (random : Z) : list ascii :=
  KEY_BASE_STR ++ ["_"%char] ++ dec rank ++ ["_"%char] ++ dec random.

Definition redis_io (record : trace_record) : ST (state H D) unit :=
  n ← rand;
  s ← get_state;
  match ops record with
  | None => undefined UninitRead
  | Some WRITE => on_redis (Io.write_redis_sized (io_key n) (buf s) (i32 (size record)))
  | Some READ => on_redis (Io.read_redis_sized (io_key n))
  | Some _ => mret ()
  end.

Definition mongo_io (record : trace_record) : ST (state H D) unit :=
  n ← rand;
  s ← get_state;
  match ops record with
  | None => undefined UninitRead
  | Some WRITE => on_mongo (Io.write_mongo_sized max (io_key n) (buf s) (i32 (size record)))
  | Some READ => on_mongo (Io.read_mongo_sized (io_key n) (i32 (size record)))
  | Some _ => mret ()
  end.

(** One record on the chosen target; any other name does nothing. *)
Definition target_io (target : list ascii) (record : trace_record) : ST (state H D) unit :=
  if decide (target = chars "PFS1") then pfs1_io record
  else if decide (target = chars "PFS2") then pfs2_io record
  else if decide (target = chars "REDIS") then redis_io record
  else if decide (target = chars "MONGO") then mongo_io record
  else mret ().

Fixpoint replay_loop (n : nat) (target trace : list ascii) (record : trace_record)
    : ST (state H D) unit :=
  match n with
  | O => mret ()
  | S n =>
      next ← lift (next_trace_record trace record);
      match next with
      | None => undefined NullDeref   (* the freed record is used *)
      | Some (record, trace') =>
          s ← get_state;
          put_state (add_total (size record) s);;
          target_io target record;;
          replay_loop n target trace' record
      end
  end.

(** [trace] is the file on rank 0; the loop runs while
    [finished_record_cnt++ < record_cnt - 1]. *)
Definition do_io (target : list ascii) (trace : option (list ascii)) : ST (state H D) unit :=
  match trace with
  | None => lift (Exit 205)
  | Some trace =>
      replay_loop (Z.to_nat (get_record_count trace - 1)) target trace malloc_record
  end.

(** ** Initialisation *)

(** What the process finds around it: the text of a file when the [k]-th attempt
    opens it for append, files that are read, the cluster and its connection,
    MongoDB's answer to a ping, and [realpath]. *)
Record environment := mkEnv {
  open_append : list ascii -> nat -> option (list ascii);
  read_file : list ascii -> option (list ascii);
  redis_cluster : H;
  redis_connect : connector;
  mongo_ping : list ascii -> bool;
  hostname : list ascii;
  realpath : list ascii -> list ascii;
}.

Definition PFS1_DEST_FILE : list ascii := chars "/mnt/nvme/kfeng/pvfs2-mount/engine.dat".
Definition PFS2_DEST_FILE : list ascii := chars "/mnt/nvme/kfeng/pvfs2-mount2/engine.dat".
Definition PFS_MAX_RETRY : nat := 3.
Definition MAX_REQ_SIZE : Z := 256 * (1024 * 1024).

(** [while ((fp = fopen (...)) == NULL && retries++ < PFS_MAX_RETRY)]. *)
Fixpoint open_retry (tries : nat) (env : environment) (path : list ascii) (attempt : nat)
    : option (list ascii) :=
  match open_append env path attempt with
  | Some text => Some text
  | None => match tries with O => None | S tries => open_retry tries env path (S attempt) end
  end.

Definition wants (target : list ascii) (name : string) : bool :=
  bool_decide (target = []) || bool_decide (target = chars name).

Definition init_pfs1 (env : environment) : ST (state H D) unit := fun s =>
  match open_retry PFS_MAX_RETRY env (PFS1_DEST_FILE ++ ["_"%char] ++ dec rank) 0 with
  | None => (Exit 201, s)
  | Some text => (Ok (), set_fp1 (Some (mkStream text 0)) s)
  end.

Definition init_pfs2 (env : environment) : ST (state H D) unit := fun s =>
  match open_retry PFS_MAX_RETRY env (PFS2_DEST_FILE ++ ["_"%char] ++ dec rank) 0 with
  | None => (Exit 202, s)
  | Some text => (Ok (), set_fp2 (Some (mkStream text 0)) s)
  end.

Definition init_redis (env : environment) (redis_hosts : list ascii) : ST (state H D) unit :=
  connected ← lift (Io.connectToRedisServerWithHostfile (redis_connect env)
                      (Some (read_file env redis_hosts)));
  s ← get_state;
  if connected : bool then put_state (set_redis (Some (redis_cluster env)) s) else lift (Exit 203).

Definition init_mongo (env : environment) : ST (state H D) unit :=
  r ← lift (Io.connectToMongoDBServerMPI (mongo_ping env) (hostname env));
  if r =? EXIT_FAILURE then lift (Exit 204) else mret ().

Definition when (b : bool) (m : ST (state H D) unit) : ST (state H D) unit :=
  if b then m else mret ().

Definition init (env : environment) (target_stor redis_hosts : list ascii) (max_req_size : Z)
    : ST (state H D) unit :=
  when (wants target_stor "PFS1") (init_pfs1 env);;
  when (wants target_stor "PFS2") (init_pfs2 env);;
  when (wants target_stor "REDIS") (init_redis env redis_hosts);;
  when (wants target_stor "MONGO") (init_mongo env);;
  s ← get_state;
  put_state (set_buf (Io.genstring max_req_size) (srand rank s)).

(** ** The program *)

(** Pointers that are never set are [None], null pointers [Some None]. *)
Record arguments := mkArguments {
  req_size : Z;
  count : Z;
  policy : list ascii;
  a_target : list ascii;
  trace_file : option (option (list ascii));
  redis_hosts : option (list ascii);
}.

Definition default_arguments : arguments :=
  mkArguments (-1) (-1) (chars "RANDOM") (chars "PFS1") None None.

(** The keys [argp_parse] passes: an option, the [n]-th positional argument,
    the end of the command line. *)
Inductive argp_key := KEY_OPT (c : ascii) | KEY_ARG (arg_num : Z) | KEY_END.

(** [None] is ARGP_ERR_UNKNOWN; [argp_usage] ends the process. *)
Definition parse_opt (key : argp_key) (arg : list ascii) (a : arguments) : outcome (option arguments) :=
  match key with
  | KEY_OPT c =>
      if decide (c = "s"%char) then
        Ok (Some (mkArguments (atoi arg) (count a) (policy a) (a_target a) (trace_file a) (redis_hosts a)))
      else if decide (c = "c"%char) then
        Ok (Some (mkArguments (req_size a) (atoi arg) (policy a) (a_target a) (trace_file a) (redis_hosts a)))
      else if decide (c = "p"%char) then
        Ok (Some (mkArguments (req_size a) (count a) arg (a_target a) (trace_file a) (redis_hosts a)))
      else if decide (c = "t"%char) then
        Ok (Some (mkArguments (req_size a) (count a) (policy a) arg (trace_file a) (redis_hosts a)))
      else if decide (c = "f"%char) then
        Ok (Some (mkArguments (req_size a) (count a) (policy a) (a_target a) (Some (Some arg)) (redis_hosts a)))
      else if decide (c = "r"%char) then
        Ok (Some (mkArguments (req_size a) (count a) (policy a) (a_target a) (trace_file a) (Some arg)))
      else Ok None
  | KEY_ARG arg_num => if 8 <=? arg_num then Exit 64 else Ok (Some a)
  | KEY_END =>
      match trace_file a with
      | None => Undefined UninitRead
      | Some None => Exit 64
      | Some (Some _) =>
          match redis_hosts a with None => Exit 64 | Some _ => Ok (Some a) end
      end
  end.

Definition parse_args (opts : list (argp_key * list ascii)) : outcome arguments :=
  foldl (fun a o => a' ← a; r ← parse_opt o.1 o.2 a';
           match r with Some a'' => Ok a'' | None => Exit 64 end)
    (Ok default_arguments) (opts ++ [(KEY_END, [])]).

Definition policy_random : ST (state H D) Z := n ← rand; mret (n mod sizeof_target_stor_list).
Definition policy_roundrobin : ST (state H D) Z := n ← rand; mret (n mod sizeof_target_stor_list).
Definition policy_heuristic : ST (state H D) Z := mret PFS1.
Definition policy_model : ST (state H D) Z := mret PFS1.

(** An unknown policy leaves the variable as it was. *)
Definition select_target (policy : list ascii) : ST (state H D) Z :=
  if decide (policy = chars "RANDOM") then policy_random
  else if decide (policy = chars "ROUND-ROBIN") then policy_roundrobin
  else if decide (policy = chars "HEURISTIC") then policy_heuristic
  else if decide (policy = chars "MODEL") then policy_model
  else undefined UninitRead.

(** [strcpy (target, target_stor_list[select_target (policy)])] when no target
    was given. *)
Definition resolve_target (policy target : list ascii) : ST (state H D) (list ascii) :=
  if decide (target = []) then
    t ← select_target policy;
    match target_stor_list !! Z.to_nat t with
    | Some name => mret name
    | None => undefined OutOfBounds
    end
  else mret target.

Definition main (env : environment) (opts : list (argp_key * list ascii)) : ST (state H D) unit :=
  a ← lift (parse_args opts);
  match trace_file a, redis_hosts a with
  | Some (Some trace), Some hosts =>
      target ← resolve_target (policy a) (a_target a);
      let max_req_size := if req_size a <? 0 then MAX_REQ_SIZE else req_size a in
      init env target (realpath env hosts) max_req_size;;
      do_io target (read_file env (realpath env trace))
  | _, _ => undefined NullDeref
  end.

End rank.

(** ** test_redis.c *)

Section tests.
Context {H : Type} `{Hiredis H}.
Context (rank : Z).

Definition TEST_SIZE : Z := 32768.
Definition NUM_OPS : Z := 50000.

(** [sprintf (temp, "%s_%d_%d", key_base, rank, i)]. *)
Definition test_key (key_base : list ascii) (i : Z) : list ascii :=
  sub_key (sub_key key_base rank) i.

(** [while (i++ < NUM_OPS)], from the [i]-th write. *)
Fixpoint write_keys (n : nat) (i : Z) (key_base value : list ascii) : ST H unit :=
  match n with
  | O => mret ()
  | S n => Io.write_redis (test_key key_base i) value;; write_keys n (i + 1) key_base value
  end.

(** The keys are made in arrays of 1024 bytes; [rand] is the sequence of the
    seed 1. *)
Definition test_redis_main (connect : connector) (rand : nat -> Z) (argv : list (list ascii)) : ST H unit :=
  match argv with
  | [_; key_base] =>
      if 1024 <=? zlen (test_key key_base NUM_OPS) then undefined OutOfBounds else
      v ← lift (Io.randstring rand TEST_SIZE);
      connected ← lift (Io.connectToRedisServer connect);
      match v with
      | Some value => if connected : bool then write_keys (Z.to_nat NUM_OPS) 1 key_base value else undefined NullDeref
      | None => undefined NullDeref
      end
  | _ => lift (Exit (-1))
  end.

End tests.
