(* ===== verification/EngineSpec.v ===== *)
(** * EngineSpec: what a replay of the engine does

    A trace in the documented form is replayed record by record on the chosen
    target, its last record excepted; on the file systems every write is
    appended; the random policies pick a target out of the list; and the engine
    cannot start on MongoDB. *)

From S2P Require Import Prelude CText Effects ShadowLink ShadowStore Engine.

(** ** The text of a trace *)

Definition op_name (op : io_ops) : list ascii :=
  chars match op with
        | OPEN => "OPEN" | READ => "READ" | WRITE => "WRITE" | SEEK => "SEEK" | CLOSE => "CLOSE"
        end.

(** A record as a line of a trace holds it. *)
Record entry := mkEntry { e_op : io_ops; e_offset : Z; e_size : Z }.

Definition entry_ok (e : entry) : Prop :=
  - 2 ^ 31 <= e_offset e < 2 ^ 31 /\ 0 <= e_size e < 2 ^ 31.

Definition entry_record (e : entry) : trace_record := mkRecord (Some (e_op e)) (e_size e) (e_offset e).

Definition entry_text (e : entry) : list ascii :=
  comma_line (op_name (e_op e)) (e_offset e) (e_size e).

Definition trace_text (es : list entry) : list ascii :=
  concat ((fun e => entry_text e ++ [newline]) <$> es).

Lemma op_name_ok op : word_ok (op_name op) /\ ascii_of_nat 255 ∉ op_name op.
Proof. destruct op; (split; [|notin]); (split; [done|]); repeat split; try notin; done. Qed.

Lemma entry_text_clean e :
  (newline ∉ entry_text e) /\ (nul ∉ entry_text e) /\ (ascii_of_nat 255 ∉ entry_text e).
Proof.
  destruct (op_name_ok (e_op e)) as [(_ & _ & ? & ? & _) ?].
  repeat split; by apply comma_line_notin.
Qed.

Lemma entry_text_length e : entry_ok e -> zlen (entry_text e) <= 80.
Proof. intros [Ho Hs]. apply comma_line_length; [apply op_name_ok|done|lia]. Qed.

Lemma get_record_count_line l rest :
  newline ∉ l -> ascii_of_nat 255 ∉ l ->
  get_record_count (l ++ newline :: rest) = 1 + get_record_count rest.
Proof.
  induction l as [|c l IH]; intros Hn Hf; [done|].
  rewrite not_elem_of_cons in Hn, Hf. destruct Hn as [Hn1 Hn2], Hf as [Hf1 Hf2].
  cbn [app get_record_count]. rewrite !decide_False by congruence. by rewrite IH.
Qed.

Lemma get_record_count_trace es : get_record_count (trace_text es) = zlen es.
Proof.
  induction es as [|e es IH]; [done|]. unfold trace_text in *. rewrite fmap_cons. cbn [concat].
  rewrite <- app_assoc. cbn [app]. pose proof (entry_text_clean e) as (? & _ & ?).
  rewrite get_record_count_line by done. rewrite IH, zlen_cons. lia.
Qed.

(** A line is parsed to the record it holds. *)
Lemma parse_record_line e prev :
  entry_ok e -> parse_record (entry_text e ++ [newline]) prev = Ok (entry_record e).
Proof.
  intros [Ho Hs]. pose proof (entry_text_clean e) as (_ & H0 & _).
  unfold parse_record.
  rewrite cstr_id by (rewrite not_elem_of_app, list_elem_of_singleton; done).
  destruct (comma_line_words (op_name (e_op e)) (e_offset e) (e_size e)) as (W1 & W2 & W3); [apply op_name_ok|].
  unfold entry_text, atoi_comma. rewrite W1, W2. unfold mbind; cbn [outcome_bind]. rewrite W3.
  cbn [outcome_bind]. rewrite atoi_dec by done. unfold atoi. rewrite atol_dec_newline by lia.
  rewrite i32_small, u64_small by lia.
  assert (op_of_token (op_name (e_op e)) (ops prev) = Some (e_op e)) as -> by (by destruct (e_op e)).
  done.
Qed.

Lemma next_record_ok e rest prev :
  entry_ok e -> next_trace_record (entry_text e ++ newline :: rest) prev = Ok (Some (entry_record e, rest)).
Proof.
  intros He. pose proof (entry_text_clean e) as (Hn & _). pose proof (entry_text_length e He) as Hl.
  unfold next_trace_record. unfold zlen in Hl. rewrite fgets_line by (done || lia).
  by rewrite parse_record_line.
Qed.

Section replays.
Context {H D : Type} `{Hiredis H} `{Mongoc D}.
Context (max : Z) (rnd : Z -> nat -> Z) (rank : Z).

(** One record of a replay: it is counted, then done. *)
Definition play (target : list ascii) (e : entry) : ST (state H D) unit :=
  s ← get_state;
  put_state (add_total (e_size e) s);;
  target_io max rnd rank target (entry_record e).

Lemma replay_loop_ok target es n prev s :
  Forall entry_ok es -> (n <= length es)%nat ->
  replay_loop max rnd rank n target (trace_text es) prev s = for_each (play target) (take n es) s.
Proof.
  revert n prev s. induction es as [|e es IH]; intros n prev s Hall Hn.
  { by assert (n = 0%nat) as -> by (simpl in Hn; lia). }
  destruct n as [|n]; [done|]. apply Forall_cons in Hall as [He Hall].
  unfold trace_text. rewrite fmap_cons. cbn [concat replay_loop take for_each].
  rewrite <- app_assoc. cbn [app]. fold (trace_text es).
  erewrite st_bind_Ok; [|unfold lift; by rewrite next_record_ok].
  unfold play, get_state, put_state, mbind, st_bind. cbn [size entry_record].
  destruct (target_io _ _ _ _ _ _) as [[[]|?|?|?] s']; try done. apply IH; [done|simpl in Hn; lia].
Qed.

Lemma do_io_take target es s :
  Forall entry_ok es ->
  do_io max rnd rank target (Some (trace_text es)) s = for_each (play target) (take (length es - 1) es) s.
Proof.
  intros Hall. unfold do_io. rewrite get_record_count_trace, replay_loop_ok; [|done|unfold zlen; lia].
  unfold zlen. do 2 f_equal. lia.
Qed.

(** C33: the records of a trace are replayed in order, each with the operation,
    offset and size of its line, but the last one is not replayed. *)
Theorem do_io_replays target es last s :
  Forall entry_ok es -> entry_ok last ->
  do_io max rnd rank target (Some (trace_text (es ++ [last]))) s = for_each (play target) es s.
Proof.
  intros Hall Hlast. rewrite do_io_take by (by apply Forall_app; split; [|constructor]).
  by rewrite length_app, Nat.add_sub, take_app_length.
Qed.

End replays.

(** ** The file systems *)

Definition total_size (es : list entry) : Z := foldr (fun e n => e_size e + n) 0 es.

Lemma total_size_nonneg es : Forall entry_ok es -> 0 <= total_size es.
Proof.
  induction 1 as [|e es [_ He] _ IH]; [done|].
  change (total_size (e :: es)) with (e_size e + total_size es). lia.
Qed.

(** A write of the generated buffer appends to the file. *)
Lemma stream_write_appends e n text pos :
  e_op e = WRITE -> 0 <= e_offset e -> 0 <= e_size e <= n -> 0 < n ->
  exists pos', stream_io (entry_record e) (genstring n) (Some (mkStream text pos)) =
    Ok (mkStream (text ++ replicate (Z.to_nat (e_size e)) "A"%char) pos', genstring n).
Proof.
  intros Hop Hoff Hsize Hn. unfold stream_io, fseek_set, genstring.
  destruct (Z.eqb_spec n 0); [lia|]. cbn [offset entry_record ops size]. rewrite Hop.
  destruct (Z.ltb_spec (e_offset e) 0); [lia|].
  set (cells := replicate _ (Some "A"%char)).
  assert (cells = Some <$> replicate (Z.to_nat (n + 1)) "A"%char) as -> by (by rewrite fmap_replicate).
  rewrite mem_read_in by (unfold zlen; rewrite ?length_fmap, ?length_replicate; lia).
  rewrite slice_fmap. unfold mbind; cbn [outcome_bind]. rewrite defined_chars. cbn [outcome_bind content].
  assert (slice 0 (e_size e) (replicate (Z.to_nat (n + 1)) "A"%char) =
          replicate (Z.to_nat (e_size e)) "A"%char) as ->.
  { unfold slice. rewrite drop_0, take_replicate. f_equal. lia. }
  unfold fwrite_append. destruct (replicate (Z.to_nat (e_size e)) "A"%char) eqn:E.
  - eexists. by rewrite app_nil_r.
  - eexists. done.
Qed.

Section append.
Context {H D : Type} `{Hiredis H} `{Mongoc D}.
Context (max : Z) (rnd : Z -> nat -> Z) (rank : Z).

Definition write_ok (n : Z) (e : entry) : Prop :=
  entry_ok e /\ e_op e = WRITE /\ 0 <= e_offset e /\ e_size e <= n.

Lemma play_pfs1 es n (s : state H D) text pos :
  0 < n -> Forall (write_ok n) es -> buf s = genstring n ->
  dest_fp1 s = Some (mkStream text pos) ->
  0 <= total_size_per_rank s -> total_size_per_rank s + total_size es < 2 ^ 63 ->
  exists s' pos', for_each (play max rnd rank (chars "PFS1")) es s = (Ok (), s') /\
    dest_fp1 s' = Some (mkStream (text ++ replicate (Z.to_nat (total_size es)) "A"%char) pos') /\
    total_size_per_rank s' = total_size_per_rank s + total_size es.
Proof.
  intros Hn Hall. revert s text pos. induction Hall as [|e es (He & Hop & Hoff & Hle) Hall IH];
    intros s text pos Hb Hf Hlow Ht.
  { exists s, pos. simpl. rewrite app_nil_r. split; [done|]. split; [done|lia]. }
  assert (0 <= total_size es) as Hpos.
  { apply total_size_nonneg. eapply Forall_impl; [exact Hall|]. by intros ? []. }
  destruct He as [_ Hsz]. change (total_size (e :: es)) with (e_size e + total_size es) in *.
  destruct (stream_write_appends e n text pos) as (pos1 & E); try done; try lia.
  set (s1 := set_buf (genstring n) (set_fp1 (Some (mkStream (text ++ replicate (Z.to_nat (e_size e)) "A"%char) pos1))
    (add_total (e_size e) s))).
  cbn [for_each]. rewrite (st_bind_Ok _ _ s () s1).
  2: { unfold play, get_state, put_state, mbind, st_bind, target_io. rewrite decide_True by done.
       unfold pfs1_io. cbn [add_total buf dest_fp1]. by rewrite Hb, Hf, E. }
  assert (total_size_per_rank s1 = total_size_per_rank s + e_size e) as T1.
  { cbn. rewrite (i64_small (e_size e)), i64_small by lia. done. }
  destruct (IH s1 _ _ eq_refl eq_refl) as (s' & pos' & E' & F & T); [lia..|].
  exists s', pos'. split; [done|]. split; [|lia]. rewrite F.
  by rewrite <- app_assoc, <- replicate_add, <- Z2Nat.inj_add by lia.
Qed.

(** C34: A trace of writes on the first file system appends each of them, in the
    order of the trace and whatever their offsets, the last one excepted. *)
Theorem do_io_pfs1_appends es last n (s : state H D) text pos :
  0 < n -> Forall (write_ok n) es -> entry_ok last -> buf s = genstring n ->
  dest_fp1 s = Some (mkStream text pos) ->
  total_size_per_rank s = 0 -> total_size es < 2 ^ 63 ->
  exists s' pos',
    do_io max rnd rank (chars "PFS1") (Some (trace_text (es ++ [last]))) s = (Ok (), s') /\
    dest_fp1 s' = Some (mkStream (text ++ replicate (Z.to_nat (total_size es)) "A"%char) pos') /\
    total_size_per_rank s' = total_size es.
Proof.
  intros Hn Hall Hlast Hb Hf Hz Ht.
  assert (Forall entry_ok es) as Hok by (eapply Forall_impl; [exact Hall|]; by intros ? []).
  rewrite do_io_take by (by apply Forall_app; split; [|constructor]).
  rewrite length_app, Nat.add_sub, take_app_length.
  destruct (play_pfs1 es n s text pos) as (s' & pos' & E & F & T); try done; try lia.
  exists s', pos'. split; [done|]. split; [done|lia].
Qed.

(** ** Targets and start-up *)

(** The policies that draw a number take it modulo the bytes of the list, 128:
    only 0 to 3 name a target, the others index past the list.  Round-robin is
    the random policy. *)
Theorem random_policy_range (s : state H D) policy :
  policy = chars "RANDOM" \/ policy = chars "ROUND-ROBIN" ->
  let k := rnd (seed s) (calls s) mod 128 in
  (resolve_target rnd policy [] s).1 =
    match target_stor_list !! Z.to_nat k with
    | Some name => Ok name
    | None => Undefined OutOfBounds
    end /\
  (4 <= k -> (resolve_target rnd policy [] s).1 = Undefined OutOfBounds).
Proof.
  intros Hp k.
  assert ((resolve_target rnd policy [] s).1 =
    match target_stor_list !! Z.to_nat k with Some name => Ok name | None => Undefined OutOfBounds end) as E.
  { unfold resolve_target. rewrite decide_True by done.
    destruct Hp as [->| ->]; unfold select_target.
    - rewrite decide_True by done. unfold policy_random, rand, mbind, st_bind, mret, st_ret.
      change sizeof_target_stor_list with 128. fold k. by destruct (target_stor_list !! _).
    - rewrite decide_False, decide_True by done. unfold policy_roundrobin, rand, mbind, st_bind, mret, st_ret.
      change sizeof_target_stor_list with 128. fold k. by destruct (target_stor_list !! _). }
  split; [done|]. intros Hk. rewrite E.
  rewrite lookup_ge_None_2; [done|]. cbn [target_stor_list length]. clearbody k. lia.
Qed.

(** An engine that is to use MongoDB never gets past its initialisation. *)
Theorem init_mongo_never env (target hosts : list ascii) n (s : state H D) :
  wants target "MONGO" = true -> (init rank env target hosts n s).1 <> Ok ().
Proof.
  intros Hw. unfold init. rewrite Hw. unfold mbind, st_bind.
  destruct (when _ (init_pfs1 _ _) s) as [[[]|?|?|?] s1]; try done.
  destruct (when _ (init_pfs2 _ _) s1) as [[[]|?|?|?] s2]; try done.
  destruct (when _ (init_redis _ _) s2) as [[[]|?|?|?] s3]; try done.
  unfold when, init_mongo, Io.connectToMongoDBServerMPI, connectToMongoDBServerMPI, connectToMongoDBServerWithURI, lift.
  unfold mbind, st_bind. destruct (_ <? 1024); [|done]. by destruct (mongo_ping _ _).
Qed.

End append.

(** ** test_redis.c *)

Section redis_test.
Context {H : Type} `{HiredisLaws H}.
Context (rank : Z).

Lemma write_keys_ok n i (h : H) base value :
  hi_up h ->
  exists h', write_keys rank n i base value h = (Ok (), h') /\ hi_up h' /\
    (forall j, i <= j < i + Z.of_nat n -> hi_view h' !! test_key rank base j = Some value) /\
    (forall k, (forall j, i <= j < i + Z.of_nat n -> k <> test_key rank base j) ->
       hi_view h' !! k = hi_view h !! k).
Proof.
  revert i h. induction n as [|n IH]; intros i h Hu; cbn [write_keys].
  { exists h. repeat split; [done|intros; lia]. }
  destruct (hi_set_up h (test_key rank base i) value Hu) as (h1 & E1 & U1 & V1).
  destruct (IH (i + 1) h1 U1) as (h2 & E2 & U2 & K2 & F2).
  exists h2. erewrite st_bind_Ok; [|unfold Io.write_redis; by rewrite E1].
  split; [done|]. split; [done|]. split.
  - intros j Hj. destruct (decide (j = i)) as [->|]; [|apply K2; lia].
    rewrite F2; [by rewrite V1, lookup_insert_eq|]. intros j' Hj' Ek%sub_key_inj. lia.
  - intros k Hk. rewrite F2; [|intros j Hj; apply Hk; lia].
    rewrite V1, lookup_insert_ne; [done|]. intros <-. by apply (Hk i); [lia|].
Qed.

(** The Redis test of a rank stores its value under every one of its keys, and
    changes nothing else. *)
Theorem test_redis_writes connect rand prog base (h : H) :
  hi_up h -> connect (genNodeList []) = Some true -> zlen (test_key rank base NUM_OPS) < 1024 ->
  exists value h', test_redis_main rank connect rand [prog; base] h = (Ok (), h') /\
    zlen value = TEST_SIZE /\
    (forall j, 1 <= j <= NUM_OPS -> hi_view h' !! test_key rank base j = Some value) /\
    (forall k, (forall j, 1 <= j <= NUM_OPS -> k <> test_key rank base j) ->
       hi_view h' !! k = hi_view h !! k).
Proof.
  intros Hu Hc Hl.
  assert (exists v, randstring rand TEST_SIZE = Ok (Some v) /\ zlen v = TEST_SIZE) as (v & Ev & Hv).
  { eexists. split; [done|]. unfold zlen. rewrite length_fmap, length_seq. done. }
  destruct (write_keys_ok (Z.to_nat NUM_OPS) 1 h base v Hu) as (h' & E & _ & K & F).
  exists v, h'. split; [|split; [done|]].
  - unfold test_redis_main. destruct (Z.leb_spec 1024 (zlen (test_key rank base NUM_OPS))); [lia|].
    erewrite st_bind_Ok; [|unfold lift, Io.randstring; by rewrite Ev].
    assert (Io.connectToRedisServer connect = Ok true) as Ec.
    { unfold Io.connectToRedisServer.
      assert (node_array (genNodeList []) = Ok (genNodeList [])) as En by done.
      change (Io.genNodeList []) with (genNodeList []). rewrite En.
      unfold mbind; cbn [outcome_bind]. by rewrite bool_decide_eq_true_2. }
    erewrite st_bind_Ok; [|unfold lift; by rewrite Ec]. done.
  - assert (1 + Z.of_nat (Z.to_nat NUM_OPS) = NUM_OPS + 1) as En by (unfold NUM_OPS; lia).
    rewrite En in K, F. split.
    + intros j Hj. apply K. lia.
    + intros k Hk. apply F. intros j Hj. apply Hk. lia.
Qed.

End redis_test.
