(* ===== verification/EngineMongo.v ===== *)
(** * EngineMongo: old/internal_component/engine/test_mongo.c

    Each MPI rank inserts a number of values of one size.  The result of the
    connection is ignored; as in SingleHopMongo, [destroy] is what [bson_destroy]
    does on the pointer that was never set. *)

From S2P Require Import Prelude CText Effects ShadowLink ShadowStore Engine.

(** ** The command line *)

(** A null pointer is [None]. *)
Record test_arguments := mkTestArguments {
  t_req_size : Z;
  t_count : Z;
  t_policy : option (list ascii);
  t_target : option (list ascii);
}.

(** [None] is ARGP_ERR_UNKNOWN. *)
Definition test_parse_opt (key : argp_key) (arg : list ascii) (a : test_arguments)
    : option test_arguments :=
  match key with
  | KEY_OPT c =>
      if decide (c = "s"%char) then Some (mkTestArguments (atoi arg) (t_count a) (t_policy a) (t_target a))
      else if decide (c = "c"%char) then Some (mkTestArguments (t_req_size a) (atoi arg) (t_policy a) (t_target a))
      else if decide (c = "p"%char) then Some (mkTestArguments (t_req_size a) (t_count a) (Some arg) (t_target a))
      else if decide (c = "t"%char) then Some (mkTestArguments (t_req_size a) (t_count a) (t_policy a) (Some arg))
      else None
  | _ => None
  end.

(** An unknown option or argument ends the process with the usage text; nothing
    is called for the end of the line. *)
Definition test_parse_args (opts : list (argp_key * list ascii)) : outcome test_arguments :=
  foldl (fun a o => a' ← a;
           match test_parse_opt o.1 o.2 a' with Some a'' => Ok a'' | None => Exit 64 end)
    (Ok (mkTestArguments (-1) (-1) None None)) opts.

(** ** The program *)

Section mongo.
Context {D : Type} `{Mongoc D}.
Context (max : Z) (rnd : Z -> nat -> Z) (ping : list ascii -> bool) (destroy : outcome unit).

(** The server's collection, and whether the global [collection] refers to it. *)
Record TestState := mkTestState { t_server : D; t_connected : bool }.

Definition test_connect (hostname : list ascii) : ST TestState unit := fun s =>
  let uri_string := chars "mongodb://" ++ hostname ++ [":"%char] ++ dec MONGODB_PORT in
  if zlen uri_string <? 1024 then
    if ping uri_string then (lift destroy;; put_state (mkTestState (t_server s) true)) s else (Ok (), s)
  else (Undefined OutOfBounds, s).

(** [malloc (req_size)] of a negative size fails, and [memset] follows anyway. *)
Definition test_buffer (req_size : Z) : outcome buffer :=
  if req_size <? 0 then Undefined NullDeref
  else Ok (Some (replicate (Z.to_nat req_size) (Some "A"%char))).

(** [sprintf (key, "%s_%d_%d_%d", key_base, rank, rand (), i)]. *)
Definition mongo_test_key (rank random i : Z) : list ascii :=
  sub_key (sub_key (sub_key KEY_BASE_STR rank) random) i.

Definition test_write (key : list ascii) (buf : buffer) (req_size : Z) : ST TestState unit := fun s =>
  if t_connected s then
    let '(o, d) := Io.write_mongo_sized max key buf req_size (t_server s) in (o, mkTestState d true)
  else (Undefined NullDeref, s).

(** [n] turns from the [i]-th; the [i]-th random number is drawn in it. *)
Fixpoint test_insert (n i : nat) (seed rank : Z) (buf : buffer) (req_size : Z) : ST TestState unit :=
  match n with
  | O => mret ()
  | S n =>
      test_write (mongo_test_key rank (rnd seed i) (Z.of_nat i)) buf req_size;;
      test_insert n (S i) seed rank buf req_size
  end.

Definition test_seed (rank count : Z) : Z := u32 (i32 (i32 (rank + count) + i32 (rank * count))).

Definition test_mongo_main (rank : Z) (hostname : list ascii) (opts : list (argp_key * list ascii))
    : ST TestState unit :=
  a ← lift (test_parse_args opts);
  test_connect hostname;;
  buf ← lift (test_buffer (t_req_size a));
  test_insert (Z.to_nat (t_count a)) 0 (test_seed rank (t_count a)) rank buf (t_req_size a).

End mongo.
Arguments TestState : clear implicits.
Arguments mkTestState {D}.

(** ** What the test leaves *)

Section specs.
Context {D : Type} `{MongocLaws D}.
Context (max : Z) (rnd : Z -> nat -> Z).

Definition test_doc (key : list ascii) (req_size : Z) : document :=
  [(ID_FIELD, key); (chars "queryid", key); (key, replicate (Z.to_nat req_size) "A"%char)].

Lemma test_write_ok key req_size (d : D) :
  mc_up d -> mc_view d !! key = None -> 0 <= req_size <= max ->
  exists d', test_write max key (Some (replicate (Z.to_nat req_size) (Some "A"%char))) req_size
      (mkTestState d true) = (Ok (), mkTestState d' true) /\
    mc_up d' /\ mc_view d' = <[key := test_doc key req_size]> (mc_view d).
Proof.
  intros Hu Hk Hs. destruct (mc_insert_up d key (test_doc key req_size) Hu) as (d' & E & U & V); [done|done|].
  exists d'. split; [|done]. unfold test_write, Io.write_mongo_sized. cbn [t_connected t_server].
  destruct (Z.ltb_spec max req_size); [lia|].
  assert (Some (replicate (Z.to_nat req_size) (Some "A"%char)) =
    Some (Some <$> replicate (Z.to_nat req_size) "A"%char)) as -> by by rewrite fmap_replicate.
  assert (zlen (replicate (Z.to_nat req_size) "A"%char) = req_size) as Hl
    by (unfold zlen; rewrite length_replicate; lia).
  rewrite mem_read_in by (rewrite ?zlen_fmap; lia). rewrite slice_fmap.
  replace (slice 0 req_size _) with (replicate (Z.to_nat req_size) "A"%char)
    by (rewrite <- (slice_whole (replicate _ _)) at 1; by rewrite Hl).
  change (Ok (Some <$> ?l) ≫= defined) with (defined (Some <$> l)). rewrite defined_chars.
  rewrite (st_bind_Ok _ _ _ (replicate (Z.to_nat req_size) "A"%char) d) by done.
  unfold Io.insert_doc. unfold test_doc in E. by rewrite E.
Qed.

Lemma test_insert_ok n i seed rank req_size (d : D) :
  mc_up d -> 0 <= req_size <= max ->
  (forall j, (i <= j < i + n)%nat ->
     mc_view d !! mongo_test_key rank (rnd seed j) (Z.of_nat j) = None) ->
  exists d', test_insert max rnd n i seed rank (Some (replicate (Z.to_nat req_size) (Some "A"%char))) req_size
      (mkTestState d true) = (Ok (), mkTestState d' true) /\ mc_up d' /\
    (forall j, (i <= j < i + n)%nat -> mc_view d' !! mongo_test_key rank (rnd seed j) (Z.of_nat j) =
       Some (test_doc (mongo_test_key rank (rnd seed j) (Z.of_nat j)) req_size)) /\
    (forall k, (forall j, (i <= j < i + n)%nat -> k <> mongo_test_key rank (rnd seed j) (Z.of_nat j)) ->
       mc_view d' !! k = mc_view d !! k).
Proof.
  revert i d. induction n as [|n IH]; intros i d Hu Hs Hfree; cbn [test_insert].
  { exists d. repeat split; [done|intros; lia]. }
  destruct (test_write_ok (mongo_test_key rank (rnd seed i) (Z.of_nat i)) req_size d Hu)
    as (d1 & E1 & U1 & V1); [apply Hfree; lia|done|].
  destruct (IH (S i) d1 U1 Hs) as (d2 & E2 & U2 & K2 & F2).
  { intros j Hj. rewrite V1, lookup_insert_ne; [apply Hfree; lia|]. intros Ek%sub_key_inj. lia. }
  exists d2. rewrite (st_bind_Ok _ _ _ _ _ E1). split; [done|]. split; [done|]. split.
  - intros j Hj. destruct (decide (j = i)) as [->|]; [|apply K2; lia].
    rewrite F2; [by rewrite V1, lookup_insert_eq|]. intros j' Hj' Ek%sub_key_inj. lia.
  - intros k Hk. rewrite F2; [|intros j Hj; apply Hk; lia].
    rewrite V1, lookup_insert_ne; [done|]. intros <-. by apply (Hk i); [lia|].
Qed.

(** In a run that survives the read of the pointer, every rank inserts one
    document per turn, each under its own key with [req_size] characters, and
    changes nothing else. *)
Theorem test_mongo_stores ping rank hostname opts a (d : D) :
  let key j := mongo_test_key rank (rnd (test_seed rank (t_count a)) j) (Z.of_nat j) in
  mc_up d -> test_parse_args opts = Ok a -> 0 <= t_req_size a <= max ->
  zlen hostname < 1000 -> (forall uri, ping uri = true) ->
  (forall j, mc_view d !! key j = None) ->
  exists d', test_mongo_main max rnd ping (Ok ()) rank hostname opts (mkTestState d false) =
      (Ok (), mkTestState d' true) /\
    (forall j, Z.of_nat j < t_count a -> mc_view d' !! key j = Some (test_doc (key j) (t_req_size a))) /\
    (forall k, (forall j, Z.of_nat j < t_count a -> k <> key j) -> mc_view d' !! k = mc_view d !! k).
Proof.
  intros key Hu Ha Hs Hh Hp Hfree.
  destruct (test_insert_ok (Z.to_nat (t_count a)) 0 (test_seed rank (t_count a)) rank (t_req_size a) d Hu Hs)
    as (d' & E & _ & K & F); [intros; apply Hfree|].
  exists d'. split; [|split; [intros j Hj; apply K; lia|intros k Hk; apply F; intros; apply Hk; lia]].
  unfold test_mongo_main. rewrite (st_bind_Ok _ _ _ a (mkTestState d false)) by (unfold lift; by rewrite Ha).
  rewrite (st_bind_Ok _ _ _ () (mkTestState d true)).
  - rewrite (st_bind_Ok _ _ _ (Some (replicate (Z.to_nat (t_req_size a)) (Some "A"%char))) (mkTestState d true));
      [exact E|]. unfold lift, test_buffer. destruct (Z.ltb_spec (t_req_size a) 0); [lia|done].
  - unfold test_connect. rewrite !zlen_app. change (zlen (chars "mongodb://")) with 10.
    change (zlen [":"%char]) with 1. change (zlen (dec MONGODB_PORT)) with 5.
    destruct (Z.ltb_spec (10 + (zlen hostname + (1 + 5))) 1024); [|lia]. by rewrite Hp.
Qed.

(** By the standard it inserts nothing: the connection has undefined behaviour,
    and without it the null collection is used. *)
Theorem test_mongo_never_stores ping rank hostname opts (d : D) :
  exists o s', test_mongo_main max rnd ping (Undefined UninitRead) rank hostname opts (mkTestState d false) =
      (o, s') /\ t_server s' = d.
Proof.
  unfold test_mongo_main, lift. unfold mbind at 1, st_bind.
  destruct (test_parse_args opts) as [a| | |]; [|by do 2 eexists..].
  unfold test_connect. destruct (_ <? 1024); [|by do 2 eexists].
  destruct (ping _); [by do 2 eexists|]. rewrite (st_bind_Ok _ _ _ () (mkTestState d false)) by done.
  unfold mbind, st_bind. destruct (test_buffer _) as [b| | |]; [|by do 2 eexists..].
  destruct (Z.to_nat (t_count a)); by do 2 eexists.
Qed.

End specs.
