(* ===== verification/Colocation.v ===== *)
(** * Colocation: old/colocation/Redis

    A trace replayer on a Redis cluster (redis.c, main.c): the data of every
    read in the trace is stored first, then the trace is replayed, as often as
    the time limit allows.  The state is the cluster and the position in the
    sequence of [rand ()]; in the whole program the cluster is what the global
    [cc] points to, if anything. *)

From S2P Require Import Prelude CText Effects ShadowLink ShadowStore.

Definition redis_node_base : list ascii := chars "ares-stor".
Definition redis_port_base : Z := 7000.
Definition redis_node_id_base : Z := 16.
Definition redis_node_count : nat := 16.
Definition redis_node_postfix : list ascii := chars "-40g".
Definition MAX_NODELIST_LEN : Z := 512.

(** The host numbers skip one after the second node. *)
Definition redis_node (i : nat) : list ascii :=
  let id := if (1 <? i)%nat then redis_node_id_base + Z.of_nat i + 1 else redis_node_id_base + Z.of_nat i in
  redis_node_base ++ ["-"%char] ++ dec2 id ++ redis_node_postfix ++ [":"%char] ++
  dec (redis_port_base + Z.of_nat i).

Definition redis_nodes : list ascii :=
  foldl (fun l i => l ++ redis_node i ++ (if (i =? redis_node_count - 1)%nat then [] else [","%char]))
    [] (seq 0 redis_node_count).

(** [getline]: a whole line. *)
Definition getline (s : list ascii) : option (list ascii * list ascii) :=
  match s with [] => None | _ => Some (read_line (length s) s) end.

(** [atol (strtok (NULL, ","))]. *)
Definition atol_word (rest : list ascii) : outcome (Z * list ascii) :=
  match strtok ","%char rest with
  | None => Undefined NullDeref
  | Some (tok, rest') => Ok (atol tok, rest')
  end.

(** The three words of a line. *)
Definition parse_line (line : list ascii) : outcome (list ascii * Z * Z) :=
  match strtok ","%char (cstr line) with
  | None => Undefined NullDeref
  | Some (operation, r1) =>
      '(offset, r2) ← atol_word r1;
      '(request_size, _) ← atol_word r2;
      Ok (operation, offset, u64 request_size)
  end.

(** [sprintf (key, "%d_%d_%d", offset, request_size, rank)]. *)
Definition data_key (offset request_size rank : Z) : list ascii :=
  dec (i32 offset) ++ ["_"%char] ++ dec (i32 request_size) ++ ["_"%char] ++ dec rank.

Definition charset : list ascii :=
  chars "abcdefghijklmnopqrstuvwxyzABCDEFGHIJKLMNOPQRSTUVWXYZ0123456789".

(** [length] letters; a negative length is an allocation that fails. *)
Definition randstring (rand : nat -> Z) (calls : nat) (length : Z) : option (list ascii) :=
  if length <=? 0 then None
  else Some ((fun n => default nul (charset !! Z.to_nat (rand (calls + n)%nat mod zlen charset)))
               <$> seq 0 (Z.to_nat length)).

Section replay.
Context {H : Type} `{Hiredis H}.
Context (rand : nat -> Z) (rank : Z).

Record state := mkState { cluster : H; calls : nat }.

(** A generated value under the key of a request. *)
Definition put_data (offset request_size : Z) : ST state unit := fun s =>
  match randstring rand (calls s) (i64 request_size) with
  | None => (Undefined NullDeref, s)
  | Some writebuf =>
      let '(reply, h) := hi_set (data_key offset request_size rank) writebuf (cluster s) in
      let s' := mkState h (calls s + length writebuf) in
      match reply with
      | None => (Exit (-1), s')                     (* [cc->err] is set *)
      | Some None => (Undefined NullDeref, s')
      | Some (Some text) => (if decide (text = chars "OK") then Ok () else Exit (-1), s')
      end
  end.

(** A read whose reply has another length ends the process. *)
Definition get_data (offset request_size : Z) : ST state unit := fun s =>
  match hi_get (data_key offset request_size rank) (cluster s) with
  | None => (Undefined NullDeref, s)
  | Some text => (if zlen (default [] text) =? request_size then Ok () else Exit (-1), s)
  end.

Definition prepare_line (operation : list ascii) (offset request_size : Z) : ST state unit :=
  if decide (operation = chars "READ") then
    if request_size =? 0 then mret () else put_data offset request_size
  else mret ().

(** The loop ends at a line of less than four characters; the length of the
    trace bounds its turns. *)
Fixpoint prepare_loop (fuel : nat) (trace : list ascii) : ST state unit :=
  match getline trace with
  | None => mret ()
  | Some (line, trace') =>
      if zlen line <? 4 then mret () else
      match fuel with
      | O => undefined NoReturn
      | S fuel =>
          '(operation, offset, request_size) ← lift (parse_line line);
          prepare_line operation offset request_size;;
          prepare_loop fuel trace'
      end
  end.

Definition prepare_data_redis (trace : option (list ascii)) : ST state Z :=
  match trace with
  | None => mret (-1)
  | Some trace => prepare_loop (length trace) trace;; mret 0
  end.

Definition replay_line (operation : list ascii) (offset request_size : Z) : ST state unit :=
  if decide (operation = chars "WRITE") then
    if request_size =? 0 then mret () else put_data offset request_size
  else if decide (operation = chars "READ") then get_data offset request_size
  else mret ().

Fixpoint replay_loop (fuel : nat) (trace : list ascii) (total_size : Z) : ST state Z :=
  match getline trace with
  | None => mret total_size
  | Some (line, trace') =>
      if zlen line <? 4 then mret total_size else
      match fuel with
      | O => undefined NoReturn
      | S fuel =>
          '(operation, offset, request_size) ← lift (parse_line line);
          replay_line operation offset request_size;;
          replay_loop fuel trace' (u64 (total_size + request_size))
      end
  end.

Definition replay_trace_redis (trace : option (list ascii)) : ST state Z :=
  match trace with
  | None => mret (u64 (-1))
  | Some trace => replay_loop (length trace) trace 0
  end.

(** [rounds] is the number of replays after which the time is over. *)
Fixpoint replay_rounds (rounds : nat) (trace : option (list ascii)) : ST state Z :=
  match rounds with
  | O => replay_trace_redis trace
  | S rounds => _ ← replay_trace_redis trace; replay_rounds rounds trace
  end.

End replay.
Arguments state : clear implicits.
Arguments mkState {H}.

(** The commands through [cc]: a null pointer gives a null reply to each. *)
Definition context_redis {H} `{Hiredis H} : Hiredis (option H) := {|
  hi_set k v cc :=
    match cc with
    | Some h => let '(reply, h') := hi_set k v h in (reply, Some h')
    | None => (Some None, None)   (* [cc->err] is not looked at, the reply is *)
    end;
  hi_get k cc := match cc with Some h => hi_get k h | None => None end;
|}.

Section program.
Context {H : Type} `{Hiredis H}.
Context (rand : nat -> Z) (rank : Z).
#[local] Existing Instance context_redis.

(** Without a context [redis_init] returns 0 as well. *)
Definition redis_init (connect : connector) : ST (state (option H)) Z := fun s =>
  if zlen redis_nodes <? MAX_NODELIST_LEN then
    match connect redis_nodes with
    | Some true => (Ok 0, s)
    | Some false => (Exit (-1), s)
    | None => (Ok 0, mkState None (calls s))
    end
  else (Undefined OutOfBounds, s).

Definition main (connect : connector) (trace : option (list ascii)) (prepare_only : Z) (rounds : nat)
    : ST (state (option H)) (option Z) :=
  _ ← redis_init connect;
  _ ← prepare_data_redis rand rank trace;
  if prepare_only =? 0 then total_size ← replay_rounds rand rank rounds trace; mret (Some total_size)
  else mret None.

End program.
