(* ===== verification/ColocationSpec.v ===== *)
(** * ColocationSpec: a prepared trace can be replayed

    The key of a request carries its size, so whatever is stored under it has
    that size: after the preparation every read of the trace finds as many
    bytes as it asks for, in every round of the replay. *)

From S2P Require Import Prelude CText Effects ShadowLink ShadowStore Colocation.

Inductive operation := FOPEN | FCLOSE | T_WRITE | T_READ | LSEEK.

#[global] Instance operation_eq_dec : EqDecision operation.
Proof. solve_decision. Defined.

Definition operation_name (op : operation) : list ascii :=
  chars match op with
        | FOPEN => "FOPEN" | FCLOSE => "FCLOSE" | T_WRITE => "WRITE" | T_READ => "READ" | LSEEK => "LSEEK"
        end.

Record request := mkRequest { r_op : operation; r_offset : Z; r_size : Z }.

Definition request_ok (r : request) : Prop :=
  - 2 ^ 31 <= r_offset r < 2 ^ 31 /\ 0 <= r_size r < 2 ^ 31.

Definition request_text (r : request) : list ascii :=
  comma_line (operation_name (r_op r)) (r_offset r) (r_size r).

Definition trace_text (rs : list request) : list ascii :=
  concat ((fun r => request_text r ++ [newline]) <$> rs).

Definition trace_size (rs : list request) : Z := foldr (fun r n => r_size r + n) 0 rs.

Lemma operation_name_ok op : word_ok (operation_name op).
Proof. destruct op; (split; [done|]); repeat split; try notin; done. Qed.

Lemma request_text_clean r : (newline ∉ request_text r) /\ (nul ∉ request_text r).
Proof.
  destruct (operation_name_ok (r_op r)) as (_ & _ & ? & ? & _). split; by apply comma_line_notin.
Qed.

(** The words of a line. *)
Lemma request_words r :
  request_ok r ->
  exists l1 l2, strtok ","%char (cstr (request_text r ++ [newline])) = Some (operation_name (r_op r), l1) /\
    atol_word l1 = Ok (r_offset r, l2) /\ atol_word l2 = Ok (r_size r, []).
Proof.
  intros [Ho Hs]. pose proof (request_text_clean r) as [_ H0].
  rewrite cstr_id by (rewrite not_elem_of_app, list_elem_of_singleton; done).
  destruct (comma_line_words (operation_name (r_op r)) (r_offset r) (r_size r)) as (W1 & W2 & W3);
    [apply operation_name_ok|].
  do 2 eexists. split; [exact W1|]. unfold atol_word. rewrite W2, W3. split; [|by rewrite atol_dec_newline by lia].
  by rewrite <- (app_nil_r (dec (r_offset r))), atol_dec by (done || lia).
Qed.

Lemma parse_line_request r :
  request_ok r -> parse_line (request_text r ++ [newline]) = Ok (operation_name (r_op r), r_offset r, r_size r).
Proof.
  intros Hr. destruct (request_words r Hr) as (l1 & l2 & W & A1 & A2). unfold parse_line.
  rewrite W. unfold mbind. rewrite A1. cbn [outcome_bind]. rewrite A2. cbn [outcome_bind].
  by rewrite u64_small by (destruct Hr; lia).
Qed.

Lemma trace_text_cons r rs : trace_text (r :: rs) = request_text r ++ newline :: trace_text rs.
Proof. unfold trace_text. rewrite fmap_cons. cbn [concat]. by rewrite <- app_assoc. Qed.

(** A line, whatever follows it. *)
Lemma getline_line r rest :
  request_ok r ->
  getline (request_text r ++ newline :: rest) = Some (request_text r ++ [newline], rest) /\
  (zlen (request_text r ++ [newline]) <? 4) = false.
Proof.
  intros [Ho Hs].
  assert (4 <= zlen (request_text r) <= 80) as Hl.
  { apply comma_line_length; [apply operation_name_ok|done|lia]. }
  pose proof (request_text_clean r) as [Hn _]. split.
  - unfold getline. destruct (request_text r ++ newline :: rest) eqn:E.
    { by destruct (request_text r). }
    rewrite <- E, read_line_line; [done|done|]. rewrite length_app. simpl. lia.
  - apply Z.ltb_ge. rewrite zlen_app. change (zlen [newline]) with 1. lia.
Qed.

(** A line of the trace. *)
Lemma getline_request r rs :
  request_ok r ->
  getline (trace_text (r :: rs)) = Some (request_text r ++ [newline], trace_text rs) /\
  (zlen (request_text r ++ [newline]) <? 4) = false.
Proof. intros Hr. rewrite trace_text_cons. by apply getline_line. Qed.

Lemma trace_text_length rs : (length rs <= length (trace_text rs))%nat.
Proof.
  induction rs as [|r rs IH]; [done|]. rewrite trace_text_cons, length_app. simpl. lia.
Qed.

Section replays.
Context {H : Type} `{HiredisLaws H}.
Context (rand : nat -> Z) (rank : Z).
Implicit Types s : state H.

Definition request_key (r : request) : list ascii := data_key (r_offset r) (r_size r) rank.

(** What a read of the request would find has its size. *)
Definition ready s (r : request) : Prop :=
  zlen (default [] (hi_view (cluster s) !! request_key r)) = r_size r.

Lemma request_key_size r1 r2 :
  request_ok r1 -> request_ok r2 -> request_key r1 = request_key r2 -> r_size r1 = r_size r2.
Proof.
  intros [? ?] [? ?]. unfold request_key, data_key. rewrite !i32_small by lia. cbn [app].
  intros [_ E]%first_sep_inj; [|by apply dec_notin..].
  apply first_sep_inj in E as [E _]; [by apply dec_inj|by apply dec_notin..].
Qed.

(** A stored value keeps every request ready. *)
Lemma put_data_ok s r :
  hi_up (cluster s) -> request_ok r -> 0 < r_size r ->
  exists s', put_data rand rank (r_offset r) (r_size r) s = (Ok (), s') /\ hi_up (cluster s') /\
    ready s' r /\ forall r', request_ok r' -> ready s r' -> ready s' r'.
Proof.
  intros Hu Hr Hs. pose proof Hr as [_ Hr']. unfold put_data, randstring. rewrite i64_small by lia.
  destruct (Z.leb_spec (r_size r) 0); [lia|].
  set (v := _ <$> seq 0 (Z.to_nat (r_size r))).
  assert (zlen v = r_size r) as Hv by (unfold zlen, v; rewrite length_fmap, length_seq; lia).
  destruct (hi_set_up (cluster s) (request_key r) v Hu) as (h' & E & Hu' & Hview).
  unfold request_key in E. rewrite E. rewrite decide_True by done.
  eexists. split; [done|]. split; [done|]. unfold ready; cbn [cluster]. rewrite Hview. split.
  - by rewrite lookup_insert_eq.
  - intros r' Hok Hready. destruct (decide (request_key r = request_key r')) as [Ek|Ek].
    + rewrite <- Ek, lookup_insert_eq. cbn. rewrite Hv. by apply request_key_size.
    + by rewrite lookup_insert_ne.
Qed.

Lemma get_data_ok s r :
  hi_up (cluster s) -> ready s r -> get_data rank (r_offset r) (r_size r) s = (Ok (), s).
Proof.
  intros Hu Hr. unfold get_data. rewrite hi_get_up by done. fold (request_key r). unfold ready in Hr.
  by rewrite Hr, Z.eqb_refl.
Qed.

Definition keeps s s' : Prop :=
  hi_up (cluster s') /\ forall r, request_ok r -> ready s r -> ready s' r.

Lemma keeps_refl s : hi_up (cluster s) -> keeps s s.
Proof. by split. Qed.

Lemma keeps_trans s1 s2 s3 : keeps s1 s2 -> keeps s2 s3 -> keeps s1 s3.
Proof. intros [_ K1] [U K2]. split; [done|]. auto. Qed.

Lemma prepare_line_ok s r :
  hi_up (cluster s) -> request_ok r ->
  exists s', prepare_line rand rank (operation_name (r_op r)) (r_offset r) (r_size r) s = (Ok (), s') /\
    keeps s s' /\ (r_op r = T_READ -> r_size r <> 0 -> ready s' r).
Proof.
  intros Hu Hr. pose proof Hr as [_ Hsz]. unfold prepare_line.
  case_decide as Hop.
  - destruct (Z.eqb_spec (r_size r) 0); [exists s; split; [done|]; by split; [apply keeps_refl|]|].
    destruct (put_data_ok s r) as (s' & E & U & R & K); [done|done|lia|]. exists s'. by repeat split.
  - exists s. split; [done|]. split; [by apply keeps_refl|]. intros Hread. by rewrite Hread in Hop.
Qed.

Lemma replay_line_ok s r :
  hi_up (cluster s) -> request_ok r -> (r_op r = T_READ -> ready s r) ->
  exists s', replay_line rand rank (operation_name (r_op r)) (r_offset r) (r_size r) s = (Ok (), s') /\ keeps s s'.
Proof.
  intros Hu Hr Hready. pose proof Hr as [_ Hsz]. unfold replay_line.
  case_decide; [|case_decide as Hop].
  - destruct (Z.eqb_spec (r_size r) 0); [by exists s|].
    destruct (put_data_ok s r) as (s' & E & U & _ & K); [done|done|lia|]. by exists s'.
  - exists s. rewrite get_data_ok; [by repeat split|done|]. apply Hready.
    destruct (r_op r); try done.
  - by exists s.
Qed.

Lemma prepare_loop_ok rs fuel s :
  Forall request_ok rs -> (length rs <= fuel)%nat -> hi_up (cluster s) ->
  exists s', prepare_loop rand rank fuel (trace_text rs) s = (Ok (), s') /\ keeps s s' /\
    Forall (fun r => r_op r = T_READ -> r_size r <> 0 -> ready s' r) rs.
Proof.
  intros Hall. revert fuel s. induction Hall as [|r rs Hr Hall IH]; intros fuel s Hf Hu.
  { exists s. split; [by destruct fuel|]. split; [by split|done]. }
  destruct fuel as [|fuel]; [simpl in Hf; lia|].
  destruct (getline_request r rs Hr) as [G L]. cbn [prepare_loop]. rewrite G, L.
  erewrite st_bind_Ok; [|unfold lift; by rewrite parse_line_request].
  destruct (prepare_line_ok s r Hu Hr) as (s1 & E1 & K1 & R1).
  erewrite st_bind_Ok by done.
  destruct (IH fuel s1) as (s2 & E2 & K2 & R2); [simpl in Hf; lia|apply K1|].
  exists s2. split; [done|]. split; [by eapply keeps_trans|]. constructor; [|done].
  intros Hop Hz. apply K2; [done|]. by apply R1.
Qed.

Lemma trace_size_cons r rs : trace_size (r :: rs) = r_size r + trace_size rs.
Proof. done. Qed.

Lemma trace_size_nonneg rs : Forall request_ok rs -> 0 <= trace_size rs.
Proof. induction 1 as [|r rs [_ Hr] _ IH]; [done|]. rewrite trace_size_cons. lia. Qed.

Definition reads_ready s rs : Prop := Forall (fun r => r_op r = T_READ -> ready s r) rs.

Lemma reads_ready_keeps s s' rs : Forall request_ok rs -> keeps s s' -> reads_ready s rs -> reads_ready s' rs.
Proof.
  unfold reads_ready. rewrite !Forall_forall. intros Hok [_ K] Hr r Hin Hop. apply K; auto.
Qed.

Lemma replay_trace_loop_ok rs fuel s total :
  Forall request_ok rs -> (length rs <= fuel)%nat -> hi_up (cluster s) -> reads_ready s rs ->
  0 <= total -> total + trace_size rs < 2 ^ 64 ->
  exists s', replay_loop rand rank fuel (trace_text rs) total s = (Ok (total + trace_size rs), s') /\ keeps s s'.
Proof.
  intros Hall. revert fuel s total. induction Hall as [|r rs Hr Hall IH]; intros fuel s total Hf Hu Hready Hlow Ht.
  { exists s. split; [|by split]. unfold trace_size; simpl. rewrite Z.add_0_r. by destruct fuel. }
  destruct fuel as [|fuel]; [simpl in Hf; lia|]. pose proof Hr as [_ Hsz].
  pose proof (trace_size_nonneg rs Hall). rewrite trace_size_cons in *.
  destruct (getline_request r rs Hr) as [G L]. cbn [replay_loop]. rewrite G, L.
  erewrite st_bind_Ok; [|unfold lift; by rewrite parse_line_request].
  apply Forall_cons in Hready as [Hready1 Hready].
  destruct (replay_line_ok s r Hu Hr Hready1) as (s1 & E1 & K1).
  erewrite st_bind_Ok by done. rewrite u64_small by lia.
  destruct (IH fuel s1 (total + r_size r)) as (s2 & E2 & K2); try lia.
  { simpl in Hf; lia. } { apply K1. } { by eapply reads_ready_keeps. }
  exists s2. rewrite E2. split; [do 2 f_equal; lia|by eapply keeps_trans].
Qed.

Lemma replay_rounds_ok rounds rs s :
  Forall request_ok rs -> hi_up (cluster s) -> reads_ready s rs -> trace_size rs < 2 ^ 64 ->
  exists s', replay_rounds rand rank rounds (Some (trace_text rs)) s = (Ok (trace_size rs), s').
Proof.
  intros Hall. revert s. induction rounds as [|n IH]; intros s Hu Hr Ht;
    destruct (replay_trace_loop_ok rs (length (trace_text rs)) s 0) as (s' & E & K);
    rewrite ?Z.add_0_l in *; try done; try lia; try apply trace_text_length; [by eauto|].
  cbn [replay_rounds]. erewrite st_bind_Ok by done.
  apply IH; [apply K|by eapply reads_ready_keeps|done].
Qed.

End replays.

(** ** The program *)

(** A context serves what its cluster serves. *)
Definition context_laws {H} `{HiredisLaws H} : @HiredisLaws (option H) context_redis.
Proof.
  refine {| hi_up := fun cc => match cc with Some h => hi_up h | None => False end : Prop;
            hi_view := fun cc => match cc with Some h => hi_view h | None => ∅ end |}.
  - intros [h|] k v Hu; [|done]. destruct (hi_set_up h k v Hu) as (h' & E & Hu' & V).
    exists (Some h'). cbn. by rewrite E.
  - intros [h|] k Hu; [|done]. exact (hi_get_up h k Hu).
Defined.

Section program.
Context {H : Type} `{HiredisLaws H}.
Context (rand : nat -> Z) (rank : Z).

(** C32: A run on a trace of offsets and sizes that are [int]s, with a connection, ends
    with the size of the trace after any number of rounds: no read finds a value of
    another size than it asks for.  Reads of no bytes find nothing. *)
Theorem main_replays connect rs rounds (h : H) calls :
  Forall request_ok rs -> trace_size rs < 2 ^ 64 -> hi_up h ->
  connect redis_nodes = Some true ->
  (forall off, hi_view h !! data_key off 0 rank = None) ->
  exists s', main rand rank connect (Some (trace_text rs)) 0 rounds (mkState (Some h) calls) =
    (Ok (Some (trace_size rs)), s').
Proof.
  intros Hall Ht Hu Hc Hfree. set (s := mkState (Some h) calls).
  destruct (prepare_loop_ok (H1 := context_laws) rand rank rs (length (trace_text rs)) s) as (s1 & E1 & K1 & R1);
    [done|apply trace_text_length|done|].
  assert (reads_ready (H1 := context_laws) rank s1 rs) as Hready.
  { unfold reads_ready. rewrite Forall_forall in R1, Hall |- *. intros r Hin Hop.
    destruct (decide (r_size r = 0)) as [Hz|]; [|by apply R1].
    apply K1; [by apply Hall|]. unfold ready, request_key. rewrite Hz. cbn. by rewrite Hfree. }
  destruct (replay_rounds_ok (H1 := context_laws) rand rank rounds rs s1) as (s2 & E2); [done|apply K1|done|done|].
  exists s2. unfold main. rewrite (st_bind_Ok _ _ _ 0 s) by (unfold redis_init; by rewrite Hc).
  erewrite st_bind_Ok.
  2: { unfold prepare_data_redis. erewrite st_bind_Ok by done. done. }
  cbn [Z.eqb]. erewrite st_bind_Ok by done. done.
Qed.

(** Without a context the first command that is sent dereferences its null reply. *)
Lemma main_without_context connect r rs rounds (h : H) calls :
  request_ok r -> r_op r = T_READ -> 0 < r_size r -> connect redis_nodes = None ->
  (main rand rank connect (Some (trace_text (r :: rs))) 0 rounds (mkState (Some h) calls)).1 = Undefined NullDeref.
Proof.
  intros Hr Hop Hs Hc. pose proof Hr as [_ Hr']. unfold main.
  rewrite (st_bind_Ok _ _ _ 0 (mkState None calls)) by (unfold redis_init; by rewrite Hc).
  enough (exists s', prepare_data_redis (H0 := context_redis) rand rank (Some (trace_text (r :: rs))) (mkState None calls) =
    (Undefined NullDeref, s')) as [s' E] by by erewrite st_bind_Undefined.
  unfold prepare_data_redis. destruct (getline_request r rs Hr) as [G L].
  pose proof (trace_text_length (r :: rs)) as Hl. destruct (length (trace_text (r :: rs))) as [|fuel]; [simpl in Hl; lia|].
  cbn [prepare_loop]. rewrite G, L. eexists. apply st_bind_Undefined.
  erewrite st_bind_Ok; [|unfold lift; by rewrite parse_line_request].
  apply st_bind_Undefined. unfold prepare_line. rewrite Hop, decide_True by done.
  destruct (Z.eqb_spec (r_size r) 0); [lia|]. unfold put_data, randstring. rewrite i64_small by lia.
  destruct (Z.leb_spec (r_size r) 0); [lia|]. done.
Qed.

End program.
