(* ===== verification/Replayer.v ===== *)
(** * Replayer: common/include/common/replayer.h

    The trace replayer of the integration tests: [prepare_data] puts down what
    the reads of a trace need, [replay_trace] performs the trace as often as it
    is asked to, [clean_data] removes what it wrote.  In [POSIX] mode a rank
    works on its own file through libc's streams, modelled without their
    buffers; in the other modes every request goes through a [LibHandler].
    Timing and its reduction over the ranks are not modelled; [malloc] of a
    positive size succeeds. *)

From S2P Require Import Prelude CText Effects Types Services IOClient World Msgpack Config.
From S2P Require Import Distribution Metadata Server Client Iris ShadowLink ShadowStore.
From S2P Require Import Colocation.

Module TraceReplayer.

(** ** Streams *)

(** The variable [FILE *file]: never set, or closed; null; an open stream, with
    its position. *)
Inductive FILE_ptr := Indeterminate | Null | Opened (path : string) (pos : Z).

(** [fopen (path, "w+")]. *)
Definition fopen_w (path : string) (fs : FS) : FILE_ptr * FS :=
  if decide (path ∈ denied fs) then (Null, fs)
  else (Opened path 0, set_files (<[path := []]> (files fs)) fs).

(** A stream function on a pointer that is none. *)
Definition opened (f : FILE_ptr) : outcome (string * Z) :=
  match f with
  | Opened path pos => Ok (path, pos)
  | Null => Undefined NullDeref
  | Indeterminate => Undefined UninitRead
  end.

(** [fseek (file, off, SEEK_SET)]; a failure is not looked at. *)
Definition fseek_set (off : Z) (f : FILE_ptr) : outcome FILE_ptr :=
  '(path, pos) ← opened f; Ok (Opened path (if off <? 0 then pos else off)).

Definition fclose (f : FILE_ptr) : outcome FILE_ptr := opened f;; Ok Indeterminate.

(** [fwrite (bytes, 1, n, file)]; a short count is not looked at. *)
Definition fwrite_at (bytes : list ascii) (f : FILE_ptr) (fs : FS) : outcome (FILE_ptr * FS) :=
  '(path, pos) ← opened f;
  if io_error fs then Ok (f, fs) else
  match bytes with
  | [] => Ok (f, fs)
  | _ => Ok (Opened path (pos + zlen bytes),
             set_files (<[path := splice nul pos bytes (file_content fs path)]> (files fs)) fs)
  end.

(** [fread (buf, 1, n, file)]. *)
Definition fread_at (n : Z) (f : FILE_ptr) (fs : FS) : outcome (list ascii * FILE_ptr) :=
  '(path, pos) ← opened f;
  if io_error fs then Ok ([], f) else
  let bytes := slice pos n (file_content fs path) in
  Ok (bytes, Opened path (pos + zlen bytes)).

(** ** Random strings *)

Definition charset : list ascii :=
  chars "abcdefghijklmnopqrstuvwxyzABCDEFGHIJKLMNOPQRSTUVWXYZ0123456789,.-#'?!".

Definition letters (rand : nat -> Z) (calls : nat) (n : nat) : list ascii :=
  (fun i => default nul (charset !! Z.to_nat (rand (calls + i)%nat mod zlen charset))) <$> seq 0 n.

(** No string for the length 0; the terminator of a string of length -1 is in
    front of its allocation; a smaller length is an allocation that fails. *)
Definition randstring (rand : nat -> Z) (calls : nat) (length : Z) : outcome buffer :=
  if length =? 0 then Ok None
  else if length =? -1 then Undefined OutOfBounds
  else if length <? 0 then Ok None
  else Ok (Some (Some <$> (letters rand calls (Z.to_nat length) ++ [nul]))).

(** ** Lines of a trace *)

Definition parse_line (line : list ascii) : outcome (list ascii * Z * Z) :=
  match strtok ","%char (cstr line) with
  | None => Undefined NullDeref
  | Some (operation, r1) =>
      '(offset, r2) ← atol_word r1;
      '(request_size, _) ← atol_word r2;
      Ok (operation, offset, request_size)
  end.

(** ** The three passes *)

Section replayer.
Context {R M : Type} `{RedisService R} `{MongoService M} `{Msgpack}.
Context (rand sequence client_rand : nat -> Z).
Context (random : nat -> Z).   (* what [randstring] draws *)

(** The servers and stores, the pass's [FILE *file], the draws so far. *)
Record state := mkState { cluster : Cluster R M; file : FILE_ptr; draws : nat }.

Definition fs_of (s : state) : FS := w_fs (cl_world (cluster s)).
Definition with_file (f : FILE_ptr) (fs : FS) (s : state) : state :=
  mkState (mkCluster (cl_servers (cluster s)) (set_fs fs (cl_world (cluster s))) (cl_calls (cluster s)))
    f (draws s).
Definition set_file (f : FILE_ptr) (s : state) : state := mkState (cluster s) f (draws s).

Definition do_fopen (path : string) : ST state unit := fun s =>
  let '(f, fs) := fopen_w path (fs_of s) in (Ok (), with_file f fs s).
Definition do_fclose : ST state unit :=
  s ← get_state; f ← lift (fclose (file s)); put_state (set_file f s).
Definition do_fseek (off : Z) : ST state unit :=
  s ← get_state; f ← lift (fseek_set off (file s)); put_state (set_file f s).

(** [fwrite (buf, sizeof (char), n, file)]. *)
Definition do_fwrite (buf : buffer) (n : Z) : ST state unit :=
  s ← get_state;
  bytes ← lift (mem_read buf 0 n ≫= defined);
  '(f, fs) ← lift (fwrite_at bytes (file s) (fs_of s));
  put_state (with_file f fs s).

(** [readbuf = malloc (n + 1); fseek; fread; free (readbuf)]. *)
Definition do_fread (off n : Z) : ST state unit :=
  do_fseek off;;
  s ← get_state;
  '(bytes, f) ← lift (fread_at (u64 n) (file s) (fs_of s));
  lift (mem_write (if n <? 0 then None else malloc (n + 1)) 0 (Some <$> bytes));;
  put_state (set_file f s).

Definition do_randstring (length : Z) : ST state buffer := fun s =>
  match randstring random (draws s) length with
  | Ok b => (Ok b, mkState (cluster s) (file s) (draws s + Z.to_nat length))
  | Throw e => (Throw e, s) | Undefined u => (Undefined u, s) | Exit c => (Exit c, s)
  end.

(** [lh.run (op, offset, request_size, data)]. *)
Definition lh_run (h : LibHandler) (c : Conf) (op : OPType) (offset request_size : Z) (data : buffer)
    : ST state unit := fun s =>
  let '(o, cl) := LibHandler_run rand sequence client_rand c h op offset (u64 request_size) data (cluster s) in
  (_ ← o; Ok (), mkState cl (file s) (draws s)).

Definition is_POSIX (mode : IOLib) : bool := match mode with POSIX => true | _ => false end.

(** A pass over the lines of a trace; [None] for a null stream.  [stop] is the
    test that ends a pass early; the length of the trace bounds its turns. *)
Fixpoint lines_loop {A} (stop : list ascii -> bool) (body : A -> list ascii -> Z -> Z -> ST state A)
    (fuel : nat) (trace : list ascii) (acc : A) : ST state A :=
  match getline trace with
  | None => mret acc
  | Some (line, trace') =>
      if stop line then mret acc else
      match fuel with
      | O => undefined NoReturn
      | S fuel =>
          '(operation, offset, request_size) ← lift (parse_line line);
          acc' ← body acc operation offset request_size;
          lines_loop stop body fuel trace' acc'
      end
  end.

Section pass.
Context (h : LibHandler) (c : Conf).
Context (path : string).   (* filename + std::to_string (rank) *)

(** A line of [replay_trace]. *)
Definition replay_line (_ : unit) (operation : list ascii) (offset request_size : Z) : ST state unit :=
  if decide (operation = chars "FOPEN") then
    if is_POSIX (lib_type h) then do_fopen path else mret ()
  else if decide (operation = chars "FCLOSE") then
    if is_POSIX (lib_type h) then do_fclose else mret ()
  else if decide (operation = chars "WRITE") then
    writebuf ← do_randstring request_size;
    if is_POSIX (lib_type h) then do_fseek offset;; do_fwrite writebuf (u64 request_size)
    else lh_run h c WRITE offset request_size writebuf
  else if decide (operation = chars "READ") then
    readbuf ← do_randstring request_size;
    if is_POSIX (lib_type h) then do_fread offset request_size
    else lh_run h c READ offset request_size readbuf
  else if decide (operation = chars "LSEEK") then
    if is_POSIX (lib_type h) then do_fseek offset else mret ()
  else mret ().

(** One repetition; false when the trace cannot be opened. *)
Definition replay_once (trace : option (list ascii)) : ST state bool :=
  match trace with
  | None => mret false
  | Some trace => lines_loop (fun line => zlen line <? 4) replay_line (length trace) trace ();; mret true
  end.

(** [while (rep)]. *)
Fixpoint replay_rounds (rep : nat) (trace : option (list ascii)) : ST state bool :=
  match rep with
  | O => mret true
  | S rep => ok ← replay_once trace; if ok : bool then replay_rounds rep trace else mret false
  end.

(** A line of [prepare_data]. *)
Definition prepare_line (max_offset : Z) (operation : list ascii) (offset request_size : Z) : ST state Z :=
  if decide (operation = chars "READ") then
    writebuf ← do_randstring request_size;
    if is_POSIX (lib_type h) then
      mret (if max_offset <? i64 (offset + request_size) then i64 (offset + request_size) else max_offset)
    else lh_run h c WRITE offset request_size writebuf;; mret max_offset
  else mret max_offset.

(** A line of [clean_data]. *)
Definition clean_line (max_offset : Z) (operation : list ascii) (offset request_size : Z) : ST state Z :=
  if decide (operation = chars "WRITE") then
    if is_POSIX (lib_type h) then
      mret (if max_offset <? i64 (offset + request_size) then i64 (offset + request_size) else max_offset)
    else lh_run h c DELETE offset request_size None;; mret max_offset
  else mret max_offset.

End pass.

Definition rank_file (filename : string) (rank : Z) : string := filename +:+ to_string rank.

(** [replay_trace]; the result is false where the code returns before the
    reduction, and the mean of the timings is left out.  A negative number of
    repetitions is never counted down to zero.  [conf] is the configuration the
    handler's client has loaded when its constructor goes on ([LibHandler_new]). *)
Definition replay_trace (trace : option (list ascii)) (filename : string) (repetitions rank : Z)
    (mode : IOLib) (stor_type chunk_size : Z) (conf : Conf) : ST state bool := fun s =>
  let '(h, c) := LibHandler_ctor filename mode stor_type chunk_size false conf in
  (if repetitions <? 0 then undefined NoReturn
   else replay_rounds h c (rank_file filename rank) (Z.to_nat repetitions) trace) (set_file Indeterminate s).

(** [prepare_data]; the file it writes is not closed. *)
Definition prepare_data (trace : option (list ascii)) (filename : string) (rank : Z)
    (mode : IOLib) (stor_type chunk_size : Z) (conf : Conf) : ST state Z := fun s =>
  let '(h, c) := LibHandler_ctor filename mode stor_type chunk_size false conf in
  match trace with
  | None => (Undefined NullDeref, s)
  | Some trace =>
      (max_offset ← lines_loop (fun _ => false) (prepare_line h c) (length trace) trace 0;
       (if is_POSIX mode then
          do_fopen (rank_file filename rank);;
          writebuf ← do_randstring max_offset;
          do_fwrite writebuf (u64 max_offset)
        else mret ());;
       mret 0) (set_file Indeterminate s)
  end.

Definition do_remove (path : string) : ST state unit := fun s =>
  (Ok (), with_file (file s) (posix_remove (fs_of s) path) s).

Definition clean_data (trace : option (list ascii)) (filename : string) (rank : Z)
    (mode : IOLib) (stor_type chunk_size : Z) (conf : Conf) : ST state Z := fun s =>
  let '(h, c) := LibHandler_ctor filename mode stor_type chunk_size false conf in
  match trace with
  | None => (Undefined NullDeref, s)
  | Some trace =>
      (lines_loop (fun _ => false) (clean_line h c) (length trace) trace 0;;
       (if is_POSIX mode then do_remove (rank_file filename rank) else mret ());;
       mret 0) (set_file Indeterminate s)
  end.

End replayer.
Arguments state R M : clear implicits.

End TraceReplayer.
