(* ===== verification/ReplayerSpec.v ===== *)
(** * ReplayerSpec: what the trace replayer does to its file

    In [POSIX] mode: a replay performs the writes of the trace on the file of
    the rank, in order and after each opening from the start; the preparation
    leaves a file as long as the last byte a read asks for; the cleaning removes
    the file. *)

From S2P Require Import Prelude CText Effects Types Services IOClient World Msgpack Config.
From S2P Require Import Distribution Metadata Server Client Iris ShadowLink ShadowStore.
From S2P Require Import Colocation ColocationSpec Replayer.
Import TraceReplayer.

Lemma parse_line_of_request r :
  request_ok r ->
  TraceReplayer.parse_line (request_text r ++ [newline]) = Ok (operation_name (r_op r), r_offset r, r_size r).
Proof.
  intros Hr. destruct (request_words r Hr) as (l1 & l2 & W & A1 & A2). unfold TraceReplayer.parse_line.
  rewrite W. unfold mbind. rewrite A1. cbn [outcome_bind]. by rewrite A2.
Qed.

Lemma length_letters random n k : length (letters random n k) = k.
Proof. unfold letters. by rewrite length_fmap, length_seq. Qed.

(** The requests of a well-formed trace. *)
Definition line_ok (r : request) : Prop := request_ok r /\ 0 <= r_offset r.

(** Every request finds an open file: the state of the file, and the requests. *)
Fixpoint bracketed (is_open : bool) (rs : list request) : Prop :=
  match rs with
  | [] => True
  | r :: rs' =>
      match r_op r with
      | FOPEN => bracketed true rs'
      | FCLOSE => is_open = true /\ bracketed false rs'
      | _ => is_open = true /\ bracketed is_open rs'
      end
  end.

Lemma bracketed_open rs : bracketed false rs -> bracketed true rs.
Proof. destruct rs as [|r rs]; [done|]. cbn. by destruct (r_op r) as [| | | |]; [|intros [? ?]..]. Qed.

(** The bytes of a write; the strings drawn by a request. *)
Definition drawn (r : request) : nat :=
  match r_op r with T_WRITE | T_READ => Z.to_nat (r_size r) | _ => 0 end.
Definition drawn_by (rs : list request) : nat := foldr (fun r n => (drawn r + n)%nat) 0%nat rs.

Section files.
Context (random : nat -> Z) (path : string).

(** What a request does to the file system, [n] draws into the sequence. *)
Definition effect (n : nat) (r : request) (fs : FS) : FS :=
  match r_op r with
  | FOPEN => set_files (<[path := []]> (files fs)) fs
  | T_WRITE =>
      match letters random n (Z.to_nat (r_size r)) with
      | [] => fs
      | bytes => set_files (<[path := splice nul (r_offset r) bytes (file_content fs path)]> (files fs)) fs
      end
  | _ => fs
  end.

Fixpoint replayed (n : nat) (rs : list request) (fs : FS) : FS :=
  match rs with
  | [] => fs
  | r :: rs' => replayed (n + drawn r) rs' (effect n r fs)
  end.

Fixpoint replays (rep n : nat) (rs : list request) (fs : FS) : FS :=
  match rep with
  | O => fs
  | S rep => replays rep (n + drawn_by rs) rs (replayed n rs fs)
  end.

(** The file system serves the file. *)
Definition serves (fs : FS) : Prop := (path ∉ denied fs) /\ io_error fs = false.

Lemma effect_serves n r fs : serves fs -> serves (effect n r fs).
Proof. unfold effect. by destruct (r_op r), (letters random n (Z.to_nat (r_size r))). Qed.

Lemma replayed_serves n rs fs : serves fs -> serves (replayed n rs fs).
Proof. revert n fs. induction rs as [|r rs IH]; intros n fs Hs; [done|]. by apply IH, effect_serves. Qed.

Lemma effect_other n r fs p : p <> path -> files (effect n r fs) !! p = files fs !! p.
Proof.
  intros Hp. unfold effect. destruct (r_op r), (letters random n (Z.to_nat (r_size r))); try done;
    cbn; by rewrite lookup_insert_ne.
Qed.

End files.

Section posix.
Context {R M : Type} `{RedisService R} `{MongoService M} `{Msgpack}.
Context (rand sequence client_rand random : nat -> Z).
Context (h : LibHandler) (c : Conf) (path : string).
Context (Hlib : lib_type h = POSIX).
Implicit Types s : state R M.

Definition on_fs (fs : FS) (cl : Cluster R M) : Cluster R M :=
  mkCluster (cl_servers cl) (set_fs fs (cl_world cl)) (cl_calls cl).

Lemma on_fs_id s : on_fs (fs_of s) (cluster s) = cluster s.
Proof. by destruct s as [[? [] ?] ? ?]. Qed.

Lemma fs_of_on fs s f n : fs_of (mkState (on_fs fs (cluster s)) f n) = fs.
Proof. done. Qed.

(** The file variable of a pass. *)
Definition is_open (o : bool) (f : FILE_ptr) : Prop := o = true -> exists pos, f = Opened path pos.

Lemma do_randstring_ok n s :
  0 <= n ->
  exists b, do_randstring random n s = (Ok b, mkState (cluster s) (file s) (draws s + Z.to_nat n)) /\
    (mem_read b 0 n ≫= defined) = Ok (letters random (draws s) (Z.to_nat n)).
Proof.
  intros Hn. unfold do_randstring, randstring. destruct (Z.eqb_spec n 0) as [->|].
  { eexists. split; [done|]. done. }
  destruct (Z.eqb_spec n (-1)); [lia|]. destruct (Z.ltb_spec n 0); [lia|].
  eexists. split; [done|]. set (l := letters _ _ _).
  assert (zlen l = n) as Hl by (unfold zlen, l; rewrite length_letters; lia).
  rewrite mem_read_in by (rewrite ?zlen_fmap, ?zlen_app; change (zlen [nul]) with 1; lia).
  rewrite slice_fmap. rewrite <- Hl, slice_0_app by done. unfold mbind, outcome_bind. apply defined_chars.
Qed.

Lemma do_fopen_ok s :
  path ∉ denied (fs_of s) ->
  do_fopen path s = (Ok (), mkState (on_fs (set_files (<[path := []]> (files (fs_of s))) (fs_of s)) (cluster s))
                               (Opened path 0) (draws s)).
Proof. intros Hd. unfold do_fopen, fopen_w. by rewrite decide_False. Qed.

Lemma do_fseek_ok off s pos :
  file s = Opened path pos -> 0 <= off -> do_fseek off s = (Ok (), set_file (Opened path off) s).
Proof.
  intros Hf Ho. unfold do_fseek. rewrite (st_bind_Ok _ _ s s s) by done.
  erewrite st_bind_Ok by (unfold lift, fseek_set; rewrite Hf; done).
  destruct (Z.ltb_spec off 0); [lia|done].
Qed.

Lemma do_fwrite_ok b n bytes s pos :
  file s = Opened path pos -> io_error (fs_of s) = false ->
  (mem_read b 0 n ≫= defined) = Ok bytes ->
  exists pos', do_fwrite b n s =
    (Ok (), mkState (on_fs (match bytes with
                            | [] => fs_of s
                            | _ => set_files (<[path := splice nul pos bytes (file_content (fs_of s) path)]>
                                     (files (fs_of s))) (fs_of s)
                            end) (cluster s)) (Opened path pos') (draws s)).
Proof.
  intros Hf Hio Hb. unfold do_fwrite. rewrite (st_bind_Ok _ _ s s s) by done.
  rewrite (st_bind_Ok (lift _) _ s bytes s) by (unfold lift; by rewrite Hb).
  unfold fwrite_at. rewrite Hf. unfold mbind at 2, outcome_bind. cbn [opened]. rewrite Hio.
  destruct bytes; by eexists.
Qed.

Lemma do_fread_ok off n s pos :
  file s = Opened path pos -> io_error (fs_of s) = false -> 0 <= off -> 0 <= n < 2 ^ 63 ->
  exists pos', do_fread off n s = (Ok (), set_file (Opened path pos') s).
Proof.
  intros Hf Hio Ho Hn. unfold do_fread. rewrite (st_bind_Ok _ _ _ _ _ (do_fseek_ok off s pos Hf Ho)).
  set (s1 := set_file (Opened path off) s). rewrite (st_bind_Ok _ _ s1 s1 s1) by done.
  assert (fs_of s1 = fs_of s) as E by done. rewrite E.
  set (bytes := slice off n (file_content (fs_of s) path)).
  assert (zlen bytes <= n) as Hb.
  { unfold bytes, slice, zlen. rewrite length_take. lia. }
  assert (fread_at (u64 n) (file s1) (fs_of s) = Ok (bytes, Opened path (off + zlen bytes))) as Er.
  { unfold fread_at. cbn [opened file s1 set_file]. unfold mbind, outcome_bind. by rewrite Hio, u64_small by lia. }
  rewrite Er. destruct (Z.ltb_spec n 0); [lia|].
  erewrite (st_bind_Ok (lift _) _ s1) by done. cbv beta iota.
  rewrite (st_bind_Ok (lift _) _ s1 (Some (splice None 0 (Some <$> bytes) (replicate (Z.to_nat (n + 1)) None))) s1).
  - by eexists.
  - unfold lift, malloc. rewrite mem_write_in; [done|done|].
    rewrite zlen_fmap. unfold zlen in *. rewrite length_replicate. lia.
Qed.

(** A request on the rank's file. *)
Lemma replay_line_posix s r o :
  line_ok r -> bracketed o [r] -> is_open o (file s) -> serves path (fs_of s) ->
  exists s', replay_line rand sequence client_rand random h c path () (operation_name (r_op r))
      (r_offset r) (r_size r) s = (Ok (), s') /\
    cluster s' = on_fs (effect random path (draws s) r (fs_of s)) (cluster s) /\
    draws s' = (draws s + drawn r)%nat /\
    is_open (match r_op r with FOPEN => true | FCLOSE => false | _ => o end) (file s').
Proof.
  intros [[_ Hs] Ho] Hb Hf [Hd Hio]. unfold replay_line. rewrite Hlib. cbn [is_POSIX].
  assert (draws s = draws s + 0)%nat as D0 by lia.
  destruct (r_op r) eqn:Eop; cbn [bracketed] in Hb; rewrite Eop in Hb; unfold effect, drawn; rewrite Eop;
    repeat (rewrite decide_False by done); rewrite decide_True by done.
  - rewrite do_fopen_ok by done. eexists. split; [done|]. split; [done|]. split; [done|]. by eexists.
  - destruct Hb as [-> _]. destruct (Hf eq_refl) as [pos Ef]. unfold do_fclose.
    rewrite (st_bind_Ok _ _ s s s) by done.
    erewrite st_bind_Ok by (unfold lift, fclose; rewrite Ef; done).
    eexists. split; [done|]. cbn. by rewrite on_fs_id.
  - destruct Hb as [-> _]. destruct (Hf eq_refl) as [pos Ef].
    destruct (do_randstring_ok (r_size r) s) as (b & E & Hr); [lia|]. rewrite (st_bind_Ok _ _ _ _ _ E).
    erewrite st_bind_Ok by (eapply do_fseek_ok; [exact Ef|done]). rewrite u64_small by lia.
    edestruct do_fwrite_ok as (pos' & Ew); [..|exact Hr|rewrite Ew]; [reflexivity|exact Hio|].
    eexists. split; [done|]. split; [by destruct (letters random (draws s) (Z.to_nat (r_size r)))|].
    split; [done|]. intros _. by eexists.
  - destruct Hb as [-> _]. destruct (Hf eq_refl) as [pos Ef].
    destruct (do_randstring_ok (r_size r) s) as (b & E & Hr); [lia|]. rewrite (st_bind_Ok _ _ _ _ _ E).
    edestruct (do_fread_ok (r_offset r) (r_size r)) as (pos' & Er); [..|rewrite Er]; [exact Ef|exact Hio|done|lia|].
    eexists. split; [done|]. cbn. split; [by rewrite on_fs_id|]. split; [done|]. intros _. by eexists.
  - destruct Hb as [-> _]. destruct (Hf eq_refl) as [pos Ef].
    rewrite (do_fseek_ok _ _ _ Ef Ho). eexists. split; [done|]. cbn. split; [by rewrite on_fs_id|].
    split; [done|]. intros _. by eexists.
Qed.

Lemma on_fs_fs s s' fs : cluster s' = on_fs fs (cluster s) -> fs_of s' = fs.
Proof. unfold fs_of. by intros ->. Qed.

Lemma on_fs_on_fs fs1 fs2 (cl : Cluster R M) : on_fs fs2 (on_fs fs1 cl) = on_fs fs2 cl.
Proof. done. Qed.

(** One turn of a pass. *)
Lemma lines_loop_request {A} stop (body : A -> list ascii -> Z -> Z -> ST (state R M) A) fuel r rest acc s :
  request_ok r -> stop (request_text r ++ [newline]) = false ->
  lines_loop stop body (S fuel) (request_text r ++ newline :: rest) acc s =
    (acc' ← body acc (operation_name (r_op r)) (r_offset r) (r_size r);
     lines_loop stop body fuel rest acc') s.
Proof.
  intros Hr Hstop. destruct (getline_line r rest Hr) as [G _]. cbn [lines_loop]. rewrite G, Hstop.
  erewrite st_bind_Ok; [|unfold lift; by rewrite parse_line_of_request]. done.
Qed.

(** Where a pass stops. *)
Definition ends (stop : list ascii -> bool) (tail : list ascii) : Prop :=
  match getline tail with None => True | Some (line, _) => stop line = true end.

Lemma lines_loop_end {A} stop (body : A -> list ascii -> Z -> Z -> ST (state R M) A) fuel tail acc s :
  ends stop tail -> lines_loop stop body fuel tail acc s = (Ok acc, s).
Proof.
  unfold ends. intros He. destruct fuel; cbn [lines_loop]; (destruct (getline tail) as [[line rest]|]; [by rewrite He|done]).
Qed.

Definition short (line : list ascii) : bool := zlen line <? 4.

Lemma trace_text_app r rs tail :
  trace_text (r :: rs) ++ tail = request_text r ++ newline :: (trace_text rs ++ tail).
Proof. by rewrite trace_text_cons, <- app_assoc. Qed.

Lemma short_request r : request_ok r -> short (request_text r ++ [newline]) = false.
Proof. intros Hr. by destruct (getline_line r [] Hr). Qed.

Lemma replay_loop_posix rs tail fuel s o :
  Forall line_ok rs -> bracketed o rs -> ends short tail -> (length rs <= fuel)%nat ->
  is_open o (file s) -> serves path (fs_of s) ->
  exists s', lines_loop short (replay_line rand sequence client_rand random h c path) fuel
      (trace_text rs ++ tail) () s = (Ok (), s') /\
    cluster s' = on_fs (replayed random path (draws s) rs (fs_of s)) (cluster s) /\
    draws s' = (draws s + drawn_by rs)%nat.
Proof.
  intros Hall. revert fuel s o. induction Hall as [|r rs Hr Hall IH]; intros fuel s o Hb Ht Hf Ho Hs.
  { exists s. split; [by apply lines_loop_end|]. cbn. by rewrite on_fs_id, Nat.add_0_r. }
  destruct fuel as [|fuel]; [simpl in Hf; lia|]. rewrite trace_text_app.
  rewrite lines_loop_request by first [apply Hr|by apply short_request, Hr].
  destruct (replay_line_posix s r o) as (s1 & E1 & C1 & D1 & O1); [done| |done|done|].
  { cbn in Hb |- *. destruct (r_op r); try done; by destruct Hb. }
  rewrite (st_bind_Ok _ _ _ _ _ E1). pose proof (on_fs_fs _ _ _ C1) as F1.
  destruct (IH fuel s1 (match r_op r with FOPEN => true | FCLOSE => false | _ => o end)) as (s2 & E2 & C2 & D2);
    [| done | simpl in Hf; lia | done | rewrite F1; by apply effect_serves |].
  { cbn in Hb. destruct (r_op r); try done; by destruct Hb. }
  exists s2. split; [done|]. cbn [replayed drawn_by foldr].
  rewrite C2, D2, D1, F1, C1, on_fs_on_fs. split; [done|]. unfold drawn_by. lia.
Qed.

Lemma length_trace_tail rs tail : (length rs <= length (trace_text rs ++ tail))%nat.
Proof. rewrite length_app. pose proof (trace_text_length rs). lia. Qed.

Lemma replay_rounds_posix rep rs tail s :
  Forall line_ok rs -> bracketed false rs -> ends short tail -> serves path (fs_of s) ->
  exists s', replay_rounds rand sequence client_rand random h c path rep (Some (trace_text rs ++ tail)) s = (Ok true, s') /\
    cluster s' = on_fs (replays random path rep (draws s) rs (fs_of s)) (cluster s).
Proof.
  intros Hall Hb Ht. revert s. induction rep as [|rep IH]; intros s Hs.
  { exists s. split; [done|]. cbn. by rewrite on_fs_id. }
  destruct (replay_loop_posix rs tail (length (trace_text rs ++ tail)) s false) as (s1 & E1 & C1 & D1);
    [done|done|done|apply length_trace_tail|done|done|].
  pose proof (on_fs_fs _ _ _ C1) as F1.
  destruct (IH s1) as (s2 & E2 & C2); [rewrite F1; by apply replayed_serves|].
  exists s2. cbn [replay_rounds]. split.
  - rewrite (st_bind_Ok _ _ s true s1); [done|]. unfold replay_once. by rewrite (st_bind_Ok _ _ _ _ _ E1).
  - cbn [replays]. by rewrite C2, F1, C1, D1.
Qed.

(** The end of the last read of a trace, and of a position. *)
Fixpoint reads_end (m : Z) (rs : list request) : Z :=
  match rs with
  | [] => m
  | r :: rs' =>
      reads_end (match r_op r with T_READ => Z.max m (r_offset r + r_size r) | _ => m end) rs'
  end.

Fixpoint reads_drawn (rs : list request) : nat :=
  match rs with
  | [] => 0
  | r :: rs' => (match r_op r with T_READ => Z.to_nat (r_size r) | _ => 0 end + reads_drawn rs')%nat
  end.

Lemma prepare_loop_posix rs tail fuel m s :
  Forall line_ok rs -> 0 <= m ->
  (length rs <= fuel)%nat ->
  exists s', cluster s' = cluster s /\ draws s' = (draws s + reads_drawn rs)%nat /\ file s' = file s /\
    lines_loop (fun _ => false) (prepare_line rand sequence client_rand random h c) fuel (trace_text rs ++ tail) m s =
    lines_loop (fun _ => false) (prepare_line rand sequence client_rand random h c) (fuel - length rs) tail
      (reads_end m rs) s'.
Proof.
  intros Hall. revert fuel m s. induction Hall as [|r rs [Hr Ho] Hall IH]; intros fuel m s Hm Hf.
  { exists s. cbn. by rewrite Nat.add_0_r, Nat.sub_0_r. }
  destruct fuel as [|fuel]; [simpl in Hf; lia|]. rewrite trace_text_app.
  rewrite lines_loop_request by done. destruct Hr as [Hr1 Hr2].
  assert (exists s1, prepare_line rand sequence client_rand random h c m (operation_name (r_op r)) (r_offset r) (r_size r) s =
    (Ok (match r_op r with T_READ => Z.max m (r_offset r + r_size r) | _ => m end), s1) /\
    cluster s1 = cluster s /\ file s1 = file s /\
    draws s1 = (draws s + match r_op r with T_READ => Z.to_nat (r_size r) | _ => 0 end)%nat)
    as (s1 & E1 & C1 & F1 & D1).
  { unfold prepare_line. rewrite Hlib. cbn [is_POSIX].
    destruct (r_op r); try (rewrite decide_False by done; exists s; repeat split; lia).
    rewrite decide_True by done. destruct (do_randstring_ok (r_size r) s) as (b & E & _); [lia|].
    rewrite (st_bind_Ok _ _ _ _ _ E). rewrite i64_small by lia. 
    eexists. split; [unfold mret, st_ret; do 2 f_equal; zcases; lia|]. done. }
  rewrite (st_bind_Ok _ _ _ _ _ E1).
  destruct (IH fuel (match r_op r with T_READ => Z.max m (r_offset r + r_size r) | _ => m end) s1)
    as (s2 & C2 & D2 & F2 & E2); [destruct (r_op r); lia|simpl in Hf; lia|].
  exists s2. rewrite C2, D2, F2, E2, C1, D1, F1. cbn [reads_end reads_drawn].
  split; [done|]. split; [lia|]. split; [done|].
  by replace (S fuel - length (r :: rs))%nat with (fuel - length rs)%nat by (simpl; lia).
Qed.

Lemma clean_loop_posix rs fuel m s :
  Forall line_ok rs -> (length rs <= fuel)%nat ->
  exists m', lines_loop (fun _ => false) (clean_line rand sequence client_rand h c) fuel (trace_text rs) m s = (Ok m', s).
Proof.
  intros Hall. revert fuel m. induction Hall as [|r rs [Hr Ho] Hall IH]; intros fuel m Hf.
  { exists m. by apply lines_loop_end. }
  destruct fuel as [|fuel]; [simpl in Hf; lia|]. rewrite trace_text_cons, lines_loop_request by done.
  assert (exists m1, clean_line rand sequence client_rand h c m (operation_name (r_op r)) (r_offset r) (r_size r) s =
    (Ok m1, s)) as (m1 & E1).
  { unfold clean_line. rewrite Hlib. cbn [is_POSIX].
    destruct (r_op r); try (rewrite decide_False by done; by eexists). rewrite decide_True by done. by eexists. }
  rewrite (st_bind_Ok _ _ _ _ _ E1). apply IH. simpl in Hf; lia.
Qed.

End posix.

Section passes.
Context {R M : Type} `{RedisService R} `{MongoService M} `{Msgpack}.
Context (rand sequence client_rand random : nat -> Z).
Context (filename : string) (rank stor_type chunk_size : Z) (conf : Conf).
Implicit Types s : state R M.

Abbreviation path := (rank_file filename rank).
Abbreviation replay trace repetitions :=
  (replay_trace rand sequence client_rand random trace filename repetitions rank POSIX stor_type chunk_size conf).
Abbreviation prepare trace :=
  (prepare_data rand sequence client_rand random trace filename rank POSIX stor_type chunk_size conf).
Abbreviation clean trace :=
  (clean_data rand sequence client_rand trace filename rank POSIX stor_type chunk_size conf).

Lemma replay_posix rs tail repetitions s :
  Forall line_ok rs -> bracketed false rs -> ends short tail -> serves path (fs_of s) -> 0 <= repetitions ->
  exists s', replay (Some (trace_text rs ++ tail)) repetitions s = (Ok true, s') /\
    cluster s' = on_fs (replays random path (Z.to_nat repetitions) (draws s) rs (fs_of s)) (cluster s).
Proof.
  intros Hall Hb Ht Hs Hrep. unfold replay_trace. cbn [LibHandler_ctor].
  destruct (Z.ltb_spec repetitions 0); [lia|].
  destruct (replay_rounds_posix rand sequence client_rand random
    (mkLibHandler POSIX (u16 stor_type) chunk_size false filename) conf path eq_refl
    (Z.to_nat repetitions) rs tail (set_file Indeterminate s)) as (s' & E & C); [done..|].
  by exists s'.
Qed.

(** C28: any number of repetitions of a trace on the file of a rank performs its writes
    in order, each opening emptying the file; what follows a line of less than
    four characters is not read; nothing else in the stores changes. *)
Theorem replay_trace_posix rs tail repetitions s :
  Forall line_ok rs -> bracketed false rs -> ends short tail -> serves path (fs_of s) -> 0 <= repetitions ->
  exists s', replay (Some (trace_text rs ++ tail)) repetitions s = (Ok true, s') /\
    cluster s' = on_fs (replays random path (Z.to_nat repetitions) (draws s) rs (fs_of s)) (cluster s).
Proof. apply replay_posix. Qed.

Lemma reads_end_range m rs :
  Forall line_ok rs -> 0 <= m < 2 ^ 32 -> 0 <= reads_end m rs < 2 ^ 32.
Proof.
  intros Hall. revert m. induction Hall as [|r rs [[Hr1 Hr2] Ho] Hall IH]; intros m Hm; [done|].
  apply IH. destruct (r_op r); lia.
Qed.

Lemma prepare_posix rs s :
  Forall line_ok rs -> serves path (fs_of s) ->
  exists s', prepare (Some (trace_text rs)) s = (Ok 0, s') /\
    cluster s' = on_fs (set_files (<[path := letters random (draws s + reads_drawn rs) (Z.to_nat (reads_end 0 rs))]>
                                    (files (fs_of s))) (fs_of s)) (cluster s).
Proof.
  intros Hall [Hd Hio]. unfold prepare_data. cbn [LibHandler_ctor is_POSIX].
  destruct (prepare_loop_posix rand sequence client_rand random
    (mkLibHandler POSIX (u16 stor_type) chunk_size false filename) conf eq_refl rs []
    (length (trace_text rs)) 0 (set_file Indeterminate s)) as (s1 & C1 & D1 & F1 & E1);
    [done..|apply trace_text_length|].
  rewrite app_nil_r in E1. rewrite (lines_loop_end _ _ _ [] _ _ I) in E1. rewrite (st_bind_Ok _ _ _ _ _ E1).
  assert (fs_of s1 = fs_of s) as Fs by (by unfold fs_of; rewrite C1).
  pose proof (reads_end_range 0 rs Hall ltac:(lia)) as Hm. set (m := reads_end 0 rs) in *.
  set (empty := set_files (<[path := []]> (files (fs_of s))) (fs_of s)).
  pose proof (do_fopen_ok path s1) as Eo. rewrite Fs in Eo. specialize (Eo Hd).
  set (s2 := mkState _ _ _) in Eo.
  destruct (do_randstring_ok random m s2) as (b & Er & Hr); [lia|].
  destruct (do_fwrite_ok path b m (letters random (draws s2) (Z.to_nat m))
    (mkState (cluster s2) (file s2) (draws s2 + Z.to_nat m)%nat) 0) as (pos & Ew); [done|exact Hio|exact Hr|].
  eexists. split.
  - erewrite (st_bind_Ok _ _ s1); [reflexivity|]. rewrite (st_bind_Ok _ _ _ _ _ Eo), (st_bind_Ok _ _ _ _ _ Er).
    rewrite u64_small by lia. exact Ew.
  - cbn [cluster draws s2]. rewrite D1. cbn [draws set_file].
    destruct (letters random (draws s + reads_drawn rs) (Z.to_nat m)) as [|a l] eqn:El.
    { rewrite C1. done. }
    rewrite !fs_of_on, on_fs_on_fs, C1. unfold file_content, set_files. cbn [files denied rw_max io_error].
    rewrite lookup_insert_eq, insert_insert_eq. cbn [default from_option id]. by rewrite splice_nil.
Qed.

(** The preparation leaves a file of random bytes that reaches to the end of the
    last read, and changes nothing else. *)
Theorem prepare_data_posix rs s :
  Forall line_ok rs -> serves path (fs_of s) ->
  exists s', prepare (Some (trace_text rs)) s = (Ok 0, s') /\
    cluster s' = on_fs (set_files (<[path := letters random (draws s + reads_drawn rs) (Z.to_nat (reads_end 0 rs))]>
                                    (files (fs_of s))) (fs_of s)) (cluster s).
Proof. apply prepare_posix. Qed.

(** Without writes, a repetition leaves the file as its first opening does. *)
Lemma replayed_reads n rs fs :
  Forall (fun r => r_op r <> T_WRITE) rs -> files fs !! path = Some [] ->
  files (replayed random path n rs fs) !! path = Some [].
Proof.
  intros Hall. revert n fs. induction Hall as [|r rs Hr Hall IH]; intros n fs Hf; [done|].
  apply IH. unfold effect. destruct (r_op r); try done. cbn. by rewrite lookup_insert_eq.
Qed.

(** What the preparation put down is lost: a trace of reads opens the file anew,
    so every read finds it empty. *)
Theorem prepared_data_lost r rs repetitions s :
  Forall line_ok (r :: rs) -> bracketed false (r :: rs) -> r_op r = FOPEN ->
  Forall (fun r => r_op r <> T_WRITE) rs -> serves path (fs_of s) -> 0 < repetitions ->
  exists s1 s2, prepare (Some (trace_text (r :: rs))) s = (Ok 0, s1) /\
    replay (Some (trace_text (r :: rs))) repetitions s1 = (Ok true, s2) /\
    files (fs_of s2) !! path = Some [].
Proof.
  intros Hall Hb Hop Hw Hs Hrep. destruct (prepare_posix (r :: rs) s) as (s1 & E1 & C1); [done..|].
  pose proof (on_fs_fs _ _ _ C1) as F1.
  destruct (replay_posix (r :: rs) [] repetitions s1) as (s2 & E2 & C2); [done|done|done| |lia|].
  { by rewrite F1. }
  rewrite app_nil_r in E2. exists s1, s2. split; [done|]. split; [done|].
  rewrite (on_fs_fs _ _ _ C2). clear -Hop Hw Hrep.
  assert (forall n fs, files (replayed random path n (r :: rs) fs) !! path = Some []) as Hr.
  { intros n fs. cbn [replayed]. apply replayed_reads; [done|]. unfold effect. rewrite Hop. cbn.
    by rewrite lookup_insert_eq. }
  destruct (Z.to_nat repetitions) as [|rep] eqn:Er; [lia|]. clear Er. cbn [replays].
  set (fs := replayed _ _ _ _ _). assert (files fs !! path = Some []) as Hf by apply Hr.
  clearbody fs. generalize (draws s1 + drawn_by (r :: rs))%nat. revert fs Hf.
  induction rep as [|rep IH]; intros fs Hf n; [done|]. cbn [replays]. apply IH, Hr.
Qed.

(** A trace that ends with an empty line can be replayed, but not prepared. *)
Theorem prepare_blank_line rs s :
  Forall line_ok rs -> bracketed false rs -> serves path (fs_of s) ->
  (prepare (Some (trace_text rs ++ [newline])) s).1 = Undefined NullDeref /\
  (replay (Some (trace_text rs ++ [newline])) 1 s).1 = Ok true.
Proof.
  intros Hall Hb Hs. split.
  - unfold prepare_data. cbn [LibHandler_ctor].
    destruct (prepare_loop_posix rand sequence client_rand random
      (mkLibHandler POSIX (u16 stor_type) chunk_size false filename) conf eq_refl rs [newline]
      (length (trace_text rs ++ [newline])) 0 (set_file Indeterminate s)) as (s1 & _ & _ & _ & E1);
      [done..|apply length_trace_tail|].
    assert (exists k, (length (trace_text rs ++ [newline]) - length rs = S k)%nat) as [k Ek].
    { exists (length (trace_text rs) - length rs)%nat. rewrite length_app. simpl. pose proof (trace_text_length rs). lia. }
    rewrite Ek in E1.
    enough (lines_loop (fun _ => false) (prepare_line rand sequence client_rand random
      (mkLibHandler POSIX (u16 stor_type) chunk_size false filename) conf) (S k) [newline] (reads_end 0 rs) s1 =
      (Undefined NullDeref, s1)) as E2 by (rewrite E2 in E1; by rewrite (st_bind_Undefined _ _ _ _ _ E1)).
    done.
  - destruct (replay_posix rs [newline] 1 s) as (s2 & E2 & _); [done..|]. by rewrite E2.
Qed.

(** The cleaning removes the file of the rank and nothing else. *)
Theorem clean_data_posix rs s :
  Forall line_ok rs -> serves path (fs_of s) ->
  exists s', clean (Some (trace_text rs)) s = (Ok 0, s') /\
    cluster s' = on_fs (set_files (delete path (files (fs_of s))) (fs_of s)) (cluster s).
Proof.
  intros Hall [Hd _]. unfold clean_data. cbn [LibHandler_ctor is_POSIX].
  destruct (clean_loop_posix rand sequence client_rand (mkLibHandler POSIX (u16 stor_type) chunk_size false filename) conf
    eq_refl rs (length (trace_text rs)) 0 (set_file Indeterminate s)) as (m & E); [done|apply trace_text_length|].
  rewrite (st_bind_Ok _ _ _ _ _ E). eexists. split; [reflexivity|].
  cbn. unfold posix_remove. change (fs_of (set_file Indeterminate s)) with (fs_of s). by rewrite decide_False.
Qed.

End passes.
