(* ===== verification/ReplayerObjects.v ===== *)
(** * ReplayerObjects: a trace replayed through the emulation and the servers

    In [SYMBIOS] and [NIOBE] mode every line of a trace becomes a request of the
    client.  [written] says what a pass puts into the object of the trace; the
    passes, through [LibHandler], the client, the cluster, the metadata and the
    stores, refine it.  What a trace may ask for depends on the length of the object
    only ([replay_fits], [prepare_fits]). *)

From S2P Require Import Prelude CText Effects Types Services FileIO KeyValueSpec IOClient World.
From S2P Require Import Msgpack Config Distribution Metadata MetadataSpec Segments Chunks ObjectSpec.
From S2P Require Import Server ServerSpec MultiSpec Client ClusterSpec ClientObjects Iris.
From S2P Require Import ShadowLink ShadowStore Colocation ColocationSpec Replayer ReplayerSpec.

Import Multi TraceReplayer.

(** The modes that use the servers. *)
Definition to_servers (mode : IOLib) : Prop := mode = NIOBE \/ mode = SYMBIOS.

(** ** What a pass writes *)

Section passes.
Context (random : nat -> Z) (filename : string) (home : Z).

(** The random string of a line, [n] draws into the sequence, put at its offset. *)
Definition put_line (n : nat) (r : request) (m : objects) : objects :=
  abs_store filename home (r_offset r) (letters random n (Z.to_nat (r_size r))) m.

(** A pass writes the lines of one operation; all lines for which a string is drawn
    advance the sequence. *)
Fixpoint written (op : operation) (draw : request -> nat) (n : nat) (rs : list request) (m : objects) : objects :=
  match rs with
  | [] => m
  | r :: rs' => written op draw (n + draw r) rs' (if decide (r_op r = op) then put_line n r m else m)
  end.

Definition read_string (r : request) : nat := match r_op r with T_READ => Z.to_nat (r_size r) | _ => 0 end.

Definition strings_read (rs : list request) : nat := foldr (fun r n => read_string r + n)%nat 0%nat rs.

Definition replayed_objects : nat -> list request -> objects -> objects := written T_WRITE drawn.
Definition prepared_objects : nat -> list request -> objects -> objects := written T_READ read_string.

Fixpoint replayed_rounds (rep n : nat) (rs : list request) (m : objects) : objects :=
  match rep with
  | O => m
  | S rep => replayed_rounds rep (n + drawn_by rs) rs (replayed_objects n rs m)
  end.

Definition object_length (m : objects) : Z := zlen (bytes_at (m !! filename)).

(** The object is where the handler says it is. *)
Definition at_home (m : objects) : Prop := forall p v, m !! filename = Some (p, v) -> p = home.

Definition grown (op : operation) (len : Z) (r : request) : Z :=
  if decide (r_op r = op) then Z.max len (r_offset r + r_size r) else len.

Lemma at_home_put n r m : at_home (put_line n r m).
Proof. intros p v. unfold put_line, abs_store. rewrite lookup_insert_eq. by intros [= <- _]. Qed.

Lemma length_put n r m : 0 <= r_offset r -> 0 <= r_size r ->
  object_length (put_line n r m) = Z.max (object_length m) (r_offset r + r_size r).
Proof.
  intros Ho Hs. unfold object_length, put_line, abs_store. rewrite lookup_insert_eq. unfold bytes_at at 1. simpl.
  rewrite zlen_exact_value by done. f_equal. f_equal. unfold zlen. rewrite length_letters. lia.
Qed.

(** The other objects stay. *)
Lemma written_other op draw n rs m id : id <> filename -> written op draw n rs m !! id = m !! id.
Proof.
  intros Hid. revert n m. induction rs as [|r rs IH]; intros n m; [done|]. cbn [written]. rewrite IH.
  case_decide; [|done]. unfold put_line, abs_store. by rewrite lookup_insert_ne.
Qed.

Lemma replayed_rounds_other rep n rs m id : id <> filename -> replayed_rounds rep n rs m !! id = m !! id.
Proof.
  intros Hid. revert n m. induction rep as [|rep IH]; intros n m; [done|]. cbn [replayed_rounds].
  rewrite IH. by apply written_other.
Qed.

(** The state after a line. *)
Lemma line_state op n r m :
  line_ok r -> at_home m ->
  at_home (if decide (r_op r = op) then put_line n r m else m) /\
  object_length (if decide (r_op r = op) then put_line n r m else m) = grown op (object_length m) r.
Proof.
  intros [[_ Hs] Ho] Hh. unfold grown. case_decide; [|done].
  split; [apply at_home_put|apply length_put; lia].
Qed.

Lemma written_length op draw n rs m :
  Forall line_ok rs -> at_home m ->
  at_home (written op draw n rs m) /\ object_length (written op draw n rs m) = foldl (grown op) (object_length m) rs.
Proof.
  intros Hall. revert n m. induction Hall as [|r rs Hr Hall IH]; intros n m Hh; [done|]. cbn [written foldl].
  destruct (line_state op n r m Hr Hh) as [Hh' <-]. by apply IH.
Qed.

Lemma grown_le op len r : len <= grown op len r.
Proof. unfold grown. case_decide; lia. Qed.

Lemma grown_mono op len len' r : len <= len' -> grown op len r <= grown op len' r.
Proof. unfold grown. case_decide; lia. Qed.

Lemma foldl_grown_le op len rs : len <= foldl (grown op) len rs.
Proof.
  revert len. induction rs as [|r rs IH]; intros len; [done|]. cbn [foldl]. pose proof (IH (grown op len r)).
  pose proof (grown_le op len r). lia.
Qed.

End passes.

(** ** What a trace may ask for *)

Section fits.
Context {R M : Type} `{RedisLaws R} `{MongoLaws M}.
Context (c : Conf).   (* of the servers *)

(** A write inside one segment that leaves no gap, at an offset the stores write
    exactly. *)
Record write_fits (len : Z) (r : request) : Prop := {
  wf_size : 0 < r_size r;
  wf_gap : r_offset r <= len;
  wf_inside : r_offset r mod MAX_OBJ_SIZE c + r_size r <= MAX_OBJ_SIZE c;
  wf_end : r_offset r + r_size r <= object_max c;
  wf_store : forall i ty, type_at c i ty -> ty = FILE_IO \/ r_offset r mod MAX_OBJ_SIZE c = 0;
}.

(** A read of bytes that are there; the key-value stores serve one part. *)
Record read_fits (len : Z) (r : request) : Prop := {
  rf_size : 0 < r_size r;
  rf_end : r_offset r + r_size r <= len;
  rf_total : ((r_offset r + r_size r) / MAX_OBJ_SIZE c + 1 - r_offset r / MAX_OBJ_SIZE c) *
    (r_size r + MAX_OBJ_SIZE c) < 2 ^ 31;
  rf_store : forall i ty, type_at c i ty -> ty = FILE_IO \/
    (wreads (R := R) (M := M) ty (r_offset r mod MAX_OBJ_SIZE c) = true /\
     r_offset r mod MAX_OBJ_SIZE c + r_size r < MAX_OBJ_SIZE c);
}.

Fixpoint replay_fits (len : Z) (rs : list request) : Prop :=
  match rs with
  | [] => True
  | r :: rs' =>
      (r_op r = T_WRITE -> write_fits len r) /\ (r_op r = T_READ -> read_fits len r) /\
      replay_fits (grown T_WRITE len r) rs'
  end.

Fixpoint prepare_fits (len : Z) (rs : list request) : Prop :=
  match rs with
  | [] => True
  | r :: rs' => (r_op r = T_READ -> write_fits len r) /\ prepare_fits (grown T_READ len r) rs'
  end.

(** What fits an object fits a longer one. *)
Lemma write_fits_mono len len' r : len <= len' -> write_fits len r -> write_fits len' r.
Proof. intros Hl []. split; try done. lia. Qed.

Lemma read_fits_mono len len' r : len <= len' -> read_fits len r -> read_fits len' r.
Proof. intros Hl []. split; try done. lia. Qed.

Lemma replay_fits_mono len len' rs : len <= len' -> replay_fits len rs -> replay_fits len' rs.
Proof.
  revert len len'. induction rs as [|r rs IH]; intros len len' Hl; [done|]. intros (Hw & Hr & Hf).
  split; [|split].
  - intros E. by apply (write_fits_mono len), Hw.
  - intros E. by apply (read_fits_mono len), Hr.
  - apply (IH (grown T_WRITE len r)); [by apply grown_mono|done].
Qed.

End fits.

(** ** A line through the handler *)

Section handler.
Context {R M : Type} `{RedisLaws R} `{MongoLaws M} `{MsgpackLaws}.
Context (rand sequence client_rand random : nat -> Z).
Context (Hrand : forall n, 0 <= rand n < 2 ^ 31) (Hseq : forall n, 0 <= sequence n < 2 ^ 64).
Context (c conf : Conf) (h : LibHandler).
Context (Hlib : to_servers (lib_type h)) (Hmax : 0 < u32 (max_obj_size h)).
Context (Hname : name_ok (file_ h)) (Hdb : is_u16 (db_type h)) (Hhome : exists ty, type_at c (db_type h) ty).
Implicit Types s : state R M.

Abbreviation len m := (object_length (file_ h) m).
Abbreviation home_ok m := (at_home (file_ h) (db_type h) m).

(** The string of a line that asks for one. *)
Definition string_of (s : state R M) (r : request) : list ascii := letters random (draws s) (Z.to_nat (r_size r)).

Definition drew (s : state R M) (r : request) : state R M :=
  mkState (cluster s) (file s) (draws s + Z.to_nat (r_size r))%nat.

Lemma zlen_string s r : 0 <= r_size r -> zlen (string_of s r) = r_size r.
Proof. intros Hs. unfold zlen, string_of. rewrite length_letters. lia. Qed.

Lemma do_randstring_pos s r : 0 < r_size r ->
  do_randstring random (r_size r) s = (Ok (Some (Some <$> (string_of s r ++ [nul]))), drew s r).
Proof. intros Hs. unfold do_randstring, randstring. by zcases; try lia. Qed.

(** The request of a line. *)
Definition line_request (r : request) : Data := mkData (file_ h) (r_offset r) None (r_size r) (db_type h).

Lemma line_request_plain r : line_ok r -> plain (line_request r).
Proof.
  intros [[? ?] ?]. split; [done|]. unfold Data_wf, is_u64, is_u16 in *. simpl. lia.
Qed.

Lemma line_named m r : home_ok m -> named c m (line_request r).
Proof. intros Hh. split; [exact Hname|exact Hhome|]. intros p v Hv. symmetry. by apply (Hh p v). Qed.

Lemma write_request m r bytes cs :
  line_ok r -> home_ok m -> write_fits c (len m) r -> zlen bytes = r_size r ->
  slice 0 (zlen bytes) cs = Some <$> bytes -> zlen bytes <= zlen cs ->
  store_request (R := R) (M := M) c m (set_position 0 (set_buffer (Some cs) (line_request r))) (line_request r) bytes.
Proof.
  intros [[Ho Hs] Ho0] Hh [F1 F2 F3 F4 F5] Hb Hc Hl.
  pose proof (line_named m r Hh) as [Hn Hi Hp]. split; try done.
  - by exists cs.
  - unfold inside_segment. cbn [line_request position_ id_]. unfold object_length in F2. rewrite Hb.
    split; [lia|]. split; [|lia]. intros ->. rewrite zlen_nil in Hb. lia.
  - intros i ty Hty. destruct (F5 i ty Hty) as [->|E]; [done|]. cbn [line_request position_]. rewrite E. apply wexact_0.
  - split; [|done]. unfold is_u64. simpl. lia.
Qed.

(** A write stores the string. *)
Lemma lh_run_write s m r :
  cluster_objects c (cluster s) m -> home_ok m -> line_ok r -> write_fits c (len m) r ->
  exists cl, lh_run rand sequence client_rand h conf WRITE (r_offset r) (r_size r)
      (Some (Some <$> (string_of s r ++ [nul]))) (drew s r) = (Ok (), mkState cl (file s) (draws (drew s r))) /\
    cluster_objects c cl (put_line random (file_ h) (db_type h) (draws s) r m).
Proof.
  intros Hs Hh Hr Hf. pose proof Hr as [[Ho Hsz] Ho0]. pose proof (zlen_string s r ltac:(lia)) as Hz.
  destruct (Client_StoreRequest_object rand sequence client_rand Hrand Hseq c (cluster s) m
    (set_position 0 (set_buffer (Some (Some <$> (string_of s r ++ [nul]))) (line_request r))) (line_request r) (string_of s r))
    as (cl & E & Hs'); [exact Hs| |by apply line_request_plain| |].
  - pose proof (proj2 (line_request_plain r Hr)) as (? & ? & ?). split; [|done]. unfold is_u64. simpl. lia.
  - apply write_request; try done.
    + rewrite slice_fmap, slice_0_app by lia. done.
    + rewrite zlen_fmap, zlen_app. change (zlen [nul]) with 1. lia.
  - exists cl. split; [|exact Hs']. unfold lh_run, LibHandler_run, do_mapped_write.
    cbn [cluster drew]. rewrite !u64_small by lia.
    unfold line_request in E. destruct Hlib as [-> | ->]; by st_step E.
Qed.

(** A read changes nothing. *)
Lemma lh_run_read s m r :
  cluster_objects c (cluster s) m -> home_ok m -> line_ok r -> read_fits (R := R) (M := M) c (len m) r ->
  exists cl, lh_run rand sequence client_rand h conf READ (r_offset r) (r_size r)
      (Some (Some <$> (string_of s r ++ [nul]))) (drew s r) = (Ok (), mkState cl (file s) (draws (drew s r))) /\
    cluster_objects c cl m.
Proof.
  intros Hs Hh Hr [F1 F2 F3 F4]. pose proof Hr as [[Ho Hsz] Ho0]. pose proof (zlen_string s r ltac:(lia)) as Hz.
  destruct (map_tiles (u32 (max_obj_size h))) with (src := mkDataDescriptor (file_ h) (r_offset r) (r_size r) 0)
    as (objs & Em & _); cbn [dd_position dd_size]; [|lia..|].
  { pose proof (Z.mod_pos_bound (max_obj_size h) (2 ^ 32) ltac:(lia)). unfold u32 in *. lia. }
  assert (exists p v, m !! file_ h = Some (p, v)) as (p & v & Hv).
  { unfold object_length in F2. destruct (m !! file_ h) as [[p v]|]; [by exists p, v|].
    change (bytes_at None) with (@nil ascii) in F2. rewrite zlen_nil in F2. lia. }
  assert (r_offset r + r_size r <= zlen v) as Hend by (unfold object_length in F2; by rewrite Hv in F2).
  set (cs := Some <$> (string_of s r ++ [nul])).
  set (src := set_buffer (Some cs) (line_request r)).
  set (src' := set_buffer (Some (Some <$> string_of s r)) (line_request r)).
  pose proof (proj2 (line_request_plain r Hr)) as Hwf.
  assert (slice 0 (zlen (string_of s r)) cs = Some <$> string_of s r) as Hc
    by (unfold cs; by rewrite slice_fmap, slice_0_app).
  assert (zlen cs = r_size r + 1) as Hcs.
  { unfold cs. rewrite zlen_fmap, zlen_app. change (zlen [nul]) with 1. lia. }
  assert (string_of s r <> []) as Hne by (intros E; rewrite E, zlen_nil in Hz; lia).
  assert (Data_wf (set_position 0 src)) as Hwf0 by (destruct Hwf as (? & ? & ?); unfold Data_wf, is_u64, is_u16 in *; simpl in *; lia).
  set (bytes := slice (r_offset r) (r_size r) v).
  assert (zlen bytes = r_size r) as Hb by (apply zlen_slice; lia).
  destruct (Client_LocateRequest_fills rep client_rand c (cluster s) m src src' (set_position 0 src) (set_position 0 src')
    (Some (splice None 0 (Some <$> bytes) cs)) bytes) as (cl & E & Hs'); try done.
  - apply (carry_bytes src _ cs); (done || lia).
  - apply (carry_bytes (set_position 0 src) _ cs); (done || lia).
  - intros E. rewrite E, zlen_nil in Hb. lia.
  - cbn [buffer_ set_position src set_buffer]. apply mem_write_in; rewrite ?zlen_fmap; lia.
  - intros sv Ec Hrep. rewrite Hb. destruct (line_named m r Hh) as [Hn _ Hp].
    apply (Server_Locate_range sv m src' (set_position 0 src') p v Hrep Hn); [|done|by eapply Hp].
    rewrite Ec. split; cbn [position_ data_size_ src' set_buffer line_request]; [lia|done|done].
  - exists cl. split; [|exact Hs']. unfold lh_run, LibHandler_run, do_mapped_read.
    cbn [cluster drew]. rewrite !u64_small, i64_small by lia.
    rewrite (st_bind_Ok _ _ (cluster s) objs (cluster s)) by (unfold lift; by rewrite Em).
    unfold src, line_request, set_buffer, set_position in E. cbn [position_ id_ data_size_ storage_index_] in E.
    unfold set_position. cbn [id_ buffer_ data_size_ storage_index_]. destruct Hlib as [-> | ->]; by st_step E.
Qed.

(** ** The passes *)

Context (path : string).

Abbreviation written_by op draw n rs m := (written random (file_ h) (db_type h) op draw n rs m).

Lemma not_POSIX : is_POSIX (lib_type h) = false.
Proof. by destruct Hlib as [-> | ->]. Qed.

Lemma replay_line_objects s m r :
  cluster_objects c (cluster s) m -> home_ok m -> line_ok r ->
  (r_op r = T_WRITE -> write_fits c (len m) r) ->
  (r_op r = T_READ -> read_fits (R := R) (M := M) c (len m) r) ->
  exists s', replay_line rand sequence client_rand random h conf path () (operation_name (r_op r))
      (r_offset r) (r_size r) s = (Ok (), s') /\
    cluster_objects c (cluster s')
      (if decide (r_op r = T_WRITE) then put_line random (file_ h) (db_type h) (draws s) r m else m) /\
    draws s' = (draws s + drawn r)%nat.
Proof.
  intros Hs Hh Hr Hw Hrd. unfold replay_line. rewrite not_POSIX. unfold drawn.
  assert (draws s = draws s + 0)%nat as D0 by lia.
  destruct (r_op r) eqn:Eop; repeat (rewrite decide_False by done); rewrite decide_True by done;
    rewrite ?decide_False by done; try (by exists s).
  - specialize (Hw eq_refl). pose proof (do_randstring_pos s r (wf_size _ _ _ Hw)) as E. st_step E.
    destruct (lh_run_write s m r) as (cl & Ew & Hs'); [done..|]. eexists. split; [exact Ew|done].
  - specialize (Hrd eq_refl). pose proof (do_randstring_pos s r (rf_size _ _ _ Hrd)) as E. st_step E.
    destruct (lh_run_read s m r) as (cl & Ew & Hs'); [done..|]. eexists. split; [exact Ew|done].
Qed.

Lemma replay_loop_objects rs tail fuel s m :
  Forall line_ok rs -> ends short tail -> (length rs <= fuel)%nat ->
  cluster_objects c (cluster s) m -> home_ok m -> replay_fits (R := R) (M := M) c (len m) rs ->
  exists s', lines_loop short (replay_line rand sequence client_rand random h conf path) fuel
      (trace_text rs ++ tail) () s = (Ok (), s') /\
    cluster_objects c (cluster s') (written_by T_WRITE drawn (draws s) rs m) /\
    draws s' = (draws s + drawn_by rs)%nat.
Proof.
  intros Hall Ht. revert fuel s m. induction Hall as [|r rs Hr Hall IH]; intros fuel s m Hf Hs Hh Hfits.
  { exists s. split; [by apply lines_loop_end|]. by rewrite Nat.add_0_r. }
  destruct fuel as [|fuel]; [simpl in Hf; lia|]. rewrite trace_text_app.
  rewrite lines_loop_request by first [apply Hr|by apply short_request, Hr].
  destruct Hfits as (Hw & Hrd & Hfits).
  destruct (replay_line_objects s m r) as (s1 & E1 & C1 & D1); [done..|]. st_step E1.
  destruct (line_state random (file_ h) (db_type h) T_WRITE (draws s) r m Hr Hh) as [Hh1 Hl1].
  destruct (IH fuel s1 _ ltac:(simpl in Hf; lia) C1 Hh1) as (s2 & E2 & C2 & D2); [by rewrite Hl1|].
  exists s2. split; [exact E2|]. rewrite D1 in C2. split; [exact C2|]. rewrite D2, D1. unfold drawn_by. simpl. lia.
Qed.

Lemma replay_rounds_objects rep rs tail s m :
  Forall line_ok rs -> ends short tail ->
  cluster_objects c (cluster s) m -> home_ok m -> replay_fits (R := R) (M := M) c (len m) rs ->
  exists s', replay_rounds rand sequence client_rand random h conf path rep (Some (trace_text rs ++ tail)) s = (Ok true, s') /\
    cluster_objects c (cluster s') (replayed_rounds random (file_ h) (db_type h) rep (draws s) rs m).
Proof.
  intros Hall Ht. revert s m. induction rep as [|rep IH]; intros s m Hs Hh Hf; [by exists s|].
  destruct (replay_loop_objects rs tail (length (trace_text rs ++ tail)) s m) as (s1 & E1 & C1 & D1);
    [done|done|apply length_trace_tail|done..|].
  destruct (written_length random (file_ h) (db_type h) T_WRITE drawn (draws s) rs m Hall Hh) as [Hh1 Hl1].
  destruct (IH s1 _ C1 Hh1) as (s2 & E2 & C2).
  { eapply replay_fits_mono; [|exact Hf]. rewrite Hl1. apply foldl_grown_le. }
  exists s2. rewrite D1 in C2. split; [|exact C2]. cbn [replay_rounds].
  rewrite (st_bind_Ok _ _ s true s1); [done|]. unfold replay_once. by st_step E1.
Qed.

Lemma prepare_loop_objects rs fuel z s m :
  Forall line_ok rs -> (length rs <= fuel)%nat ->
  cluster_objects c (cluster s) m -> home_ok m -> prepare_fits c (len m) rs ->
  exists s', lines_loop (fun _ => false) (prepare_line rand sequence client_rand random h conf) fuel (trace_text rs) z s =
      (Ok z, s') /\
    cluster_objects c (cluster s') (written_by T_READ read_string (draws s) rs m) /\
    draws s' = (draws s + strings_read rs)%nat.
Proof.
  intros Hall. revert fuel s m. induction Hall as [|r rs Hr Hall IH]; intros fuel s m Hf Hs Hh Hfits.
  { exists s. split; [by apply lines_loop_end|]. by rewrite Nat.add_0_r. }
  destruct fuel as [|fuel]; [simpl in Hf; lia|]. rewrite trace_text_cons.
  rewrite lines_loop_request by first [apply Hr|done]. destruct Hfits as (Hw & Hfits).
  destruct (line_state random (file_ h) (db_type h) T_READ (draws s) r m Hr Hh) as [Hh1 Hl1].
  assert (exists s1, prepare_line rand sequence client_rand random h conf z (operation_name (r_op r))
      (r_offset r) (r_size r) s = (Ok z, s1) /\
    cluster_objects c (cluster s1)
      (if decide (r_op r = T_READ) then put_line random (file_ h) (db_type h) (draws s) r m else m) /\
    draws s1 = (draws s + read_string r)%nat) as (s1 & E1 & C1 & D1).
  { unfold prepare_line. rewrite not_POSIX. unfold read_string. assert (draws s = draws s + 0)%nat as D0 by lia.
    destruct (r_op r) eqn:Eop; try (rewrite decide_False by done; by exists s).
    rewrite decide_True by done. specialize (Hw eq_refl).
    pose proof (do_randstring_pos s r (wf_size _ _ _ Hw)) as E. st_step E.
    destruct (lh_run_write s m r) as (cl & Ew & Hs'); [done..|]. eexists. split; [by st_step Ew|done]. }
  st_step E1. destruct (IH fuel s1 _ ltac:(simpl in Hf; lia) C1 Hh1) as (s2 & E2 & C2 & D2); [by rewrite Hl1|].
  exists s2. split; [exact E2|]. rewrite D1 in C2. split; [exact C2|]. rewrite D2, D1. simpl. lia.
Qed.

End handler.

(** ** Preparation and replay *)

Section trace.
Context {R M : Type} `{RedisLaws R} `{MongoLaws M} `{MsgpackLaws}.
Context (rand sequence client_rand random : nat -> Z).
Context (Hrand : forall n, 0 <= rand n < 2 ^ 31) (Hseq : forall n, 0 <= sequence n < 2 ^ 64).
Context (c conf : Conf) (mode : IOLib) (filename : string) (rank stor_type chunk_size : Z).
Implicit Types s : state R M.

(** The servers know the object's name and the solution the handler names. *)
Record replayable : Prop := {
  rp_mode : to_servers mode;
  rp_chunk : 0 < u32 chunk_size;
  rp_name : name_ok filename;
  rp_home : exists ty, type_at c (u16 stor_type) ty;
}.

Abbreviation replay trace repetitions :=
  (replay_trace rand sequence client_rand random trace filename repetitions rank mode stor_type chunk_size conf).
Abbreviation prepare trace :=
  (prepare_data rand sequence client_rand random trace filename rank mode stor_type chunk_size conf).
Abbreviation home := (u16 stor_type).

Lemma u16_u16 z : is_u16 (u16 z).
Proof. apply Z.mod_pos_bound. lia. Qed.

Lemma replay_trace_objects rs tail repetitions s m :
  replayable -> Forall line_ok rs -> ends short tail -> 0 <= repetitions ->
  cluster_objects c (cluster s) m -> at_home filename home m ->
  replay_fits (R := R) (M := M) c (object_length filename m) rs ->
  exists s', replay (Some (trace_text rs ++ tail)) repetitions s = (Ok true, s') /\
    cluster_objects c (cluster s') (replayed_rounds random filename home (Z.to_nat repetitions) (draws s) rs m).
Proof.
  intros [Hm Hc Hn Hh] Hall Ht Hrep Hs Hat Hf. unfold replay_trace, LibHandler_ctor.
  destruct (Z.ltb_spec repetitions 0); [lia|].
  apply (replay_rounds_objects rand sequence client_rand random Hrand Hseq c _
    (mkLibHandler mode home chunk_size false filename) Hm Hc Hn (u16_u16 stor_type) Hh _ _ rs tail (set_file Indeterminate s)); done.
Qed.

Lemma prepare_data_objects rs s m :
  replayable -> Forall line_ok rs ->
  cluster_objects c (cluster s) m -> at_home filename home m -> prepare_fits c (object_length filename m) rs ->
  exists s', prepare (Some (trace_text rs)) s = (Ok 0, s') /\
    cluster_objects c (cluster s') (prepared_objects random filename home (draws s) rs m) /\
    draws s' = (draws s + strings_read rs)%nat.
Proof.
  intros [Hm Hc Hn Hh] Hall Hs Hat Hf. unfold prepare_data, LibHandler_ctor.
  destruct (prepare_loop_objects rand sequence client_rand random Hrand Hseq c
    (LibHandler_ctor filename mode stor_type chunk_size false conf).2
    (mkLibHandler mode home chunk_size false filename) Hm Hn (u16_u16 stor_type) Hh rs
    (length (trace_text rs)) 0 (set_file Indeterminate s) m) as (s' & E & C & D);
    [done|apply trace_text_length|done..|].
  exists s'. split; [|done]. st_step E. by destruct Hm as [-> | ->].
Qed.

(** C5: through the emulation, the client and the servers: the preparation of a
    trace puts a string for each read at its offset, in the order of the trace; then
    any number of repetitions performs the writes, all reads succeed and change
    nothing, and no other object is touched. The traces are those of [prepare_fits]
    and [replay_fits]: each request has at least one byte and stays inside one
    segment (a read only unless all stores are POSIX), leaves no gap, and starts at
    the start of a segment unless all stores are POSIX (a read: where every
    configured client reads from). The name does not end in a digit and the
    handler's storage type is the home of the object. *)
Theorem prepared_trace_replays rs repetitions s m :
  replayable -> Forall line_ok rs -> 0 <= repetitions ->
  cluster_objects c (cluster s) m -> at_home filename home m ->
  prepare_fits c (object_length filename m) rs ->
  replay_fits (R := R) (M := M) c (foldl (grown T_READ) (object_length filename m) rs) rs ->
  exists s1 s2, prepare (Some (trace_text rs)) s = (Ok 0, s1) /\
    replay (Some (trace_text rs)) repetitions s1 = (Ok true, s2) /\
    let m' := replayed_rounds random filename home (Z.to_nat repetitions) (draws s + strings_read rs) rs
                (prepared_objects random filename home (draws s) rs m) in
    cluster_objects c (cluster s2) m' /\ forall id, id <> filename -> m' !! id = m !! id.
Proof.
  intros Hr Hall Hrep Hs Hat Hpf Hrf. destruct (prepare_data_objects rs s m) as (s1 & E1 & C1 & D1); [done..|].
  destruct (written_length random filename home T_READ read_string (draws s) rs m Hall Hat) as [Hat1 Hl1].
  destruct (replay_trace_objects rs [] repetitions s1 _ Hr Hall I Hrep C1 Hat1) as (s2 & E2 & C2).
  { unfold prepared_objects. by rewrite Hl1. }
  rewrite app_nil_r in E2. rewrite D1 in C2. exists s1, s2. split; [done|]. split; [done|]. split; [exact C2|].
  intros id Hid. rewrite replayed_rounds_other by done. by apply written_other.
Qed.

End trace.
