(* ===== verification/Strtol.v ===== *)
(** * Strtol: numbers in text

    The conversions of the C and C++ libraries that command lines go through:
    [strtol] and [strtoul] in any base, and the C++ functions [std::stoi] and
    [std::stoul], which throw where the C functions set [errno] or leave
    [endptr] at the start. *)

From S2P Require Import Prelude CText Effects.

(** ** Digits and prefixes *)

(** The value of a digit, letters included. *)
Definition digit36 (c : ascii) : option Z :=
  let n := Z.of_N (N_of_ascii c) in
  if (48 <=? n) && (n <=? 57) then Some (n - 48)
  else if (65 <=? n) && (n <=? 90) then Some (n - 55)
  else if (97 <=? n) && (n <=? 122) then Some (n - 87)
  else None.

Definition digit_in (base : Z) (c : ascii) : option Z :=
  match digit36 c with
  | Some d => if d <? base then Some d else None
  | None => None
  end.

Fixpoint digits_in (base acc : Z) (l : list ascii) : Z * list ascii :=
  match l with
  | [] => (acc, [])
  | c :: l' =>
      match digit_in base c with
      | Some d => digits_in base (acc * base + d) l'
      | None => (acc, l)
      end
  end.

(** "0x" in front of a hexadecimal digit. *)
Definition hex_prefix (l : list ascii) : option (list ascii) :=
  match l with
  | "0"%char :: x :: c :: l' =>
      if (bool_decide (x = "x"%char) || bool_decide (x = "X"%char)) && bool_decide (is_Some (digit_in 16 c))
      then Some (c :: l') else None
  | _ => None
  end.

(** The base that is used and the text of the digits. *)
Definition strtol_base (base : Z) (l : list ascii) : Z * list ascii :=
  if (base =? 0) || (base =? 16) then
    match hex_prefix l with
    | Some l' => (16, l')
    | None =>
        if base =? 0 then
          match l with "0"%char :: _ => (8, l) | _ => (10, l) end
        else (base, l)
    end
  else (base, l).

(** White space, a sign, and the digits of a base: the sign, the magnitude and
    the text behind it, or nothing when there are no digits. *)
Definition scan_number (s : list ascii) (base : Z) : option (bool * Z * list ascii) :=
  let t := skip_space s in
  let '(neg, u) := match t with
                   | c :: t' => if decide (c = "-"%char) then (true, t')
                                else if decide (c = "+"%char) then (false, t') else (false, t)
                   | [] => (false, [])
                   end in
  let '(b, ds) := strtol_base base u in
  match ds with
  | c :: _ =>
      match digit_in b c with
      | None => None
      | Some _ => let '(n, rest) := digits_in b 0 ds in Some (neg, n, rest)
      end
  | [] => None
  end.

Definition signed (neg : bool) (n : Z) : Z := if neg then - n else n.

(** ** strtol and strtoul

    The value, whether ERANGE was set, and the text [endptr] points to: the
    whole argument when there are no digits. *)

Definition strtol (s : list ascii) (base : Z) : Z * bool * list ascii :=
  match scan_number s base with
  | None => (0, false, s)
  | Some (neg, n, rest) =>
      let v := signed neg n in (clamp64 v, negb (clamp64 v =? v), rest)
  end.

(** A number that fits is negated modulo 2^64; one that does not is ULONG_MAX. *)
Definition strtoul (s : list ascii) (base : Z) : Z * bool * list ascii :=
  match scan_number s base with
  | None => (0, false, s)
  | Some (neg, n, rest) =>
      if n <? 2 ^ 64 then (u64 (signed neg n), false, rest) else (2 ^ 64 - 1, true, rest)
  end.

(** ** std::stoi and std::stoul *)

Definition stoi (s : list ascii) : outcome Z :=
  match scan_number s 10 with
  | None => Throw (StdException "stoi")
  | Some (neg, n, _) =>
      let v := signed neg n in
      if (2 ^ 31 - 1 <? v) || (v <? - 2 ^ 31) then Throw (StdException "stoi") else Ok v
  end.

Definition stoul (s : list ascii) : outcome Z :=
  match scan_number s 10 with
  | None => Throw (StdException "stoul")
  | Some (neg, n, _) =>
      if n <? 2 ^ 64 then Ok (u64 (signed neg n)) else Throw (StdException "stoul")
  end.

Example stoul_negative : stoul (chars "-1k") = Ok (2 ^ 64 - 1).
Proof. by vm_compute. Qed.

Example stoi_no_digits : stoi (chars "k") = Throw (StdException "stoi").
Proof. by vm_compute. Qed.

(** ** Decimal numbers *)

Lemma digit_in_10 c : digit_in 10 c = digit_val c.
Proof. by destruct c as [[] [] [] [] [] [] [] []]. Qed.

Lemma digits_in_10 acc l : digits_in 10 acc l = digits_value acc l.
Proof.
  revert acc. induction l as [|c l IH]; intros acc; [done|]. cbn [digits_in digits_value].
  rewrite digit_in_10. by destruct (digit_val c).
Qed.

(** What does not continue a decimal number. *)
Definition no_digit (l : list ascii) : Prop :=
  match l with c :: _ => digit_val c = None | [] => True end.

Lemma digits_value_dec m l : 0 <= m -> no_digit l ->
  digits_value 0 (digits_of (S (Z.to_nat (Z.log2 m))) m [] ++ l) = (m, l).
Proof.
  intros Hm Hl.
  assert (forall fuel k acc, digits_of fuel k acc ++ l = digits_of fuel k (acc ++ l)) as A.
  { induction fuel as [|f IH]; intros k acc; [done|]. simpl. zcases; [done|]. apply IH. }
  rewrite A. destruct (digits_value_digits_of (S (Z.to_nat (Z.log2 m))) m 0 l)
    as (k & Hk & E); [split; [done|by apply log2_fuel]|lia|].
  simpl app. rewrite E. destruct l as [|c l']; simpl; [f_equal; lia|].
  unfold no_digit in Hl. rewrite Hl. by f_equal.
Qed.

Lemma scan_number_dec n l : no_digit l -> scan_number (dec n ++ l) 10 = Some (n <? 0, Z.abs n, l).
Proof.
  intros Hl.
  assert (forall m d r, 0 <= m -> digits_of (S (Z.to_nat (Z.log2 m))) m [] ++ l = digit_char d :: r ->
    0 <= d < 10 -> digits_in 10 0 (digit_char d :: r) = (m, l) /\ digit_in 10 (digit_char d) = Some d) as V.
  { intros m d r Hm E Hd. rewrite <- E, digits_in_10, digits_value_dec by done. split; [done|].
    rewrite digit_in_10. by apply digit_val_char. }
  unfold dec, scan_number. destruct (Z.ltb_spec n 0).
  - destruct (digits_of_head (S (Z.to_nat (Z.log2 (- n)))) (- n) []) as (d & r & Hd & Er); [lia..|].
    rewrite Er. destruct (V (- n) d (r ++ l)) as [V1 V2]; [lia|by rewrite Er|done|].
    cbn [app skip_space]. change (is_space "-") with false. cbv iota.
    rewrite decide_True by done. change (strtol_base 10 ?x) with (10, x). cbv beta iota.
    rewrite V2, V1. by rewrite Z.abs_neq by lia.
  - destruct (digits_of_head (S (Z.to_nat (Z.log2 n))) n []) as (d & r & Hd & Er); [lia..|].
    rewrite Er. destruct (V n d (r ++ l)) as [V1 V2]; [lia|by rewrite Er|done|].
    cbn [app skip_space]. rewrite digit_char_not_space by done.
    rewrite !decide_False
      by (intros E'; apply (f_equal digit_val) in E'; by rewrite digit_val_char in E' by done).
    change (strtol_base 10 ?x) with (10, x). cbv beta iota. by rewrite V2, V1, Z.abs_eq by lia.
Qed.

Lemma signed_abs n : signed (n <? 0) (Z.abs n) = n.
Proof. unfold signed. zcases; lia. Qed.

Lemma strtol_dec n l : - 2 ^ 63 <= n < 2 ^ 63 -> no_digit l -> strtol (dec n ++ l) 10 = (n, false, l).
Proof.
  intros Hn Hl. unfold strtol. rewrite scan_number_dec, signed_abs by done.
  assert (clamp64 n = n) as -> by (unfold clamp64; lia). by rewrite Z.eqb_refl.
Qed.

Lemma strtol_range s base : - 2 ^ 63 <= (strtol s base).1.1 < 2 ^ 63.
Proof.
  unfold strtol. destruct (scan_number s base) as [[[neg n] rest]|]; cbn [fst]; [|lia].
  unfold clamp64. lia.
Qed.

Lemma stoi_dec n l : - 2 ^ 31 <= n < 2 ^ 31 -> no_digit l -> stoi (dec n ++ l) = Ok n.
Proof.
  intros Hn Hl. unfold stoi. rewrite scan_number_dec, signed_abs by done. by zcases; simpl; try lia.
Qed.

Lemma stoi_range s n : stoi s = Ok n -> - 2 ^ 31 <= n < 2 ^ 31.
Proof.
  unfold stoi. destruct (scan_number s 10) as [[[neg m] rest]|]; [|done].
  destruct (_ || _) eqn:E; [done|]. apply orb_false_iff in E as [E1%Z.ltb_ge E2%Z.ltb_ge].
  intros [= <-]. lia.
Qed.

Lemma stoul_dec n l : 0 <= n < 2 ^ 64 -> no_digit l -> stoul (dec n ++ l) = Ok n.
Proof.
  intros Hn Hl. unfold stoul. rewrite scan_number_dec, signed_abs, Z.abs_eq by (done || lia).
  zcases; [|lia]. by rewrite u64_small by lia.
Qed.

Lemma stoul_range s n : stoul s = Ok n -> 0 <= n < 2 ^ 64.
Proof.
  unfold stoul. destruct (scan_number s 10) as [[[neg m] rest]|]; [|done].
  zcases; [|done]. intros [= <-]. apply u64_range.
Qed.
