(* ===== verification/GetNum.v ===== *)
(** * GetNum: old/single_hop/xattr/get_num.c

    Numbers on the command line: [strtol] with the base the flags select, and
    the checks [getNum] makes on its result.  A check that fails prints a
    message and ends the process with EXIT_FAILURE. *)

From S2P Require Import Prelude CText Effects Strtol.

(** ** get_num.c *)

Definition GN_NONNEG : Z := 1.
Definition GN_GT_0 : Z := 2.
Definition GN_ANY_BASE : Z := 64.
Definition GN_BASE_8 : Z := 128.
Definition GN_BASE_16 : Z := 256.

Definition has_flag (flags f : Z) : bool := negb (Z.land flags f =? 0).

Definition EXIT_FAILURE : Z := 1.

(** Only the process status of the diagnostic is modelled. *)
Definition gnFail {A} : outcome A := Exit EXIT_FAILURE.

Definition getNum (arg : option (list ascii)) (flags : Z) : outcome Z :=
  match arg with
  | None | Some [] => gnFail
  | Some s =>
      let base := if has_flag flags GN_ANY_BASE then 0
                  else if has_flag flags GN_BASE_8 then 8
                  else if has_flag flags GN_BASE_16 then 16 else 10 in
      let '(res, erange, endptr) := strtol s base in
      if erange : bool then gnFail
      else if bool_decide (endptr <> []) then gnFail
      else if has_flag flags GN_NONNEG && (res <? 0) then gnFail
      else if has_flag flags GN_GT_0 && (res <=? 0) then gnFail
      else Ok res
  end.

Definition getLong (arg : option (list ascii)) (flags : Z) : outcome Z := getNum arg flags.

Definition getInt (arg : option (list ascii)) (flags : Z) : outcome Z :=
  res ← getNum arg flags;
  if (2 ^ 31 - 1 <? res) || (res <? - 2 ^ 31) then gnFail else Ok (i32 res).

Example getInt_hex : getInt (Some (chars "0x1F")) GN_ANY_BASE = Ok 31.
Proof. by vm_compute. Qed.

Example getInt_octal : getInt (Some (chars " -017")) GN_ANY_BASE = Ok (-15).
Proof. by vm_compute. Qed.

Example getLong_out_of_range : getLong (Some (chars "9223372036854775808")) 0 = Exit 1.
Proof. by vm_compute. Qed.

(** ** Correctness *)

(** Flags that leave the base decimal. *)
Definition decimal_flags (flags : Z) : Prop :=
  has_flag flags GN_ANY_BASE = false /\ has_flag flags GN_BASE_8 = false /\ has_flag flags GN_BASE_16 = false.

Definition allowed (flags n : Z) : bool :=
  negb (has_flag flags GN_NONNEG && (n <? 0)) && negb (has_flag flags GN_GT_0 && (n <=? 0)).

Lemma getNum_dec n l flags :
  - 2 ^ 63 <= n < 2 ^ 63 -> no_digit l -> decimal_flags flags ->
  getNum (Some (dec n ++ l)) flags =
    if bool_decide (l = []) && allowed flags n then Ok n else Exit EXIT_FAILURE.
Proof.
  intros Hn Hl (F1 & F2 & F3). unfold getNum.
  destruct (dec n ++ l) as [|c r] eqn:E.
  { apply app_eq_nil in E as [E _]. by apply dec_nonempty in E. }
  rewrite F1, F2, F3, <- E, strtol_dec by done. unfold allowed.
  destruct l; [|done]. rewrite (bool_decide_eq_true_2 ([] = [])) by done.
  rewrite bool_decide_eq_false_2 by tauto.
  by destruct (has_flag flags GN_NONNEG && (n <? 0)), (has_flag flags GN_GT_0 && (n <=? 0)).
Qed.

(** A decimal [int] is returned exactly when the flags allow its sign. *)
Theorem getInt_decimal n flags :
  - 2 ^ 31 <= n < 2 ^ 31 -> decimal_flags flags ->
  getInt (Some (dec n)) flags = if allowed flags n then Ok n else Exit EXIT_FAILURE.
Proof.
  intros Hn Hf. unfold getInt. rewrite <- (app_nil_r (dec n)), getNum_dec by (done || lia).
  rewrite bool_decide_eq_true_2 by done. cbn [andb]. destruct (allowed flags n); [|done].
  unfold mbind; cbn [outcome_bind]. rewrite i32_small by lia. zcases; simpl; try lia. done.
Qed.

(** A number that is followed by anything but digits is refused. *)
Theorem getNum_trailing n c l flags :
  - 2 ^ 63 <= n < 2 ^ 63 -> digit_val c = None -> decimal_flags flags ->
  getNum (Some (dec n ++ c :: l)) flags = Exit EXIT_FAILURE.
Proof. intros Hn Hc Hf. by rewrite getNum_dec. Qed.

Lemma getNum_sound arg flags n : getNum arg flags = Ok n -> - 2 ^ 63 <= n < 2 ^ 63 /\ allowed flags n = true.
Proof.
  unfold getNum, allowed. destruct arg as [[|c s]|]; try done.
  destruct (strtol (c :: s) _) as [[res er] rest] eqn:E. destruct er; [done|].
  case_bool_decide; [done|].
  destruct (has_flag flags GN_NONNEG && (res <? 0)) eqn:E1; [done|].
  destruct (has_flag flags GN_GT_0 && (res <=? 0)) eqn:E2; [done|]. intros [= <-]. rewrite E1, E2.
  split; [|done]. match type of E with strtol ?t ?b = _ => pose proof (strtol_range t b) as Hr end.
  by rewrite E in Hr.
Qed.

(** C40: whatever the text and the base, a result is in the range of an [int] and has
    the sign the flags ask for. *)
Theorem getInt_sound arg flags n :
  getInt arg flags = Ok n -> - 2 ^ 31 <= n < 2 ^ 31 /\ allowed flags n = true.
Proof.
  unfold getInt. destruct (getNum arg flags) as [res| | |] eqn:E; try done.
  apply getNum_sound in E as [_ Ha]. unfold mbind; cbn [outcome_bind].
  destruct (_ || _) eqn:Er; [done|]. apply orb_false_iff in Er as [E1%Z.ltb_ge E2%Z.ltb_ge].
  intros [= <-]. rewrite i32_small by lia. split; [lia|done].
Qed.
