(* ===== verification/SingleHop.v ===== *)
(** * SingleHop: the link experiments of old/single_hop

    Links to data in another store, kept in extended attributes of a file
    (xattr/link_fs.c, setxattr.c, error_functions.c) or in a Redis cluster
    (redis/link_redis.c, redis_create_shadow.c, redis_create_shadow_mt.c).  Time
    measurement and console output are not modelled. *)

From S2P Require Import Prelude CText Effects ShadowLink ShadowStore.

(** ** error_functions.c *)

(** The message is assembled in [userMsg] and [errText], but [buf], which is
    never written, is printed. *)
Definition outputError : outcome unit := _ ← c_string (malloc 500); Ok ().

(** [terminate], without EF_DUMPCORE. *)
Definition terminate {A} : outcome A := Exit 1.

Definition errMsg : outcome unit := outputError.
Definition errExit {A} : outcome A := outputError;; terminate.
Definition fatal {A} : outcome A := outputError;; terminate.
Definition err_exit {A} : outcome A := outputError;; terminate.
Definition errExitEN {A} : outcome A := outputError;; terminate.
Definition usageErr {A} : outcome A := Exit 1.
Definition cmdLineErr {A} : outcome A := Exit 1.

(** ** Extended attributes *)

(** Files with their attributes, the paths that cannot be opened, and the
    attribute names the file system accepts. *)
Record XFS := mkXFS {
  xfiles : gmap (list ascii) (gmap (list ascii) (list ascii));
  xdenied : gset (list ascii);
  xnames : list ascii -> bool;
}.

Definition set_xfiles (f : gmap (list ascii) (gmap (list ascii) (list ascii))) (s : XFS) : XFS :=
  mkXFS f (xdenied s) (xnames s).

(** [fopen (filename, "a+")] creates a file that is missing. *)
Definition touch_link (filename : list ascii) : ST XFS Z := fun s =>
  if decide (filename ∈ xdenied s) then (errExit, s)
  else (Ok 0, match xfiles s !! filename with
              | Some _ => s
              | None => set_xfiles (<[filename := ∅]> (xfiles s)) s
              end).

(** "target:filename_segment", in an array of 1024 bytes. *)
Definition link_key (filename : list ascii) (seg_id : Z) (target : list ascii) : list ascii :=
  target ++ [":"%char] ++ filename ++ ["_"%char] ++ dec seg_id.

Definition insert_link (filename : list ascii) (seg_id : Z) (attr target : list ascii) : ST XFS Z := fun s =>
  let key := link_key filename seg_id target in
  if 1024 <=? zlen key then (Undefined OutOfBounds, s) else
  match xfiles s !! filename with
  | Some attrs =>
      if xnames s attr then (Ok 0, set_xfiles (<[filename := <[attr := key]> attrs]> (xfiles s)) s)
      else (errExit, s)
  | None => (errExit, s)
  end.

Definition remove_link (filename : list ascii) : ST XFS Z := fun s =>
  match xfiles s !! filename with
  | Some _ => if decide (filename ∈ xdenied s) then (errExit, s)
              else (Ok 0, set_xfiles (delete filename (xfiles s)) s)
  | None => (errExit, s)
  end.

Definition NUM_OPS : nat := 100.

(** The file of the [i]-th turn, in an array of 1024 bytes. *)
Definition link_file (base : list ascii) (nprocs rank i : Z) : list ascii :=
  if nprocs =? 1 then sub_key base i else sub_key (sub_key base rank) i.

Fixpoint setxattr_loop (n : nat) (i : Z) (base : list ascii) (nprocs rank : Z) : ST XFS unit :=
  match n with
  | O => mret ()
  | S n =>
      let filename := link_file base nprocs rank i in
      if 1024 <=? zlen filename then undefined OutOfBounds else
      _ ← touch_link filename;
      _ ← insert_link filename i (chars "loc") (chars "redis");
      _ ← remove_link filename;
      setxattr_loop n (i + 1) base nprocs rank
  end.

Definition setxattr_main (nprocs rank : Z) (argv : list (list ascii)) : ST XFS unit :=
  match argv with
  | _ :: file :: _ =>
      if decide (file = chars "--help") then lift usageErr
      else setxattr_loop NUM_OPS 1 file nprocs rank
  | _ => lift usageErr
  end.

(** ** Links in Redis *)

Section redis.
Context {H : Type} `{Hiredis H}.

Definition create_return_link_redis (key target : list ascii) : ST H unit := fun h =>
  let '(reply, h') := hi_set key target h in (check_reply reply, h').

Definition create_link_redis (key : list ascii) : ST H unit := fun h =>
  let '(reply, h') := hi_set key (chars "redis") h in (check_reply reply, h').

Definition MT_OPS : nat := 1000.

(** [sprintf (temp, "%s_%d_%d", key_base, rank, i)]. *)
Definition mt_key (base : list ascii) (rank i : Z) : list ascii := sub_key (sub_key base rank) i.

Fixpoint link_loop (n : nat) (i : Z) (base : list ascii) (rank : Z) : ST H unit :=
  match n with
  | O => mret ()
  | S n => create_link_redis (mt_key base rank i);; link_loop n (i + 1) base rank
  end.

Fixpoint return_link_loop (n : nat) (i : Z) (base : list ascii) (rank : Z) : ST H unit :=
  match n with
  | O => mret ()
  | S n =>
      create_return_link_redis (mt_key base rank (i + Z.of_nat MT_OPS)) (chars "orangefs");;
      return_link_loop n (i + 1) base rank
  end.

(** redis_create_shadow_mt.c, after the connection. *)
Definition shadow_mt_main (rank : Z) (argv : list (list ascii)) : ST H unit :=
  match argv with
  | [_; key_base] =>
      if 1024 <=? zlen (mt_key key_base rank (2 * Z.of_nat MT_OPS)) then undefined OutOfBounds else
      link_loop MT_OPS 1 key_base rank;;
      return_link_loop MT_OPS 1 key_base rank
  | _ => lift (Exit (-1))
  end.

(** redis_create_shadow.c: as many bytes of [buf] as the key has. *)
Definition shadow_text : list ascii := chars "OrangeFS: this is the actual file name".

Definition create_shadow (key : list ascii) : ST H unit :=
  bytes ← lift (mem_read (Some (Some <$> (shadow_text ++ [nul]))) 0 (zlen key) ≫= defined);
  create_return_link_redis key bytes.

Fixpoint create_shadows (n : nat) (key : list ascii) : ST H unit :=
  match n with
  | O => mret ()
  | S n => create_shadow key;; create_shadows n key
  end.

End redis.

(** ** What the experiments leave behind *)

Lemma xfs_restored (s : XFS) (f : list ascii) (a : gmap (list ascii) (list ascii)) :
  xfiles s !! f = None ->
  set_xfiles (delete f (<[f := a]> (xfiles s))) s = s.
Proof. intros Hf. rewrite delete_insert_id by done. by destruct s. Qed.

Lemma setxattr_turn s (f : list ascii) i :
  f ∉ xdenied s -> xfiles s !! f = None -> xnames s (chars "loc") = true ->
  zlen (link_key f i (chars "redis")) < 1024 ->
  (_ ← touch_link f; _ ← insert_link f i (chars "loc") (chars "redis"); remove_link f) s = (Ok 0, s).
Proof.
  intros Hd Hf Hn Hl.
  erewrite st_bind_Ok; [|unfold touch_link; rewrite decide_False, Hf by done; done].
  erewrite st_bind_Ok.
  2: { unfold insert_link. destruct (Z.leb_spec 1024 (zlen (link_key f i (chars "redis")))); [lia|].
       cbn [xfiles set_xfiles xnames]. rewrite lookup_insert_eq, Hn. done. }
  unfold remove_link. cbn [xfiles set_xfiles xdenied]. rewrite lookup_insert_eq, decide_False by done.
  rewrite insert_insert_eq. f_equal. exact (xfs_restored s f _ Hf).
Qed.

Lemma setxattr_loop_ok n i base nprocs rank s :
  xnames s (chars "loc") = true ->
  (forall j, i <= j < i + Z.of_nat n ->
     (link_file base nprocs rank j ∉ xdenied s) /\ xfiles s !! link_file base nprocs rank j = None /\
     zlen (link_key (link_file base nprocs rank j) j (chars "redis")) < 1024) ->
  setxattr_loop n i base nprocs rank s = (Ok (), s).
Proof.
  intros Hn. revert i. induction n as [|n IH]; intros i Hall; [done|]. cbn [setxattr_loop].
  destruct (Hall i ltac:(lia)) as (Hd & Hf & Hl).
  set (f := link_file base nprocs rank i) in *.
  assert (zlen f < 1024) by (unfold link_key in Hl; rewrite !zlen_app in Hl; pose proof (zlen_nonneg (dec i));
    change (zlen (chars "redis")) with 5 in Hl; change (zlen [":"%char]) with 1 in Hl;
    change (zlen ["_"%char]) with 1 in Hl; lia).
  destruct (Z.leb_spec 1024 (zlen f)); [lia|].
  pose proof (setxattr_turn s f i Hd Hf Hn Hl) as T. revert T. unfold mbind, st_bind.
  destruct (touch_link f s) as [[]]; try done. destruct (insert_link _ _ _ _ _) as [[]]; try done.
  intros T. rewrite T. apply IH. intros j Hj. apply Hall. lia.
Qed.

(** On free names and a file system that takes the attribute, a rank makes a
    hundred links and leaves the file system as it was. *)
Theorem setxattr_leaves_nothing nprocs rank prog base s :
  base <> chars "--help" -> xnames s (chars "loc") = true ->
  (forall j, 1 <= j <= 100 ->
     (link_file base nprocs rank j ∉ xdenied s) /\ xfiles s !! link_file base nprocs rank j = None /\
     zlen (link_key (link_file base nprocs rank j) j (chars "redis")) < 1024) ->
  setxattr_main nprocs rank [prog; base] s = (Ok (), s).
Proof.
  intros Hb Hn Hall. unfold setxattr_main. rewrite decide_False by done.
  apply setxattr_loop_ok; [done|]. intros j Hj. apply Hall. unfold NUM_OPS in Hj. lia.
Qed.

(** A failing call does not end with its message: [errExit] prints an array that
    was never written. *)
Theorem link_failure_undefined (f : list ascii) i target s :
  zlen (link_key f i target) < 1024 -> xfiles s !! f = None ->
  insert_link f i (chars "loc") target s = (Undefined UninitRead, s).
Proof.
  intros Hl Hf. unfold insert_link. destruct (Z.leb_spec 1024 (zlen (link_key f i target))); [lia|].
  by rewrite Hf.
Qed.

Section shadows.
Context {H : Type} `{HiredisLaws H}.

Lemma mt_key_inj base rank i j : mt_key base rank i = mt_key base rank j -> i = j.
Proof. apply sub_key_inj. Qed.

Lemma return_link_ok (h : H) key target :
  hi_up h -> exists h', create_return_link_redis key target h = (Ok (), h') /\ hi_up h' /\
    hi_view h' = <[key := target]> (hi_view h).
Proof.
  intros Hu. destruct (hi_set_up h key target Hu) as (h' & E & U & V).
  exists h'. unfold create_return_link_redis. by rewrite E.
Qed.

(** A loop that stores one value under a run of keys; both loops are such. *)
Lemma link_loop_ok n i base rank (h : H) :
  hi_up h -> exists h', link_loop n i base rank h = (Ok (), h') /\ hi_up h' /\
    (forall j, i <= j < i + Z.of_nat n -> hi_view h' !! mt_key base rank j = Some (chars "redis")) /\
    (forall j, ~ (i <= j < i + Z.of_nat n) -> hi_view h' !! mt_key base rank j = hi_view h !! mt_key base rank j).
Proof.
  revert i h. induction n as [|n IH]; intros i h Hu; cbn [link_loop].
  { exists h. repeat split; [done|intros; lia]. }
  destruct (return_link_ok h (mt_key base rank i) (chars "redis") Hu) as (h1 & E1 & U1 & V1).
  destruct (IH (i + 1) h1 U1) as (h2 & E2 & U2 & K & F).
  exists h2. erewrite st_bind_Ok by exact E1. split; [done|]. split; [done|]. split.
  - intros j Hj. destruct (decide (j = i)) as [->|]; [|apply K; lia].
    rewrite F by lia. by rewrite V1, lookup_insert_eq.
  - intros j Hj. rewrite F by lia. rewrite V1, lookup_insert_ne; [done|]. intros E%mt_key_inj. lia.
Qed.

Lemma return_link_loop_ok n i base rank (h : H) :
  let first := i + Z.of_nat MT_OPS in
  hi_up h -> exists h', return_link_loop n i base rank h = (Ok (), h') /\ hi_up h' /\
    (forall j, first <= j < first + Z.of_nat n -> hi_view h' !! mt_key base rank j = Some (chars "orangefs")) /\
    (forall j, ~ (first <= j < first + Z.of_nat n) -> hi_view h' !! mt_key base rank j = hi_view h !! mt_key base rank j).
Proof.
  cbv zeta. revert i h. induction n as [|n IH]; intros i h Hu; cbn [return_link_loop].
  { exists h. repeat split; [done|intros; lia]. }
  destruct (return_link_ok h (mt_key base rank (i + Z.of_nat MT_OPS)) (chars "orangefs") Hu) as (h1 & E1 & U1 & V1).
  destruct (IH (i + 1) h1 U1) as (h2 & E2 & U2 & K & F).
  exists h2. erewrite st_bind_Ok by exact E1. split; [done|]. split; [done|]. split.
  - intros j Hj. destruct (decide (j = i + Z.of_nat MT_OPS)) as [->|]; [|apply K; lia].
    rewrite F by lia. by rewrite V1, lookup_insert_eq.
  - intros j Hj. rewrite F by lia. rewrite V1, lookup_insert_ne; [done|]. intros E%mt_key_inj. lia.
Qed.

(** A rank leaves its thousand links and its thousand return links. *)
Theorem shadow_mt_links prog base rank (h : H) :
  hi_up h -> zlen (mt_key base rank 2000) < 1024 ->
  exists h', shadow_mt_main rank [prog; base] h = (Ok (), h') /\
    (forall j, 1 <= j <= 1000 -> hi_view h' !! mt_key base rank j = Some (chars "redis")) /\
    (forall j, 1001 <= j <= 2000 -> hi_view h' !! mt_key base rank j = Some (chars "orangefs")).
Proof.
  intros Hu Hl. change 2000 with (2 * Z.of_nat MT_OPS) in Hl.
  destruct (link_loop_ok MT_OPS 1 base rank h Hu) as (h1 & E1 & U1 & K1 & _).
  destruct (return_link_loop_ok MT_OPS 1 base rank h1 U1) as (h2 & E2 & _ & K2 & F2).
  exists h2. unfold shadow_mt_main.
  destruct (Z.leb_spec 1024 (zlen (mt_key base rank (2 * Z.of_nat MT_OPS)))); [lia|].
  erewrite st_bind_Ok by done. split; [done|]. change (Z.of_nat MT_OPS) with 1000 in *. split.
  - intros j Hj. rewrite F2 by lia. apply K1. lia.
  - intros j Hj. apply K2. lia.
Qed.

(** A shadow is cut to the length of its key. *)
Theorem shadow_cut_to_key key (h : H) :
  hi_up h -> zlen key <= zlen shadow_text ->
  exists h', create_shadow key h = (Ok (), h') /\
    hi_view h' !! key = Some (take (length key) shadow_text).
Proof.
  intros Hu Hl. destruct (return_link_ok h key (slice 0 (zlen key) shadow_text) Hu) as (h' & E & _ & V).
  exists h'. split.
  - unfold create_shadow. pose proof (zlen_nonneg key).
    erewrite st_bind_Ok; [exact E|]. unfold lift.
    rewrite mem_read_in by (rewrite ?zlen_fmap, ?zlen_app; change (zlen [nul]) with 1; lia).
    rewrite slice_fmap. unfold mbind; cbn [outcome_bind]. rewrite defined_chars.
    rewrite slice_app_l by lia. done.
  - rewrite V, lookup_insert_eq. unfold slice. by rewrite drop_0, zlen_to_nat.
Qed.

End shadows.
