(* ===== verification/SingleHopMongo.v ===== *)
(** * SingleHopMongo: old/single_hop/mongodb and the file-header experiments

    Links kept as documents of a MongoDB collection (link_mongo.c) with the two
    programs that insert them (insert.c, insert_mpi.c), and the experiments that
    keep the target of a link in the file itself (xattr/header.c, header_mpi.c).
    query.c and getxattr.c, which only print, are not modelled. *)

From S2P Require Import Prelude CText Effects Services ShadowLink ShadowStore SingleHop.

(** ** link_mongo.c *)

Section mongo.
Context {D : Type} `{Mongoc D}.

(** The server's collection, and whether the global [collection] refers to it. *)
Record MState := mkMState { server : D; connected : bool }.

(** [destroy] is what [bson_destroy (insert)] does on a pointer that was never
    set: [Undefined UninitRead] by the standard, [Ok ()] in a run that survives
    it.  The caller does not use the result, which is not returned either. *)
Context (ping : list ascii -> bool) (destroy : outcome unit).

Definition link_connect_uri (uri_string : list ascii) : ST MState unit := fun s =>
  if ping uri_string then (lift destroy;; put_state (mkMState (server s) true)) s else (Ok (), s).

Definition link_connect_mpi (hostname : list ascii) : ST MState unit :=
  let uri_string := chars "mongodb://" ++ hostname ++ [":"%char] ++ dec MONGODB_PORT in
  if zlen uri_string <? 1024 then link_connect_uri uri_string else undefined OutOfBounds.

Definition link_connect : ST MState unit := link_connect_mpi MONGODB_HOST.

(** A failed insert is printed; the library does not accept a null collection. *)
Definition create_return_link_mongo (key target : list ascii) : ST MState unit := fun s =>
  if connected s then
    let '(_, d) := mc_insert [(key, target)] (server s) in (Ok (), mkMState d true)
  else (Undefined NullDeref, s).

Definition create_link_mongo (key : list ascii) : ST MState unit :=
  create_return_link_mongo key (chars "mongodb").

Definition create_link_mongo_sized (key : list ascii) (buf : buffer) : ST MState unit :=
  bytes ← lift (c_string buf);
  create_return_link_mongo key bytes.

(** ** insert.c *)

Definition insert_key (i : Z) : list ascii := chars "key_" ++ dec i.

Fixpoint insert_loop (n : nat) (i : Z) (buf : buffer) : ST MState unit :=
  match n with
  | O => mret ()
  | S n => create_link_mongo_sized (insert_key i) buf;; insert_loop n (i + 1) buf
  end.

(** [malloc (size)] and [memset (buf, 'A', size)]; nothing terminates the text. *)
Definition insert_main (argv : list (list ascii)) : ST MState unit :=
  match argv with
  | _ :: size :: _ =>
      let size := atoi size in
      buf ← (if size <? 0 then undefined NullDeref
             else mret (Some (replicate (Z.to_nat size) (Some "A"%char))));
      link_connect;;
      insert_loop 1000 0 buf
  | _ => lift (Exit (-1))
  end.

(** ** insert_mpi.c *)

Context (rand : nat -> Z).

Definition insert_mpi_key (key_base : list ascii) (rank : Z) (i : nat) : list ascii :=
  sub_key (sub_key key_base rank) (rand i).

Fixpoint insert_mpi_loop (n i : nat) (key_base : list ascii) (rank : Z) : ST MState unit :=
  match n with
  | O => mret ()
  | S n =>
      let key := insert_mpi_key key_base rank i in
      (if zlen key <? 1024 then create_link_mongo key else undefined OutOfBounds);;
      insert_mpi_loop n (S i) key_base rank
  end.

Definition insert_mpi_main (hostname : list ascii) (rank : Z) (argv : list (list ascii)) : ST MState unit :=
  match argv with
  | _ :: key_base :: _ =>
      (if zlen key_base <? 1024 then mret () else undefined OutOfBounds);;
      link_connect_mpi hostname;;
      insert_mpi_loop 10 0 key_base rank
  | _ => lift (Exit (-1))
  end.

End mongo.
Arguments MState : clear implicits.

(** ** header.c and header_mpi.c *)

Definition header_text : list ascii := chars "The past is not dead.".

Definition HEADER_OPS : nat := 100.

(** One turn: the file is opened and created, the text is written at its end
    ("a+") or at its start (MPI), the file is removed. *)
Definition header_turn (append : bool) (file : string) : ST FS unit :=
  fs ← get_state;
  match open_rdwr_creat fs file with
  | None => lift errExit
  | Some fs1 =>
      let off := if append then zlen (file_content fs1 file) else 0 in
      let '(ret, fs2) := posix_write fs1 file off header_text in
      put_state fs2;;
      (if ret <? 0 then lift errExit else mret ());;
      put_state (posix_remove fs2 file)
  end.

Fixpoint header_loop (n : nat) (append : bool) (file : string) : ST FS unit :=
  match n with
  | O => mret ()
  | S n => header_turn append file;; header_loop n append file
  end.

Definition header_main (argv : list (list ascii)) : ST FS unit :=
  match argv with
  | _ :: file :: _ =>
      if decide (file = chars "--help") then lift usageErr
      else header_loop HEADER_OPS true (of_chars file)
  | _ => lift usageErr
  end.

Definition header_file (file : list ascii) (nprocs rank : Z) : list ascii :=
  if nprocs =? 1 then file else sub_key file rank.

Definition header_mpi_main (nprocs rank : Z) (argv : list (list ascii)) : ST FS unit :=
  match argv with
  | _ :: file :: _ =>
      if decide (file = chars "--help") then lift usageErr
      else if zlen (header_file file nprocs rank) <? 1024 then
        header_loop HEADER_OPS false (of_chars (header_file file nprocs rank))
      else undefined OutOfBounds
  | _ => lift usageErr
  end.

(** ** What the programs leave behind *)

Section specs.
Context {D : Type} `{Mongoc D}.

Lemma st_bind_failed {S A B} (m : ST S A) (f : A -> ST S B) s o s' :
  m s = (o, s') -> (forall a, o <> Ok a) -> exists o', (m ≫= f) s = (o', s') /\ forall b, o' <> Ok b.
Proof. unfold mbind, st_bind. intros -> Ho. destruct o as [a| | |]; [by destruct (Ho a)|by eexists..]. Qed.

Lemma link_connect_server ping destroy hostname (s : MState D) :
  exists o s', link_connect_mpi ping destroy hostname s = (o, s') /\ server s' = server s /\
    (destroy = Undefined UninitRead -> o = Ok () -> s' = s).
Proof.
  unfold link_connect_mpi. destruct (_ <? 1024); [|by do 2 eexists].
  unfold link_connect_uri. destruct (ping _); [|by do 2 eexists].
  destruct destroy as [[]| | |]; by do 2 eexists.
Qed.

Lemma unterminated n : c_string (Some (replicate n (Some "A"%char))) = Undefined OutOfBounds.
Proof. cbn [c_string]. induction n as [|n IH]; [done|]. cbn. by rewrite IH. Qed.

Lemma insert_loop_unterminated n i k (s : MState D) :
  insert_loop (S n) i (Some (replicate k (Some "A"%char))) s = (Undefined OutOfBounds, s).
Proof.
  cbn [insert_loop]. apply st_bind_Undefined. unfold create_link_mongo_sized.
  apply st_bind_Undefined. unfold lift. by rewrite unterminated.
Qed.

(** However the read of the pointer ends, insert.c inserts nothing: its text has
    no end. *)
Theorem insert_inserts_nothing ping destroy argv (s : MState D) :
  exists o s', insert_main ping destroy argv s = (o, s') /\ (forall a, o <> Ok a) /\ server s' = server s.
Proof.
  destruct argv as [|prog [|size argv]]; [by do 2 eexists..|]. unfold insert_main.
  destruct (Z.ltb_spec (atoi size) 0); [by do 2 eexists|].
  rewrite (st_bind_Ok _ _ s (Some (replicate (Z.to_nat (atoi size)) (Some "A"%char))) s) by done.
  destruct (link_connect_server ping destroy MONGODB_HOST s) as (o & s1 & E & Hs & _).
  assert (o = Ok () \/ o <> Ok ()) as [->|Ho] by (destruct o as [[]| | |]; by auto).
  - rewrite (st_bind_Ok _ _ _ _ _ E). exists (Undefined OutOfBounds), s1. split; [|done].
    apply (insert_loop_unterminated 999).
  - destruct (st_bind_failed _ (fun _ => insert_loop 1000 0 (Some (replicate (Z.to_nat (atoi size)) (Some "A"%char))))
      _ _ _ E) as (o' & E' & Ho'); [by intros []|]. by exists o', s1.
Qed.

Lemma insert_mpi_loop_null rand n i base rank (s : MState D) :
  connected s = false -> exists u, insert_mpi_loop rand (S n) i base rank s = (Undefined u, s).
Proof.
  intros Hc. cbn [insert_mpi_loop]. destruct (zlen _ <? 1024).
  - exists NullDeref. apply st_bind_Undefined. unfold create_link_mongo, create_return_link_mongo. by rewrite Hc.
  - exists OutOfBounds. by apply st_bind_Undefined.
Qed.

(** By the standard insert_mpi.c inserts nothing either. *)
Theorem insert_mpi_inserts_nothing ping rand hostname rank argv (s : MState D) :
  connected s = false ->
  exists o s', insert_mpi_main ping (Undefined UninitRead) rand hostname rank argv s = (o, s') /\
    (forall a, o <> Ok a) /\ server s' = server s.
Proof.
  intros Hc. destruct argv as [|prog [|base argv]]; [by do 2 eexists..|]. unfold insert_mpi_main.
  destruct (zlen base <? 1024); [|by do 2 eexists]. rewrite (st_bind_Ok _ _ s () s) by done.
  destruct (link_connect_server ping (Undefined UninitRead) hostname s) as (o & s1 & E & Hs & Heq).
  assert (o = Ok () \/ o <> Ok ()) as [->|Ho] by (destruct o as [[]| | |]; by auto).
  - rewrite (st_bind_Ok _ _ _ _ _ E), (Heq eq_refl eq_refl).
    destruct (insert_mpi_loop_null rand 9 0 base rank s Hc) as [u Eu]. by exists (Undefined u), s.
  - destruct (st_bind_failed _ (fun _ => insert_mpi_loop rand 10 0 base rank) _ _ _ E) as (o' & E' & Ho');
      [by intros []|]. by exists o', s1.
Qed.

End specs.

Lemma header_turn_ok append file fs :
  file ∉ denied fs -> io_error fs = false -> 0 < rw_max fs -> files fs !! file = None ->
  header_turn append file fs = (Ok (), fs).
Proof.
  intros Hd Hio Hr Hf. unfold header_turn. rewrite (st_bind_Ok _ _ fs fs fs) by done.
  unfold open_rdwr_creat. rewrite decide_False by done.
  set (fs1 := set_files _ fs). assert (file_content fs1 file = []) as Ef.
  { unfold fs1, file_content. cbn. by rewrite lookup_insert_eq, Hf. }
  rewrite Ef. change (zlen []) with 0. replace (if append then 0 else 0) with 0 by by destruct append.
  unfold posix_write. cbn [io_error set_files fs1 rw_max]. rewrite Hio.
  set (l := slice 0 _ header_text).
  assert (0 < zlen l) as Hl.
  { unfold l. change (zlen header_text) with 21. rewrite zlen_slice; change (zlen header_text) with 21; lia. }
  destruct l as [|c l']; [done|]. rewrite (st_bind_Ok _ _ fs () (set_files
    (<[file := splice nul 0 (c :: l') (file_content fs1 file)]> (files fs1)) fs1)) by done.
  destruct (Z.ltb_spec (zlen (c :: l')) 0); [lia|]. rewrite (st_bind_Ok _ _ _ () _) by done.
  unfold put_state, posix_remove. cbn [denied set_files fs1]. rewrite decide_False by done. f_equal.
  unfold fs1, set_files. cbn [files denied rw_max io_error].
  rewrite insert_insert_eq, delete_insert_id by done. by destruct fs.
Qed.

Lemma header_loop_ok n append file fs :
  file ∉ denied fs -> io_error fs = false -> 0 < rw_max fs -> files fs !! file = None ->
  header_loop n append file fs = (Ok (), fs).
Proof.
  intros Hd Hio Hr Hf. induction n as [|n IH]; [done|]. cbn [header_loop].
  by rewrite (st_bind_Ok _ _ _ _ _ (header_turn_ok append file fs Hd Hio Hr Hf)).
Qed.

(** On a free name both header experiments end and leave the file system as it
    was. *)
Theorem header_leaves_nothing nprocs rank prog file fs :
  file <> chars "--help" -> zlen (header_file file nprocs rank) < 1024 ->
  (forall f, f = of_chars file \/ f = of_chars (header_file file nprocs rank) ->
     (f ∉ denied fs) /\ files fs !! f = None) ->
  io_error fs = false -> 0 < rw_max fs ->
  header_main [prog; file] fs = (Ok (), fs) /\ header_mpi_main nprocs rank [prog; file] fs = (Ok (), fs).
Proof.
  intros Hh Hl Hf Hio Hr. unfold header_main, header_mpi_main. rewrite !decide_False by done.
  destruct (Z.ltb_spec (zlen (header_file file nprocs rank)) 1024); [|lia].
  split; apply header_loop_ok; (done || apply Hf; by auto).
Qed.
