(* ===== verification/CFloat.v ===== *)
(** * CFloat: float and double

    IEEE 754 binary32 and binary64 on the executable specification of the
    Standard Library ([spec_float]; one NaN, without payload): arithmetic,
    conversions, the object representation of a [float], and [std::stof]. *)

From Stdlib Require Export Floats.SpecFloat.
From S2P Require Import Prelude CText Effects Strtol.

(** ** Arithmetic and conversions *)

Abbreviation float := spec_float (only parsing).
Abbreviation double := spec_float (only parsing).

Definition fmul : float -> float -> float := SFmul 24 128.
Definition fdiv : float -> float -> float := SFdiv 24 128.
Definition dadd : double -> double -> double := SFadd 53 1024.
Definition dsub : double -> double -> double := SFsub 53 1024.
Definition dmul : double -> double -> double := SFmul 53 1024.
Definition ddiv : double -> double -> double := SFdiv 53 1024.

Definition float_of_Z (n : Z) : float := binary_normalize 24 128 n 0 false.
Definition double_of_Z (n : Z) : double := binary_normalize 53 1024 n 0 false.

(** Rounding to the nearest number of another format. *)
Definition convert (prec emax : Z) (x : spec_float) : spec_float :=
  match x with
  | S754_finite s m e => binary_round prec emax s m e
  | _ => x
  end.
Definition float_of_double : double -> float := convert 24 128.
Definition double_of_float : float -> double := convert 53 1024.

(** The integer part of a finite number. *)
Definition truncate (x : spec_float) : option Z :=
  match x with
  | S754_zero _ => Some 0
  | S754_finite s m e =>
      Some (signed s (if 0 <=? e then Zpos m * 2 ^ e else Zpos m / 2 ^ (- e)))
  | _ => None
  end.

Definition to_integer (lo hi : Z) (x : spec_float) : outcome Z :=
  match truncate x with
  | Some n => if (lo <=? n) && (n <=? hi) then Ok n else Undefined BadConversion
  | None => Undefined BadConversion
  end.
Definition size_of_float : spec_float -> outcome Z := to_integer 0 (2 ^ 64 - 1).
Definition int_of_float : spec_float -> outcome Z := to_integer (- 2 ^ 31) (2 ^ 31 - 1).

(** ** The 32 bits of a float *)

Definition float_bits (x : float) : Z :=
  let sign (s : bool) := if s then 2 ^ 31 else 0 in
  match x with
  | S754_zero s => sign s
  | S754_infinity s => sign s + 255 * 2 ^ 23
  | S754_nan => 255 * 2 ^ 23 + 2 ^ 22
  | S754_finite s m e =>
      if Zpos m <? 2 ^ 23 then sign s + Zpos m
      else sign s + (e + 150) * 2 ^ 23 + (Zpos m - 2 ^ 23)
  end.

Definition bits_float (z : Z) : float :=
  let s := 2 ^ 31 <=? z in
  let ex := (z / 2 ^ 23) mod 256 in
  let fr := z mod 2 ^ 23 in
  if ex =? 255 then (if fr =? 0 then S754_infinity s else S754_nan)
  else if ex =? 0 then match fr with Zpos m => S754_finite s m (-149) | _ => S754_zero s end
  else match fr + 2 ^ 23 with Zpos m => S754_finite s m (ex - 150) | _ => S754_nan end.

(** ** std::stof *)

(** Digits with at most one point: the value without the point, the number of
    digits behind it, whether there is a digit at all, and the rest. *)
Definition scan_fraction (base : Z) (l : list ascii) : Z * Z * bool * list ascii :=
  let '(n, rest) := digits_in base 0 l in
  match rest with
  | "."%char :: rest' =>
      let '(n', rest'') := digits_in base n rest' in
      let k := zlen rest' - zlen rest'' in
      let any := (0 <? zlen l - zlen rest) || (0 <? k) in
      if any then (n', k, true, rest'') else (0, 0, false, l)
  | _ => (n, 0, 0 <? zlen l - zlen rest, rest)
  end.

(** An exponent, when a digit follows its letter. *)
Definition scan_exponent (letter : ascii) (l : list ascii) : Z * list ascii :=
  let is_letter c := bool_decide (c = letter \/ N_of_ascii c = N_of_ascii letter - 32)%N in
  match l with
  | c :: l' =>
      if is_letter c then
        let '(neg, ds) := match l' with
                          | "-"%char :: r => (true, r)
                          | "+"%char :: r => (false, r)
                          | _ => (false, l')
                          end in
        match ds with
        | d :: _ => if bool_decide (is_Some (digit_in 10 d))
                    then let '(n, rest) := digits_in 10 0 ds in (signed neg n, rest) else (0, l)
        | [] => (0, l)
        end
      else (0, l)
  | [] => (0, l)
  end.

(** [num / den] rounded. *)
Definition round_ratio (prec emax : Z) (s : bool) (num den : positive) : spec_float :=
  SFdiv prec emax (S754_finite s num 0) (S754_finite false den 0).

(** [n * base^k] in binary32, and whether ERANGE is set: the value is too large,
    or it is not a float and below the normal ones. *)
Definition round_float (s : bool) (n base k : Z) : float * bool :=
  match n with
  | Zpos m =>
      let num := if 0 <=? k then Z.to_pos (Zpos m * base ^ k) else m in
      let den := if 0 <=? k then xH else Z.to_pos (base ^ (- k)) in
      let x := round_ratio 24 128 s num den in
      let erange :=
        match x with
        | S754_finite _ mx ex =>
            match round_ratio 24 (2 ^ 40) s num den with
            | S754_finite _ _ ew =>
                (ew <? -149) && negb (Zpos mx * Zpos den =? Zpos num * 2 ^ (- ex))
            | _ => false
            end
        | _ => true
        end in
      (x, erange)
  | _ => (S754_zero s, false)
  end.

Definition lower (c : ascii) : ascii :=
  let n := N_of_ascii c in if (65 <=? n)%N && (n <=? 90)%N then ascii_of_N (n + 32) else c.

(** Does [l] begin with [word], in either case? *)
Fixpoint starts_with (word l : list ascii) : bool :=
  match word, l with
  | [], _ => true
  | w :: word', c :: l' => bool_decide (lower c = w) && starts_with word' l'
  | _ :: _, [] => false
  end.

Definition stof (s : list ascii) : outcome float :=
  let t := skip_space s in
  let '(neg, u) := match t with
                   | "-"%char :: t' => (true, t')
                   | "+"%char :: t' => (false, t')
                   | _ => (false, t)
                   end in
  let finish '(x, erange) := if erange : bool then Throw (StdException "stof") else Ok x in
  if starts_with (chars "inf") u then Ok (S754_infinity neg)
  else if starts_with (chars "nan") u then Ok S754_nan
  else
    let decimal :=
      let '(n, k, any, rest) := scan_fraction 10 u in
      if any : bool then let '(e, _) := scan_exponent "e" rest in finish (round_float neg n 10 (e - k))
      else Throw (StdException "stof") in
    match u with
    | "0"%char :: x :: h =>
        if bool_decide (lower x = "x"%char) then
          let '(n, k, any, rest) := scan_fraction 16 h in
          if any : bool then let '(e, _) := scan_exponent "p" rest in finish (round_float neg n 2 (e - 4 * k))
          else decimal
        else decimal
    | _ => decimal
    end.

Example stof_half : stof (chars "0.5") = Ok (S754_finite false 8388608 (-24)).
Proof. by vm_compute. Qed.

Example stof_exponent : stof (chars "-12.5e-1x") = Ok (S754_finite true 10485760 (-23)).
Proof. by vm_compute. Qed.

Example stof_hex : stof (chars "0x1.8p1") = Ok (S754_finite false 12582912 (-22)).
Proof. by vm_compute. Qed.

Example stof_overflow : stof (chars "1e39") = Throw (StdException "stof").
Proof. by vm_compute. Qed.

Example stof_subnormal : stof (chars "1e-40") = Throw (StdException "stof").
Proof. by vm_compute. Qed.

(** ** Rounding gives numbers of the format *)

Lemma digits2_log2 (p : positive) : Zpos (digits2_pos p) = Z.log2 (Zpos p) + 1.
Proof.
  induction p as [p IH|p IH|]; cbn [digits2_pos]; [| |done]; rewrite Pos2Z.inj_succ, IH.
  - change (Zpos p~1) with (2 * Zpos p + 1). rewrite Z.log2_succ_double by lia. lia.
  - change (Zpos p~0) with (2 * Zpos p). rewrite Z.log2_double by lia. lia.
Qed.

Lemma Zdigits2_log2 n : 0 < n -> Zdigits2 n = Z.log2 n + 1.
Proof. destruct n; try lia. intros _. apply digits2_log2. Qed.

Lemma iter_pos_iter {A} (f : A -> A) n x : SpecFloat.iter_pos f n x = Nat.iter (Pos.to_nat n) f x.
Proof.
  assert (forall m k y, Nat.iter (m + k) f y = Nat.iter m f (Nat.iter k f y)) as Hadd.
  { intros m k y. induction m as [|m IH]; [done|]. simpl. by rewrite IH. }
  revert x. induction n as [n IH|n IH|]; intros x; cbn [SpecFloat.iter_pos]; [| |done].
  - rewrite !IH, <- Hadd. rewrite Pos2Nat.inj_xI. replace (S (2 * Pos.to_nat n)) with (Pos.to_nat n + Pos.to_nat n + 1)%nat by lia.
    by rewrite (Hadd (_ + _)%nat 1%nat).
  - rewrite !IH, <- Hadd. by replace (Pos.to_nat n~0) with (Pos.to_nat n + Pos.to_nat n)%nat by lia.
Qed.

Lemma shr_1_m r : 0 <= shr_m r -> shr_m (shr_1 r) = shr_m r / 2.
Proof.
  destruct r as [[|[p|p|]|p] b s]; simpl; intros; try lia; try done.
  - change (Zpos p~1) with (2 * Zpos p + 1). apply (Z.div_unique _ _ _ 1); lia.
  - change (Zpos p~0) with (2 * Zpos p). apply (Z.div_unique _ _ _ 0); lia.
Qed.

Lemma shr_m_iter n r : 0 <= shr_m r -> shr_m (Nat.iter n shr_1 r) = shr_m r / 2 ^ Z.of_nat n.
Proof.
  intros Hr. induction n as [|n IH]; [by rewrite Z.div_1_r|].
  change (Nat.iter (S n) shr_1 r) with (shr_1 (Nat.iter n shr_1 r)).
  rewrite shr_1_m; rewrite IH.
  - rewrite Z.div_div by lia. f_equal. rewrite Nat2Z.inj_succ, Z.pow_succ_r by lia. lia.
  - apply Z.div_pos; lia.
Qed.

Section rounding.
Context (prec emax : Z) (Hprec : 0 < prec) (Hemax : prec < emax).
#[local] Abbreviation fexp := (fexp prec emax).
#[local] Abbreviation emin := (emin prec emax).

Lemma shr_fexp_ok m e l :
  0 < m -> e <= fexp (Z.log2 m + 1 + e) ->
  let '(r, e') := shr_fexp prec emax m e l in
  0 <= shr_m r /\ e' = fexp (Z.log2 m + 1 + e) /\
  (shr_m r = 0 /\ e' = emin \/ 0 < shr_m r /\ Z.log2 (shr_m r) + e' = Z.log2 m + e).
Proof.
  intros Hm He. unfold shr_fexp, shr. rewrite Zdigits2_log2 by done.
  set (f := fexp (Z.log2 m + 1 + e)) in *.
  assert (shr_m (shr_record_of_loc m l) = m) as Hr by by destruct l as [|[]].
  destruct (f - e) as [|n|n] eqn:E; [|clear Hr|lia].
  - rewrite Hr. split; [lia|]. split; [lia|]. right. split; [done|]. lia.
  - assert (shr_m (shr_record_of_loc m l) = m) as Hr by by destruct l as [|[]].
    rewrite iter_pos_iter, shr_m_iter, Hr, positive_nat_Z by (rewrite Hr; lia).
    assert (0 <= m / 2 ^ Zpos n) as Hq by (apply Z.div_pos; lia).
    split; [done|]. split; [lia|].
    destruct (Z.ltb_spec (Z.log2 m) (Zpos n)) as [Hl|Hl].
    + left. apply Z.log2_lt_pow2 in Hl; [|done]. rewrite Z.div_small by lia.
      split; [done|]. assert (Z.log2 m < Zpos n) by (apply Z.log2_lt_pow2; lia).
      unfold f, SpecFloat.fexp in *. unfold SpecFloat.emin in *. lia.
    + right. rewrite <- Z.shiftr_div_pow2 by lia. split.
      * rewrite Z.shiftr_div_pow2 by lia. apply Z.div_str_pos. split; [lia|].
        apply Z.log2_le_pow2; lia.
      * rewrite Z.log2_shiftr by lia. lia.
Qed.

Lemma shr_fexp_zero e l :
  let '(r, _) := shr_fexp prec emax 0 e l in shr_m r = 0.
Proof.
  unfold shr_fexp, shr. assert (shr_m (shr_record_of_loc 0 l) = 0) as Hr by by destruct l as [|[]].
  destruct (_ - _); [done| |done]. rewrite iter_pos_iter, shr_m_iter, Hr by lia. apply Z.div_0_l. lia.
Qed.

Lemma round_nearest_even_cases m l : let n := round_nearest_even m l in n = m \/ n = m + 1.
Proof. cbv zeta. destruct l as [|[]]; simpl; auto. destruct (Z.even m); auto. Qed.

Lemma fexp_mono a b : a <= b -> fexp a <= fexp b.
Proof. unfold SpecFloat.fexp. lia. Qed.

Lemma binary_round_aux_valid s m e l :
  0 < m -> e <= fexp (Z.log2 m + 1 + e) -> valid_binary prec emax (binary_round_aux prec emax s m e l) = true.
Proof.
  intros Hm He. unfold binary_round_aux. pose proof (shr_fexp_ok m e l Hm He) as H1.
  destruct (shr_fexp prec emax m e l) as [r1 e1]. destruct H1 as (H0 & Ee & H1).
  set (n := round_nearest_even (shr_m r1) (loc_of_shr_record r1)).
  destruct (round_nearest_even_cases (shr_m r1) (loc_of_shr_record r1)) as [En|En]; fold n in En.
  all: destruct (Z.eq_dec n 0) as [Hn|Hn];
    [rewrite Hn; pose proof (shr_fexp_zero e1 loc_Exact) as H2;
     destruct (shr_fexp prec emax 0 e1 loc_Exact) as [r2 e2]; by rewrite H2|].
  all: assert (e1 <= fexp (Z.log2 n + 1 + e1)) as H2;
    [destruct H1 as [[Hz He1]|[Hp Hl]];
     [unfold SpecFloat.fexp; lia
     |etransitivity; [|apply (fexp_mono (Z.log2 m + 1 + e))]; [lia|];
      assert (Z.log2 (shr_m r1) <= Z.log2 n) by (apply Z.log2_le_mono; lia); lia]|].
  all: pose proof (shr_fexp_ok n e1 loc_Exact ltac:(lia) H2) as H3;
    destruct (shr_fexp prec emax n e1 loc_Exact) as [r2 e2]; destruct H3 as (P & E2 & H3);
    destruct (shr_m r2) as [|p|p]; [done| |lia];
    destruct (Z.leb_spec e2 (emax - prec)); [|done];
    cbn [valid_binary]; unfold bounded, canonical_mantissa; rewrite digits2_log2;
    apply andb_true_intro; split; [|lia]; apply Z.eqb_eq;
    destruct H3 as [[? _]|[_ H3]]; [done|rewrite E2 at 2; f_equal; lia].
Qed.

Lemma shiftl_pos m d : Pos.iter (Z.mul 2) (Zpos m) d = Zpos (Pos.iter xO m d).
Proof.
  induction d as [|d IH] using Pos.peano_ind; [done|]. by rewrite !Pos.iter_succ, IH.
Qed.

Lemma binary_round_valid s m e : valid_binary prec emax (binary_round prec emax s m e) = true.
Proof.
  unfold binary_round, shl_align. rewrite digits2_log2.
  set (f := fexp (Z.log2 (Zpos m) + 1 + e)).
  destruct (f - e) as [|d|d] eqn:E.
  - apply binary_round_aux_valid; [done|]. fold f. lia.
  - apply binary_round_aux_valid; [done|]. fold f. lia.
  - apply binary_round_aux_valid; [done|].
    assert (Zpos (Pos.iter xO m d) = Z.shiftl (Zpos m) (Zpos d)) as ->.
    { unfold Z.shiftl. symmetry. apply shiftl_pos. }
    rewrite Z.log2_shiftl by lia. replace (Z.log2 (Zpos m) + Zpos d + 1 + f) with (Z.log2 (Zpos m) + 1 + e) by lia.
    fold f. lia.
Qed.

Lemma convert_valid x : valid_binary prec emax (convert prec emax x) = true.
Proof. destruct x; try done. apply binary_round_valid. Qed.

End rounding.

(** ** The representation determines the float *)

Lemma bits_float_bits x : valid_binary 24 128 x = true -> bits_float (float_bits x) = x.
Proof.
  destruct x as [s|s| |s m e]; intros Hv; [by destruct s|by destruct s|done|].
  cbn [valid_binary] in Hv. apply andb_prop in Hv as [Hc%Z.eqb_eq Hb%Z.leb_le].
  rewrite digits2_log2 in Hc. unfold fexp, emin in Hc.
  assert (0 <= Z.log2 (Zpos m)) as Hl0 by apply Z.log2_nonneg.
  pose proof (Z.log2_spec (Zpos m) ltac:(lia)) as [L1 L2].
  unfold float_bits. destruct (Z.ltb_spec (Zpos m) (2 ^ 23)) as [Hm|Hm].
  - assert (Z.log2 (Zpos m) < 23) by (apply Z.log2_lt_pow2; lia). assert (e = -149) as -> by lia.
    unfold bits_float.
    set (z := (if s then 2 ^ 31 else 0) + Zpos m).
    assert ((z / 2 ^ 23) mod 256 = 0) as -> by (subst z; destruct s; [|by rewrite Z.div_small by lia];
      replace (2 ^ 31 + Zpos m) with (Zpos m + 256 * 2 ^ 23) by lia; rewrite Z.div_add, Z.div_small by lia; done).
    assert (z mod 2 ^ 23 = Zpos m) as -> by (subst z; destruct s; [|by rewrite Z.mod_small by lia];
      replace (2 ^ 31 + Zpos m) with (Zpos m + 256 * 2 ^ 23) by lia; rewrite Z.mod_add, Z.mod_small by lia; done).
    simpl. f_equal. subst z. destruct s; zcases; lia.
  - assert (Z.log2 (Zpos m) = 23) as El.
    { assert (23 <= Z.log2 (Zpos m)) by (apply Z.log2_le_pow2; lia). lia. }
    assert (Zpos m < 2 ^ 24) by (rewrite El in L2; done).
    unfold bits_float. set (z := (if s then 2 ^ 31 else 0) + (e + 150) * 2 ^ 23 + (Zpos m - 2 ^ 23)).
    assert (exists k, (s = true /\ k = 256 \/ s = false /\ k = 0) /\ z = (Zpos m - 2 ^ 23) + (e + 150 + k) * 2 ^ 23) as (k & Hk & Ez).
    { destruct s; [exists 256|exists 0]; (split; [auto|]); subst z; lia. }
    assert (z / 2 ^ 23 = e + 150 + k) as ->. { rewrite Ez, Z.div_add, Z.div_small by lia. lia. }
    assert (z mod 2 ^ 23 = Zpos m - 2 ^ 23) as ->. { rewrite Ez, Z.mod_add, Z.mod_small by lia. done. }
    assert ((e + 150 + k) mod 256 = e + 150) as ->.
    { destruct Hk as [[_ ->]|[_ ->]].
      - rewrite <- (Z.mul_1_l 256) at 1. rewrite Z.mod_add, Z.mod_small by lia. done.
      - rewrite Z.mod_small by lia. lia. }
    replace (Zpos m - 2 ^ 23 + 2 ^ 23) with (Zpos m) by lia. replace (e + 150 - 150) with e by lia.
    destruct Hk as [[-> ->]|[-> ->]]; zcases; done || lia.
Qed.

Lemma float_of_double_valid x : valid_binary 24 128 (float_of_double x) = true.
Proof. unfold float_of_double. apply (convert_valid 24 128); lia. Qed.
