(* ===== verification/FloatExact.v ===== *)
(** * FloatExact: integers in double precision

    Integers below 2^53 are doubles, and so are their sums: [double_of_Z] and
    [dadd] are exact on them. *)

From S2P Require Import Prelude CText Effects Strtol CFloat.

(** The canonical representation of a positive integer of at most 53 bits. *)
Definition exact_double (n : Z) : double :=
  S754_finite false (Z.to_pos (n * 2 ^ (52 - Z.log2 n))) (Z.log2 n - 52).

(** Shifting out zeros loses nothing. *)
Lemma shr_1_double m : shr_1 (Build_shr_record (2 * m) false false) = Build_shr_record m false false.
Proof. destruct m as [|p|p]; done. Qed.

Lemma shr_iter_double k m :
  Nat.iter k shr_1 (Build_shr_record (m * 2 ^ Z.of_nat k) false false) = Build_shr_record m false false.
Proof.
  revert m. induction k as [|k IH]; intros m; [by rewrite Z.mul_1_r|].
  rewrite Nat2Z.inj_succ, Z.pow_succ_r by lia.
  replace (m * (2 * 2 ^ Z.of_nat k)) with (2 * m * 2 ^ Z.of_nat k) by lia.
  change (Nat.iter (S k) shr_1) with (fun x => shr_1 (Nat.iter k shr_1 x)). cbv beta.
  by rewrite IH, shr_1_double.
Qed.

Lemma shr_exact q e k :
  0 <= k -> shr (shr_record_of_loc (q * 2 ^ k) loc_Exact) e k = (Build_shr_record q false false, e + k).
Proof.
  intros Hk. destruct k as [|k|k]; [|..]; cbn [shr shr_record_of_loc]; [by rewrite Z.mul_1_r, Z.add_0_r| |lia].
  by rewrite iter_pos_iter, <- (positive_nat_Z k), shr_iter_double.
Qed.

Section exact.
Context (n : Z) (Hn : 0 < n < 2 ^ 53).

Lemma exact_log2 : 0 <= Z.log2 n <= 52.
Proof. pose proof (Z.log2_nonneg n). assert (Z.log2 n < 53) by (apply Z.log2_lt_pow2; lia). lia. Qed.

Lemma exact_mantissa : 0 < n * 2 ^ (52 - Z.log2 n) /\ Z.log2 (n * 2 ^ (52 - Z.log2 n)) = 52.
Proof.
  pose proof exact_log2. split; [apply Z.mul_pos_pos; lia|]. rewrite Z.log2_mul_pow2 by lia. lia.
Qed.

Lemma exact_fexp : fexp 53 1024 (Z.log2 n + 1) = Z.log2 n - 52.
Proof. pose proof exact_log2. unfold fexp, emin. lia. Qed.

(** Rounding a scaled representation of [n] gives its canonical one. *)
Lemma binary_round_aux_exact e :
  e <= Z.log2 n - 52 -> binary_round_aux 53 1024 false (n * 2 ^ (- e)) e loc_Exact = exact_double n.
Proof.
  intros He. pose proof exact_log2 as Hl. pose proof exact_mantissa as [Hm Hm2].
  set (q := n * 2 ^ (52 - Z.log2 n)) in *. set (f := Z.log2 n - 52) in *.
  assert (n * 2 ^ (- e) = q * 2 ^ (f - e)) as ->.
  { unfold q, f. rewrite <- Z.mul_assoc, <- Z.pow_add_r by lia. f_equal. f_equal. lia. }
  assert (0 < 2 ^ (f - e)) by lia.
  unfold binary_round_aux, shr_fexp. rewrite Zdigits2_log2 by (apply Z.mul_pos_pos; lia).
  rewrite Z.log2_mul_pow2, Hm2 by lia. replace (f - e + 52 + 1 + e) with (Z.log2 n + 1) by (unfold f; lia).
  rewrite exact_fexp. fold f. rewrite shr_exact by lia.
  cbn [shr_m loc_of_shr_record round_nearest_even]. rewrite Zdigits2_log2 by done.
  replace (e + (f - e)) with f by lia. rewrite Hm2. replace (52 + 1 + f) with (Z.log2 n + 1) by (unfold f; lia).
  rewrite exact_fexp. fold f. rewrite Z.sub_diag. cbn [shr shr_record_of_loc shr_m].
  unfold exact_double. fold q f. destruct q as [|p|p]; try lia. cbn [Z.to_pos].
  destruct (Z.leb_spec f (1024 - 53)); [done|lia].
Qed.

Lemma binary_round_exact e m :
  e <= 0 -> Zpos m = n * 2 ^ (- e) -> binary_round 53 1024 false m e = exact_double n.
Proof.
  intros He Em. pose proof exact_log2 as Hl. unfold binary_round, shl_align. rewrite digits2_log2, Em.
  rewrite Z.log2_mul_pow2 by lia. replace (- e + Z.log2 n + 1 + e) with (Z.log2 n + 1) by lia. rewrite exact_fexp.
  destruct (Z.log2 n - 52 - e) as [|d|d] eqn:Ed.
  - rewrite Em. apply binary_round_aux_exact. lia.
  - rewrite Em. apply binary_round_aux_exact. lia.
  - assert (Zpos (Pos.iter xO m d) = n * 2 ^ (- (Z.log2 n - 52))) as ->.
    { rewrite <- shiftl_pos. change (Pos.iter (Z.mul 2) (Zpos m) d) with (Z.shiftl (Zpos m) (Zpos d)).
      rewrite Z.shiftl_mul_pow2, Em, <- Z.mul_assoc, <- Z.pow_add_r by lia. f_equal. f_equal. lia. }
    apply binary_round_aux_exact. lia.
Qed.

End exact.

Lemma double_of_Z_exact n : 0 < n < 2 ^ 53 -> double_of_Z n = exact_double n.
Proof. intros Hn. destruct n as [|p|p]; try lia. unfold double_of_Z, binary_normalize. apply binary_round_exact; lia. Qed.

Lemma shl_align_value m e e' : e' <= e -> Zpos (shl_align m e e').1 = Zpos m * 2 ^ (e - e').
Proof.
  intros He. unfold shl_align. destruct (e' - e) as [|d|d] eqn:Ed; [|lia|].
  - replace (e - e') with 0 by lia. cbn. lia.
  - cbn [fst]. rewrite <- shiftl_pos. change (Pos.iter (Z.mul 2) (Zpos m) d) with (Z.shiftl (Zpos m) (Zpos d)).
    rewrite Z.shiftl_mul_pow2 by lia. f_equal. f_equal. lia.
Qed.

Lemma dadd_exact a b :
  0 <= a -> 0 <= b -> a + b < 2 ^ 53 -> dadd (double_of_Z a) (double_of_Z b) = double_of_Z (a + b).
Proof.
  intros Ha Hb Hab. destruct (Z.eq_dec a 0) as [->|Ha0].
  { destruct (Z.eq_dec b 0) as [->|]; [done|]. by rewrite Z.add_0_l, (double_of_Z_exact b) by lia. }
  destruct (Z.eq_dec b 0) as [->|Hb0]; [by rewrite Z.add_0_r, (double_of_Z_exact a) by lia|].
  rewrite (double_of_Z_exact a), (double_of_Z_exact b), (double_of_Z_exact (a + b)) by lia.
  unfold dadd, exact_double at 1 2, SFadd, binary_normalize, cond_Zopp.
  set (ea := Z.log2 a - 52). set (eb := Z.log2 b - 52). set (ez := Z.min ea eb).
  pose proof (exact_log2 a ltac:(lia)). pose proof (exact_log2 b ltac:(lia)).
  pose proof (exact_mantissa a ltac:(lia)) as [Hma _]. pose proof (exact_mantissa b ltac:(lia)) as [Hmb _].
  assert (Zpos (shl_align (Z.to_pos (a * 2 ^ (52 - Z.log2 a))) ea ez).1 +
          Zpos (shl_align (Z.to_pos (b * 2 ^ (52 - Z.log2 b))) eb ez).1 = (a + b) * 2 ^ (- ez)) as E.
  { rewrite !shl_align_value by lia. rewrite !Z2Pos.id by done. rewrite <- !Z.mul_assoc. rewrite <- (Z.pow_add_r 2 (52 - Z.log2 a)), <- (Z.pow_add_r 2 (52 - Z.log2 b)) by lia.
    replace (52 - Z.log2 a + (ea - ez)) with (- ez) by lia.
    replace (52 - Z.log2 b + (eb - ez)) with (- ez) by lia. lia. }
  rewrite E. assert (0 < (a + b) * 2 ^ (- ez)) as Hpos by (apply Z.mul_pos_pos; lia).
  destruct ((a + b) * 2 ^ (- ez)) as [|m|m] eqn:Em; try lia. apply binary_round_exact; lia.
Qed.

(** A double that is an integer. *)
Lemma truncate_exact n : 0 <= n < 2 ^ 53 -> truncate (double_of_Z n) = Some n.
Proof.
  intros Hn. destruct (Z.eq_dec n 0) as [->|]; [done|]. rewrite double_of_Z_exact by lia.
  pose proof (exact_log2 n ltac:(lia)). pose proof (exact_mantissa n ltac:(lia)) as [Hm _].
  unfold truncate, exact_double. rewrite Z2Pos.id by done. unfold signed.
  destruct (Z.leb_spec 0 (Z.log2 n - 52)).
  - assert (Z.log2 n = 52) as -> by lia. simpl. f_equal. lia.
  - replace (- (Z.log2 n - 52)) with (52 - Z.log2 n) by lia. by rewrite Z.div_mul by lia.
Qed.
