(* ===== verification/OldPrograms.v ===== *)
(** * OldPrograms: the rest of the programs under old/

    Timing (engine/common.h and common.c, shadow_link/common.h, xattr/common.c),
    the end of the engine and its unused [pfs_io] (engine/test_engine.c), and the
    programs of single_hop that connect to the Redis cluster or only read and
    print: redis/link_redis.c, redis/redis_create_shadow.c, xattr/getxattr.c and
    mongodb/query.c. *)

From S2P Require Import Prelude CText Effects Strtol CFloat FloatExact.
From S2P Require Import ShadowLink ShadowStore Engine EngineSpec SingleHop SingleHopMongo.

(** ** Timing *)

Module Timing.

Record timespec := mkTimespec { tv_sec : Z; tv_nsec : Z }.

(** 1e-9 and 1e6, correctly rounded. *)
Definition nano : double := ddiv (double_of_Z 1) (double_of_Z (10 ^ 9)).
Definition million : double := double_of_Z (10 ^ 6).

Definition between (start end_ : timespec) : double :=
  dadd (double_of_Z (i64 (tv_sec end_ - tv_sec start))) (dmul (double_of_Z (i64 (tv_nsec end_ - tv_nsec start))) nano).

(** Null pointers give -1. *)
Definition timespec_substract (start end_ : option timespec) : double :=
  match start, end_ with Some a, Some b => between a b | _, _ => double_of_Z (-1) end.

(** The same of microseconds, which are divided. *)
Definition timeval_substract (start end_ : option (Z * Z)) : double :=
  match start, end_ with
  | Some (s, u), Some (s', u') =>
      dadd (double_of_Z (i64 (s' - s))) (ddiv (double_of_Z (i64 (u' - u))) million)
  | _, _ => double_of_Z (-1)
  end.

(** What DECLARE_TIMING declares. *)
Record timing := mkTiming {
  timeStart : timespec; timeEnd : timespec; timeDiff : double; timeTally : double; countTally : Z;
}.

Definition START_TIMING (now : timespec) (t : timing) : timing :=
  mkTiming now (timeEnd t) (timeDiff t) (timeTally t) (countTally t).

Definition STOP_TIMING (now : timespec) (t : timing) : timing :=
  let diff := between (timeStart t) now in
  mkTiming (timeStart t) now diff (dadd (timeTally t) diff) (i32 (countTally t + 1)).

Definition GET_TIMING (t : timing) : double := timeTally t.

Definition GET_AVERAGE_TIMING (t : timing) : double :=
  if countTally t =? 0 then double_of_Z 0 else ddiv (timeTally t) (double_of_Z (countTally t)).

Definition CLEAR_AVERAGE_TIMING (t : timing) : timing :=
  mkTiming (timeStart t) (timeEnd t) (timeDiff t) (double_of_Z 0) 0.

(** The sections of a program that are timed. *)
Fixpoint time_all (l : list (timespec * timespec)) (t : timing) : timing :=
  match l with
  | [] => t
  | (a, b) :: l' => time_all l' (STOP_TIMING b (START_TIMING a t))
  end.

Fixpoint seconds (l : list (timespec * timespec)) : Z :=
  match l with [] => 0 | (a, b) :: l' => tv_sec b - tv_sec a + seconds l' end.

(** A section of whole seconds. *)
Definition whole (i : timespec * timespec) : Prop := tv_sec i.1 <= tv_sec i.2 /\ tv_nsec i.1 = tv_nsec i.2.

Lemma seconds_nonneg l : Forall whole l -> 0 <= seconds l.
Proof. unfold whole. induction 1 as [|[a b] l [Hi _] Hl IH]; simpl in *; lia. Qed.

Lemma between_whole a b : whole (a, b) -> tv_sec b - tv_sec a < 2 ^ 53 ->
  between a b = double_of_Z (tv_sec b - tv_sec a).
Proof.
  intros [Hs Hn] Hb. cbn in *. unfold between. rewrite Hn, Z.sub_diag, i64_small by lia.
  change (dmul (double_of_Z (i64 0)) nano) with (double_of_Z 0). rewrite dadd_exact by lia. by rewrite Z.add_0_r.
Qed.

(** The tally of sections of whole seconds is exact, and so is their number. *)
Lemma timing_adds_up l t n :
  Forall whole l -> 0 <= n -> n + seconds l < 2 ^ 53 -> timeTally t = double_of_Z n ->
  0 <= countTally t -> countTally t + zlen l < 2 ^ 31 ->
  GET_TIMING (time_all l t) = double_of_Z (n + seconds l) /\
  countTally (time_all l t) = countTally t + zlen l.
Proof.
  intros Hl. revert t n. induction Hl as [|[a b] l Hi Hl IH]; intros t n Hn Hb Ht Hc Hz; cbn [time_all seconds] in *.
  { rewrite Z.add_0_r, zlen_nil, Z.add_0_r. done. }
  rewrite zlen_cons in *. pose proof (seconds_nonneg l Hl). pose proof (zlen_nonneg l).
  pose proof Hi as [Hs _]. cbn in Hs.
  destruct (IH (STOP_TIMING b (START_TIMING a t)) (n + (tv_sec b - tv_sec a))) as [E1 E2]; try lia.
  - cbn. rewrite Ht, between_whole by (done || lia). apply dadd_exact; lia.
  - cbn. rewrite i32_small by lia. lia.
  - cbn. rewrite i32_small by lia. lia.
  - rewrite E1, E2. cbn [STOP_TIMING START_TIMING countTally]. rewrite i32_small by lia. split; [f_equal; lia|lia].
Qed.

End Timing.

(** ** The end of the engine *)

Module EngineRun.
Section run.
Context {H D : Type} `{Hiredis H} `{Mongoc D}.
Context (max : Z) (rnd : Z -> nat -> Z) (rank : Z).
Implicit Types s : state H D.

Definition PFS1_STRIPE_SIZE : Z := 4096.
Definition PFS2_STRIPE_SIZE : Z := 131072.

(** One record on a second stream for the file of a stripe size, which shares the
    position of the first; both files are positioned.  Nothing calls it. *)
Definition pfs_io (stripe_size : Z) (record : trace_record) : ST (state H D) unit := fun s =>
  if negb ((stripe_size =? PFS1_STRIPE_SIZE) || (stripe_size =? PFS2_STRIPE_SIZE)) then (Undefined UninitRead, s) else
  match dest_fp1 s, dest_fp2 s with
  | Some fp1, Some fp2 =>
      match fseek_set (offset record) fp1, fseek_set (offset record) fp2 with
      | Some fp1, Some fp2 =>
          let s := set_fp2 (Some fp2) (set_fp1 (Some fp1) s) in
          if stripe_size =? PFS1_STRIPE_SIZE then pfs1_io record s else pfs2_io record s
      | _, _ => (Exit 207, s)
      end
  | _, _ => (Undefined NullDeref, s)
  end.

(** What [finalize] gives back, in its order. *)
Inductive release := CloseFp1 | CloseFp2 | DisconnectRedis | DisconnectMongo | FreeBuf.

Definition finalize s : list release :=
  (if dest_fp1 s is Some _ then [CloseFp1] else []) ++ (if dest_fp2 s is Some _ then [CloseFp2] else []) ++
  (if redis_cc s is Some _ then [DisconnectRedis] else []) ++ (if collection s is Some _ then [DisconnectMongo] else []) ++ [FreeBuf].

(** The program with its end. *)
Definition run (env : environment) (opts : list (argp_key * list ascii)) : ST (state H D) (list release) :=
  Engine.main max rnd rank env opts;;
  s ← get_state;
  mret (finalize s).

(** ** What is acquired is released *)

(** A computation that, when it comes to its end, has opened and closed nothing. *)
Definition same_handles (m : ST (state H D) unit) : Prop := forall s s', m s = (Ok (), s') -> finalize s' = finalize s.

Lemma same_handles_bind {A} (m : ST (state H D) A) (f : A -> ST (state H D) unit) :
  (forall s a s', m s = (Ok a, s') -> finalize s' = finalize s) -> (forall a, same_handles (f a)) ->
  same_handles (m ≫= f).
Proof.
  intros Hm Hf s s' E. unfold mbind, st_bind in E. destruct (m s) as [[a|e|u|c] s1] eqn:E1; try done.
  rewrite (Hf a _ _ E). by eapply Hm.
Qed.

Lemma same_handles_pure {A} (o : outcome A) s a s' : lift (S := state H D) o s = (Ok a, s') -> finalize s' = finalize s.
Proof. by intros [= _ <-]. Qed.

Lemma target_io_handles target record : same_handles (target_io max rnd rank target record).
Proof.
  unfold target_io. repeat case_decide.
  - intros s s' E. unfold pfs1_io in E. destruct (stream_io _ _ _) as [[fp b]|e|u|c] eqn:Es; [|done..].
    injection E as <-. unfold stream_io in Es. unfold finalize. cbn. by destruct (dest_fp1 s).
  - intros s s' E. unfold pfs2_io in E. destruct (stream_io _ _ _) as [[fp b]|e|u|c] eqn:Es; [|done..].
    injection E as <-. unfold stream_io in Es. unfold finalize. cbn. by destruct (dest_fp2 s).
  - apply same_handles_bind; [by intros s a s' [= _ <-]|]. intros n.
    apply same_handles_bind; [by intros s a s' [= _ <-]|]. intros s0.
    assert (forall m, same_handles (on_redis (H := H) (D := D) m)) as Hr.
    { intros m s s' E. unfold on_redis in E. destruct (redis_cc s) as [h|] eqn:Er; [|done].
      destruct (m h) as [r h']. injection E as _ <-. unfold finalize. cbn. by rewrite Er. }
    destruct (ops record) as [[]|]; try apply Hr; intros s s' E; first [discriminate E|by injection E as <-].
  - apply same_handles_bind; [by intros s a s' [= _ <-]|]. intros n.
    apply same_handles_bind; [by intros s a s' [= _ <-]|]. intros s0.
    assert (forall m, same_handles (on_mongo (H := H) (D := D) m)) as Hr.
    { intros m s s' E. unfold on_mongo in E. destruct (collection s) as [h|] eqn:Er; [|done].
      destruct (m h) as [r h']. injection E as _ <-. unfold finalize. cbn. by rewrite Er. }
    destruct (ops record) as [[]|]; try apply Hr; intros s s' E; first [discriminate E|by injection E as <-].
  - intros s s' E. by injection E as <-.
Qed.

Lemma replay_loop_handles n target trace record : same_handles (Engine.replay_loop max rnd rank n target trace record).
Proof.
  revert trace record. induction n as [|n IH]; intros trace record; [by intros s s' [= <-]|]. cbn [Engine.replay_loop].
  apply same_handles_bind; [by intros s a s' E; apply same_handles_pure in E|]. intros [[record' trace']|]; [|done].
  intros s s' E. erewrite st_bind_Ok in E by done. erewrite st_bind_Ok in E by done.
  change (finalize s) with (finalize (add_total (size record') s)).
  revert E. apply same_handles_bind; [intros s1 [] s1'; apply target_io_handles|]. intros _. apply IH.
Qed.

Lemma do_io_handles target trace : same_handles (do_io max rnd rank target trace).
Proof. destruct trace as [trace|]; [apply replay_loop_handles|]. by intros s s' [=]. Qed.

(** What the engine opens for a target. *)
Definition acquired (target : list ascii) : list release :=
  (if wants target "PFS1" then [CloseFp1] else []) ++ (if wants target "PFS2" then [CloseFp2] else []) ++
  (if wants target "REDIS" then [DisconnectRedis] else []) ++ [FreeBuf].

(** Nothing is open. *)
Definition fresh s : Prop := dest_fp1 s = None /\ dest_fp2 s = None /\ redis_cc s = None /\ collection s = None.

Lemma init_mongo_stops env s a s' : init_mongo (H := H) (D := D) env s = (Ok a, s') -> False.
Proof.
  unfold init_mongo, Io.connectToMongoDBServerMPI, ShadowStore.connectToMongoDBServerMPI,
    ShadowStore.connectToMongoDBServerWithURI. intros E.
  destruct (_ <? _); [destruct (mongo_ping env _)|]; done.
Qed.

(** Which handles are open. *)
Definition handles s : bool * bool * bool * bool :=
  (bool_decide (is_Some (dest_fp1 s)), bool_decide (is_Some (dest_fp2 s)), bool_decide (is_Some (redis_cc s)),
   bool_decide (is_Some (collection s))).

Lemma finalize_handles s s' : handles s = handles s' -> finalize s = finalize s'.
Proof.
  unfold handles, finalize. intros [= E1 E2 E3 E4].
  destruct (dest_fp1 s), (dest_fp1 s'), (dest_fp2 s), (dest_fp2 s'), (redis_cc s), (redis_cc s'), (collection s), (collection s');
    done.
Qed.

Lemma when_inv (w : bool) (m : ST (state H D) unit) s s' :
  when w m s = (Ok (), s') -> if w then m s = (Ok (), s') else s' = s.
Proof. destruct w; [done|]. by intros [= <-]. Qed.

Lemma init_pfs1_opens env s s' : init_pfs1 rank env s = (Ok (), s') -> exists fp, s' = set_fp1 (Some fp) s.
Proof. unfold init_pfs1. destruct (open_retry _ _ _ _); [|done]. intros [= <-]. by eexists. Qed.

Lemma init_pfs2_opens env s s' : init_pfs2 rank env s = (Ok (), s') -> exists fp, s' = set_fp2 (Some fp) s.
Proof. unfold init_pfs2. destruct (open_retry _ _ _ _); [|done]. intros [= <-]. by eexists. Qed.

Lemma init_redis_connects env hosts s s' : init_redis env hosts s = (Ok (), s') -> exists h, s' = set_redis (Some h) s.
Proof.
  unfold init_redis. destruct (Io.connectToRedisServerWithHostfile _ _) as [[]|e|u|c]; try done.
  intros [= <-]. by eexists.
Qed.

Lemma init_acquires env target hosts n s s' :
  fresh s -> init rank env target hosts n s = (Ok (), s') -> finalize s' = acquired target.
Proof.
  intros (F1 & F2 & F3 & F4) E. unfold init in E.
  apply st_bind_inv in E as ([] & s1 & E1 & E). apply st_bind_inv in E as ([] & s2 & E2 & E).
  apply st_bind_inv in E as ([] & s3 & E3 & E). apply st_bind_inv in E as ([] & s4 & E4 & E).
  injection E as <-. apply when_inv in E1, E2, E3, E4. unfold acquired.
  destruct (wants target "MONGO"); [by apply init_mongo_stops in E4|subst s4].
  assert (finalize (set_buf (Io.genstring n) (srand rank s3)) = finalize s3) as -> by done.
  destruct (wants target "PFS1"); [apply init_pfs1_opens in E1 as [? ->]|subst s1];
    (destruct (wants target "PFS2"); [apply init_pfs2_opens in E2 as [? ->]|subst s2]);
    (destruct (wants target "REDIS"); [apply init_redis_connects in E3 as [? ->]|subst s3]);
    unfold finalize; cbn; by rewrite ?F1, ?F2, ?F3, ?F4.
Qed.

(** A run that comes to its end gives back what it opened for its target, each
    once, and its buffer. *)
Theorem run_releases env opts s rs s' :
  fresh s -> run env opts s = (Ok rs, s') -> exists target, rs = acquired target.
Proof.
  intros Hf E. unfold run in E. apply st_bind_inv in E as ([] & s1 & E1 & E). injection E as <- <-.
  unfold Engine.main in E1. apply st_bind_inv in E1 as (a & s2 & E2 & E1). injection E2 as _ <-.
  destruct (trace_file a) as [[trace|]|]; try done. destruct (redis_hosts a) as [hosts|]; try done.
  apply st_bind_inv in E1 as (target & s3 & E3 & E1). apply st_bind_inv in E1 as ([] & s4 & E4 & E1).
  exists target. rewrite (do_io_handles _ _ _ _ E1). eapply init_acquires; [|exact E4].
  assert (handles s3 = handles s) as E.
  { unfold resolve_target in E3. case_decide; [|by injection E3 as _ <-].
    apply st_bind_inv in E3 as (t & s5 & E5 & E3). assert (s5 = s3) as ->.
    { destruct (target_stor_list !! _); [by injection E3|done]. }
    unfold select_target in E5. repeat case_decide; try done; injection E5 as _ <-; done. }
  destruct Hf as (F1 & F2 & F3 & F4). unfold handles in E. rewrite F1, F2, F3, F4 in E.
  injection E as G1 G2 G3 G4. apply bool_decide_eq_false in G1, G2, G3, G4.
  by repeat split; apply eq_None_not_Some.
Qed.

End run.
End EngineRun.

(** ** The programs of single_hop *)

Module Programs.

(** *** redis/link_redis.c *)

Definition HOP_HOST_START : Z := 25.
Definition HOP_HOST_COUNT : nat := 8.

Definition hop_node (i : nat) : list ascii :=
  REDIS_HOST_BASE ++ dec2 (HOP_HOST_START + Z.of_nat i) ++ [":"%char] ++ dec (REDIS_PORT_BASE + Z.of_nat i).

(** The array is zeroed first. *)
Definition genNodeList : list ascii :=
  foldl (fun l i => l ++ hop_node i ++ (if (i =? HOP_HOST_COUNT - 1)%nat then [] else [","%char]))
    [] (seq 0 HOP_HOST_COUNT).

(** The context is returned whether or not it has an error, which is printed:
    [None] is a null pointer, otherwise whether the error flag is clear. *)
Definition connectToRedisServer (connect : connector) : option bool := connect genNodeList.

(** The list fits its 1024 bytes and every entry its 32. *)
Lemma genNodeList_fits :
  zlen genNodeList + 1 <= 1024 /\ Forall (fun i => zlen (hop_node i) + 1 <= 32) (seq 0 HOP_HOST_COUNT).
Proof. split; [vm_compute; congruence|]. repeat (constructor; [vm_compute; congruence|]). constructor. Qed.

(** *** redis/redis_create_shadow.c *)

Definition shadow_nodes : list ascii :=
  chars "ares-comp-25-40g:7000,ares-comp-26-40g:7001,ares-comp-27-40g:7002,ares-comp-28-40g:7003,ares-comp-29-40g:7004,ares-comp-30-40g:7005,ares-comp-31-40g:7006,ares-comp-32-40g:7007".

Definition SHADOW_OPS : nat := Z.to_nat 10000.

Section redis.
Context {H : Type} `{Hiredis H}.

(** An error of the connection is only printed; the commands on it then get null
    replies.  A null context is used as well. *)
Definition redis_create_shadow_main (connect : connector) (argv : list (list ascii)) : ST H Z :=
  match argv with
  | [_; key] =>
      match connect shadow_nodes with
      | None => undefined NullDeref
      | Some _ => create_shadows SHADOW_OPS key;; mret 0
      end
  | _ => lift (Exit (-1))
  end.
End redis.

Section shadows.
Context {H : Type} `{HiredisLaws H}.

Lemma create_shadow_ok key (h : H) :
  hi_up h -> zlen key <= zlen shadow_text ->
  exists h', create_shadow key h = (Ok (), h') /\ hi_up h' /\
    hi_view h' = <[key := take (length key) shadow_text]> (hi_view h).
Proof.
  intros Hu Hl. destruct (return_link_ok h key (slice 0 (zlen key) shadow_text) Hu) as (h' & E & U & V).
  exists h'. split; [|split; [done|]].
  - unfold create_shadow. pose proof (zlen_nonneg key).
    erewrite st_bind_Ok; [exact E|]. unfold lift.
    rewrite mem_read_in by (rewrite ?zlen_fmap, ?zlen_app; change (zlen [nul]) with 1; lia).
    rewrite slice_fmap. unfold mbind; cbn [outcome_bind]. rewrite defined_chars.
    rewrite slice_app_l by lia. done.
  - rewrite V. unfold slice. by rewrite drop_0, zlen_to_nat.
Qed.

Lemma create_shadows_ok n key (h : H) :
  hi_up h -> zlen key <= zlen shadow_text ->
  exists h', create_shadows (S n) key h = (Ok (), h') /\ hi_up h' /\
    hi_view h' = <[key := take (length key) shadow_text]> (hi_view h).
Proof.
  revert h. induction n as [|n IH]; intros h Hu Hl; destruct (create_shadow_ok key h Hu Hl) as (h1 & E1 & U1 & V1);
    change (create_shadows (S ?k) key) with (create_shadow key;; create_shadows k key); st_step E1.
  - by exists h1.
  - destruct (IH h1 U1 Hl) as (h2 & E2 & U2 & V2). exists h2. split; [done|]. split; [done|].
    by rewrite V2, V1, insert_insert_eq.
Qed.

(** The ten thousand sets of the program leave one shadow, cut to the length of its
    key, whatever the error flag of the connection says. *)
Lemma redis_create_shadow_leaves connect prog key (h : H) :
  hi_up h -> zlen key <= zlen shadow_text -> is_Some (connect shadow_nodes) ->
  exists h', redis_create_shadow_main connect [prog; key] h = (Ok 0, h') /\
    hi_view h' = <[key := take (length key) shadow_text]> (hi_view h).
Proof.
  intros Hu Hl [b E]. destruct (create_shadows_ok (Z.to_nat 9999) key h Hu Hl) as (h' & E' & _ & V).
  exists h'. split; [|done]. unfold redis_create_shadow_main. rewrite E.
  replace SHADOW_OPS with (S (Z.to_nat 9999)) by (unfold SHADOW_OPS; lia). by st_step E'.
Qed.
End shadows.

(** *** xattr/getxattr.c *)

Definition GET_OPS : nat := Z.to_nat 10000.
Definition XATTR_SIZE : Z := 10000.

(** [getopt (argc, argv, "x")] of the C library: "--" ends the options, and the
    other words may stand between them.  [None] is an unknown option. *)
Fixpoint getopt_x (argv : list (list ascii)) : option (bool * list (list ascii)) :=
  match argv with
  | [] => Some (false, [])
  | arg :: argv' =>
      match arg with
      | "-"%char :: (_ :: _) as flags =>
          if decide (flags = ["-"%char]) then Some (false, argv')
          else if forallb (fun ch => bool_decide (ch = "x"%char)) flags then
            match getopt_x argv' with Some (_, files) => Some (true, files) | None => None end
          else None
      | _ => match getopt_x argv' with Some (hex, files) => Some (hex, arg :: files) | None => None end
      end
  end.

(** The names of a file's attributes, each terminated, if they fit. *)
Definition listxattr (file : list ascii) (size : Z) (s : XFS) : option (list ascii) :=
  match xfiles s !! file with
  | None => None
  | Some attrs =>
      let l := mjoin ((fun a => a.1 ++ [nul]) <$> map_to_list attrs) in
      if zlen l <=? size then Some l else None
  end.

(** The names the inner loop passes to [getxattr]; each turn consumes a
    character, so the length of the list bounds the turns. *)
Fixpoint each_name (fuel : nat) (l : list ascii) (ns : Z) : outcome (list (list ascii)) :=
  if ns <? zlen l then
    match fuel with
    | O => Undefined NoReturn
    | S fuel =>
        let name := cstr (slice ns (zlen l - ns) l) in
        rest ← each_name fuel l (ns + (zlen name + 1)); Ok (name :: rest)
    end
  else Ok [].

Definition read_attrs (file : list ascii) (s : XFS) : outcome (list (list ascii)) :=
  match listxattr file XATTR_SIZE s with
  | None => errExit
  | Some l => each_name (length l) l 0
  end.

Fixpoint read_files (files : list (list ascii)) (s : XFS) : outcome unit :=
  match files with [] => Ok () | f :: files' => read_attrs f s;; read_files files' s end.

Fixpoint read_turns (n : nat) (files : list (list ascii)) (s : XFS) : outcome unit :=
  match n with O => Ok () | S n => read_files files s;; read_turns n files s end.

Definition getxattr_main (argv : list (list ascii)) (s : XFS) : outcome unit :=
  match getopt_x (tail argv) with
  | None | Some (_, []) => Exit 1
  | Some (_, files) => read_turns GET_OPS files s;; Exit 0
  end.

Lemma each_name_from (pre : list ascii) names fuel :
  Forall (fun n => nul ∉ n) names -> (length (mjoin ((fun n => n ++ [nul]) <$> names)) <= fuel)%nat ->
  each_name fuel (pre ++ mjoin ((fun n => n ++ [nul]) <$> names)) (zlen pre) = Ok names.
Proof.
  intros Hn. revert pre fuel. induction Hn as [|n names Hnul Hn IH]; intros pre fuel Hf.
  { rewrite app_nil_r. destruct fuel; cbn [each_name]; by rewrite Z.ltb_irrefl. }
  change (mjoin ((fun n => n ++ [nul]) <$> n :: names)) with ((n ++ [nul]) ++ mjoin ((fun n => n ++ [nul]) <$> names)) in *.
  set (rest := mjoin _) in *. rewrite !length_app in Hf. destruct fuel as [|fuel]; [simpl in Hf; lia|]. cbn [each_name].
  rewrite !zlen_app. pose proof (zlen_nonneg n). pose proof (zlen_nonneg rest). change (zlen [nul]) with 1.
  destruct (Z.ltb_spec (zlen pre) (zlen pre + (zlen n + 1 + zlen rest))); [|lia].
  assert (cstr (slice (zlen pre) (zlen pre + (zlen n + 1 + zlen rest) - zlen pre) (pre ++ (n ++ [nul]) ++ rest)) = n) as ->.
  { unfold slice. rewrite zlen_to_nat, drop_app_length, firstn_all2; [by rewrite <- app_assoc; apply cstr_app|].
    rewrite !length_app. unfold zlen. simpl. lia. }
  specialize (IH (pre ++ n ++ [nul]) fuel). rewrite !zlen_app in IH. change (zlen [nul]) with 1 in IH.
  replace (zlen pre + (zlen n + 1)) with (zlen pre + (zlen n + 1)) by lia. rewrite <- app_assoc in IH.
  rewrite IH; [done|]. simpl in Hf. lia.
Qed.

(** The loop over a list of names comes to its end and passes every attribute of
    the file once. *)
Lemma read_attrs_names file (s : XFS) attrs :
  xfiles s !! file = Some attrs -> Forall (fun a => nul ∉ a.1) (map_to_list attrs) ->
  is_Some (listxattr file XATTR_SIZE s) -> read_attrs file s = Ok (map_to_list attrs).*1.
Proof.
  intros Ha Hn [l El]. unfold read_attrs. rewrite El. unfold listxattr in El. rewrite Ha in El.
  destruct (_ <=? _); [|done]. injection El as <-.
  assert (((fun a : list ascii * list ascii => a.1 ++ [nul]) <$> map_to_list attrs) =
          ((fun n => n ++ [nul]) <$> (map_to_list attrs).*1)) as -> by (by rewrite <- list_fmap_compose).
  apply (each_name_from []); [by apply Forall_fmap|done].
Qed.

(** The program only reads, and ends with status 0 on files whose lists fit. *)
Theorem getxattr_reads argv hex files (s : XFS) :
  getopt_x (tail argv) = Some (hex, files) -> files <> [] ->
  Forall (fun f => exists attrs, xfiles s !! f = Some attrs /\ Forall (fun a => nul ∉ a.1) (map_to_list attrs) /\
    is_Some (listxattr f XATTR_SIZE s)) files ->
  getxattr_main argv s = Exit 0.
Proof.
  intros E Hne Hf. unfold getxattr_main. rewrite E. destruct files as [|f files]; [done|].
  assert (read_files (f :: files) s = Ok ()) as Hr.
  { clear E Hne. induction Hf as [|x l (attrs & Ha & Hn & Hl) Hf IH]; [done|]. cbn [read_files].
    by rewrite (read_attrs_names x s attrs Ha Hn Hl). }
  assert (forall n, read_turns n (f :: files) s = Ok ()) as Ht.
  { induction n as [|n IH]; [done|]. cbn [read_turns]. by rewrite Hr. }
  by rewrite Ht.
Qed.

(** *** mongodb/query.c *)

Section query.
Context {D : Type} (all : D -> list document) (as_json : document -> list ascii).

(** Every document is printed on a line; the result of the connection, [None] a
    collection that was not set, is not tested. *)
Definition query_main (connect : list ascii -> option D) (argv : list (list ascii)) : outcome (list ascii) :=
  match argv with
  | _ :: uri :: size :: _ =>
      if atoi size <? 0 then Undefined NullDeref else
      match connect uri with
      | None => Undefined NullDeref
      | Some d => Ok (mjoin ((fun doc => as_json doc ++ [ascii_of_nat 10]) <$> all d))
      end
  | _ => Exit (-1)
  end.
End query.

End Programs.
