(* ===== verification/Ostream.v ===== *)
(** * Ostream: a double on an output stream

    [os << x] with the default format prints as [%g] does: six significant
    digits, rounded half to even, in fixed or scientific notation, without
    trailing zeros.  Integers below a million are printed in full. *)

From S2P Require Import Prelude CText Effects Strtol CFloat FloatExact.

(** ** The format *)

Fixpoint strip_zeros (l : list ascii) : list ascii :=
  match l with
  | [] => []
  | ch :: l' =>
      match strip_zeros l' with
      | [] => if decide (ch = "0"%char) then [] else [ch]
      | l'' => ch :: l''
      end
  end.

(** The least [j] with [den <= num * 10^j]; the fuel is enough for every double. *)
Fixpoint leading_zeros (fuel : nat) (num den : Z) : Z :=
  match fuel with
  | O => 0
  | S fuel => if den <=? num then 0 else 1 + leading_zeros fuel (num * 10) den
  end.

(** The exponent of the first significant digit of [num / den]. *)
Definition decimal_exponent (num den : Z) : Z :=
  if den <=? num then zlen (dec (num / den)) - 1 else - leading_zeros 400 num den.

Definition round_half_even (num den : Z) : Z :=
  let q := num / den in
  let r := num mod den in
  if 2 * r <? den then q else if den <? 2 * r then q + 1 else if Z.even q then q else q + 1.

(** Six significant digits, and the exponent of the first. *)
Definition significant (num den : Z) : Z * Z :=
  let x := decimal_exponent num den in
  let k := 5 - x in
  let d := if 0 <=? k then round_half_even (num * 10 ^ k) den else round_half_even num (den * 10 ^ (- k)) in
  if d =? 10 ^ 6 then (10 ^ 5, x + 1) else (d, x).

Definition with_point (whole fraction : list ascii) : list ascii :=
  match strip_zeros fraction with [] => whole | f => whole ++ "."%char :: f end.

Definition exponent_text (x : Z) : list ascii :=
  "e"%char :: (if x <? 0 then "-"%char else "+"%char) ::
  (if Z.abs x <? 10 then "0"%char :: dec (Z.abs x) else dec (Z.abs x)).

Definition show_ratio (num den : Z) : list ascii :=
  let '(d, x) := significant num den in
  if (-4 <=? x) && (x <? 6) then
    if 0 <=? x then with_point (take (Z.to_nat (x + 1)) (dec d)) (drop (Z.to_nat (x + 1)) (dec d))
    else with_point ["0"%char] (replicate (Z.to_nat (- x - 1)) "0"%char ++ dec d)
  else with_point (take 1 (dec d)) (drop 1 (dec d)) ++ exponent_text x.

Definition sign_text (s : bool) : list ascii := if s then ["-"%char] else [].

(** Whether a NaN is printed with a sign depends on the operation that made it. *)
Definition show_double (nan_text : list ascii) (x : double) : list ascii :=
  match x with
  | S754_zero s => sign_text s ++ ["0"%char]
  | S754_infinity s => sign_text s ++ chars "inf"
  | S754_nan => nan_text
  | S754_finite s m e =>
      sign_text s ++ (if 0 <=? e then show_ratio (Zpos m * 2 ^ e) 1 else show_ratio (Zpos m) (2 ^ (- e)))
  end.

Example show_third : show_double [] (ddiv (double_of_Z 1) (double_of_Z 3)) = chars "0.333333".
Proof. by vm_compute. Qed.
Example show_large : show_double [] (double_of_Z 123456789) = chars "1.23457e+08".
Proof. by vm_compute. Qed.
Example show_carry : show_double [] (ddiv (double_of_Z 9999996) (double_of_Z 10)) = chars "1e+06".
Proof. by vm_compute. Qed.
Example show_small : show_double [] (ddiv (double_of_Z 15) (double_of_Z 1000000)) = chars "1.5e-05".
Proof. by vm_compute. Qed.
Example show_half : show_double [] (ddiv (double_of_Z (-5)) (double_of_Z 2)) = chars "-2.5".
Proof. by vm_compute. Qed.

(** ** The characters *)

Lemma strip_zeros_incl l : strip_zeros l ⊆ l.
Proof.
  induction l as [|ch l IH]; [done|]. cbn [strip_zeros]. intros x Hx. destruct (strip_zeros l) as [|y l''].
  - case_decide; [by apply not_elem_of_nil in Hx|]. apply list_elem_of_singleton in Hx as ->. by left.
  - apply elem_of_cons in Hx as [->|Hx]; [by left|]. right. by apply IH.
Qed.

Section characters.
Context (ch : ascii) (Hd : digit_val ch = None) (Hm : ch <> "-"%char) (Hp : ch <> "."%char)
  (He : ch ∉ chars "+einf").

Lemma dec_free n : ch ∉ dec n.
Proof. by apply dec_notin. Qed.

Lemma zero_free : ch <> "0"%char.
Proof. by intros ->. Qed.

Lemma with_point_free a b : ch ∉ a -> ch ∉ b -> ch ∉ with_point a b.
Proof.
  intros Ha Hb. unfold with_point. assert (ch ∉ strip_zeros b) as Hs by (intros Hx; by apply Hb, strip_zeros_incl).
  destruct (strip_zeros b) as [|y l]; [done|]. rewrite elem_of_app, elem_of_cons. tauto.
Qed.

Lemma exponent_free x : ch ∉ exponent_text x.
Proof.
  pose proof (dec_free (Z.abs x)). pose proof zero_free.
  assert (ch <> "e"%char /\ ch <> "+"%char) as [] by (split; intros ->; apply He; [right|]; by left).
  unfold exponent_text. rewrite !elem_of_cons. destruct (x <? 0), (Z.abs x <? 10); rewrite ?elem_of_cons; tauto.
Qed.

Lemma sign_free s : ch ∉ sign_text s.
Proof. destruct s; cbn; [by rewrite list_elem_of_singleton|apply not_elem_of_nil]. Qed.

Lemma show_ratio_free num den : ch ∉ show_ratio num den.
Proof.
  unfold show_ratio. destruct (significant num den) as [d x]. pose proof (dec_free d) as F. pose proof zero_free.
  assert (forall n, ch ∉ take n (dec d)) as Ft by (intros n Hx; by apply F, (subseteq_take n)).
  assert (forall n, ch ∉ drop n (dec d)) as Fd by (intros n Hx; by apply F, (subseteq_drop n)).
  destruct (_ && _); [destruct (0 <=? x)|rewrite elem_of_app; intros [Hx|Hx]; [|by apply exponent_free in Hx]; revert Hx];
    apply with_point_free; try done; rewrite ?list_elem_of_singleton; try done.
  rewrite elem_of_app. intros [[-> _]%elem_of_replicate|]; done.
Qed.

Lemma show_double_free nan_text x : ch ∉ nan_text -> ch ∉ show_double nan_text x.
Proof.
  intros Hn. pose proof zero_free as H0. destruct x as [s|s| |s m e]; cbn [show_double]; [| |done|];
    rewrite elem_of_app; intros [Hx|Hx]; try (by apply sign_free in Hx).
  - by apply list_elem_of_singleton in Hx.
  - apply He. by do 2 right.
  - revert Hx. destruct (0 <=? e); apply show_ratio_free.
Qed.

End characters.

(** ** Integers *)

Lemma digits_of_app fuel n acc : digits_of fuel n acc = digits_of fuel n [] ++ acc.
Proof.
  revert n acc. induction fuel as [|f IH]; intros n acc; [done|]. cbn [digits_of].
  destruct (n <? 10); [done|]. rewrite IH, (IH _ [_]), <- app_assoc. done.
Qed.

Lemma digits_of_fuel f g n :
  0 <= n < 2 ^ Z.of_nat f -> n < 2 ^ Z.of_nat g -> (0 < f)%nat -> (0 < g)%nat -> digits_of f n [] = digits_of g n [].
Proof.
  revert g n. induction f as [|f IH]; intros [|g] n Hf Hg H1 H2; try lia. cbn [digits_of].
  destruct (Z.ltb_spec n 10); [done|]. rewrite digits_of_app, (digits_of_app g). f_equal.
  rewrite Nat2Z.inj_succ, Z.pow_succ_r in Hf, Hg by lia.
  assert (forall k, n < 2 * 2 ^ k -> n / 10 < 2 ^ k) as Hdiv by (intros; apply Z.div_lt_upper_bound; lia).
  assert (f <> 0%nat) by (destruct f; [simpl in Hf; lia|lia]).
  assert (g <> 0%nat) by (destruct g; [simpl in Hg; lia|lia]).
  apply IH; [split; [apply Z.div_pos; lia|]| | |]; try lia; apply Hdiv; lia.
Qed.

Lemma dec_step n : 10 <= n -> dec n = dec (n / 10) ++ [digit_char (n mod 10)].
Proof.
  intros Hn. assert (0 < n / 10) by (apply Z.div_str_pos; lia). assert (n / 10 < n) by (apply Z.div_lt; lia).
  unfold dec. destruct (Z.ltb_spec n 0), (Z.ltb_spec (n / 10) 0); try lia.
  change (digits_of (S ?f) n []) with (if n <? 10 then [digit_char (n mod 10)] else digits_of f (n / 10) [digit_char (n mod 10)]).
  destruct (Z.ltb_spec n 10); [lia|]. rewrite digits_of_app. f_equal.
  assert (3 <= Z.log2 n) by (apply (Z.log2_le_mono 8); lia).
  pose proof (Z.log2_spec n ltac:(lia)) as [_ L]. rewrite Z.pow_succ_r in L by lia.
  apply digits_of_fuel; try lia.
  - split; [lia|]. rewrite Z2Nat.id by lia. apply Z.div_lt_upper_bound; lia.
  - apply log2_fuel. lia.
Qed.

Lemma dec_digit n : 0 <= n < 10 -> dec n = [digit_char n].
Proof.
  intros Hn. unfold dec. destruct (Z.ltb_spec n 0); [lia|]. cbn [digits_of].
  destruct (Z.ltb_spec n 10); [|lia]. by rewrite Z.mod_small.
Qed.

Lemma dec_bounds n : 0 < n -> 1 <= zlen (dec n) /\ 10 ^ (zlen (dec n) - 1) <= n < 10 ^ zlen (dec n).
Proof.
  induction n as [n IH] using (well_founded_induction (Z.lt_wf 0)). intros Hn.
  destruct (Z.lt_ge_cases n 10) as [Hlt|Hge].
  { rewrite dec_digit by lia. unfold zlen. simpl. lia. }
  assert (0 < n / 10) as Hq by (apply Z.div_str_pos; lia).
  destruct (IH (n / 10)) as (Hl & Hb); [split; [lia|apply Z.div_lt; lia]|done|].
  rewrite dec_step, zlen_app by done. change (zlen [digit_char (n mod 10)]) with 1.
  set (l := zlen (dec (n / 10))) in *. replace (l + 1 - 1) with (Z.succ (l - 1)) by lia.
  rewrite Z.add_1_r, !Z.pow_succ_r by lia. pose proof (Z.div_mod n 10 ltac:(lia)).
  pose proof (Z.mod_pos_bound n 10 ltac:(lia)). lia.
Qed.

Lemma dec_scaled n k : 0 < n -> dec (n * 10 ^ Z.of_nat k) = dec n ++ replicate k "0"%char.
Proof.
  intros Hn. induction k as [|k IH]; [by rewrite Z.mul_1_r, app_nil_r|].
  rewrite Nat2Z.inj_succ, Z.pow_succ_r by lia. assert (0 < 10 ^ Z.of_nat k) by lia.
  replace (n * (10 * 10 ^ Z.of_nat k)) with (n * 10 ^ Z.of_nat k * 10) by lia.
  rewrite dec_step, Z.div_mul, Z.mod_mul, IH by nia. rewrite <- app_assoc. f_equal.
  change [digit_char 0] with (replicate 1 "0"%char). rewrite <- replicate_add. f_equal. lia.
Qed.

Lemma strip_zeros_replicate k : strip_zeros (replicate k "0"%char) = [].
Proof. induction k as [|k IH]; [done|]. simpl. by rewrite IH. Qed.

Lemma show_ratio_integer n den : 0 < n < 10 ^ 6 -> 0 < den -> show_ratio (n * den) den = dec n.
Proof.
  intros Hn Hd. destruct (dec_bounds n) as (Hl & Hb); [lia|]. set (l := zlen (dec n)) in *.
  assert (l <= 6) as Hl6.
  { apply Z.nlt_ge. intros Hlt. assert (10 ^ 6 <= 10 ^ (l - 1)) by (apply Z.pow_le_mono_r; lia). lia. }
  assert (n < 10 ^ l <= 10 ^ 6) as Hup by (split; [lia|apply Z.pow_le_mono_r; lia]).
  unfold show_ratio, significant, decimal_exponent. destruct (Z.leb_spec den (n * den)); [|nia].
  rewrite Z.div_mul by lia. fold l. replace (5 - (l - 1)) with (6 - l) by lia.
  destruct (Z.leb_spec 0 (6 - l)); [|lia]. unfold round_half_even.
  replace (n * den * 10 ^ (6 - l)) with (n * 10 ^ (6 - l) * den) by lia.
  rewrite Z.div_mul, Z.mod_mul by lia. destruct (Z.ltb_spec (2 * 0) den); [|lia].
  assert (n * 10 ^ (6 - l) < 10 ^ l * 10 ^ (6 - l)) as Hlt by (apply Z.mul_lt_mono_pos_r; lia).
  rewrite <- Z.pow_add_r in Hlt by lia. replace (l + (6 - l)) with 6 in Hlt by lia.
  destruct (Z.eqb_spec (n * 10 ^ (6 - l)) (10 ^ 6)); [lia|].
  destruct (Z.leb_spec (-4) (l - 1)), (Z.ltb_spec (l - 1) 6), (Z.leb_spec 0 (l - 1)); try lia. cbn [andb].
  assert (dec (n * 10 ^ (6 - l)) = dec n ++ replicate (Z.to_nat (6 - l)) "0"%char) as ->.
  { rewrite <- dec_scaled by lia. by rewrite Z2Nat.id by lia. }
  replace (Z.to_nat (l - 1 + 1)) with (length (dec n)) by (unfold l, zlen; lia).
  rewrite take_app_length, drop_app_length. unfold with_point. by rewrite strip_zeros_replicate.
Qed.

(** Integers below a million are printed in full. *)
Lemma show_double_integer nan_text n : 0 <= n < 10 ^ 6 -> show_double nan_text (double_of_Z n) = dec n.
Proof.
  intros Hn. destruct (Z.eq_dec n 0) as [->|]; [done|]. rewrite double_of_Z_exact by lia.
  pose proof (exact_log2 n ltac:(lia)). pose proof (exact_mantissa n ltac:(lia)) as [Hm _].
  unfold show_double, exact_double. cbn [sign_text app]. rewrite Z2Pos.id by done.
  destruct (Z.leb_spec 0 (Z.log2 n - 52)).
  - assert (Z.log2 n < 20) by (apply Z.log2_lt_pow2; lia). lia.
  - replace (- (Z.log2 n - 52)) with (52 - Z.log2 n) by lia. apply show_ratio_integer; lia.
Qed.
