(* ===== verification/Tracing.v ===== *)
(** * Tracing: common/include/common/debug.h, common/include/common/error.h

    The debug macros, the timer, and the trace object [AUTO_TRACER] declares at the
    top of a function: it prints a line when the function starts and one when it
    ends, also when an exception ends it, numbered by the nesting depth.  The state
    is the static members of [AutoTrace], what went to the console and the number
    of clock readings; the clock is a parameter. *)

From S2P Require Import Prelude CText Effects Strtol CFloat FloatExact Ostream.

#[local] Set Warnings "-register-all".

(** ** Compile-time switches *)

Record Build := mkBuild {
  COMMON_DEBUG_MSG : bool;
  COMMON_DEBUG_TRACE : bool;
  COMMON_DEBUG_TIMER : bool;
  ENABLE_AUTO_TRACER : bool;
  DISABLE_AUTO_TRACER : bool;
}.

(** [AUTO_TRACER] declares a trace object, or nothing. *)
Definition AUTO_TRACER (b : Build) : bool :=
  (COMMON_DEBUG_TRACE b || COMMON_DEBUG_TIMER b || ENABLE_AUTO_TRACER b) && negb (DISABLE_AUTO_TRACER b).

Definition newline : list ascii := [ascii_of_nat 10].

(** [__FILE__] and [__LINE__] in front of a message. *)
Definition debug_place (file : list ascii) (line : Z) : list ascii :=
  chars "DBG: " ++ file ++ chars "(" ++ dec line ++ chars ") ".

Definition debug_value (name value : list ascii) : list ascii := name ++ chars " = [" ++ value ++ chars "]".

(** One to three variables, each its expression and its value as printed. *)
Definition COMMON_DBGVAR (b : Build) (file : list ascii) (line : Z) (vars : list (list ascii * list ascii))
    : list ascii :=
  if COMMON_DEBUG_MSG b
  then debug_place file line ++ mjoin ((fun v => debug_value v.1 v.2) <$> vars) ++ newline else [].

Definition COMMON_DBGMSG (b : Build) (file : list ascii) (line : Z) (msg : list ascii) : list ascii :=
  if COMMON_DEBUG_MSG b then debug_place file line ++ msg ++ newline else [].

(** [static_for] calls the function on the elements in order. *)
Fixpoint static_for {A S} (t : list A) (f : A -> S -> S) (s : S) : S :=
  match t with [] => s | x :: t' => static_for t' f (f x s) end.

(** ** The signal handler *)

(** [backtrace (array, 300)] writes up to 300 frames into an array of ten; the
    symbols are printed by the C library. *)
Definition handler (symbols : Z -> list ascii) (depth sig : Z) (stderr : list ascii) : outcome unit * list ascii :=
  let size := Z.min depth 300 in
  if 10 <? size then (Undefined OutOfBounds, stderr)
  else (Exit 0, stderr ++ chars "Error: signal " ++ dec sig ++ newline ++ symbols size).

(** ** Timer *)

Module Timer.

(** [t1] is a time point in nanoseconds, at first the epoch. *)
Record Timer := mkTimer { t1 : Z; time_elapsed : double }.

Definition Timer0 : Timer := mkTimer 0 (double_of_Z 0).

(** Each takes the reading of the clock it makes. *)
Definition startTime (now : Z) (t : Timer) : Timer := mkTimer now (double_of_Z 0).
Definition resumeTime (now : Z) (t : Timer) : Timer := mkTimer now (time_elapsed t).
Definition pauseTime (now : Z) (t : Timer) : Timer :=
  mkTimer (t1 t) (dadd (time_elapsed t) (double_of_Z (i64 (now - t1 t)))).
Definition getTimeElapsed (t : Timer) : double := ddiv (time_elapsed t) (double_of_Z 1000000).
Definition endTime (now : Z) (t : Timer) : double * Timer :=
  let t' := pauseTime now t in (getTimeElapsed t', t').

(** A timer resumed and paused for each of some intervals. *)
Fixpoint run_intervals (l : list (Z * Z)) (t : Timer) : Timer :=
  match l with
  | [] => t
  | (from, to) :: l' => run_intervals l' (pauseTime to (resumeTime from t))
  end.

Fixpoint total (l : list (Z * Z)) : Z :=
  match l with [] => 0 | (from, to) :: l' => to - from + total l' end.

Definition interval (i : Z * Z) : Prop := i.1 <= i.2.

Lemma total_nonneg l : Forall interval l -> 0 <= total l.
Proof. unfold interval. induction 1 as [|[from to] l Hi Hl IH]; simpl in *; lia. Qed.

Lemma run_intervals_from l t n :
  Forall interval l -> 0 <= n -> n + total l < 2 ^ 53 -> time_elapsed t = double_of_Z n ->
  time_elapsed (run_intervals l t) = double_of_Z (n + total l).
Proof.
  intros Hl. revert t n. induction Hl as [|[from to] l Hi Hl IH]; intros t n Hn Hb Ht; cbn [run_intervals total] in *.
  { by rewrite Z.add_0_r. }
  unfold interval in Hi. cbn [fst snd] in Hi. pose proof (total_nonneg l Hl).
  rewrite (IH _ (n + (to - from))) by
    (lia || (cbn; rewrite Ht, i64_small by lia; apply dadd_exact; lia)).
  f_equal. lia.
Qed.

(** Resuming and pausing adds up the intervals exactly, whatever happens between
    them, for up to 104 days. *)
Theorem Timer_adds_up l t :
  Forall interval l -> total l < 2 ^ 53 -> time_elapsed t = double_of_Z 0 ->
  time_elapsed (run_intervals l t) = double_of_Z (total l).
Proof. intros Hl Hb Ht. by apply (run_intervals_from l t 0). Qed.

(** [endTime] on a paused timer counts the last interval again, and the pause
    behind it. *)
Lemma endTime_counts_pause from to now t :
  from <= to <= now -> now - from + (to - from) < 2 ^ 53 -> time_elapsed t = double_of_Z 0 ->
  time_elapsed (endTime now (pauseTime to (resumeTime from t))).2 = double_of_Z (to - from + (now - from)).
Proof.
  intros Hi Hb Ht. cbn. rewrite Ht, !i64_small by lia. rewrite dadd_exact, dadd_exact by lia. done.
Qed.

End Timer.

(** ** AutoTrace *)

Section trace.
Context (b : Build) (thread_name : list ascii) (mpi_rank : Z) (now : nat -> Z) (nan_text : list ascii).
Import Timer.

(** The static members, the console and the readings of the clock so far. *)
Record Trace := mkTrace { rank : Z; item : Z; cout : list ascii; readings : nat }.

Definition set_rank (n : Z) (s : Trace) : Trace := mkTrace n (item s) (cout s) (readings s).
Definition set_item (n : Z) (s : Trace) : Trace := mkTrace (rank s) n (cout s) (readings s).
Definition print (text : list ascii) (s : Trace) : Trace := mkTrace (rank s) (item s) (cout s ++ text) (readings s).
Definition read_clock (s : Trace) : Z * Trace :=
  (now (readings s), mkTrace (rank s) (item s) (cout s) (S (readings s))).

(** common/src/common/debug.cpp. *)
Definition Trace0 : Trace := mkTrace 0 0 [] 0.

Record AutoTrace := mkAutoTrace { m_line : list ascii; timer : Timer }.

Definition printing : bool := COMMON_DEBUG_TRACE b || COMMON_DEBUG_TIMER b.

(** The fields in front of both lines. *)
Definition trace_prefix (depth rank : Z) (line : list ascii) : list ascii :=
  dec depth ++ chars ";" ++ thread_name ++ chars ";" ++ dec rank ++ chars ";" ++ line ++ chars ";".

Definition trace_args (args : list (list ascii)) : list ascii :=
  chars "args(" ++
  match args with
  | [] => chars "Void"
  | _ => static_for args (fun w text => text ++ w ++ chars ", ") []
  end ++ chars ");".

(** The escape sequence that resets the colour, behind the line. *)
Definition reset_color : list ascii := ascii_of_nat 27 :: chars "[00m".

Definition start_line (depth rank : Z) (line : list ascii) (args : list (list ascii)) : list ascii :=
  trace_prefix depth rank line ++ (if COMMON_DEBUG_TIMER b then chars ";;" else []) ++
  (if COMMON_DEBUG_TRACE b then trace_args args else []) ++ chars "start" ++ newline ++ reset_color.

Definition finish_line (depth rank : Z) (line : list ascii) (msec : option double) : list ascii :=
  trace_prefix depth rank line ++ (if COMMON_DEBUG_TRACE b then chars ";" else []) ++
  match msec with Some x => show_double nan_text x ++ chars ";msecs;" | None => [] end ++
  chars "finish" ++ newline ++ reset_color.

Definition AutoTrace_ctor (line : list ascii) (args : list (list ascii)) (s : Trace) : AutoTrace * Trace :=
  let s := if rank s =? -1 then set_rank mpi_rank s else s in
  let s := if printing then
             let s := set_item (i32 (item s + 1)) s in print (start_line (item s) (rank s) line args) s
           else s in
  if COMMON_DEBUG_TIMER b then
    let '(t, s) := read_clock s in (mkAutoTrace line (startTime t Timer0), s)
  else (mkAutoTrace line Timer0, s).

Definition AutoTrace_dtor (trace : AutoTrace) (s : Trace) : Trace :=
  if printing then
    let depth := item s in
    let s := set_item (i32 (item s - 1)) s in
    let '(msec, s) := if COMMON_DEBUG_TIMER b then
                        let '(t, s) := read_clock s in (Some (endTime t (timer trace)).1, s)
                      else (None, s) in
    print (finish_line depth (rank s) (m_line trace) msec) s
  else s.

(** A function with a trace object: its destructor runs when the function returns
    and when an exception leaves it. *)
Definition traced {A} (line : list ascii) (args : list (list ascii)) (body : ST Trace A) : ST Trace A := fun s =>
  if AUTO_TRACER b then
    let '(trace, s) := AutoTrace_ctor line args s in
    match body s with
    | (Ok a, s') => (Ok a, AutoTrace_dtor trace s')
    | (Throw e, s') => (Throw e, AutoTrace_dtor trace s')
    | r => r
    end
  else body s.

(** ** What tracing does to the program *)

(** A computation that nests at most [n] traced calls, leaves the depth and the rank
    as they were and only adds to the console, when it returns or throws. *)
Definition balanced {A} (n : Z) (m : ST Trace A) : Prop := forall s o s',
  m s = (o, s') -> 0 <= item s -> item s + n < 2 ^ 31 -> rank s <> -1 ->
  match o with
  | Ok _ | Throw _ => item s' = item s /\ rank s' = rank s /\ exists text, cout s' = cout s ++ text
  | _ => True
  end.

Lemma balanced_same {A} n (o : outcome A) : balanced n (lift o).
Proof.
  intros s o' s' [= <- <-] _ _ _. destruct o; try done; (split; [done|]); (split; [done|]);
    exists []; by rewrite app_nil_r.
Qed.

Lemma balanced_weaken {A} n n' (m : ST Trace A) : n <= n' -> balanced n m -> balanced n' m.
Proof. intros Hn Hm s o s' E Hi Hd Hr. apply (Hm s o s' E); (done || lia). Qed.

(** What follows a computation that returned or threw. *)
Lemma balanced_after {B} n s s1 t1 (m : ST Trace B) (o : outcome B) s' :
  item s1 = item s -> rank s1 = rank s -> cout s1 = cout s ++ t1 -> balanced n m -> m s1 = (o, s') ->
  0 <= item s -> item s + n < 2 ^ 31 -> rank s <> -1 ->
  match o with
  | Ok _ | Throw _ => item s' = item s /\ rank s' = rank s /\ exists text, cout s' = cout s ++ text
  | _ => True
  end.
Proof.
  intros Ei Er Ec Hm E Hi Hd Hr. specialize (Hm _ _ _ E). rewrite Ei, Er, Ec in Hm. specialize (Hm Hi Hd Hr).
  destruct o; try done; destruct Hm as (-> & -> & t2 & ->); (split; [done|]); (split; [done|]);
    exists (t1 ++ t2); by rewrite app_assoc.
Qed.

Lemma balanced_bind {A B} n (m : ST Trace A) (f : A -> ST Trace B) :
  balanced n m -> (forall a, balanced n (f a)) -> balanced n (m ≫= f).
Proof.
  intros Hm Hf s o s' E Hi Hd Hr. unfold mbind, st_bind in E.
  destruct (m s) as [[a|e|u|c] s1] eqn:Em; pose proof (Hm _ _ _ Em Hi Hd Hr) as H1.
  - destruct H1 as (Ei & Er & t1 & Ec). by eapply balanced_after.
  - by injection E as <- <-.
  - by injection E as <- <-.
  - by injection E as <- <-.
Qed.

Lemma balanced_catch {A} n p (m h : ST Trace A) : balanced n m -> balanced n h -> balanced n (try_catch p m h).
Proof.
  intros Hm Hh s o s' E Hi Hd Hr. unfold try_catch in E.
  destruct (m s) as [[a|e|u|c] s1] eqn:Em; pose proof (Hm _ _ _ Em Hi Hd Hr) as H1.
  2: destruct (p e); [destruct H1 as (Ei & Er & t1 & Ec); by eapply balanced_after|].
  all: by injection E as <- <-.
Qed.

(** The constructor goes one deeper when it prints. *)
Definition deeper : Z := if printing then 1 else 0.

Lemma ctor_prints line args s : 0 <= item s -> item s + 1 < 2 ^ 31 -> rank s <> -1 ->
  let s' := (AutoTrace_ctor line args s).2 in
  item s' = item s + deeper /\ rank s' = rank s /\
  cout s' = cout s ++ (if printing then start_line (item s + 1) (rank s) line args else []).
Proof.
  intros Hi Hd Hr. unfold AutoTrace_ctor, deeper. destruct (Z.eqb_spec (rank s) (-1)); [done|].
  destruct printing; destruct (COMMON_DEBUG_TIMER b); cbn; rewrite ?i32_small, ?app_nil_r by lia;
    (split; [lia|done]).
Qed.

Lemma dtor_prints trace s : 0 < item s + (1 - deeper) < 2 ^ 31 ->
  let s' := AutoTrace_dtor trace s in
  item s' = item s - deeper /\ rank s' = rank s /\ exists text, cout s' = cout s ++ text.
Proof.
  unfold AutoTrace_dtor, deeper. intros Hi. destruct printing.
  - destruct (COMMON_DEBUG_TIMER b); cbn; rewrite i32_small by lia; (split; [done|]); (split; [done|]); by eexists.
  - split; [lia|]. split; [done|]. exists []. by rewrite app_nil_r.
Qed.

Lemma balanced_traced {A} n line args (body : ST Trace A) :
  0 <= n -> balanced n body -> balanced (n + 1) (traced line args body).
Proof.
  intros Hn Hb s o s' E Hi Hd Hr. unfold traced in E. destruct (AUTO_TRACER b).
  2: { by apply (balanced_weaken n (n + 1) body ltac:(lia) Hb _ _ _ E). }
  pose proof (ctor_prints line args s Hi ltac:(lia) Hr) as (Ei & Er & Ec).
  destruct (AutoTrace_ctor line args s) as [trace s1]. cbn [snd] in *.
  assert (0 <= deeper <= 1) as Hdeep by (unfold deeper; destruct printing; lia).
  destruct (body s1) as [[a|e|u|c] s2] eqn:Eb; specialize (Hb _ _ _ Eb); rewrite Ei, Er in Hb;
    try rewrite Ec in Hb; specialize (Hb ltac:(lia) ltac:(lia) Hr); injection E as <- <-; try done;
    destruct Hb as (Ei2 & Er2 & t2 & Ec2); destruct (dtor_prints trace s2) as (-> & -> & t3 & ->);
    rewrite ?Ei2, ?Er2, ?Ec2; try (unfold deeper in *; destruct printing; lia);
    (split; [lia|]); (split; [done|]); rewrite <- !app_assoc; by eexists.
Qed.

(** ** Nested calls *)

(** A traced function, the calls it makes, and the exception it throws behind
    them; an exception of a call ends it. *)
Inductive scope := Scope (line : list ascii) (args : list (list ascii)) (calls : list scope) (thrown : option exn).

Definition end_scope (thrown : option exn) : ST Trace unit :=
  match thrown with Some e => throw e | None => mret () end.

Fixpoint run_scope (sc : scope) : ST Trace unit :=
  let '(Scope line args calls thrown) := sc in
  traced line args (for_each run_scope calls;; end_scope thrown).

(** The lines of a call at a depth, in the order of the calls, each between the
    start and the end of its caller's, and the exception that leaves it. *)
Fixpoint scope_text (n r : Z) (sc : scope) : list ascii * option exn :=
  let '(Scope line args calls thrown) := sc in
  let '(text, e) :=
    (fix calls_text l := match l with
       | [] => ([], thrown)
       | sc' :: l' =>
           match scope_text (n + 1) r sc' with
           | (t, Some e) => (t, Some e)
           | (t, None) => let '(t', e) := calls_text l' in (t ++ t', e)
           end
       end) calls in
  (start_line n r line args ++ text ++ finish_line n r line None, e).

Fixpoint scope_depth (sc : scope) : Z :=
  let '(Scope _ _ calls _) := sc in 1 + foldr (fun sc' d => Z.max (scope_depth sc') d) 0 calls.

Definition thrown_outcome (e : option exn) : outcome unit := match e with Some e => Throw e | None => Ok () end.

Lemma scope_nested_ind (P : scope -> Prop) :
  (forall line args calls thrown, Forall P calls -> P (Scope line args calls thrown)) -> forall sc, P sc.
Proof.
  intros HP. refine (fix go sc := match sc with Scope line args calls thrown => HP line args calls thrown _ end).
  induction calls as [|sc' calls IH]; constructor; [apply go|exact IH].
Qed.

Lemma scope_depth_pos sc : 1 <= scope_depth sc.
Proof. destruct sc as [line args calls thrown]. cbn. induction calls; simpl; lia. Qed.

Lemma run_scope_balanced sc : balanced (scope_depth sc) (run_scope sc).
Proof.
  induction sc as [line args calls thrown IH] using scope_nested_ind. cbn [run_scope scope_depth].
  rewrite Z.add_comm. apply balanced_traced.
  { clear. induction calls as [|sc calls IH]; simpl; [lia|]. pose proof (scope_depth_pos sc). lia. }
  apply balanced_bind.
  - induction IH as [|sc calls Hsc Hcalls IHc]; [by apply (balanced_same _ (Ok ()))|]. cbn [for_each foldr].
    apply balanced_bind; [by apply (balanced_weaken (scope_depth sc)); [lia|]|]. intros _.
    by apply (balanced_weaken (foldr (fun sc' d => Z.max (scope_depth sc') d) 0 calls)); [lia|].
  - intros _. destruct thrown as [e|]; [by apply (balanced_same _ (Throw e))|by apply (balanced_same _ (Ok ()))].
Qed.

Lemma print_print t1 t2 s : print t2 (print t1 s) = print (t1 ++ t2) s.
Proof. unfold print. cbn. by rewrite app_assoc. Qed.

Section tracing.
Context (Hauto : AUTO_TRACER b = true) (Htrace : COMMON_DEBUG_TRACE b = true) (Htimer : COMMON_DEBUG_TIMER b = false).

Lemma printing_true : printing = true.
Proof. unfold printing. by rewrite Htrace. Qed.

Lemma traced_text line args (body : ST Trace unit) s text e :
  0 <= item s -> item s + 1 < 2 ^ 31 -> rank s <> -1 ->
  (forall s1, item s1 = item s + 1 -> rank s1 = rank s -> body s1 = (thrown_outcome e, print text s1)) ->
  traced line args body s =
    (thrown_outcome e, print (start_line (item s + 1) (rank s) line args ++ text ++
                              finish_line (item s + 1) (rank s) line None) s).
Proof.
  intros Hi Hd Hr Hbody. unfold traced. rewrite Hauto. unfold AutoTrace_ctor.
  destruct (Z.eqb_spec (rank s) (-1)); [done|]. rewrite printing_true, Htimer. cbv zeta.
  cbn [item set_item rank]. rewrite (i32_small (item s + 1)) by lia. rewrite Hbody by done.
  assert (forall s1, item s1 = item s + 1 -> rank s1 = rank s ->
    AutoTrace_dtor (mkAutoTrace line Timer0) s1 =
      print (finish_line (item s + 1) (rank s) line None) (set_item (item s) s1)) as Hdtor.
  { intros s1 E1 E2. unfold AutoTrace_dtor. rewrite printing_true, Htimer. cbv zeta. rewrite E1, Z.add_simpl_r, i32_small by lia.
    cbn [rank set_item m_line]. by rewrite E2. }
  destruct s as [r i out k]. destruct e; cbn [thrown_outcome]; rewrite Hdtor by done; unfold print; cbn;
    by rewrite <- !app_assoc.
Qed.

(** C38: with the timer off, the console gets the lines of the nested calls,
    whatever rank MPI would give and whatever the clock reads, and the result is
    that of the calls; the rank was set before (it is not -1). *)
Theorem run_scope_text sc s :
  0 <= item s -> item s + scope_depth sc < 2 ^ 31 -> rank s <> -1 ->
  run_scope sc s = (thrown_outcome (scope_text (item s + 1) (rank s) sc).2,
                    print (scope_text (item s + 1) (rank s) sc).1 s).
Proof.
  revert s. induction sc as [line args calls thrown IH] using scope_nested_ind. intros s Hi Hd Hr.
  cbn [run_scope scope_text scope_depth] in *. set (calls_text := fix calls_text l := match l with [] => _ | _ => _ end).
  assert (forall s1, item s1 = item s + 1 -> rank s1 = rank s ->
    (for_each run_scope calls;; end_scope thrown) s1 =
      (thrown_outcome (calls_text calls).2, print (calls_text calls).1 s1)) as Hcalls.
  { revert Hd. induction IH as [|sc calls Hsc Hcalls IHc]; intros Hd s1 E1 E2.
    - destruct thrown, s1; unfold print; cbn; by rewrite app_nil_r.
    - cbn [for_each foldr] in *. specialize (Hsc s1). rewrite E1, E2 in Hsc. cbn [calls_text]. fold calls_text.
      destruct (scope_text (item s + 1 + 1) (rank s) sc) as [t [e|]]; cbn [fst snd thrown_outcome] in *.
      + unfold mbind, st_bind. rewrite Hsc by lia. done.
      + specialize (IHc ltac:(lia) (print t s1) E1 E2). unfold mbind, st_bind in *. rewrite Hsc by lia.
        rewrite IHc. destruct (calls_text calls) as [t' e]; cbn [fst snd]. by rewrite print_print. }
  destruct (calls_text calls) as [text e]. cbn [fst snd] in *. apply traced_text; try done.
  pose proof (scope_depth_pos (Scope line args calls thrown)). cbn in *. lia.
Qed.

End tracing.
End trace.

(** ** Error *)

Module Error.

(** A code and a message of 2048 characters, zero at first. *)
Record Error := mkError { code_ : Z; msg_ : buffer; fmt_ : list ascii }.

Definition MSG_SIZE : Z := 2048.

Definition Error_ctor (code : Z) (fmt : list ascii) : Error :=
  mkError code (Some (replicate (Z.to_nat MSG_SIZE) (Some nul))) fmt.

(** [sprintf] prints the arguments into the message, whatever its length. *)
Definition format {A} (sprintf : list ascii -> A -> list ascii) (args : A) (e : Error) : outcome Error :=
  msg ← mem_write (msg_ e) 0 (Some <$> (sprintf (fmt_ e) args ++ [nul]));
  Ok (mkError (code_ e) msg (fmt_ e)).

Lemma format_fits {A} (sprintf : list ascii -> A -> list ascii) (args : A) code fmt :
  let text := sprintf fmt args in
  if zlen text <? MSG_SIZE
  then exists cells, format sprintf args (Error_ctor code fmt) = Ok (mkError code (Some cells) fmt) /\
         slice 0 (zlen text + 1) cells = Some <$> (text ++ [nul]) /\ zlen cells = MSG_SIZE
  else format sprintf args (Error_ctor code fmt) = Undefined OutOfBounds.
Proof.
  cbv zeta. unfold format, Error_ctor. cbn [msg_ code_ fmt_]. set (text := sprintf fmt args).
  assert (zlen (Some <$> (text ++ [nul])) = zlen text + 1) as Hz by (rewrite zlen_fmap, zlen_app; done).
  assert (zlen (replicate (Z.to_nat MSG_SIZE) (Some nul)) = MSG_SIZE) as Hm by done.
  pose proof (zlen_nonneg text). destruct (Z.ltb_spec (zlen text) MSG_SIZE) as [Hlt|Hge].
  - rewrite mem_write_in by lia. eexists. split; [done|]. split.
    + rewrite <- Hz. by apply slice_splice.
    + rewrite zlen_splice by done. lia.
  - unfold mem_write. rewrite Hz, Hm. zcases; try lia; done.
Qed.

End Error.
