(* ===== verification/Arguments.v ===== *)
(** * Arguments: common/include/common/arguments.h

    The options of a command line.  An [Arg] is an object of one of the six
    classes; its virtual functions dispatch on the class, and those a class does
    not override throw 1.  An exception leaves the object as it is at that
    point, so the functions that change one run in [ST Arg].  An [ArgMap] is the
    map from option names to objects; texts are lists of characters.  What is
    printed is not modelled. *)

From S2P Require Import Prelude CText Effects Strtol CFloat.

Module Args.

(** ** Arg and its classes *)

Inductive ArgType := kNone | kString | kStringMap | kInt | kFloat | kSize.

#[global] Instance ArgType_eq_dec : EqDecision ArgType.
Proof. solve_decision. Defined.

(** The members of the base class. *)
Record Base := mkBase {
  opt_name_ : list ascii;
  type_ : ArgType;
  is_set_ : bool;
  use_default_ : bool;
}.

(** An object with the members of its class. *)
Inductive Arg :=
| NoneArg (b : Base)
| StringArg (b : Base) (args_ : list (list ascii))
| StringMapArg (b : Base) (arg_map_ : gmap (list ascii) Z) (args_ : list Z)
| IntArg (b : Base) (args_ : list Z)
| FloatArg (b : Base) (args_ : list float)
| SizeArg (b : Base) (args_ : list Z).

Definition base (a : Arg) : Base :=
  match a with
  | NoneArg b | StringArg b _ | StringMapArg b _ _ | IntArg b _ | FloatArg b _ | SizeArg b _ => b
  end.

Definition IsSet (a : Arg) : bool := is_set_ (base a).
Definition GetType (a : Arg) : ArgType := type_ (base a).

(** The constructors without and with a default. *)
Definition unset (opt : list ascii) (type : ArgType) : Base := mkBase opt type false false.
Definition defaulted (opt : list ascii) (type : ArgType) : Base := mkBase opt type true true.

(** What every [Add] of a value does first: a default is dropped.  [pop_front]
    of an empty list is undefined. *)
Definition drop_default {A} (b : Base) (args : list A) : outcome (Base * list A) :=
  if use_default_ b then
    match args with
    | _ :: args' => Ok (mkBase (opt_name_ b) (type_ b) (is_set_ b) false, args')
    | [] => Undefined OutOfBounds
    end
  else Ok (b, args).

Definition mark_set (b : Base) : Base := mkBase (opt_name_ b) (type_ b) true (use_default_ b).

(** [SizeArg::ToSize]: the last character scales by a power of 2^10, modulo 2^64. *)
Definition ToSize (arg : list ascii) : outcome Z :=
  match last arg with
  | None => Undefined OutOfBounds
  | Some c =>
      n ← stoul arg;
      Ok (if bool_decide (c = "k"%char \/ c = "K"%char) then u64 (n * 2 ^ 10)
          else if bool_decide (c = "m"%char \/ c = "M"%char) then u64 (n * 2 ^ 20)
          else if bool_decide (c = "g"%char \/ c = "G"%char) then u64 (n * 2 ^ 30)
          else n)
  end.

(** [Add] of a class with a list of values: drop the default, convert, append.
    When the conversion throws, the default is gone. *)
Definition add_value {A} (mk : Base -> list A -> Arg) (conv : list ascii -> outcome A)
    (b : Base) (args : list A) (arg : list ascii) : outcome Z * Arg :=
  match drop_default b args with
  | Ok (b', args') =>
      match conv arg with
      | Ok v => (Ok 1, mk (mark_set b') (args' ++ [v]))
      | Throw e => (Throw e, mk b' args')
      | Undefined u => (Undefined u, mk b' args')
      | Exit c => (Exit c, mk b' args')
      end
  | Undefined u => (Undefined u, mk b args)
  | _ => (Undefined OutOfBounds, mk b args)
  end.

(** [AssertArgExists] and the look-up that follows it. *)
Definition map_value (arg_map : gmap (list ascii) Z) (arg : list ascii) : outcome Z :=
  match arg_map !! arg with
  | Some id => Ok id
  | None => Throw (IntException 1)
  end.

(** [Add ()] and [Add (arg)]. *)
Definition Add_flag : ST Arg Z := fun a =>
  match a with
  | NoneArg b => (Ok 0, NoneArg (mark_set b))
  | _ => (Throw (IntException 1), a)
  end.

Definition StringArg_Add (b : Base) (args : list (list ascii)) (arg : list ascii) : outcome Z * Arg :=
  add_value StringArg Ok b args arg.
Definition StringMapArg_Add (b : Base) (m : gmap (list ascii) Z) (args : list Z) (arg : list ascii) : outcome Z * Arg :=
  add_value (fun b => StringMapArg b m) (map_value m) b args arg.
Definition IntArg_Add (b : Base) (args : list Z) (arg : list ascii) : outcome Z * Arg := add_value IntArg stoi b args arg.
Definition FloatArg_Add (b : Base) (args : list float) (arg : list ascii) : outcome Z * Arg :=
  add_value FloatArg stof b args arg.
Definition SizeArg_Add (b : Base) (args : list Z) (arg : list ascii) : outcome Z * Arg := add_value SizeArg ToSize b args arg.

Definition Add (arg : list ascii) : ST Arg Z := fun a =>
  match a with
  | NoneArg b => (Throw (IntException 1), a)
  | StringArg b args => StringArg_Add b args arg
  | StringMapArg b m args => StringMapArg_Add b m args arg
  | IntArg b args => IntArg_Add b args arg
  | FloatArg b args => FloatArg_Add b args arg
  | SizeArg b args => SizeArg_Add b args arg
  end.

Definition Arg_AddStringMapVal (val : list ascii) (id : Z) : ST Arg unit := fun a =>
  match a with
  | StringMapArg b m args => (Ok (), StringMapArg b (<[val := id]> m) args)
  | _ => (Throw (IntException 1), a)
  end.

(** [if (is_set_) return args_.back (); else throw 1;] and the same for the
    whole list. *)
Definition back {A} (args : list A) : outcome A :=
  match last args with Some v => Ok v | None => Undefined OutOfBounds end.
Definition get_back {A} (b : Base) (args : list A) : outcome A :=
  if is_set_ b then back args else Throw (IntException 1).
Definition get_all {A} (b : Base) (args : list A) : outcome (list A) :=
  if is_set_ b then Ok args else Throw (IntException 1).

Definition Arg_GetStringOpt (a : Arg) : outcome (list ascii) :=
  match a with StringArg b args => get_back b args | _ => Throw (IntException 1) end.
Definition Arg_GetStringOpts (a : Arg) : outcome (list (list ascii)) :=
  match a with StringArg b args => get_all b args | _ => Throw (IntException 1) end.
Definition Arg_GetIntOpt (a : Arg) : outcome Z :=
  match a with
  | IntArg b args | StringMapArg b _ args => get_back b args
  | _ => Throw (IntException 1)
  end.
Definition Arg_GetIntOpts (a : Arg) : outcome (list Z) :=
  match a with
  | IntArg b args | StringMapArg b _ args => get_all b args
  | _ => Throw (IntException 1)
  end.
Definition Arg_GetFloatOpt (a : Arg) : outcome float :=
  match a with FloatArg b args => get_back b args | _ => Throw (IntException 1) end.
Definition Arg_GetFloatOpts (a : Arg) : outcome (list float) :=
  match a with FloatArg b args => get_all b args | _ => Throw (IntException 1) end.
Definition Arg_GetSizeOpt (a : Arg) : outcome Z :=
  match a with SizeArg b args => get_back b args | _ => Throw (IntException 1) end.
Definition Arg_GetSizeOpts (a : Arg) : outcome (list Z) :=
  match a with SizeArg b args => get_all b args | _ => Throw (IntException 1) end.

(** ** ArgFactory *)

(** The overload of [Get] is chosen by the type of the default. *)
Inductive Default :=
| NoDefault
| DString (dval : list ascii)
| DInt (dval : Z)
| DFloat (dval : float)
| DSize (dval : Z).

(** The constructors of the classes. *)
Definition NoneArg_new (opt : list ascii) : Arg := NoneArg (unset opt kNone).
Definition StringArg_new (opt : list ascii) : Arg := StringArg (unset opt kString) [].
Definition StringMapArg_new (opt : list ascii) : Arg := StringMapArg (unset opt kStringMap) ∅ [].
Definition IntArg_new (opt : list ascii) : Arg := IntArg (unset opt kInt) [].
Definition FloatArg_new (opt : list ascii) : Arg := FloatArg (unset opt kFloat) [].
Definition SizeArg_new (opt : list ascii) : Arg := SizeArg (unset opt kSize) [].

Definition StringArg_default (opt dval : list ascii) : Arg := StringArg (defaulted opt kString) [dval].
Definition StringMapArg_default (opt : list ascii) (dval : Z) : Arg := StringMapArg (defaulted opt kStringMap) ∅ [dval].
Definition IntArg_default (opt : list ascii) (dval : Z) : Arg := IntArg (defaulted opt kInt) [dval].
Definition FloatArg_default (opt : list ascii) (dval : float) : Arg := FloatArg (defaulted opt kFloat) [dval].
Definition SizeArg_default (opt : list ascii) (dval : Z) : Arg := SizeArg (defaulted opt kSize) [dval].

(** A default of the wrong type reaches the end of a function without a return. *)
Definition ArgFactory_Get (opt : list ascii) (type : ArgType) (dval : Default) : outcome Arg :=
  match dval, type with
  | NoDefault, kNone => Ok (NoneArg_new opt)
  | NoDefault, kString => Ok (StringArg_new opt)
  | NoDefault, kStringMap => Ok (StringMapArg_new opt)
  | NoDefault, kInt => Ok (IntArg_new opt)
  | NoDefault, kFloat => Ok (FloatArg_new opt)
  | NoDefault, kSize => Ok (SizeArg_new opt)
  | DString v, kString => Ok (StringArg_default opt v)
  | DInt v, kStringMap => Ok (StringMapArg_default opt v)
  | DInt v, kInt => Ok (IntArg_default opt v)
  | DFloat v, kFloat => Ok (FloatArg_default opt v)
  | DSize v, kSize => Ok (SizeArg_default opt v)
  | _, _ => Undefined MissingReturn
  end.

(** ** ArgMap *)

Abbreviation ArgMap := (gmap (list ascii) Arg) (only parsing).

(** [emplace] keeps an option that is already there. *)
Definition AddOpt (opt : list ascii) (type : ArgType) (dval : Default) : ST ArgMap unit := fun m =>
  match ArgFactory_Get opt type dval with
  | Ok a => (Ok (), match m !! opt with Some _ => m | None => <[opt := a]> m end)
  | Throw e => (Throw e, m)
  | Undefined u => (Undefined u, m)
  | Exit c => (Exit c, m)
  end.

Definition OptExists (opt : list ascii) (m : ArgMap) : bool := bool_decide (is_Some (m !! opt)).

Definition AssertOptExists (opt : list ascii) (m : ArgMap) : outcome unit :=
  if OptExists opt m then Ok () else Throw (IntException 1).

(** A member function of [args_ [opt]], of an option that exists. *)
Definition on_arg {A} (opt : list ascii) (f : ST Arg A) : ST ArgMap A := fun m =>
  match m !! opt with
  | Some a => let '(r, a') := f a in (r, <[opt := a']> m)
  | None => (Undefined NullDeref, m)
  end.

Definition AddStringMapVal (opt val : list ascii) (id : Z) : ST ArgMap unit := fun m =>
  match AssertOptExists opt m with
  | Ok _ => on_arg opt (Arg_AddStringMapVal val id) m
  | r => (r, m)
  end.

(** [arg_str]: an argument without a dash selects the option with the empty name. *)
Definition option_of (arg : list ascii) : list ascii :=
  match arg with "-"%char :: _ => arg | _ => [] end.

(** The loop of [ArgIter] from index [i].  The fuel bounds the number of turns. *)
Fixpoint ArgIter_loop (fuel : nat) (argv : list (list ascii)) (i : Z) : ST ArgMap unit :=
  let argc := zlen argv in
  if i <? argc then
    match fuel with
    | O => undefined NoReturn
    | S fuel => fun m =>
        let arg_str := option_of (default [] (argv !! Z.to_nat i)) in
        match AssertOptExists arg_str m, m !! arg_str with
        | Ok _, Some a =>
            let add :=
              if bool_decide (GetType a <> kNone) && (i + 1 <? argc) then
                on_arg arg_str (Add (default [] (argv !! Z.to_nat (i + 1))))
              else if bool_decide (GetType a = kNone) then on_arg arg_str Add_flag
              else throw (IntException 1) in
            (k ← add; ArgIter_loop fuel argv (i + k + 1)) m
        | r, _ => (r, m)
        end
    end
  else mret ().

Definition ArgIter (argv : list (list ascii)) : ST ArgMap unit :=
  ArgIter_loop (length argv) argv 1.

Definition OptIsSet (opt : list ascii) (m : ArgMap) : bool :=
  match m !! opt with Some a => IsSet a | None => false end.

Definition AssertOptIsSet (opt : list ascii) (m : ArgMap) : outcome unit :=
  AssertOptExists opt m;; if OptIsSet opt m then Ok () else Throw (IntException 1).

Definition AssertOptIsNotSet (opt : list ascii) (m : ArgMap) : outcome unit :=
  if OptIsSet opt m then Throw (IntException 1) else Ok ().

(** [AssertOptIsSet (opt); return args_ [opt]->Get... ();] *)
Definition get_opt {A} (get : Arg -> outcome A) (opt : list ascii) (m : ArgMap) : outcome A :=
  AssertOptIsSet opt m;;
  match m !! opt with Some a => get a | None => Undefined NullDeref end.

Definition GetStringOpt := get_opt Arg_GetStringOpt.
Definition GetStringOpts := get_opt Arg_GetStringOpts.
Definition GetIntOpt := get_opt Arg_GetIntOpt.
(** The value is not returned. *)
Definition GetIntOpts (opt : list ascii) (m : ArgMap) : outcome (list Z) :=
  get_opt Arg_GetIntOpts opt m;; Undefined MissingReturn.
Definition GetFloatOpt := get_opt Arg_GetFloatOpt.
Definition GetFloatOpts := get_opt Arg_GetFloatOpts.
Definition GetSizeOpt := get_opt Arg_GetSizeOpt.
Definition GetSizeOpts := get_opt Arg_GetSizeOpts.

End Args.
