(* ===== verification/ArgumentsSpec.v ===== *)
(** * ArgumentsSpec: what a command line does to its options

    The invariant of an option object, the reading of a command line as a list
    of options with their values, and the values each option has afterwards. *)

From S2P Require Import Prelude CText Effects Strtol CFloat Arguments.
Import Args.

(** ** The invariant of an object *)

(** An option is set when it has a value, and a default is its only value. *)
Definition values_ok {A} (b : Base) (args : list A) : Prop :=
  is_set_ b = bool_decide (args <> []) /\ (use_default_ b = true -> length args = 1%nat).

(** The type is the one of the class. *)
Definition arg_ok (a : Arg) : Prop :=
  match a with
  | NoneArg b => type_ b = kNone
  | StringArg b args => type_ b = kString /\ values_ok b args
  | StringMapArg b _ args => type_ b = kStringMap /\ values_ok b args
  | IntArg b args => type_ b = kInt /\ values_ok b args
  | FloatArg b args => type_ b = kFloat /\ values_ok b args
  | SizeArg b args => type_ b = kSize /\ values_ok b args
  end.

Definition map_ok (m : gmap (list ascii) Arg) : Prop := map_Forall (fun _ => arg_ok) m.

(** ** Values of any class *)

Inductive Value := VString (s : list ascii) | VInt (n : Z) | VFloat (x : float) | VSize (n : Z).

Definition arg_values (a : Arg) : list Value :=
  match a with
  | NoneArg _ => []
  | StringArg _ args => VString <$> args
  | StringMapArg _ _ args | IntArg _ args => VInt <$> args
  | FloatArg _ args => VFloat <$> args
  | SizeArg _ args => VSize <$> args
  end.

(** The value a text stands for. *)
Definition arg_conv (a : Arg) (arg : list ascii) : outcome Value :=
  match a with
  | NoneArg _ => Throw (IntException 1)
  | StringArg _ _ => Ok (VString arg)
  | StringMapArg _ m _ => v ← map_value m arg; Ok (VInt v)
  | IntArg _ _ => v ← stoi arg; Ok (VInt v)
  | FloatArg _ _ => v ← stof arg; Ok (VFloat v)
  | SizeArg _ _ => v ← ToSize arg; Ok (VSize v)
  end.

(** What a command line does not change. *)
Definition same_class (a a' : Arg) : Prop :=
  GetType a' = GetType a /\ forall arg, arg_conv a' arg = arg_conv a arg.

#[global] Instance same_class_preorder : PreOrder same_class.
Proof.
  split; [by split|]. intros a b c [T1 C1] [T2 C2]. split; [congruence|]. intros arg. by rewrite C2.
Qed.

(** The failures of a parse. *)
Definition failed {A} (r : outcome A) : Prop := (exists e, r = Throw e) \/ r = Undefined OutOfBounds.

Lemma add_value_ok {A} (mk : Base -> list A -> Arg) conv b args arg v :
  values_ok b args -> conv arg = Ok v ->
  exists b', add_value mk conv b args arg =
      (Ok 1, mk b' ((if use_default_ b then [] else args) ++ [v])) /\
    type_ b' = type_ b /\ use_default_ b' = false /\
    values_ok b' ((if use_default_ b then [] else args) ++ [v]).
Proof.
  intros [Hs Hd] Hc. unfold add_value, drop_default, values_ok.
  destruct (use_default_ b) eqn:E.
  - destruct args as [|x [|y args]]; try by specialize (Hd eq_refl). rewrite Hc.
    eexists. split; [done|]. done.
  - rewrite Hc. eexists. split; [done|]. unfold mark_set. cbn. rewrite E.
    split; [done|]. split; [done|]. split; [|done]. symmetry. apply bool_decide_eq_true. by destruct args.
Qed.

Lemma add_value_fail {A} (mk : Base -> list A -> Arg) conv b args arg :
  values_ok b args -> failed (conv arg) -> failed (add_value mk conv b args arg).1.
Proof.
  intros [Hs Hd] Hc. unfold add_value, drop_default.
  destruct (use_default_ b) eqn:E.
  - destruct args as [|x [|y args]]; try by specialize (Hd eq_refl).
    destruct Hc as [[e ->]| ->]; [left; eauto|by right].
  - destruct Hc as [[e ->]| ->]; [left; eauto|by right].
Qed.

Lemma stoi_fails arg : (exists n, stoi arg = Ok n) \/ failed (stoi arg).
Proof.
  unfold stoi. destruct (scan_number arg 10) as [[[neg n] r]|]; [|right; left; eauto].
  destruct (_ || _); [right; left|left]; eauto.
Qed.

Lemma stoul_fails arg : (exists n, stoul arg = Ok n) \/ failed (stoul arg).
Proof.
  unfold stoul. destruct (scan_number arg 10) as [[[neg n] r]|]; [|right; left; eauto].
  destruct (_ <? _); [left|right; left]; eauto.
Qed.

Lemma ToSize_fails arg : (exists n, ToSize arg = Ok n) \/ failed (ToSize arg).
Proof.
  unfold ToSize. destruct (last arg); [|by right; right].
  destruct (stoul_fails arg) as [[n ->]|[[e ->]| ->]]; [left|right; left|right; right]; by eauto.
Qed.

Lemma stof_fails arg : (exists x, stof arg = Ok x) \/ failed (stof arg).
Proof.
  assert (forall r : float * bool, (exists x, (let '(x, er) := r in
      if er : bool then Throw (StdException "stof") else Ok x) = Ok x) \/
    failed (let '(x, er) := r in if er : bool then Throw (StdException "stof") else Ok x)) as F.
  { intros [x []]; [right; left|left]; eauto. }
  unfold stof. set (t := skip_space arg).
  destruct (match t with [] => _ | _ => _ end) as [neg u].
  destruct (starts_with (chars "inf") u); [left; eauto|].
  destruct (starts_with (chars "nan") u); [left; eauto|].
  set (decimal := let '(n, k, any, rest) := scan_fraction 10 u in _).
  assert ((exists x, decimal = Ok x) \/ failed decimal) as D.
  { subst decimal. destruct (scan_fraction 10 u) as [[[n k] []] rest]; [|right; left; eauto].
    destruct (scan_exponent "e" rest). apply F. }
  destruct u as [|[[] [] [] [] [] [] [] []] [|x h]]; try exact D.
  destruct (bool_decide _); [|exact D].
  destruct (scan_fraction 16 h) as [[[n k] []] rest]; [|exact D].
  destruct (scan_exponent "p" rest). apply F.
Qed.

Lemma arg_conv_fails a arg : (exists v, arg_conv a arg = Ok v) \/ failed (arg_conv a arg).
Proof.
  destruct a; cbn [arg_conv].
  - right; left; eauto.
  - left; eauto.
  - unfold map_value. destruct (_ !! _); [left|right; left]; by eauto.
  - destruct (stoi_fails arg) as [[n ->]|[[e ->]| ->]]; [left|right; left|right; right]; by eauto.
  - destruct (stof_fails arg) as [[n ->]|[[e ->]| ->]]; [left|right; left|right; right]; by eauto.
  - destruct (ToSize_fails arg) as [[n ->]|[[e ->]| ->]]; [left|right; left|right; right]; by eauto.
Qed.

(** ** One value *)

Definition kept_values (a : Arg) : list Value := if use_default_ (base a) then [] else arg_values a.

(** What [Add] promises for a text with a value. *)
Definition adds (a : Arg) (v : Value) (r : outcome Z * Arg) : Prop :=
  exists a', r = (Ok 1, a') /\ arg_ok a' /\ same_class a a' /\ IsSet a' = true /\
    use_default_ (base a') = false /\ arg_values a' = kept_values a ++ [v].

(** A class with a list of values: all but [NoneArg]. *)
Section value_class.
Context {A : Type} (mk : Base -> list A -> Arg) (conv : list ascii -> outcome A)
  (inj : A -> Value) (T : ArgType).
Hypothesis Hbase : forall b l, base (mk b l) = b.
Hypothesis Hvals : forall b l, arg_values (mk b l) = inj <$> l.
Hypothesis Hok : forall b l, arg_ok (mk b l) = (type_ b = T /\ values_ok b l).
Hypothesis Hconv : forall b l arg, arg_conv (mk b l) arg = (v ← conv arg; Ok (inj v)).

Lemma add_value_class b l arg v :
  arg_ok (mk b l) -> arg_conv (mk b l) arg = Ok v -> adds (mk b l) v (add_value mk conv b l arg).
Proof.
  rewrite Hok, Hconv. intros [Ht Hv] Hc.
  destruct (conv arg) as [x| | |] eqn:Hx; try done. injection Hc as <-.
  destruct (add_value_ok mk conv b l arg x Hv Hx) as (b' & E & T' & D & V).
  exists (mk b' ((if use_default_ b then [] else l) ++ [x])).
  unfold kept_values, IsSet, same_class, GetType. rewrite Hok, !Hbase, !Hvals, T', fmap_app.
  repeat split; try done.
  - apply V.
  - apply V.
  - intros arg'. by rewrite !Hconv.
  - destruct V as [-> _]. apply bool_decide_eq_true. by destruct (if use_default_ b then [] else l).
  - by destruct (use_default_ b).
Qed.

Lemma add_value_class_fail b l arg :
  arg_ok (mk b l) -> failed (arg_conv (mk b l) arg) -> failed (add_value mk conv b l arg).1.
Proof.
  rewrite Hok, Hconv. intros [Ht Hv] Hc. apply add_value_fail; [done|].
  destruct (conv arg) as [x|e|u|c].
  - by destruct Hc as [[]|].
  - by left; eexists.
  - destruct Hc as [[]|[= ->]]; [done|by right].
  - by destruct Hc as [[]|].
Qed.

End value_class.

Lemma Add_ok a arg v : arg_ok a -> arg_conv a arg = Ok v -> adds a v (Add arg a).
Proof.
  destruct a; [done|..].
  - by apply (add_value_class StringArg Ok VString kString).
  - by apply (add_value_class (fun b => StringMapArg b _) _ VInt kStringMap).
  - by apply (add_value_class IntArg stoi VInt kInt).
  - by apply (add_value_class FloatArg stof VFloat kFloat).
  - by apply (add_value_class SizeArg ToSize VSize kSize).
Qed.

Lemma Add_fail a arg : arg_ok a -> failed (arg_conv a arg) -> failed (Add arg a).1.
Proof.
  destruct a; [by left; eexists|..].
  - by apply (add_value_class_fail StringArg Ok VString kString).
  - by apply (add_value_class_fail (fun b => StringMapArg b _) _ VInt kStringMap).
  - by apply (add_value_class_fail IntArg stoi VInt kInt).
  - by apply (add_value_class_fail FloatArg stof VFloat kFloat).
  - by apply (add_value_class_fail SizeArg ToSize VSize kSize).
Qed.

Lemma Add_flag_ok a :
  arg_ok a -> GetType a = kNone ->
  exists a', Add_flag a = (Ok 0, a') /\ arg_ok a' /\ same_class a a' /\ IsSet a' = true /\
    use_default_ (base a') = use_default_ (base a) /\ arg_values a' = arg_values a.
Proof.
  unfold GetType. intros Ha Ht. destruct a as [b|b l|b mp l|b l|b l|b l]; cbn in Ha, Ht;
    try (destruct Ha; congruence). eexists. split; [done|]. done.
Qed.

(** ** The reading of a command line *)

(** The option a word names: itself when it begins with a dash. *)
Definition named (w : list ascii) : list ascii :=
  if bool_decide (head w = Some "-"%char) then w else [].

Lemma option_of_named w : option_of w = named w.
Proof.
  unfold option_of, named. destruct w as [|c w]; [done|]. cbn [head].
  destruct (decide (c = "-"%char)) as [->|Hc]; [done|].
  rewrite bool_decide_eq_false_2 by congruence.
  destruct c as [[] [] [] [] [] [] [] []]; try done; by destruct Hc.
Qed.

(** The options in their order, each with its value; nothing when an option is
    unknown, a value is missing, or a text is not a value of its option. *)
Fixpoint command_line (m : gmap (list ascii) Arg) (l : list (list ascii))
    : option (list (list ascii * option Value)) :=
  match l with
  | [] => Some []
  | w :: rest =>
      match m !! named w with
      | None => None
      | Some a =>
          if decide (GetType a = kNone) then ((named w, None) ::.) <$> command_line m rest
          else match rest with
               | [] => None
               | v :: rest' =>
                   match arg_conv a v with
                   | Ok x => ((named w, Some x) ::.) <$> command_line m rest'
                   | _ => None
                   end
               end
      end
  end.

(** The values a command line gives an option. *)
Definition given (o : list ascii) (ts : list (list ascii * option Value)) : list Value :=
  omap (fun t => if decide (t.1 = o) then t.2 else None) ts.

(** What is known of an option behind a command line. *)
Definition after (o : list ascii) (ts : list (list ascii * option Value)) (a a' : Arg) : Prop :=
  same_class a a' /\ arg_ok a' /\
  IsSet a' = IsSet a || bool_decide (o ∈ ts.*1) /\
  arg_values a' = match given o ts with [] => arg_values a | g => kept_values a ++ g end.

Lemma after_nil o a : arg_ok a -> after o [] a a.
Proof. intros Ha. split; [done|]. split; [done|]. split; [by rewrite orb_false_r|done]. Qed.

Lemma after_cons (o : list ascii) t ts (a a1 a' : Arg) :
  (t.1 = o -> same_class a a1 /\ IsSet a1 = true /\
    match t.2 with
    | Some v => use_default_ (base a1) = false /\ arg_values a1 = kept_values a ++ [v]
    | None => use_default_ (base a1) = use_default_ (base a) /\ arg_values a1 = arg_values a
    end) ->
  (t.1 <> o -> a1 = a) ->
  after o ts a1 a' -> after o (t :: ts) a a'.
Proof.
  intros He Hn (C & K & S & V). destruct t as [o1 v]. cbn [fst snd] in *.
  destruct (decide (o1 = o)) as [->|Ho].
  - destruct (He eq_refl) as (C1 & S1 & V1). split; [by etransitivity|]. split; [done|].
    split.
    + rewrite S, S1. symmetry. apply orb_true_iff. right. apply bool_decide_eq_true. by left.
    + rewrite V. unfold given, kept_values in *. cbn [omap list_omap fst snd]. rewrite decide_True by done.
      destruct v as [v|]; destruct V1 as [-> ->]; [|done].
      destruct (omap _ ts); [done|]. by rewrite <- app_assoc.
  - pose proof (Hn Ho); subst a1. split; [done|]. split; [done|]. split.
    + rewrite S. f_equal. apply bool_decide_ext. csimpl. rewrite elem_of_cons.
      split; [by right|]. by intros [->|].
    + rewrite V. unfold given. cbn [omap list_omap fst snd]. by rewrite decide_False by done.
Qed.

(** The reading depends on the classes only. *)
Definition same_classes (m m' : gmap (list ascii) Arg) : Prop :=
  forall o, option_Forall2 same_class (m !! o) (m' !! o).

Lemma command_line_same m m' l : same_classes m m' -> command_line m' l = command_line m l.
Proof.
  intros Hm. induction (Nat.lt_wf_0_projected (@length (list ascii)) l) as [l _ IH].
  destruct l as [|w rest]; [done|]. cbn [command_line].
  destruct (Hm (named w)) as [a a' [T C]|]; [|done]. rewrite T.
  destruct (decide _); [by rewrite IH by (simpl; lia)|].
  destruct rest as [|v rest]; [done|]. rewrite C. destruct (arg_conv a v); try done.
  by rewrite IH by (simpl; lia).
Qed.

Lemma same_classes_insert m o a a' : m !! o = Some a -> same_class a a' -> same_classes m (<[o := a']> m).
Proof.
  intros Ha C o'. destruct (decide (o = o')) as [<-|].
  - rewrite lookup_insert_eq, Ha. by constructor.
  - rewrite lookup_insert_ne by done. destruct (m !! o'); by constructor.
Qed.

(** ** The loop *)

Lemma on_arg_Some {A : Type} (m : gmap (list ascii) Arg) (o : list ascii) a (f : ST Arg A) r a' :
  m !! o = Some a -> f a = (r, a') -> on_arg o f m = (r, <[o := a']> m).
Proof. intros Hm Hf. unfold on_arg. by rewrite Hm, Hf. Qed.

Lemma drop_cons_lookup (argv : list (list ascii)) i w rest :
  drop i argv = w :: rest -> argv !! i = Some w /\ drop (S i) argv = rest /\ (i < length argv)%nat.
Proof.
  intros E. assert (argv !! i = Some w) as Hw by (by rewrite <- (Nat.add_0_r i), <- lookup_drop, E).
  split; [done|]. split; [|by apply lookup_lt_Some in Hw].
  rewrite <- Nat.add_1_r, <- drop_drop, E. done.
Qed.

(** One turn, and the turns behind it. *)
Definition turn_ok (t : option Value) (a a1 : Arg) : Prop :=
  arg_ok a1 /\ same_class a a1 /\ IsSet a1 = true /\
  match t with
  | Some v => use_default_ (base a1) = false /\ arg_values a1 = kept_values a ++ [v]
  | None => use_default_ (base a1) = use_default_ (base a) /\ arg_values a1 = arg_values a
  end.

Lemma after_turn (t : option Value) (ts : list (list ascii * option Value)) (m m' : gmap (list ascii) Arg) (o : list ascii) (a a1 : Arg) :
  m !! o = Some a -> turn_ok t a a1 ->
  (forall o', option_Forall2 (after o' ts) (<[o := a1]> m !! o') (m' !! o')) ->
  forall o', option_Forall2 (after o' ((o, t) :: ts)) (m !! o') (m' !! o').
Proof.
  intros Ha (K & C & S & V) Hr o'. specialize (Hr o'). destruct (decide (o = o')) as [<-|Ho].
  - rewrite lookup_insert_eq in Hr. rewrite Ha. inversion Hr as [? a' Hr'|]; subst. constructor.
    by apply (after_cons _ _ _ _ a1).
  - rewrite lookup_insert_ne in Hr by done. inversion Hr as [a0 a' Hr'|]; subst; constructor.
    by apply (after_cons _ _ _ _ a0).
Qed.

Lemma ArgIter_loop_spec fuel argv i m :
  map_ok m -> 0 <= i -> (length (drop (Z.to_nat i) argv) <= fuel)%nat ->
  match command_line m (drop (Z.to_nat i) argv) with
  | Some ts => exists m', ArgIter_loop fuel argv i m = (Ok (), m') /\
      forall o, option_Forall2 (after o ts) (m !! o) (m' !! o)
  | None => failed (ArgIter_loop fuel argv i m).1
  end.
Proof.
  revert i m. induction fuel as [|fuel IH]; intros i m Hm Hi Hf.
  all: destruct (drop (Z.to_nat i) argv) as [|w rest] eqn:E; [|try (simpl in Hf; lia)].
  1,2: cbn [command_line ArgIter_loop]; apply (f_equal length) in E; rewrite length_drop in E;
    destruct (Z.ltb_spec i (zlen argv)); [unfold zlen in *; simpl in E; lia|];
    exists m; split; [done|]; intros o; destruct (m !! o) eqn:Eo; constructor; apply after_nil;
    by eapply Hm.
  apply drop_cons_lookup in E as (Ew & Er & El). cbn [command_line ArgIter_loop].
  destruct (Z.ltb_spec i (zlen argv)) as [_|]; [|unfold zlen in *; lia].
  rewrite Ew. change (default [] (Some w)) with w. rewrite option_of_named. unfold AssertOptExists, OptExists.
  destruct (m !! named w) as [a|] eqn:Ea; [|left; eauto].
  rewrite bool_decide_eq_true_2 by done. cbv iota. pose proof (Hm _ _ Ea) as Ka.
  assert (forall k t a1 rest', turn_ok t a a1 -> 0 <= k -> drop (Z.to_nat (i + k + 1)) argv = rest' ->
    (length rest' <= fuel)%nat ->
    match (((named w, t) ::.) <$> command_line m rest') with
    | Some ts => exists m', ArgIter_loop fuel argv (i + k + 1) (<[named w := a1]> m) = (Ok (), m') /\
        forall o, option_Forall2 (after o ts) (m !! o) (m' !! o)
    | None => failed (ArgIter_loop fuel argv (i + k + 1) (<[named w := a1]> m)).1
    end) as Next.
  { intros k t a1 rest' Ht Hk Hd Hl. pose proof Ht as (K1 & C1 & _).
    specialize (IH (i + k + 1) (<[named w := a1]> m)). rewrite Hd in IH.
    specialize (IH (map_Forall_insert_2 _ _ _ _ K1 Hm) ltac:(lia) Hl).
    rewrite (command_line_same m) in IH by by apply (same_classes_insert _ _ a).
    destruct (command_line m rest') as [ts|]; [|done]. destruct IH as (m' & -> & Hr).
    exists m'. split; [done|]. by eapply after_turn. }
  destruct (decide (GetType a = kNone)) as [Hn|Hn].
  - rewrite (bool_decide_eq_false_2 (GetType a <> kNone)), (bool_decide_eq_true_2 (GetType a = kNone)) by tauto.
    cbn [andb]. destruct (Add_flag_ok a Ka Hn) as (a1 & Ef & T).
    erewrite st_bind_Ok by by eapply on_arg_Some. apply (Next 0 None); [|done|..].
    + destruct T as (? & ? & ? & ? & ?). done.
    + rewrite <- Er. f_equal. lia.
    + simpl in Hf. lia.
  - rewrite (bool_decide_eq_true_2 (GetType a <> kNone)), (bool_decide_eq_false_2 (GetType a = kNone)) by tauto.
    destruct rest as [|v rest].
    + apply (f_equal length) in Er. rewrite length_drop in Er. cbn [length] in Er.
      destruct (Z.ltb_spec (i + 1) (zlen argv)); [unfold zlen in *; lia|]. left. eauto.
    + apply drop_cons_lookup in Er as (Ev & Er & El').
      destruct (Z.ltb_spec (i + 1) (zlen argv)); [|unfold zlen in *; lia]. cbn [andb].
      replace (Z.to_nat (i + 1)) with (S (Z.to_nat i)) by lia. rewrite Ev. change (default [] (Some v)) with v.
      destruct (arg_conv_fails a v) as [[x Hx]|Hx].
      * destruct (Add_ok a v x Ka Hx) as (a1 & Ef & T). rewrite Hx.
        erewrite st_bind_Ok by by eapply on_arg_Some. apply (Next 1 (Some x)); [|done|..].
        -- destruct T as (? & ? & ? & ? & ?). done.
        -- rewrite <- Er. f_equal. lia.
        -- simpl in Hf. lia.
      * pose proof (Add_fail a v Ka Hx) as Hr. destruct (Add v a) as [r a1] eqn:Ef.
        cbn [fst] in Hr.
        assert (forall F : Z -> ST (gmap (list ascii) Arg) unit, failed ((on_arg (named w) (Add v) ≫= F) m).1) as Hb.
        { intros F. unfold mbind, st_bind. rewrite (on_arg_Some _ _ _ _ _ _ Ea Ef).
          destruct Hr as [[e ->]| ->]; [by left; eexists|by right]. }
        destruct (arg_conv a v); [by destruct Hx as [[]|]|apply Hb..].
Qed.

(** ** Whole command lines *)

Lemma ArgIter_reads argv m :
  map_ok m ->
  match command_line m (tail argv) with
  | Some ts => exists m', ArgIter argv m = (Ok (), m') /\
      forall o, option_Forall2 (after o ts) (m !! o) (m' !! o)
  | None => failed (ArgIter argv m).1
  end.
Proof.
  intros Hm. pose proof (ArgIter_loop_spec (length argv) argv 1 m Hm ltac:(lia)) as E.
  change (Z.to_nat 1) with 1%nat in E. rewrite length_drop in E. specialize (E ltac:(lia)).
  assert (drop 1 argv = tail argv) as Ed by by destruct argv. by rewrite Ed in E.
Qed.

(** The invariant holds behind every command line that is accepted. *)
Lemma ArgIter_ok argv m m' : map_ok m -> ArgIter argv m = (Ok (), m') -> map_ok m'.
Proof.
  intros Hm E. pose proof (ArgIter_reads argv m Hm) as Hs. rewrite E in Hs.
  destruct (command_line m (tail argv)) as [ts|]; [|by destruct Hs as [[]|]].
  destruct Hs as (? & [= <-] & Hs). intros o a' Ha'. specialize (Hs o). rewrite Ha' in Hs.
  inversion Hs as [a ? (_ & K & _)|]; by subst.
Qed.

(** ** Reading options *)

Lemma get_back_ok {A} (b : Base) (args : list A) :
  values_ok b args -> is_set_ b = true ->
  exists v, get_back b args = Ok v /\ last args = Some v.
Proof.
  intros [Hs _] Hb. unfold get_back, back. rewrite Hb. rewrite Hb in Hs. symmetry in Hs.
  apply bool_decide_eq_true in Hs. destruct (last args) eqn:E; [eauto|]. by apply last_None in E.
Qed.

(** The last value of an option, in the type that is asked for. *)
Definition last_value (type : ArgType) (a : Arg) : Prop :=
  match type with
  | kNone => True
  | kString => exists v, Arg_GetStringOpt a = Ok v /\ last (arg_values a) = Some (VString v)
  | kStringMap | kInt => exists v, Arg_GetIntOpt a = Ok v /\ last (arg_values a) = Some (VInt v)
  | kFloat => exists v, Arg_GetFloatOpt a = Ok v /\ last (arg_values a) = Some (VFloat v)
  | kSize => exists v, Arg_GetSizeOpt a = Ok v /\ last (arg_values a) = Some (VSize v)
  end.

Lemma last_value_ok a : arg_ok a -> IsSet a = true -> last_value (GetType a) a.
Proof.
  unfold IsSet, GetType. intros Ha Hs. destruct a as [b|b l|b mp l|b l|b l|b l]; cbn [base arg_ok] in *.
  1: by rewrite Ha.
  all: destruct Ha as [-> Ha]; destruct (get_back_ok b l Ha Hs) as (v & E & L);
    exists v; (split; [exact E|]); cbn [arg_values]; by rewrite fmap_last, L.
Qed.

Lemma get_opt_set {A} (get : Arg -> outcome A) o m a :
  m !! o = Some a -> IsSet a = true -> get_opt get o m = get a.
Proof.
  intros Ha Hs. unfold get_opt, AssertOptIsSet, AssertOptExists, OptExists, OptIsSet.
  rewrite Ha, Hs. by rewrite bool_decide_eq_true_2 by done.
Qed.

(** The values an option is given are values of its class. *)
Lemma given_conv m l ts o v :
  command_line m l = Some ts -> v ∈ given o ts ->
  exists a arg, m !! o = Some a /\ arg_conv a arg = Ok v.
Proof.
  revert ts. induction (Nat.lt_wf_0_projected (@length (list ascii)) l) as [l _ IH]. intros ts.
  destruct l as [|w rest]; cbn [command_line]; [by intros [= <-] ?%elem_of_nil|].
  destruct (m !! named w) as [a|] eqn:Ea; [|done]. destruct (decide (GetType a = kNone)).
  - intros (ts' & E & ->)%fmap_Some Hv. unfold given in Hv. cbn [omap list_omap fst snd] in Hv.
    eapply IH; [|done|]; [simpl; lia|]. by destruct (decide (named w = o)).
  - destruct rest as [|x rest]; [done|]. destruct (arg_conv a x) as [y| | |] eqn:Hy; try done.
    intros (ts' & E & ->)%fmap_Some Hv. unfold given in Hv. cbn [omap list_omap fst snd] in Hv.
    destruct (decide (named w = o)) as [<-|].
    + apply elem_of_cons in Hv as [->|Hv]; [eauto|]. eapply IH; [|done|done]; simpl; lia.
    + eapply IH; [|done|done]; simpl; lia.
Qed.

(** What reading an option of a type by name returns. *)
Definition readable (type : ArgType) (o : list ascii) (m : gmap (list ascii) Arg) : Prop :=
  match type with
  | kNone => True
  | kString => exists v, GetStringOpt o m = Ok v
  | kStringMap | kInt => exists v, GetIntOpt o m = Ok v
  | kFloat => exists v, GetFloatOpt o m = Ok v
  | kSize => exists v, GetSizeOpt o m = Ok v
  end.

Lemma set_readable m o type :
  map_ok m -> GetType <$> m !! o = Some type -> OptIsSet o m = true -> readable type o m.
Proof.
  intros Hm (a & Ha & ->)%fmap_Some Hs. unfold OptIsSet in Hs. rewrite Ha in Hs.
  pose proof (last_value_ok a (Hm _ _ Ha) Hs) as L.
  unfold readable, last_value, GetStringOpt, GetIntOpt, GetFloatOpt, GetSizeOpt in *.
  rewrite !(get_opt_set _ o m a) by done. destruct (GetType a); [done|destruct L as (v & E & _); by exists v..].
Qed.

Lemma ArgIter_types argv m m' o :
  map_ok m -> ArgIter argv m = (Ok (), m') -> GetType <$> m' !! o = GetType <$> m !! o.
Proof.
  intros Hm E. pose proof (ArgIter_reads argv m Hm) as Hs. rewrite E in Hs.
  destruct (command_line m (tail argv)) as [ts|]; [|by destruct Hs as [[]|]].
  destruct Hs as (? & [= <-] & Hs). destruct (Hs o) as [a a' ([T _] & _)|]; csimpl; by f_equal.
Qed.

(** A word option without a default has a value of its table. *)
Lemma ArgIter_word argv m m' o b mp :
  map_ok m -> ArgIter argv m = (Ok (), m') -> m !! o = Some (StringMapArg b mp []) ->
  OptIsSet o m' = true -> exists word n, mp !! word = Some n /\ GetIntOpt o m' = Ok n.
Proof.
  intros Hm E Ho Hs. pose proof (ArgIter_ok _ _ _ Hm E) as Hm'. pose proof (ArgIter_reads argv m Hm) as R.
  rewrite E in R. destruct (command_line m (tail argv)) as [ts|] eqn:Et; [|by destruct R as [[]|]].
  destruct R as (? & [= <-] & R). specialize (R o). rewrite Ho in R.
  inversion R as [? a' (C & K & _ & V) Eq Ea'|]; subst. unfold OptIsSet in Hs. rewrite <- Ea' in Hs.
  pose proof (last_value_ok a' K Hs) as L. destruct C as [T _]. destruct (Hm _ _ Ho) as [Tb _].
  rewrite T in L. unfold GetType in L. cbn [base] in L. rewrite Tb in L. destruct L as (n & Hn & Hl).
  assert (VInt n ∈ given o ts) as Hg.
  { rewrite V in Hl. unfold kept_values in Hl. cbn in Hl. destruct (given o ts) as [|g gs] eqn:Eg; [done|].
    destruct (use_default_ b); apply last_Some_elem_of in Hl; apply Hl. }
  destruct (given_conv _ _ _ _ _ Et Hg) as (a & arg & Ha & Hc). rewrite Ho in Ha. injection Ha as <-.
  unfold arg_conv, map_value in Hc. destruct (mp !! arg) as [k|] eqn:Ek; [|done]. injection Hc as ->.
  exists arg, n. split; [done|]. unfold GetIntOpt. by erewrite get_opt_set.
Qed.

(** ** Declared options *)

Lemma ArgFactory_ok o type d a : ArgFactory_Get o type d = Ok a -> arg_ok a /\ GetType a = type.
Proof. by destruct d, type; intros [= <-]. Qed.

Lemma AddOpt_ok o type d m m' : map_ok m -> AddOpt o type d m = (Ok (), m') -> map_ok m'.
Proof.
  unfold AddOpt. intros Hm. destruct (ArgFactory_Get o type d) as [a| | |] eqn:E; try done.
  apply ArgFactory_ok in E as [Ha _]. destruct (m !! o); intros [= <-]; [done|].
  by apply map_Forall_insert_2.
Qed.

Lemma AddStringMapVal_ok o val id m m' :
  map_ok m -> AddStringMapVal o val id m = (Ok (), m') -> map_ok m'.
Proof.
  unfold AddStringMapVal, on_arg. intros Hm. destruct (AssertOptExists o m) as [[]| | |]; try done.
  destruct (m !! o) as [a|] eqn:E; [|done]. apply Hm in E.
  destruct a; try done. intros [= <-]. by apply map_Forall_insert_2.
Qed.

(** ** Theorems *)

(** C16: A command line is accepted exactly when it reads as a list of options with
    values.  Then each option keeps its class and the invariant, is set when it
    was or occurs, and has the values it was given, in their order, behind those
    it had, a default apart. *)
Theorem ArgIter_spec argv m :
  map_ok m ->
  match command_line m (tail argv) with
  | Some ts => exists m', ArgIter argv m = (Ok (), m') /\
      forall o, option_Forall2 (after o ts) (m !! o) (m' !! o)
  | None => failed (ArgIter argv m).1
  end.
Proof. apply ArgIter_reads. Qed.

(** C17: behind a command line that is accepted, reading an option that is set returns
    its last value: the list is not empty and the class is the one of the type. *)
Theorem accepted_options_readable argv m m' o a :
  map_ok m -> ArgIter argv m = (Ok (), m') -> m' !! o = Some a -> OptIsSet o m' = true ->
  match GetType a with
  | kNone => True
  | kString => exists v, GetStringOpt o m' = Ok v /\ last (arg_values a) = Some (VString v)
  | kStringMap | kInt => exists v, GetIntOpt o m' = Ok v /\ last (arg_values a) = Some (VInt v)
  | kFloat => exists v, GetFloatOpt o m' = Ok v /\ last (arg_values a) = Some (VFloat v)
  | kSize => exists v, GetSizeOpt o m' = Ok v /\ last (arg_values a) = Some (VSize v)
  end.
Proof.
  intros Hm E Ha Hs. unfold OptIsSet in Hs. rewrite Ha in Hs.
  assert (arg_ok a) as K by by eapply ArgIter_ok.
  pose proof (last_value_ok a K Hs) as L. unfold GetStringOpt, GetIntOpt, GetFloatOpt, GetSizeOpt.
  rewrite !(get_opt_set _ o m' a) by done. by destruct (GetType a).
Qed.

(** A size with a letter of the three units is scaled, modulo 2^64; without a
    letter it is taken as it is. *)
Theorem ToSize_scales n :
  0 <= n < 2 ^ 64 ->
  ToSize (dec n) = Ok n /\
  (forall c, c = "k"%char \/ c = "K"%char -> ToSize (dec n ++ [c]) = Ok (u64 (n * 2 ^ 10))) /\
  (forall c, c = "m"%char \/ c = "M"%char -> ToSize (dec n ++ [c]) = Ok (u64 (n * 2 ^ 20))) /\
  (forall c, c = "g"%char \/ c = "G"%char -> ToSize (dec n ++ [c]) = Ok (u64 (n * 2 ^ 30))).
Proof.
  intros Hn. split.
  - unfold ToSize. destruct (last (dec n)) as [c|] eqn:E; [|by apply last_None, dec_nonempty in E].
    rewrite <- (app_nil_r (dec n)), stoul_dec by done. cbn [mbind outcome_bind].
    apply last_Some_elem_of in E. pose proof (dec_chars n) as D. rewrite Forall_forall in D.
    specialize (D c E). rewrite !bool_decide_eq_false_2; [done|..].
    all: intros [-> | ->]; by destruct D as [[]|].
  - repeat split; intros c Hc; unfold ToSize; rewrite last_snoc, stoul_dec
      by (done || by destruct Hc as [-> | ->]); cbn [mbind outcome_bind];
      by destruct Hc as [-> | ->].
Qed.

(** A text that is no value of an option with a default takes the default away:
    the option stays set, and reading it is undefined when the exception is
    caught. *)
Theorem invalid_value_loses_default o mp v arg :
  mp !! arg = None ->
  let a := StringMapArg (defaulted o kStringMap) mp [v] in
  exists a', Add arg a = (Throw (IntException 1), a') /\ IsSet a' = true /\
    Arg_GetIntOpt a' = Undefined OutOfBounds.
Proof.
  intros Hm. cbv zeta. cbn [Add]. unfold StringMapArg_Add, add_value, map_value. cbn [drop_default defaulted use_default_].
  rewrite Hm. by eexists.
Qed.
