(* ===== verification/BenchArgs.v ===== *)
(** * BenchArgs: benchmark/src/benchmark/benchmark.h

    The command line of the storage benchmark: the options [BenchmarkArgs]
    declares, and [VerifyArgs], which requires those the chosen service and
    workload read. *)

From S2P Require Import Prelude CText Effects Strtol CFloat Arguments ArgumentsSpec.
Import Args.

(** ** The enumerations *)

Inductive WorkloadType := kPrealloc | kIoOnlyFs | kMdFs.
Inductive IOClientType := kOrangefs | kMongo | kRedis.
Inductive DistributionType := kNoDist | kNormal | kGamma | kExponential | kUniform.

#[global] Instance DistributionType_eq_dec : EqDecision DistributionType.
Proof. solve_decision. Defined.

Definition workload_int (w : WorkloadType) : Z :=
  match w with kPrealloc => 0 | kIoOnlyFs => 1 | kMdFs => 2 end.
Definition service_int (s : IOClientType) : Z :=
  match s with kOrangefs => 0 | kMongo => 1 | kRedis => 2 end.
Definition distribution_int (d : DistributionType) : Z :=
  match d with kNoDist => 0 | kNormal => 1 | kGamma => 2 | kExponential => 3 | kUniform => 4 end.

(** [static_cast] of an [int]: nothing when it is none of the enumerators. *)
Definition workload_of (n : Z) : option WorkloadType :=
  if n =? 0 then Some kPrealloc else if n =? 1 then Some kIoOnlyFs else if n =? 2 then Some kMdFs else None.
Definition service_of (n : Z) : option IOClientType :=
  if n =? 0 then Some kOrangefs else if n =? 1 then Some kMongo else if n =? 2 then Some kRedis else None.
Definition distribution_of (n : Z) : option DistributionType :=
  if n =? 0 then Some kNoDist else if n =? 1 then Some kNormal else if n =? 2 then Some kGamma
  else if n =? 3 then Some kExponential else if n =? 4 then Some kUniform else None.

(** ** BenchmarkArgs *)

Definition add_option (name : string) (type : ArgType) : ST (gmap (list ascii) Arg) unit :=
  AddOpt (chars name) type NoDefault.
Definition add_word (name word : string) (id : Z) : ST (gmap (list ascii) Arg) unit :=
  AddStringMapVal (chars name) (chars word) id.

(** The declarations of the constructor. *)
Definition declare : ST (gmap (list ascii) Arg) unit :=
  add_option "-w" kStringMap;;
  add_word "-w" "prealloc" (workload_int kPrealloc);;
  add_word "-w" "io-only" (workload_int kIoOnlyFs);;
  add_word "-w" "md-fs" (workload_int kMdFs);;
  add_option "-s" kStringMap;;
  add_word "-s" "orangefs" (service_int kOrangefs);;
  add_word "-s" "mongodb" (service_int kMongo);;
  add_word "-s" "redis" (service_int kRedis);;
  add_option "-caddr" kString;;
  AddOpt (chars "-cport") kInt (DInt 0);;
  add_option "-p" kSize;;
  add_option "-path" kString;;
  add_option "-config" kString;;
  add_option "-rfrac" kFloat;;
  add_option "-wfrac" kFloat;;
  add_option "-bs" kSize;;
  add_option "-fs" kSize;;
  add_option "-tot" kSize;;
  add_option "-ap" kStringMap;;
  add_word "-ap" "seq" (distribution_int kNoDist);;
  add_word "-ap" "uniform" (distribution_int kUniform);;
  add_option "-md_depth" kInt;;
  add_option "-md_fcnt" kSize;;
  add_option "-direct" kNone;;
  add_option "-out" kString;;
  add_option "-seed" kInt.

Definition need (name : string) (m : gmap (list ascii) Arg) : outcome unit :=
  AssertOptIsSet (chars name) m.
Definition has (name : string) (m : gmap (list ascii) Arg) : bool := OptIsSet (chars name) m.

Fixpoint need_all (names : list string) (m : gmap (list ascii) Arg) : outcome unit :=
  match names with
  | [] => Ok ()
  | n :: names' => need n m;; need_all names' m
  end.

Definition need_config (m : gmap (list ascii) Arg) : outcome unit :=
  if has "-out" m then need "-config" m else Ok ().

Definition VerifyArgs (m : gmap (list ascii) Arg) : outcome unit :=
  need "-s" m;;
  storage_service ← GetIntOpt (chars "-s") m;
  match service_of storage_service with
  | Some kOrangefs => need "-caddr" m
  | Some kRedis | Some kMongo => need_all ["-caddr"; "-cport"] m
  | None => Ok ()
  end;;
  need "-w" m;;
  workload ← GetIntOpt (chars "-w") m;
  match workload_of workload with
  | Some kPrealloc => need_all ["-path"; "-fs"] m
  | Some kIoOnlyFs =>
      need_all ["-path"; "-rfrac"; "-wfrac"; "-bs"; "-fs"; "-tot"] m;; need_config m
  | Some kMdFs => need_all ["-md_depth"; "-md_fcnt"; "-path"] m;; need_config m
  | None => Ok ()
  end.

Definition BenchmarkArgs (argv : list (list ascii)) : outcome (gmap (list ascii) Arg) :=
  match (declare;; ArgIter argv) ∅ with
  | (Ok _, m) => VerifyArgs m;; Ok m
  | (Throw e, _) => Throw e
  | (Undefined u, _) => Undefined u
  | (Exit c, _) => Exit c
  end.

(** ** The declared options *)

Definition options : gmap (list ascii) Arg := (declare ∅).2.

Lemma declare_options : declare ∅ = (Ok (), options).
Proof.
  assert ((declare ∅).1 = Ok ()) as E by by vm_compute.
  unfold options. by destruct (declare ∅) as [r m]; simplify_eq/=.
Qed.

(** A declaration keeps the invariant of the objects. *)
Definition keeps (f : ST (gmap (list ascii) Arg) unit) : Prop :=
  forall m m', map_ok m -> f m = (Ok (), m') -> map_ok m'.

Lemma options_keep_bind f g : keeps f -> keeps g -> keeps (f;; g).
Proof.
  intros Hf Hg m m' Hm. unfold mbind, st_bind. destruct (f m) as [[[]| | |] m1] eqn:E; try done.
  intros E'. by eapply Hg; [eapply Hf|].
Qed.

Lemma options_keep_AddOpt o type d : keeps (AddOpt o type d).
Proof. intros m m'. apply AddOpt_ok. Qed.

Lemma options_keep_word name word id : keeps (add_word name word id).
Proof. intros m m'. apply AddStringMapVal_ok. Qed.

Lemma options_ok : map_ok options.
Proof.
  assert (keeps declare) as K.
  { unfold declare, add_option.
    repeat first [apply options_keep_bind | apply options_keep_AddOpt | apply options_keep_word]. }
  apply (K ∅); [apply map_Forall_empty|apply declare_options].
Qed.

#[local] Opaque declare options.

Lemma BenchmarkArgs_inv argv m :
  BenchmarkArgs argv = Ok m -> ArgIter argv options = (Ok (), m) /\ VerifyArgs m = Ok ().
Proof.
  unfold BenchmarkArgs. rewrite (st_bind_Ok _ _ _ _ _ declare_options).
  destruct (ArgIter argv options) as [[[]| | |] m1]; try done.
  destruct (VerifyArgs m1) as [[]| | |] eqn:E; try done. by intros [= <-].
Qed.

Lemma need_set name m : need name m = Ok () -> OptIsSet (chars name) m = true.
Proof.
  unfold need, AssertOptIsSet. destruct (AssertOptExists _ _) as [[]| | |]; try done.
  cbn. by destruct (OptIsSet _ _).
Qed.

Lemma seq_Ok (f g : outcome unit) : (f;; g) = Ok () -> f = Ok () /\ g = Ok ().
Proof. by destruct f as [[]| | |]. Qed.

(** The words of an option stand for numbers in a range. *)
Definition words_of (m : gmap (list ascii) Arg) (o : list ascii) (range : list Z) : bool :=
  match m !! o with
  | Some (StringMapArg b mp []) => forallb (fun p => bool_decide (p.2 ∈ range)) (map_to_list mp)
  | _ => false
  end.

Lemma word_range m0 argv m o range :
  map_ok m0 -> ArgIter argv m0 = (Ok (), m) -> words_of m0 o range = true -> OptIsSet o m = true ->
  exists n, GetIntOpt o m = Ok n /\ n ∈ range.
Proof.
  unfold words_of. intros H0 E Hw Hs.
  destruct (m0 !! o) as [[| |b mp [|]| | |]|] eqn:Ho; try discriminate Hw.
  destruct (ArgIter_word _ _ _ _ _ _ H0 E Ho Hs) as (word & n & Hn & G).
  exists n. split; [done|]. rewrite forallb_forall in Hw. apply elem_of_map_to_list in Hn.
  apply list_elem_of_In, Hw in Hn. by apply bool_decide_eq_true in Hn.
Qed.

(** The options of a command line that is accepted. *)
Section accepted.
Context (argv : list (list ascii)) (m : gmap (list ascii) Arg).
Hypothesis Haccepted : BenchmarkArgs argv = Ok m.

Lemma accepted_readable name type :
  GetType <$> options !! chars name = Some type -> need name m = Ok () -> readable type (chars name) m.
Proof.
  destruct (BenchmarkArgs_inv _ _ Haccepted) as [E _]. intros Ht Hn.
  apply set_readable; [by eapply ArgIter_ok, E; apply options_ok| |by apply need_set].
  by rewrite (ArgIter_types _ _ _ _ options_ok E).
Qed.

Lemma accepted_word name range :
  words_of options (chars name) range = true -> need name m = Ok () ->
  exists n, GetIntOpt (chars name) m = Ok n /\ n ∈ range.
Proof.
  destruct (BenchmarkArgs_inv _ _ Haccepted) as [E _]. intros Hw Hn.
  by eapply word_range; [apply options_ok|done|done|apply need_set].
Qed.

(** A default is never unset. *)
Lemma accepted_default name :
  OptIsSet (chars name) options = true -> need name m = Ok ().
Proof.
  destruct (BenchmarkArgs_inv _ _ Haccepted) as [E _]. intros Hs.
  pose proof (ArgIter_reads argv options options_ok) as R. rewrite E in R.
  destruct (command_line options (tail argv)) as [ts|]; [|by destruct R as [[]|]].
  destruct R as (? & [= <-] & R). specialize (R (chars name)).
  unfold need, AssertOptIsSet, AssertOptExists, OptExists. unfold OptIsSet in *.
  destruct R as [a a' (_ & _ & S & _)|]; [|discriminate Hs].
  rewrite bool_decide_eq_true_2 by done. cbn. by rewrite S, Hs.
Qed.

End accepted.

Lemma need_all_Forall names m : need_all names m = Ok () -> Forall (fun n => need n m = Ok ()) names.
Proof.
  induction names as [|n names IH]; [constructor|]. cbn [need_all]. intros [? ?]%seq_Ok. auto.
Qed.

(** What the workload of a command line reads. *)
Definition workload_options (w : WorkloadType) : list (string * ArgType) :=
  match w with
  | kPrealloc => [("-path", kString); ("-fs", kSize)]
  | kIoOnlyFs => [("-path", kString); ("-rfrac", kFloat); ("-wfrac", kFloat); ("-bs", kSize);
                  ("-fs", kSize); ("-tot", kSize)]
  | kMdFs => [("-md_depth", kInt); ("-md_fcnt", kSize); ("-path", kString)]
  end%string.

Lemma VerifyArgs_workload m w :
  VerifyArgs m = Ok () -> GetIntOpt (chars "-w") m = Ok (workload_int w) ->
  need_all (fst <$> workload_options w) m = Ok () /\ (w <> kPrealloc -> need_config m = Ok ()).
Proof.
  unfold VerifyArgs. intros V E. apply seq_Ok in V as [_ V].
  destruct (GetIntOpt (chars "-s") m) as [s| | |]; try discriminate V.
  apply seq_Ok in V as [_ [_ V]%seq_Ok]. rewrite E in V. destruct w.
  - split; [exact V|congruence].
  - apply seq_Ok in V as [? ?]. by split.
  - apply seq_Ok in V as [? ?]. by split.
Qed.

Lemma VerifyArgs_service m :
  VerifyArgs m = Ok () ->
  need "-s" m = Ok () /\ need "-w" m = Ok () /\
  (forall s, GetIntOpt (chars "-s") m = Ok (service_int s) -> need "-caddr" m = Ok ()).
Proof.
  unfold VerifyArgs. intros [Hs V]%seq_Ok. split; [done|].
  destruct (GetIntOpt (chars "-s") m) as [n| | |]; try discriminate V.
  apply seq_Ok in V as [C [Hw _]%seq_Ok]. split; [done|]. intros s [= ->].
  destruct s; [done|..]; apply need_all_Forall in C; by inversion C.
Qed.

Lemma has_need name m : has name m = true -> need name m = Ok ().
Proof.
  unfold has, need, AssertOptIsSet, AssertOptExists, OptExists, OptIsSet. intros Ho.
  destruct (m !! chars name); [|done]. rewrite bool_decide_eq_true_2 by done. cbn. by rewrite Ho.
Qed.

Lemma BenchmarkArgs_accepted argv m :
  BenchmarkArgs argv = Ok m ->
  exists s w,
    GetIntOpt (chars "-s") m = Ok (service_int s) /\
    GetIntOpt (chars "-w") m = Ok (workload_int w) /\
    readable kString (chars "-caddr") m /\ readable kInt (chars "-cport") m /\
    Forall (fun o => readable o.2 (chars o.1) m) (workload_options w) /\
    (w <> kPrealloc -> has "-out" m = true ->
      readable kString (chars "-out") m /\ readable kString (chars "-config") m).
Proof.
  intros A. destruct (BenchmarkArgs_inv _ _ A) as [E V].
  destruct (VerifyArgs_service m V) as (Ns & Nw & Na).
  destruct (accepted_word argv m A "-s" [0; 1; 2]) as (ns & Hs & Rs); [by vm_compute|done|].
  destruct (accepted_word argv m A "-w" [0; 1; 2]) as (nw & Hw & Rw); [by vm_compute|done|].
  assert (exists s, ns = service_int s) as [s ->].
  { rewrite !elem_of_cons, elem_of_nil in Rs. destruct Rs as [->|[->|[->|[]]]];
      [by exists kOrangefs|by exists kMongo|by exists kRedis]. }
  assert (exists w, nw = workload_int w) as [w ->].
  { rewrite !elem_of_cons, elem_of_nil in Rw. destruct Rw as [->|[->|[->|[]]]];
      [by exists kPrealloc|by exists kIoOnlyFs|by exists kMdFs]. }
  destruct (VerifyArgs_workload m w V Hw) as [N C]. apply need_all_Forall in N.
  exists s, w. do 2 (split; [done|]). split; [|split; [|split]].
  - apply (accepted_readable argv m A); [by vm_compute|by eapply Na].
  - apply (accepted_readable argv m A); [by vm_compute|]. by apply (accepted_default argv m A); vm_compute.
  - destruct w; cbn [workload_options fmap list_fmap fst] in N |- *;
      repeat (apply Forall_cons in N as [? N]);
      repeat (apply Forall_cons; split; [by apply (accepted_readable argv m A); [vm_compute|]|]); constructor.
  - intros Hp Ho. specialize (C Hp). unfold need_config in C. rewrite Ho in C. split.
    + apply (accepted_readable argv m A); [by vm_compute|by apply has_need].
    + by apply (accepted_readable argv m A); [vm_compute|].
Qed.

(** When a command line is accepted, everything the benchmark reads for its
    service and its workload is there: the two words name a service and a
    workload, and each option has a value of its type. *)
Theorem BenchmarkArgs_sound argv m :
  BenchmarkArgs argv = Ok m ->
  exists s w,
    GetIntOpt (chars "-s") m = Ok (service_int s) /\
    GetIntOpt (chars "-w") m = Ok (workload_int w) /\
    readable kString (chars "-caddr") m /\ readable kInt (chars "-cport") m /\
    Forall (fun o => readable o.2 (chars o.1) m) (workload_options w) /\
    (w <> kPrealloc -> has "-out" m = true ->
      readable kString (chars "-out") m /\ readable kString (chars "-config") m).
Proof. apply BenchmarkArgs_accepted. Qed.

(** The distribution an accepted command line asks for, and its seed. *)
Lemma accepted_ap argv m :
  BenchmarkArgs argv = Ok m -> has "-ap" m = true ->
  GetIntOpt (chars "-ap") m = Ok (distribution_int kNoDist) \/
  GetIntOpt (chars "-ap") m = Ok (distribution_int kUniform).
Proof.
  intros A Ha. destruct (accepted_word argv m A "-ap" [0; 4]) as (n & Hn & R); [by vm_compute|by apply has_need|].
  rewrite !elem_of_cons, elem_of_nil in R. destruct R as [->|[->|[]]]; [by left|by right].
Qed.

Lemma accepted_seed argv m :
  BenchmarkArgs argv = Ok m -> has "-seed" m = true -> readable kInt (chars "-seed") m.
Proof. intros A Hs. by apply (accepted_readable argv m A); [vm_compute|apply has_need]. Qed.

(** ** The help text *)

(** What [Usage] prints, line by line. *)
Definition Usage : list string :=
  [ "Usage: ./benchmark -[param-id] [value] ...";
    EmptyString;
    "-w [string]: Which workload to run";
    "   prealloc";
    "   io-only";
    "   md-fs";
    "-s [string]: Which storage service to use for the workload";
    "   orangefs";
    "   mongodb";
    "   redis";
    EmptyString;
    "OrangeFS Parameters";
    "-caddr [string]: The local directory where the OrangeFS client is mounted";
    EmptyString;
    "Redis/MongoDB Parameters";
    "-caddr [string]: The IP address of the MongoDB server.";
    "-cport [string]: The port the MongoDB server runs on.";
    EmptyString;
    "io-only workload parameters";
    "-path [string]: The path to the file.";
    "-rfrac [float]: The percent of I/O to dedicate to reads";
    "-wfrac [float]: The percent of I/O to dedicate to writes";
    "-bs [size]: The unit of I/O ops";
    "-fs [size]: The size of the file to perform I/O with";
    "-tot [size]: The total amount of I/O to perform";
    "-ap [string]: The access pattern for I/O ops";
    "   seq";
    "   uniform";
    EmptyString;
    "md-fs workload parameters";
    "-md_depth [int]: The number of directories to nest";
    "-md_fcnt [size]: The number of files to open/close in the deepest directory";
    "-path [string]: The directory to begin creating files/directories";
    EmptyString;
    "Uniform Distribution Parameters";
    "-seed [int]";
    EmptyString;
    "Additional Params";
    "-direct: A flag that indicates whether or not to use direct I/O";
    "-out: The file to output statistics from tests to";
    "-config [string]: The configuration used for this test." ].

(** The option a line of the help starts with. *)
Definition usage_option (line : string) : option (list ascii) :=
  match chars line with
  | "-"%char :: l => Some ("-"%char :: (span_to ":" (span_to " " l).1).1)
  | _ => None
  end.

Definition usage_options : list (list ascii) := omap usage_option Usage.

(** The help names every option but "-p", and no other. *)
Lemma usage_complete o : o ∈ usage_options <-> is_Some (options !! o) /\ o <> chars "-p".
Proof.
  assert (forallb (fun o => match options !! o with Some _ => negb (bool_decide (o = chars "-p")) | None => false end)
    usage_options = true) as F1 by (vm_compute; reflexivity).
  assert (forallb (fun o => bool_decide (o = chars "-p" \/ o ∈ usage_options)) (map_to_list options).*1 = true) as F2
    by (vm_compute; reflexivity).
  rewrite forallb_forall in F1, F2. split.
  - intros Ho. specialize (F1 o (proj1 (list_elem_of_In _ _) Ho)). cbv beta in F1.
    destruct (options !! o); [|done]. split; [by eexists|]. by apply negb_true_iff, bool_decide_eq_false in F1.
  - intros [[a Ha] Hne]. assert (o ∈ (map_to_list options).*1) as Ho.
    { apply list_elem_of_fmap. exists (o, a). split; [done|]. by apply elem_of_map_to_list. }
    specialize (F2 o (proj1 (list_elem_of_In _ _) Ho)). apply bool_decide_eq_true in F2.
    destruct F2 as [F2|F2]; [exfalso; exact (Hne F2)|exact F2].
Qed.
