(* ===== verification/BenchStats.v ===== *)
(** * BenchStats: the statistics of benchmark/src/benchmark/benchmark.cpp

    [time_stats] reduces the times of the ranks over MPI; [io_stats] and
    [md_stats] append a line of comma-separated values to the file [-out] names,
    behind a header when the file is new.  The state is the files of results. *)

From Stdlib Require Import Floats.SpecFloat.
From S2P Require Import Prelude CText Effects Strtol CFloat FloatExact Ostream Arguments BenchArgs.
Import Args.

(** What the ranks and the machine give: the reductions of MPI, whose order is its
    own, [pow], the text of a NaN, the files that can be opened, and the time each
    rank spent. *)
Record Measures := mkMeasures {
  mpi_sum : list double -> double;
  mpi_min : list double -> double;
  mpi_max : list double -> double;
  pow : double -> double -> double;
  nan_text : list ascii;
  opens : list ascii -> bool;
  times : list double;
}.

Abbreviation Results := (gmap (list ascii) (list ascii)) (only parsing).

Definition dsqrt : double -> double := SFsqrt 53 1024.

Section stats.
Context (ms : Measures) (args : gmap (list ascii) Arg) (rank nprocs : Z).

(** The mean, and on the first rank the deviation, the least and the most; the
    other ranks take the root of a variable nothing wrote. *)
Definition time_stats : outcome (double * double * double * double) :=
  let avg_msec := ddiv (mpi_sum ms (times ms)) (double_of_Z nprocs) in
  let local_std_msec := (fun t => pow ms (dsub t avg_msec) (double_of_Z 2)) <$> times ms in
  if rank =? 0
  then Ok (avg_msec, dsqrt (mpi_sum ms local_std_msec), mpi_min ms (times ms), mpi_max ms (times ms))
  else Undefined UninitRead.

Definition newline : ascii := ascii_of_nat 10.

(** [out << a << "," << b ... << std::endl]. *)
Fixpoint csv_line (fields : list (list ascii)) : list ascii :=
  match fields with
  | [] => [newline]
  | [f] => f ++ [newline]
  | f :: fields' => f ++ ","%char :: csv_line fields'
  end.

(** A stream opened to append; writes to one that is not open are lost. *)
Definition append_result (output_path header line : list ascii) (s : Results) : Results :=
  if opens ms output_path then
    let old := match s !! output_path with Some v => v | None => header ++ [newline] end in
    <[output_path := old ++ line]> s
  else s.

Definition shown : double -> list ascii := show_double (nan_text ms).

Definition io_header : list ascii :=
  chars "avg_msec,std_msec,min_msec,max_msec,nprocs,block_size,ap,tot_read,tot_write,tot_bytes,bw_read,bw_write,bw_kbps,conf".

Definition io_row (read_per_proc write_per_proc block_size ap : Z) (conf : list ascii)
    (t : double * double * double * double) : list (list ascii) :=
  let '(avg_msec, std_msec, min_msec, max_msec) := t in
  let tot_read := u64 (read_per_proc * u64 nprocs) in
  let tot_write := u64 (write_per_proc * u64 nprocs) in
  let tot_bytes := tot_read +u tot_write in
  let bw tot := ddiv (double_of_Z tot) avg_msec in
  [shown avg_msec; shown std_msec; shown min_msec; shown max_msec; dec nprocs; dec block_size; dec ap;
   dec tot_read; dec tot_write; dec tot_bytes; shown (bw tot_read); shown (bw tot_write); shown (bw tot_bytes); conf].

Definition io_stats (read_per_proc write_per_proc block_size ap : Z) : ST Results unit :=
  if has "-out" args then
    t ← lift time_stats;
    conf ← lift (GetStringOpt (chars "-config") args);
    output_path ← lift (GetStringOpt (chars "-out") args);
    s ← get_state;
    put_state (append_result output_path io_header
                 (csv_line (io_row read_per_proc write_per_proc block_size ap conf t)) s)
  else mret ().

Definition md_header : list ascii :=
  chars "avg_msec,std_msec,min_msec,max_msec,nprocs,md_fcnt,md_dir,tot_ops,thrpt_kiops,conf".

Definition md_row (md_fcnt_per_proc md_dir_per_proc : Z) (conf : list ascii)
    (t : double * double * double * double) : list (list ascii) :=
  let '(avg_msec, std_msec, min_msec, max_msec) := t in
  let md_fcnt := u64 (md_fcnt_per_proc * u64 nprocs) in
  let md_dir := u64 (md_dir_per_proc * u64 nprocs) in
  let tot_ops := md_fcnt +u md_dir in
  [shown avg_msec; shown std_msec; shown min_msec; shown max_msec; dec nprocs; dec md_fcnt; dec md_dir;
   dec tot_ops; shown (ddiv (double_of_Z tot_ops) avg_msec); conf].

Definition md_stats (md_fcnt_per_proc md_dir_per_proc : Z) : ST Results unit :=
  if has "-out" args then
    t ← lift time_stats;
    conf ← lift (GetStringOpt (chars "-config") args);
    output_path ← lift (GetStringOpt (chars "-out") args);
    s ← get_state;
    put_state (append_result output_path md_header (csv_line (md_row md_fcnt_per_proc md_dir_per_proc conf t)) s)
  else mret ().

End stats.

(** The other ranks read a variable that was not written. *)
Lemma other_ranks_undefined ms args rank nprocs r w b ap s :
  has "-out" args = true -> rank <> 0 ->
  io_stats ms args rank nprocs r w b ap s = (Undefined UninitRead, s).
Proof.
  intros Ho Hr. unfold io_stats, time_stats. rewrite Ho. destruct (Z.eqb_spec rank 0); [done|].
  by apply st_bind_Undefined.
Qed.

(** ** Reading the results back *)

(** The pieces between separators. *)
Fixpoint split_on (sep : ascii) (l : list ascii) : list (list ascii) :=
  match l with
  | [] => [[]]
  | ch :: l' =>
      if decide (ch = sep) then [] :: split_on sep l'
      else match split_on sep l' with
           | [] => [[ch]]
           | p :: ps => (ch :: p) :: ps
           end
  end.

Lemma split_on_none sep l : sep ∉ l -> split_on sep l = [l].
Proof.
  induction l as [|ch l IH]; [done|]. intros [Hne Hl]%not_elem_of_cons. cbn [split_on].
  rewrite decide_False by done. by rewrite IH.
Qed.

Lemma split_on_app sep a l : sep ∉ a -> split_on sep (a ++ sep :: l) = a :: split_on sep l.
Proof.
  induction a as [|ch a IH]; intros Ha; cbn [app split_on]; [by rewrite decide_True|].
  apply not_elem_of_cons in Ha as [Hne Ha]. rewrite decide_False by done. by rewrite IH.
Qed.

(** The rows of a file and the fields of each; behind the last line is nothing. *)
Definition parse_csv (content : list ascii) : list (list (list ascii)) :=
  split_on "," <$> split_on newline content.

Definition plain (field : list ascii) : Prop := (","%char ∉ field) /\ (newline ∉ field).

Lemma csv_line_app fields : exists body, csv_line fields = body ++ [newline] /\
  (Forall plain fields -> (newline ∉ body) /\ (fields <> [] -> split_on "," body = fields)).
Proof.
  induction fields as [|f fields (body & E & IH)]; [exists []; split; [done|]; intros _; split; [apply not_elem_of_nil|done]|].
  destruct fields as [|g fields].
  - exists f. split; [done|]. intros [[Hc Hn] _]%Forall_cons. split; [done|]. intros _. by apply split_on_none.
  - exists (f ++ ","%char :: body). split.
    + change (csv_line (f :: g :: fields)) with (f ++ ","%char :: csv_line (g :: fields)).
      by rewrite E, <- app_assoc.
    + intros [[Hc Hn] Hp]%Forall_cons. destruct (IH Hp) as [Hb Hs]. split.
      * rewrite elem_of_app, elem_of_cons. intros [?|[?|?]]; done.
      * intros _. rewrite split_on_app by done. by rewrite Hs.
Qed.

Lemma parse_csv_line fields rest :
  Forall plain fields -> fields <> [] -> parse_csv (csv_line fields ++ rest) = fields :: parse_csv rest.
Proof.
  intros Hp Hne. destruct (csv_line_app fields) as (body & -> & Hb). destruct (Hb Hp) as [Hn Hs].
  unfold parse_csv. rewrite <- app_assoc. cbn [app]. rewrite split_on_app by done. cbn. by rewrite Hs.
Qed.

Lemma parse_csv_lines rows rest :
  Forall (Forall plain) rows -> Forall (fun r => r <> []) rows ->
  parse_csv (mjoin (csv_line <$> rows) ++ rest) = rows ++ parse_csv rest.
Proof.
  intros Hp Hne. induction rows as [|r rows IH]; [done|].
  apply Forall_cons in Hp as [Hr Hp]. apply Forall_cons in Hne as [Hnr Hne].
  change (mjoin (csv_line <$> r :: rows)) with (csv_line r ++ mjoin (csv_line <$> rows)).
  rewrite <- app_assoc, parse_csv_line, IH by done. done.
Qed.

Lemma plain_dec n : plain (dec n).
Proof. by split; apply dec_notin. Qed.

Lemma plain_shown ms x : plain (nan_text ms) -> plain (shown ms x).
Proof.
  intros [Hc Hn]. split; apply show_double_free; try done; apply (bool_decide_unpack _); by vm_compute.
Qed.

(** ** Runs of the benchmark into one file *)

(** One run of the input and output workload, as its first rank reports it. *)
Record io_run := mkIoRun { ir_ms : Measures; ir_nprocs : Z; ir_read : Z; ir_write : Z; ir_block : Z; ir_ap : Z }.

Definition report (args : gmap (list ascii) Arg) (r : io_run) : ST Results unit :=
  io_stats (ir_ms r) args 0 (ir_nprocs r) (ir_read r) (ir_write r) (ir_block r) (ir_ap r).

(** The times of a run as the first rank has them. *)
Definition run_times (r : io_run) : double * double * double * double :=
  match time_stats (ir_ms r) 0 (ir_nprocs r) with Ok t => t | _ => (S754_nan, S754_nan, S754_nan, S754_nan) end.

Definition run_row (conf : list ascii) (r : io_run) : list (list ascii) :=
  io_row (ir_ms r) (ir_nprocs r) (ir_read r) (ir_write r) (ir_block r) (ir_ap r) conf (run_times r).

Section runs.
Context (args : gmap (list ascii) Arg) (path conf : list ascii).
Context (Hout : has "-out" args = true) (Hpath : GetStringOpt (chars "-out") args = Ok path)
  (Hconf : GetStringOpt (chars "-config") args = Ok conf).

Lemma report_appends r s :
  opens (ir_ms r) path = true ->
  report args r s =
    (Ok (), <[path := default (io_header ++ [newline]) (s !! path) ++ csv_line (run_row conf r)]> s).
Proof.
  intros Ho. unfold report, io_stats, run_row, run_times. rewrite Hout. unfold time_stats. cbn [Z.eqb].
  unfold lift. erewrite st_bind_Ok by done. rewrite Hconf, Hpath. do 2 erewrite st_bind_Ok by done.
  erewrite st_bind_Ok by done. unfold put_state, append_result. rewrite Ho. by destruct (s !! path).
Qed.

Lemma reports_append rs s :
  Forall (fun r => opens (ir_ms r) path = true) rs -> rs <> [] ->
  for_each (report args) rs s =
    (Ok (), <[path := default (io_header ++ [newline]) (s !! path) ++ mjoin (csv_line <$> (run_row conf <$> rs))]> s).
Proof.
  intros Hf Hne. revert s. induction Hf as [|r rs Hr Hf IH]; intros s; [done|]. cbn [for_each].
  rewrite (st_bind_Ok _ _ _ _ _ (report_appends r s Hr)). destruct rs as [|r' rs].
  - cbn. by rewrite app_nil_r.
  - rewrite IH by done. rewrite lookup_insert_eq, insert_insert_eq. cbn [from_option id].
    by rewrite <- app_assoc.
Qed.

Lemma plain_row r : plain conf -> plain (nan_text (ir_ms r)) -> Forall plain (run_row conf r).
Proof.
  intros Hc Hn. unfold run_row, io_row. destruct (run_times r) as [[[a b] d] e].
  repeat (apply Forall_cons; split; [first [done|by apply plain_dec|by apply plain_shown]|]). done.
Qed.

(** C39: the file of results of any number of runs reads back as one header and a row of
    as many fields for each run, in their order; other files stay as they are. *)
Theorem results_read_back rs s :
  plain conf -> Forall (fun r => opens (ir_ms r) path = true /\ plain (nan_text (ir_ms r))) rs -> rs <> [] ->
  s !! path = None ->
  exists s' content, for_each (report args) rs s = (Ok (), s') /\ s' !! path = Some content /\
    parse_csv content = split_on "," io_header :: (run_row conf <$> rs) ++ [[[]]] /\
    Forall (fun row => length row = length (split_on "," io_header)) (run_row conf <$> rs) /\
    forall p, p <> path -> s' !! p = s !! p.
Proof.
  intros Hc Hr Hne Hs. eexists _, _. split; [apply reports_append; [|done]|].
  { eapply Forall_impl; [exact Hr|]. by intros r []. }
  split; [apply lookup_insert_eq|]. rewrite Hs. cbn [from_option id]. split; [|split].
  - change (io_header ++ [newline]) with (csv_line (split_on "," io_header)). rewrite parse_csv_line.
    + f_equal. rewrite <- (app_nil_r (mjoin _)), parse_csv_lines; [done| |].
      * apply Forall_fmap. eapply Forall_impl; [exact Hr|]. intros r []. by apply plain_row.
      * apply Forall_fmap, Forall_true. intros r. unfold run_row, io_row. by destruct (run_times r) as [[[a b] d] e].
    + unfold plain. apply (bool_decide_unpack _). by vm_compute.
    + done.
  - apply Forall_fmap, Forall_true. intros r. unfold run_row, io_row. by destruct (run_times r) as [[[a b] d] e].
  - intros p Hp. by apply lookup_insert_ne.
Qed.

End runs.
