(* ===== verification/Rng.v ===== *)
(** * Rng: common/include/common/rng.h

    The distributions of the benchmark.  [CountDistribution] counts; the others
    sample a distribution of [<random>], whose engine is a parameter: its state,
    with what a distribution remembers between samples, its seeding, and its
    samples. *)

From S2P Require Import Prelude CText Effects Strtol CFloat BenchArgs.

(** [round]: the nearest integer, halves away from zero. *)
Definition round (x : double) : double :=
  match x with
  | S754_finite s m e =>
      if 0 <=? e then x
      else binary_normalize 53 1024
             (signed s ((Zpos m + 2 ^ (- e - 1)) / 2 ^ (- e))) 0 s
  | _ => x
  end.

Section rng.
Context {G : Type}.
Context (default_engine : G).
Context (seeded : Z -> G -> G).       (* generator = std::default_random_engine (seed) *)
Context (reshaped : G -> G).          (* distribution_ = std::..._distribution (...) *)
Context (sample : DistributionType -> double -> double -> G -> double * G).

Inductive Distribution :=
| CountDistribution (inc_ count_ : Z) (generator : G)
| RealDistribution (type : DistributionType) (p1 p2 : double) (generator : G).

Definition Seed (seed : Z) (d : Distribution) : Distribution :=
  match d with
  | CountDistribution inc count g => CountDistribution inc count (seeded seed g)
  | RealDistribution t p1 p2 g => RealDistribution t p1 p2 (seeded seed g)
  end.

(** What a class does not override throws. *)
Definition no_method {A} : ST Distribution A := throw (IntException 1).

Definition shape (t : DistributionType) (p1 p2 : double) (g : G) : outcome unit * Distribution :=
  (Ok (), RealDistribution t p1 p2 (reshaped g)).

Definition Shape_size (p1 : Z) : ST Distribution unit := fun d =>
  match d with
  | CountDistribution _ count g => (Ok (), CountDistribution p1 count g)
  | RealDistribution kUniform _ _ g => shape kUniform (double_of_Z 0) (double_of_Z p1) g
  | _ => no_method d
  end.

Definition Shape_double (p1 : double) : ST Distribution unit := fun d =>
  match d with
  | RealDistribution kNormal _ _ g => shape kNormal (double_of_Z 0) p1 g
  | RealDistribution kGamma _ _ g => shape kGamma (double_of_Z 1) p1 g
  | RealDistribution kExponential _ _ g => shape kExponential p1 (double_of_Z 0) g
  | RealDistribution kUniform _ _ g => shape kUniform (double_of_Z 0) p1 g
  | _ => no_method d
  end.

Definition Shape_doubles (p1 p2 : double) : ST Distribution unit := fun d =>
  match d with
  | RealDistribution kNormal _ _ g => shape kNormal p1 p2 g
  | RealDistribution kGamma _ _ g => shape kGamma p1 p2 g
  | RealDistribution kUniform _ _ g => shape kUniform p1 p2 g
  | _ => no_method d
  end.

(** The count, or a rounded sample, converted by [count_as] and [sample_as]. *)
Definition get {A} (count_as : Z -> A) (sample_as : double -> outcome A) : ST Distribution A := fun d =>
  match d with
  | CountDistribution inc count g => (Ok (count_as count), CountDistribution inc (count +u inc) g)
  | RealDistribution t p1 p2 g =>
      let '(x, g') := sample t p1 p2 g in (sample_as (round x), RealDistribution t p1 p2 g')
  end.

Definition GetInt : ST Distribution Z := get i32 int_of_float.
Definition GetSize : ST Distribution Z := get id size_of_float.
Definition GetDouble : ST Distribution double := get double_of_Z Ok.

(** The default parameters are those of the library's distributions. *)
Definition DistributionFactory_Get (type : option DistributionType) : outcome Distribution :=
  match type with
  | Some kNoDist => Ok (CountDistribution 1 0 default_engine)
  | Some kNormal => Ok (RealDistribution kNormal (double_of_Z 0) (double_of_Z 1) default_engine)
  | Some kGamma => Ok (RealDistribution kGamma (double_of_Z 1) (double_of_Z 1) default_engine)
  | Some kExponential => Ok (RealDistribution kExponential (double_of_Z 1) (double_of_Z 0) default_engine)
  | Some kUniform => Ok (RealDistribution kUniform (double_of_Z 0) (double_of_Z 1) default_engine)
  | None => Undefined MissingReturn
  end.

End rng.
Arguments Distribution : clear implicits.
Arguments CountDistribution {G}. Arguments RealDistribution {G}.
