(* ===== verification/BenchIO.v ===== *)
(** * BenchIO: the storage clients of the benchmark

    benchmark/src/benchmark: io_client.h, file.h, kvs.h and their
    implementations orangefs.h, redis.h and mongo.h.  The mounted file system is
    a parameter with the calls the client makes; Redis is the service of
    Services.v.  [RedisFile] and [MongoFile] have the same text over a key-value
    store. *)

From S2P Require Import Prelude CText Effects Types Services BenchArgs.

Definition kRead : Z := 1.
Definition kWrite : Z := 2.
Definition kCreate : Z := 4.
Definition kDirect : Z := 8.
Definition kSync : Z := 16.

Definition has_mode (mode f : Z) : bool := negb (Z.land mode f =? 0).

(** The flags of [open] on Linux. *)
Definition O_RDONLY : Z := 0.
Definition O_WRONLY : Z := 1.
Definition O_RDWR : Z := 2.
Definition O_CREAT : Z := 64.
Definition O_DIRECT : Z := 16384.
Definition O_SYNC : Z := 1052672.

(** ** The mounted file system *)

Class FileSystem (F : Type) := {
  fs_open : string -> Z -> F -> option F;                   (* open (path, flags, 0666) *)
  fs_read : string -> Z -> Z -> F -> Z * list ascii;        (* read at an offset: count, bytes *)
  fs_write : string -> Z -> list ascii -> F -> Z * F;       (* write at an offset *)
  fs_create_directory : string -> F -> exn + F;             (* boost::filesystem *)
  fs_remove_all : string -> F -> exn + F;
  fs_entries : string -> F -> exn + list string;
}.

(** A file system that serves what it is asked, as files from paths to bytes.  A
    path that serves is an idealisation: its accesses are carried out in full, without
    the system limit of 0x7ffff000 bytes and the alignment that O_DIRECT may require. *)
Class FileSystemLaws (F : Type) `{FileSystem F} := {
  fs_serves : string -> F -> Prop;      (* the path may be opened, read and written *)
  fs_view : F -> gmap string (list ascii);
  fs_open_serves p flags f : fs_serves p f -> Z.land flags O_CREAT = O_CREAT \/ is_Some (fs_view f !! p) ->
    exists f', fs_open p flags f = Some f' /\ fs_serves p f' /\
               fs_view f' = <[p := default [] (fs_view f !! p)]> (fs_view f);
  fs_read_serves p off n f v : fs_serves p f -> fs_view f !! p = Some v -> 0 <= off -> 0 <= n < 2 ^ 31 ->
    exists bytes, fs_read p off n f = (zlen bytes, bytes) /\ zlen bytes <= n;
  fs_write_serves p off bytes f v : fs_serves p f -> fs_view f !! p = Some v ->
    0 <= off -> 0 < zlen bytes < 2 ^ 31 ->
    exists f', fs_write p off bytes f = (zlen bytes, f') /\ fs_serves p f' /\
               fs_view f' = <[p := splice nul off bytes v]> (fs_view f);
}.

(** Reference instance: files, without directories. *)
#[global] Instance files_ref : FileSystem (gmap string (list ascii)) := {
  fs_open p flags f :=
    match f !! p with
    | Some _ => Some f
    | None => if has_mode flags O_CREAT then Some (<[p := []]> f) else None
    end;
  fs_read p off n f := let bytes := slice off n (default [] (f !! p)) in (zlen bytes, bytes);
  fs_write p off bytes f := (zlen bytes, <[p := splice nul off bytes (default [] (f !! p))]> f);
  fs_create_directory _ f := inr f;
  fs_remove_all p f := inr (delete p f);
  fs_entries _ f := inr (map_to_list f).*1;
}.

#[global] Instance files_ref_laws : FileSystemLaws (gmap string (list ascii)).
Proof.
  refine {| fs_serves := fun _ _ => True; fs_view := fun f => f |}.
  - intros p flags f _ Hf. cbn. destruct (f !! p) as [v|] eqn:E.
    + exists f. cbn. by rewrite insert_id.
    + destruct Hf as [Hf|[v Hv]]; [|done]. exists (<[p := []]> f). unfold has_mode. by rewrite Hf.
  - intros p off n f v _ E Ho Hn. eexists. split; [done|]. rewrite E. cbn. unfold slice, zlen.
    rewrite length_take. lia.
  - intros p off bytes f v _ E Ho Hn. eexists. split; [done|]. split; [done|]. by rewrite E.
Defined.

Section clients.
Context {F R : Type} `{FileSystem F} `{RedisService R}.

(** The mounted file system, Redis, and the files of results. *)
Record BWorld := mkBWorld { b_files : F; b_redis : R; b_results : gmap (list ascii) (list ascii) }.

Definition set_files_of (f : F) (w : BWorld) : BWorld := mkBWorld f (b_redis w) (b_results w).
Definition set_redis_of (r : R) (w : BWorld) : BWorld := mkBWorld (b_files w) r (b_results w).
Definition set_results_of (s : gmap (list ascii) (list ascii)) (w : BWorld) : BWorld :=
  mkBWorld (b_files w) (b_redis w) s.

Definition from_sum {A} (o : exn + A) : outcome A :=
  match o with inl e => Throw e | inr a => Ok a end.

(** ** Key-value stores *)

Record KVS := mkKVS {
  SetKey : string -> list ascii -> ST BWorld unit;
  HasKey : string -> ST BWorld bool;
  GetKey : string -> ST BWorld (list ascii);
  RemoveKey : string -> ST BWorld unit;
}.

(** A value that is not there is taken from an empty optional. *)
Definition RedisContext : KVS := mkKVS
  (fun key value w =>
     match redis_set key value (b_redis w) with
     | inl e => (Throw e, w) | inr (r, _) => (Ok (), set_redis_of r w) end)
  (fun key w =>
     match redis_get key (b_redis w) with
     | inl e => (Throw e, w) | inr check => (Ok (bool_decide (is_Some check)), w) end)
  (fun key w =>
     match redis_get key (b_redis w) with
     | inl e => (Throw e, w) | inr None => (Undefined NullDeref, w) | inr (Some v) => (Ok v, w) end)
  (fun key w =>
     match redis_del key (b_redis w) with
     | inl e => (Throw e, w) | inr (r, _) => (Ok (), set_redis_of r w) end).

(** Every method throws, the constructor too. *)
Definition MongoContext : KVS := mkKVS
  (fun _ _ => throw (IntException 1)) (fun _ => throw (IntException 1))
  (fun _ => throw (IntException 1)) (fun _ => throw (IntException 1)).

Inductive kv_type := KRedis | KMongo.

Definition context (t : kv_type) : KVS := match t with KRedis => RedisContext | KMongo => MongoContext end.

(** ** Files in blocks *)

Definition kBlockSize : Z := 2 ^ 20.

(** [memcpy] to [block.c_str () + rem]: the characters and the
    terminator can be written. *)
Definition memcpy_string (block : list ascii) (rem : Z) (cells : list cell) : outcome (list ascii) :=
  b ← mem_write (Some (Some <$> (block ++ [nul]))) rem cells;
  match b with Some cs => defined (take (length block) cs) | None => Ok block end.

Definition part_size (i size : Z) : Z := if i +u kBlockSize <? size then kBlockSize else size -u i.

(** The loops of [Read] and [Write]; the fuel bounds the number of blocks. *)
Fixpoint read_blocks (fuel : nat) (kv : KVS) (path : string) (buf : buffer) (size suffix rem i : Z)
    : ST BWorld buffer :=
  if i <? size then
    match fuel with
    | O => undefined NoReturn
    | S fuel =>
        block ← GetKey kv (path +:+ to_string suffix);
        cells ← lift (string_read block rem (part_size i size));
        buf ← lift (mem_write buf i cells);
        read_blocks fuel kv path buf size (suffix +u 1) 0 (i +u kBlockSize)
    end
  else mret buf.

Fixpoint write_blocks (fuel : nat) (kv : KVS) (path : string) (buf : buffer) (block : list ascii)
    (size suffix rem i : Z) : ST BWorld unit :=
  if i <? size then
    match fuel with
    | O => undefined NoReturn
    | S fuel =>
        cells ← lift (mem_read buf i (part_size i size));
        block ← lift (memcpy_string block rem cells);
        SetKey kv (path +:+ to_string suffix) block;;
        write_blocks fuel kv path buf block size (suffix +u 1) 0 (i +u kBlockSize)
    end
  else mret ().

Definition blocks_fuel (size : Z) : nat := Z.to_nat (size / kBlockSize + 1).

(** ** Files *)

(** [OrangefsFile] with the offset of its descriptor, [RedisFile], [MongoFile]. *)
Inductive File :=
| OrangefsFile (path_ : string) (offset : Z)
| BlockFile (t : kv_type) (path_ : string) (off_ : Z).

Definition open_flags (mode : Z) : Z :=
  let flags := if has_mode mode kRead && has_mode mode kWrite then O_RDWR
               else if has_mode mode kRead then O_RDONLY
               else if has_mode mode kWrite then O_WRONLY else 0 in
  let flags := if has_mode mode kCreate then Z.lor flags O_CREAT else flags in
  let flags := if has_mode mode kDirect then Z.lor flags O_DIRECT else flags in
  if has_mode mode kSync then Z.lor flags O_SYNC else flags.

Definition OrangefsFile_ctor (path : string) (mode : Z) : ST BWorld File := fun w =>
  match fs_open path (open_flags mode) (b_files w) with
  | None => (Throw (IntException 1), w)
  | Some f => (Ok (OrangefsFile path 0), set_files_of f w)
  end.

(** The file and the caller's buffer after [Read]. *)
Definition File_Read (f : File) (buf : buffer) (size : Z) : ST BWorld (File * buffer) :=
  match f with
  | OrangefsFile path pos =>
      w ← get_state;
      let '(ret, bytes) := fs_read path pos size (b_files w) in
      if i32 ret <? 0 then throw (IntException 1)
      else buf ← lift (mem_write buf 0 (Some <$> bytes)); mret (OrangefsFile path (pos + ret), buf)
  | BlockFile t path off =>
      buf ← read_blocks (blocks_fuel size) (context t) path buf size (off / kBlockSize) (off mod kBlockSize) 0;
      mret (BlockFile t path (off +u size), buf)
  end.

Definition File_Write (f : File) (buf : buffer) (size : Z) : ST BWorld File :=
  match f with
  | OrangefsFile path pos =>
      bytes ← lift (mem_read buf 0 size ≫= defined);
      w ← get_state;
      let '(ret, fs) := fs_write path pos bytes (b_files w) in
      put_state (set_files_of fs w);;
      if i32 ret <? 0 then throw (IntException 1) else mret (OrangefsFile path (pos + ret))
  | BlockFile t path off =>
      write_blocks (blocks_fuel size) (context t) path buf [] size (off / kBlockSize) (off mod kBlockSize) 0;;
      mret (BlockFile t path (off +u size))
  end.

(** A failed [lseek] leaves the offset. *)
Definition File_Seek (f : File) (off : Z) : File :=
  match f with
  | OrangefsFile path pos => OrangefsFile path (if lseek_fails off then pos else off)
  | BlockFile t path _ => BlockFile t path off
  end.

(** ** Clients *)

(** [OrangefsIO]; [RedisIO] and [MongoIO], with or without a context. *)
Inductive IOClient :=
| OrangefsIO (addr_ : string)
| BlockIO (t : kv_type) (connected : bool).

Definition IOClientFactory_Get (type : option IOClientType) : outcome IOClient :=
  match type with
  | Some kMongo => Ok (BlockIO KMongo false)
  | Some kOrangefs => Ok (OrangefsIO EmptyString)
  | Some kRedis => Ok (BlockIO KRedis false)
  | None => Undefined MissingReturn
  end.

(** The connection to the Redis cluster is made here or fails. *)
Definition Connect (reachable : bool) (io : IOClient) (addr : string) (port : Z) : outcome IOClient :=
  match io with
  | OrangefsIO _ => Ok (OrangefsIO addr)
  | BlockIO KRedis _ => if reachable then Ok (BlockIO KRedis true) else Throw RedisError
  | BlockIO KMongo _ => Throw (IntException 1)
  end.

(** A method of the context. *)
Definition on_context {A} (t : kv_type) (connected : bool) (m : KVS -> ST BWorld A) : ST BWorld A :=
  if connected then m (context t) else undefined NullDeref.

Definition Open (io : IOClient) (path : string) (mode : Z) : ST BWorld File :=
  match io with
  | OrangefsIO addr => OrangefsFile_ctor (addr +:+ path) mode
  | BlockIO t connected =>
      on_context t connected (fun kv =>
        found ← HasKey kv path;
        (if found : bool then mret () else SetKey kv path []);;
        mret (BlockFile t path 0))
  end.

Definition on_files (m : F -> exn + F) : ST BWorld unit := fun w =>
  match m (b_files w) with inl e => (Throw e, w) | inr f => (Ok (), set_files_of f w) end.

Definition Mkdir (io : IOClient) (path : string) : ST BWorld unit :=
  match io with
  | OrangefsIO addr => on_files (fs_create_directory (addr +:+ path))
  | BlockIO t connected => on_context t connected (fun kv => SetKey kv path [])
  end.

Definition Rmdir (io : IOClient) (path : string) : ST BWorld unit :=
  match io with
  | OrangefsIO addr => on_files (fs_remove_all (addr +:+ path))
  | BlockIO t connected => on_context t connected (fun kv => RemoveKey kv path)
  end.

Definition BenchRemove (io : IOClient) (path : string) : ST BWorld unit := Rmdir io path.

(** The directory is listed without the address of the mount. *)
Definition Ls (io : IOClient) (path : string) : ST BWorld (list string) :=
  match io with
  | OrangefsIO _ => w ← get_state; lift (from_sum (fs_entries path (b_files w)))
  | BlockIO _ _ => throw (IntException 1)
  end.

End clients.
Arguments BWorld F R : clear implicits.
Arguments KVS F R : clear implicits.
