(* ===== verification/Benchmark.v ===== *)
(** * Benchmark: benchmark/src/benchmark/benchmark.cpp

    The workloads of the benchmark on one rank, and its [main].  The time each
    rank spent is given with the other measures (BenchStats.v); the barriers
    between ranks are not modelled. *)

From S2P Require Import Prelude CText Effects Types Services Strtol CFloat Arguments.
From S2P Require Import ArgumentsSpec.
From S2P Require Import BenchArgs Rng BenchIO Ostream BenchStats.
Import Args.

Section benchmark.
Context {F R G : Type} `{FileSystem F} `{RedisService R}.
Context (default_engine : G) (seeded : Z -> G -> G) (reshaped : G -> G).
Context (sample : DistributionType -> double -> double -> G -> double * G).
Context (ms : Measures) (args : gmap (list ascii) Arg).
Context (rank nprocs : Z).
Implicit Types w : BWorld F R.

(** [std::calloc (n, 1)]. *)
Definition calloc (n : Z) : buffer := Some (replicate (Z.to_nat n) (Some nul)).

(** A function of a distribution, on its own. *)
Definition on_dist {A} (m : ST (Distribution G) A) (d : Distribution G) : outcome (A * Distribution G) :=
  match m d with
  | (Ok a, d') => Ok (a, d')
  | (Throw e, _) => Throw e | (Undefined u, _) => Undefined u | (Exit c, _) => Exit c
  end.

Definition access_pattern : outcome (option DistributionType) :=
  if has "-ap" args then n ← GetIntOpt (chars "-ap") args; Ok (distribution_of n)
  else Ok (Some kNoDist).

Definition create_dist (file_size block_size : Z) : outcome (Distribution G) :=
  access_pattern ← access_pattern;
  dist ← DistributionFactory_Get default_engine access_pattern;
  match access_pattern with
  | Some kNoDist => '(_, dist) ← on_dist (Shape_size reshaped block_size) dist; Ok dist
  | Some kUniform =>
      '(_, dist) ← on_dist (Shape_size reshaped (file_size -u block_size)) dist;
      if has "-seed" args then seed ← GetIntOpt (chars "-seed") args; Ok (Seed seeded (u64 seed) dist)
      else Ok dist
  | _ => Ok dist
  end.

(** ** prealloc *)

Definition PREALLOC_BLOCK : Z := 2 ^ 24.

Fixpoint prealloc_loop (fuel : nat) (fp : File) (buf : buffer) (file_size_per_proc i : Z)
    : ST (BWorld F R) unit :=
  if i <? file_size_per_proc then
    match fuel with
    | O => undefined NoReturn
    | S fuel =>
        let write_size := if i +u PREALLOC_BLOCK <=? file_size_per_proc then PREALLOC_BLOCK
                          else file_size_per_proc -u i in
        fp ← File_Write fp buf write_size;
        prealloc_loop fuel fp buf file_size_per_proc (i +u PREALLOC_BLOCK)
    end
  else mret ().

(** A size divided by the number of ranks. *)
Definition per_proc (n : Z) : outcome Z :=
  if u64 nprocs =? 0 then Undefined DivByZero else Ok (n / u64 nprocs).

Definition rank_path (path : list ascii) : string := of_chars (path ++ dec rank).

Definition prealloc_file (io : IOClient) (path : list ascii) (file_size : Z) : ST (BWorld F R) unit :=
  fp ← Open io (rank_path path) (Z.lor kWrite kCreate);
  file_size_per_proc ← lift (per_proc file_size);
  prealloc_loop (Z.to_nat (file_size_per_proc / PREALLOC_BLOCK + 1)) fp (calloc PREALLOC_BLOCK)
    file_size_per_proc 0.

Definition prealloc (io : IOClient) : ST (BWorld F R) unit :=
  path ← lift (GetStringOpt (chars "-path") args);
  file_size ← lift (GetSizeOpt (chars "-fs") args);
  prealloc_file io path file_size.

(** ** io_file_workload *)

(** The loops over blocks; with an empty block they do not end.  The fuel bounds
    the number of blocks. *)
Fixpoint io_write_loop (fuel : nat) (fp : File) (dist : Distribution G) (buf : buffer)
    (block_size total i : Z) : ST (BWorld F R) File :=
  if i <? total then
    match fuel with
    | O => undefined NoReturn
    | S fuel =>
        '(off, dist) ← lift (on_dist (GetSize sample) dist);
        fp ← File_Write (File_Seek fp off) buf block_size;
        io_write_loop fuel fp dist buf block_size total (i +u block_size)
    end
  else mret fp.

Fixpoint io_read_loop (fuel : nat) (fp : File) (dist : Distribution G) (buf : buffer)
    (block_size total i : Z) : ST (BWorld F R) unit :=
  if i <? total then
    match fuel with
    | O => undefined NoReturn
    | S fuel =>
        '(off, dist) ← lift (on_dist (GetSize sample) dist);
        '(fp, buf) ← File_Read (File_Seek fp off) buf block_size;
        io_read_loop fuel fp dist buf block_size total (i +u block_size)
    end
  else mret ().

(** [frac * tot_bytes / nprocs], in single precision, as a size. *)
Definition share (frac : float) (tot_bytes : Z) : outcome Z :=
  size_of_float (fdiv (fmul frac (float_of_Z tot_bytes)) (float_of_Z nprocs)).

Definition io_file (io : IOClient) (path : list ascii) (rfrac wfrac : float)
    (block_size file_size tot_bytes : Z) : ST (BWorld F R) (Z * Z) :=
  file_size_per_proc ← lift (per_proc file_size);
  let direct := if has "-direct" args then kDirect else 0 in
  fp ← Open io (rank_path path) (Z.lor (Z.lor kRead kWrite) direct);
  let buf := calloc block_size in
  dist ← lift (create_dist file_size_per_proc block_size);
  write_per_proc ← lift (share wfrac tot_bytes);
  fp ← io_write_loop (Z.to_nat (write_per_proc / block_size + 1)) fp dist buf block_size write_per_proc 0;
  dist ← lift (create_dist file_size_per_proc block_size);
  read_per_proc ← lift (share rfrac tot_bytes);
  io_read_loop (Z.to_nat (read_per_proc / block_size + 1)) fp dist buf block_size read_per_proc 0;;
  mret (read_per_proc, write_per_proc).

(** A computation on the files of results. *)
Definition on_results {A} (m : ST (gmap (list ascii) (list ascii)) A) : ST (BWorld F R) A := fun w =>
  let '(o, s) := m (b_results w) in (o, set_results_of s w).

(** [access_pattern] as the number it was given as. *)
Definition access_pattern_int : outcome Z := if has "-ap" args then GetIntOpt (chars "-ap") args else Ok 0.

Definition io_file_workload (io : IOClient) : ST (BWorld F R) unit :=
  path ← lift (GetStringOpt (chars "-path") args);
  rfrac ← lift (GetFloatOpt (chars "-rfrac") args);
  wfrac ← lift (GetFloatOpt (chars "-wfrac") args);
  block_size ← lift (GetSizeOpt (chars "-bs") args);
  file_size ← lift (GetSizeOpt (chars "-fs") args);
  tot_bytes ← lift (GetSizeOpt (chars "-tot") args);
  '(read_per_proc, write_per_proc) ← io_file io path rfrac wfrac block_size file_size tot_bytes;
  ap ← lift access_pattern_int;
  on_results (io_stats ms args rank nprocs read_per_proc write_per_proc block_size ap).

(** ** md_fs_workload *)

Definition dirstr : list ascii := chars "/md-ex" ++ dec rank.

Fixpoint make_dirs (n : nat) (io : IOClient) (newdir : list ascii) : ST (BWorld F R) (list ascii) :=
  match n with
  | O => mret newdir
  | S n => Mkdir io (of_chars (newdir ++ dirstr));; make_dirs n io (newdir ++ dirstr)
  end.

(** [for (int i = 0; i < fcnt; ++i)]. *)
Fixpoint open_files (fuel : nat) (io : IOClient) (newfile : string) (fcnt i : Z) : ST (BWorld F R) unit :=
  if u64 i <? fcnt then
    match fuel with
    | O => undefined NoReturn
    | S fuel => Open io newfile (Z.lor kWrite kCreate);; open_files fuel io newfile fcnt (i32 (i + 1))
    end
  else mret ().

Definition md_fs (io : IOClient) (fcnt depth : Z) (path : list ascii) : ST (BWorld F R) unit :=
  newdir ← make_dirs (Z.to_nat depth) io path;
  let newfile := of_chars (newdir ++ chars "/file" ++ dec rank) in
  open_files (Z.to_nat fcnt) io newfile fcnt 0;;
  if 0 <? depth then Rmdir io (of_chars (path ++ dirstr)) else mret ().

Definition md_fs_workload (io : IOClient) : ST (BWorld F R) unit :=
  md_fcnt ← lift (GetSizeOpt (chars "-md_fcnt") args);
  fcnt ← lift (per_proc md_fcnt);
  depth ← lift (GetIntOpt (chars "-md_depth") args);
  path ← lift (GetStringOpt (chars "-path") args);
  md_fs io fcnt depth path;;
  on_results (md_stats ms args rank nprocs fcnt (u64 depth)).

(** ** main *)

Definition run_workload (io : IOClient) : ST (BWorld F R) unit :=
  workload ← lift (GetIntOpt (chars "-w") args);
  match workload_of workload with
  | Some kPrealloc => prealloc io
  | Some kIoOnlyFs => io_file_workload io
  | Some kMdFs => md_fs_workload io
  | None => mret ()
  end.

Definition bench_main (reachable : bool) : ST (BWorld F R) unit :=
  storage_service ← lift (GetIntOpt (chars "-s") args);
  io ← lift (IOClientFactory_Get (service_of storage_service));
  addr ← lift (GetStringOpt (chars "-caddr") args);
  port ← lift (GetIntOpt (chars "-cport") args);
  io ← lift (Connect reachable io (of_chars addr) port);
  run_workload io.

End benchmark.

(** [main], from the command line. *)
Definition benchmark {F R G : Type} `{FileSystem F} `{RedisService R} (default_engine : G)
    (seeded : Z -> G -> G) (reshaped : G -> G)
    (sample : DistributionType -> double -> double -> G -> double * G)
    (ms : Measures) (argv : list (list ascii)) (rank nprocs : Z) (reachable : bool) : ST (BWorld F R) unit :=
  args ← lift (BenchmarkArgs argv);
  bench_main default_engine seeded reshaped sample ms args rank nprocs reachable.
