(* ===== verification/BenchSpec.v ===== *)
(** * BenchSpec: what the benchmark does

    On an accepted command line [main] reads every option it uses; MongoDB is
    never reached and a Redis file is never written; on a mounted file system
    the file is allocated, and written and read, block by block. *)

From S2P Require Import Prelude CText Effects Types Services Strtol CFloat Arguments.
From S2P Require Import ArgumentsSpec.
From S2P Require Import BenchArgs Rng BenchIO Ostream BenchStats Benchmark.
Import Args.

(** ** Command lines *)

(** What a workload is asked to do. *)
Inductive job :=
| JPrealloc (path : list ascii) (file_size : Z)
| JIo (path : list ascii) (rfrac wfrac : float) (block_size file_size tot_bytes : Z)
| JMd (path : list ascii) (md_fcnt depth : Z).

Definition job_of (w : WorkloadType) (m : gmap (list ascii) Arg) (j : job) : Prop :=
  match w, j with
  | kPrealloc, JPrealloc path n =>
      GetStringOpt (chars "-path") m = Ok path /\ GetSizeOpt (chars "-fs") m = Ok n
  | kIoOnlyFs, JIo path r wf bs fs tot =>
      GetStringOpt (chars "-path") m = Ok path /\ GetFloatOpt (chars "-rfrac") m = Ok r /\
      GetFloatOpt (chars "-wfrac") m = Ok wf /\ GetSizeOpt (chars "-bs") m = Ok bs /\
      GetSizeOpt (chars "-fs") m = Ok fs /\ GetSizeOpt (chars "-tot") m = Ok tot
  | kMdFs, JMd path n d =>
      GetStringOpt (chars "-path") m = Ok path /\ GetSizeOpt (chars "-md_fcnt") m = Ok n /\
      GetIntOpt (chars "-md_depth") m = Ok d
  | _, _ => False
  end.

Lemma workload_job w m :
  Forall (fun o => readable o.2 (chars o.1) m) (workload_options w) -> exists j, job_of w m j.
Proof.
  intros Hr. destruct w; cbn in Hr; rewrite ?Forall_cons in Hr; cbn in Hr.
  - destruct Hr as ([p Hp] & [n Hn] & _). by exists (JPrealloc p n).
  - destruct Hr as ([p Hp] & [r Hr] & [wf Hwf] & [b Hb] & [f Hf] & [t Ht] & _). by exists (JIo p r wf b f t).
  - destruct Hr as ([d Hd] & [n Hn] & [p Hp] & _). by exists (JMd p n d).
Qed.

Lemma service_of_int s : service_of (service_int s) = Some s.
Proof. by destruct s. Qed.

Lemma workload_of_int w : workload_of (workload_int w) = Some w.
Proof. by destruct w. Qed.

Definition new_client (s : IOClientType) : IOClient :=
  match s with kOrangefs => OrangefsIO EmptyString | kMongo => BlockIO KMongo false | kRedis => BlockIO KRedis false end.

Section spec.
Context {F R G : Type} `{FileSystem F} `{RedisService R}.
Context (default_engine : G) (seeded : Z -> G -> G) (reshaped : G -> G).
Context (sample : DistributionType -> double -> double -> G -> double * G).
Context (ms : Measures) (rank nprocs : Z).
Implicit Types w : BWorld F R.

Definition run_job (m : gmap (list ascii) Arg) (io : IOClient) (j : job) : ST (BWorld F R) unit :=
  match j with
  | JPrealloc path n => prealloc_file rank nprocs io path n
  | JIo path r wf bs fs tot =>
      '(rp, wp) ← io_file default_engine seeded reshaped sample m rank nprocs io path r wf bs fs tot;
      ap ← lift (access_pattern_int m);
      on_results (io_stats ms m rank nprocs rp wp bs ap)
  | JMd path n d =>
      fcnt ← lift (per_proc nprocs n);
      md_fs rank io fcnt d path;;
      on_results (md_stats ms m rank nprocs fcnt (u64 d))
  end.

Lemma lift_Ok {S A B} (o : outcome A) (a : A) (f : A -> ST S B) s : o = Ok a -> (lift o ≫= f) s = f a s.
Proof. intros ->. by apply st_bind_Ok. Qed.

Lemma run_workload_job m wl j io w :
  GetIntOpt (chars "-w") m = Ok (workload_int wl) -> job_of wl m j ->
  run_workload default_engine seeded reshaped sample ms m rank nprocs io w = run_job m io j w.
Proof.
  intros Hw Hj. unfold run_workload. rewrite (lift_Ok _ _ _ _ Hw), workload_of_int.
  destruct wl, j; try done; cbn [job_of] in Hj.
  - destruct Hj as (H1 & H2). unfold prealloc. by rewrite (lift_Ok _ _ _ _ H1), (lift_Ok _ _ _ _ H2).
  - destruct Hj as (H1 & H2 & H3 & H4 & H5 & H6). unfold io_file_workload.
    by rewrite (lift_Ok _ _ _ _ H1), (lift_Ok _ _ _ _ H2), (lift_Ok _ _ _ _ H3), (lift_Ok _ _ _ _ H4),
      (lift_Ok _ _ _ _ H5), (lift_Ok _ _ _ _ H6).
  - destruct Hj as (H1 & H2 & H3). unfold md_fs_workload. rewrite (lift_Ok _ _ _ _ H2). cbn [run_job].
    unfold lift at 1, lift at 2, mbind, st_bind. destruct (per_proc nprocs md_fcnt) as [k| | |]; try done.
    unfold lift. by rewrite H3, H1.
Qed.

(** On an accepted command line every option [main] reads has a value: it connects
    the client of the service to the address and runs the workload on the values
    given, the distribution of the accesses can be made, and the results can be
    written where [-out] says. *)
Lemma benchmark_runs argv m :
  BenchmarkArgs argv = Ok m ->
  exists s wl addr port j,
    GetIntOpt (chars "-s") m = Ok (service_int s) /\ GetStringOpt (chars "-caddr") m = Ok addr /\
    GetIntOpt (chars "-cport") m = Ok port /\ job_of wl m j /\
    (forall reachable w,
      benchmark default_engine seeded reshaped sample ms argv rank nprocs reachable w =
      (io ← lift (Connect reachable (new_client s) (of_chars addr) port); run_job m io j) w) /\
    (forall file_size block_size, exists d,
      create_dist default_engine seeded reshaped m file_size block_size = Ok d) /\
    (exists n, access_pattern_int m = Ok n) /\
    (wl <> kPrealloc -> has "-out" m = true ->
      readable kString (chars "-out") m /\ readable kString (chars "-config") m).
Proof.
  intros A. destruct (BenchmarkArgs_accepted argv m A) as (s & wl & Hs & Hw & [addr Ha] & [port Hp] & Hr & Hout).
  destruct (workload_job wl m Hr) as [j Hj].
  exists s, wl, addr, port, j. do 4 (split; [done|]). split; [|split; [|split; [|done]]].
  - intros reachable w. unfold benchmark, bench_main. rewrite (lift_Ok _ _ _ _ A), (lift_Ok _ _ _ _ Hs).
    rewrite (lift_Ok _ (new_client s)) by (rewrite service_of_int; by destruct s).
    rewrite (lift_Ok _ _ _ _ Ha), (lift_Ok _ _ _ _ Hp).
    destruct (Connect reachable (new_client s) (of_chars addr) port) as [io| | |]; [|reflexivity..].
    rewrite !(lift_Ok _ io) by done. by apply run_workload_job with wl.
  - intros file_size block_size. unfold create_dist.
    assert (access_pattern m = Ok (Some kNoDist) \/ access_pattern m = Ok (Some kUniform)) as E.
    { unfold access_pattern. destruct (has "-ap" m) eqn:Eap; [|by left].
      by destruct (accepted_ap argv m A Eap) as [E|E]; rewrite E; [left|right]. }
    destruct E as [E|E]; rewrite E;
      cbv [mbind outcome_bind DistributionFactory_Get on_dist Shape_size shape]; [by eexists|].
    destruct (has "-seed" m) eqn:Es; [|by eexists].
    destruct (accepted_seed argv m A Es) as [seed Eseed]. rewrite Eseed. by eexists.
  - unfold access_pattern_int. destruct (has "-ap" m) eqn:Eap; [|by eexists].
    destruct (accepted_ap argv m A Eap) as [E|E]; rewrite E; by eexists.
Qed.

(** C15: on an accepted command line every option [main] reads has a value: it connects
    the client of the service to the address and runs the workload on the values
    given, the distribution of the accesses can be made, and the results can be
    written where [-out] says. *)
Theorem benchmark_reads_options argv m :
  BenchmarkArgs argv = Ok m ->
  exists s wl addr port j,
    GetIntOpt (chars "-s") m = Ok (service_int s) /\ GetStringOpt (chars "-caddr") m = Ok addr /\
    GetIntOpt (chars "-cport") m = Ok port /\ job_of wl m j /\
    (forall reachable w,
      benchmark default_engine seeded reshaped sample ms argv rank nprocs reachable w =
      (io ← lift (Connect reachable (new_client s) (of_chars addr) port); run_job m io j) w) /\
    (forall file_size block_size, exists d,
      create_dist default_engine seeded reshaped m file_size block_size = Ok d) /\
    (exists n, access_pattern_int m = Ok n) /\
    (wl <> kPrealloc -> has "-out" m = true ->
      readable kString (chars "-out") m /\ readable kString (chars "-config") m).
Proof. apply benchmark_runs. Qed.

(** The benchmark of MongoDB ends with an exception before it does anything. *)
Theorem mongo_never_runs argv m reachable w :
  BenchmarkArgs argv = Ok m -> GetIntOpt (chars "-s") m = Ok (service_int kMongo) ->
  benchmark default_engine seeded reshaped sample ms argv rank nprocs reachable w = (Throw (IntException 1), w).
Proof.
  intros A Hs. destruct (benchmark_runs argv m A) as (s & wl & addr & port & j & Hs' & _ & _ & _ & E & _).
  rewrite E. assert (s = kMongo) as ->; [|done]. rewrite Hs in Hs'. by destruct s.
Qed.

(** A write of a Redis file copies its data behind an empty string: from two bytes
    on, whatever the file and its offset, it leaves the string's memory before
    anything is stored. *)
Theorem redis_write_undefined path off bytes w :
  1 < zlen bytes < 2 ^ 63 -> 0 <= off ->
  File_Write (BlockFile KRedis path off) (Some (Some <$> bytes)) (zlen bytes) w = (Undefined OutOfBounds, w).
Proof.
  intros Hn Ho. unfold File_Write, blocks_fuel. set (n := zlen bytes) in *.
  assert (0 <= n / kBlockSize) by (apply Z.div_pos; unfold kBlockSize; lia).
  rewrite Z.add_1_r, Z2Nat.inj_succ by done. cbn [write_blocks].
  destruct (Z.ltb_spec 0 n); [|lia].
  assert (1 < part_size 0 n <= n) as Hp.
  { unfold part_size, kBlockSize. unwrap. zcases; lia. }
  apply st_bind_Undefined. set (k := part_size 0 n) in *. rewrite (lift_Ok _ (slice 0 k (Some <$> bytes))).
  2: { apply mem_read_in; rewrite ?zlen_fmap; lia. }
  apply st_bind_Undefined. unfold lift, memcpy_string.
  assert (zlen (slice 0 k (Some <$> bytes)) = k) as Hk by (apply zlen_slice; rewrite ?zlen_fmap; lia).
  pose proof (Z.mod_pos_bound off kBlockSize ltac:(done)).
  unfold mem_write. rewrite Hk. cbn [app fmap list_fmap]. change (zlen [Some nul]) with 1.
  zcases; try lia; done.
Qed.

End spec.

(** ** On a mounted file system *)

Definition zeros (n : Z) : list ascii := replicate (Z.to_nat n) nul.

Lemma zlen_zeros n : 0 <= n -> zlen (zeros n) = n.
Proof. intros Hn. unfold zeros, zlen. rewrite length_replicate. lia. Qed.

Lemma zeros_app a b : 0 <= a -> 0 <= b -> zeros a ++ zeros b = zeros (a + b).
Proof. intros Ha Hb. unfold zeros. by rewrite <- replicate_add, Z2Nat.inj_add by done. Qed.

(** Zeros behind the zeros at the start of a file. *)
Lemma splice_zeros i n old :
  0 <= i -> 0 <= n -> splice nul i (zeros n) (splice nul 0 (zeros i) old) = splice nul 0 (zeros (i + n)) old.
Proof. intros Hi Hn. by rewrite <- (zlen_zeros i Hi) at 1; rewrite splice_splice, zeros_app. Qed.

Lemma splice_no_zeros old : splice nul 0 (zeros 0) old = old.
Proof. by destruct old. Qed.

(** A size rounded up to whole blocks. *)
Definition round_up (bs n : Z) : Z := (n + bs - 1) / bs * bs.

Lemma round_up_below bs n k : 0 < bs -> n <= k * bs -> round_up bs n <= k * bs.
Proof.
  intros Hb Hn. unfold round_up. apply Z.mul_le_mono_nonneg_r; [lia|].
  enough ((n + bs - 1) / bs < k + 1) by lia. apply Z.div_lt_upper_bound; nia.
Qed.

Lemma round_up_above bs n k : 0 < bs -> k * bs < n -> (k + 1) * bs <= round_up bs n.
Proof.
  intros Hb Hn. unfold round_up. apply Z.mul_le_mono_nonneg_r; [lia|].
  apply Z.div_le_lower_bound; nia.
Qed.

Section mounted.
Context {F R G : Type} `{FileSystemLaws F} `{RedisService R}.
Context (default_engine : G) (seeded : Z -> G -> G) (reshaped : G -> G).
Context (sample : DistributionType -> double -> double -> G -> double * G).
Context (rank nprocs : Z).
Implicit Types w : BWorld F R.

(** The world in which the file at [p] starts with [i] zeros. *)
Definition zeroed (p : string) (w0 : BWorld F R) (i : Z) w : Prop :=
  b_redis w = b_redis w0 /\ fs_serves p (b_files w) /\
  fs_view (b_files w) = <[p := splice nul 0 (zeros i) (default [] (fs_view (b_files w0) !! p))]> (fs_view (b_files w0)).

(** Zeros written behind them. *)
Lemma write_zeros p w0 i w n N :
  zeroed p w0 i w -> 0 <= i -> 0 < n < 2 ^ 31 -> n <= N ->
  exists w', File_Write (OrangefsFile p i) (calloc N) n w = (Ok (OrangefsFile p (i + n)), w') /\ zeroed p w0 (i + n) w'.
Proof.
  intros (Hr & Hs & Hv) Hi Hn HN. unfold File_Write, calloc.
  assert (zlen (replicate (Z.to_nat N) (Some nul)) = N) as HN' by (unfold zlen; rewrite length_replicate; lia).
  rewrite (lift_Ok _ (zeros n)).
  2: { rewrite mem_read_in by lia. unfold mbind, outcome_bind, slice. change (Z.to_nat 0) with 0%nat.
    rewrite drop_0, take_replicate, Nat.min_l by lia. rewrite <- (defined_chars (zeros n)). f_equal.
    unfold zeros. by rewrite fmap_replicate. }
  rewrite (st_bind_Ok _ _ w w w) by done. pose proof (zlen_zeros n ltac:(lia)) as Hz.
  edestruct (fs_write_serves p i (zeros n) (b_files w)) as (f & E & Sf & Vf);
    [done|by rewrite Hv, lookup_insert_eq|done|lia|].
  rewrite E, Hz. rewrite (st_bind_Ok _ _ w () (set_files_of f w)) by done. rewrite i32_small by lia.
  destruct (Z.ltb_spec n 0); [lia|]. eexists. split; [done|]. split; [done|]. split; [done|].
  cbn. by rewrite Vf, Hv, insert_insert_eq, splice_zeros by lia.
Qed.

(** Opening a file that may be created or exists changes nothing in it. *)
Lemma open_zeroed addr path mode w :
  let p := addr +:+ path in
  fs_serves p (b_files w) ->
  Z.land (open_flags mode) O_CREAT = O_CREAT \/ is_Some (fs_view (b_files w) !! p) ->
  exists w', Open (OrangefsIO addr) path mode w = (Ok (OrangefsFile p 0), w') /\ zeroed p w 0 w'.
Proof.
  cbv zeta. intros Hs Hf. unfold Open, OrangefsFile_ctor.
  destruct (fs_open_serves (addr +:+ path) (open_flags mode) (b_files w)) as (f & E & Sf & Vf); [done..|].
  rewrite E. eexists. split; [done|]. split; [done|]. split; [done|]. cbn. by rewrite Vf, splice_no_zeros.
Qed.

Lemma per_proc_ok n : 0 < nprocs < 2 ^ 31 -> per_proc nprocs n = Ok (n / nprocs).
Proof. intros Hn. unfold per_proc. rewrite u64_small by lia. by destruct (Z.eqb_spec nprocs 0); [lia|]. Qed.

Lemma prealloc_loop_zeros fuel p w0 w n i :
  zeroed p w0 i w -> 0 <= i <= n -> n < 2 ^ 63 -> n <= i + Z.of_nat fuel * PREALLOC_BLOCK ->
  exists w', prealloc_loop fuel (OrangefsFile p i) (calloc PREALLOC_BLOCK) n i w = (Ok (), w') /\ zeroed p w0 n w'.
Proof.
  unfold PREALLOC_BLOCK. revert w i. induction fuel as [|fuel IH]; intros w i Hz Hi Hn Hf; cbn [prealloc_loop];
    (destruct (Z.ltb_spec i n); [|replace n with i in * by lia; by exists w]); [lia|].
  unfold PREALLOC_BLOCK. unwrap.
  set (k := if i + 2 ^ 24 <=? n then 2 ^ 24 else n - i).
  assert (0 < k <= 2 ^ 24 /\ (k = 2 ^ 24 /\ i + k <= n \/ i + k = n)) as [Hk Hk'] by (unfold k; zcases; lia).
  clearbody k. destruct (write_zeros p w0 i w k (2 ^ 24)) as (w1 & E1 & Z1); [done|lia..|].
  rewrite (st_bind_Ok _ _ _ _ _ E1). destruct Hk' as [[-> Hk']|Hk']; [apply IH; [done|lia..]|].
  rewrite Hk' in Z1 |- *. exists w1. split; [|done].
  destruct fuel; cbn [prealloc_loop]; by destruct (Z.ltb_spec (i + 2 ^ 24) n); [lia|].
Qed.

(** The allocation of a file writes as many zeros as the rank's share of the size,
    and nothing else. *)
Theorem prealloc_file_zeros addr path file_size w :
  let p := addr +:+ rank_path rank path in
  0 < nprocs < 2 ^ 31 -> 0 <= file_size < 2 ^ 63 -> fs_serves p (b_files w) ->
  exists w', prealloc_file rank nprocs (OrangefsIO addr) path file_size w = (Ok (), w') /\
    zeroed p w (file_size / nprocs) w'.
Proof.
  cbv zeta. intros Hp Hn Hs. unfold prealloc_file.
  destruct (open_zeroed addr (rank_path rank path) (Z.lor kWrite kCreate) w Hs) as (w1 & E1 & Z1); [by left|].
  rewrite (st_bind_Ok _ _ _ _ _ E1), (lift_Ok _ _ _ _ (per_proc_ok file_size Hp)).
  assert (0 <= file_size / nprocs <= file_size) as Hq.
  { split; [apply Z.div_pos; lia|]. apply Z.div_le_upper_bound; nia. }
  apply prealloc_loop_zeros; [done|lia..|]. rewrite Z2Nat.id.
  - pose proof (Z.mul_succ_div_gt (file_size / nprocs) PREALLOC_BLOCK ltac:(done)). lia.
  - assert (0 <= file_size / nprocs / PREALLOC_BLOCK) by (apply Z.div_pos; [lia|done]). lia.
Qed.

(** ** Accesses in order *)

Lemma seek_ok p pos off : 0 <= off < 2 ^ 63 -> File_Seek (OrangefsFile p pos) off = OrangefsFile p off.
Proof.
  intros Ho. unfold File_Seek, lseek_fails. rewrite i64_small by lia. by destruct (Z.ltb_spec off 0); [lia|].
Qed.

Lemma count_next bs n g :
  on_dist (GetSize sample) (CountDistribution bs n g) = Ok (n, CountDistribution bs (n +u bs) g).
Proof. done. Qed.

Lemma io_write_loop_zeros fuel p w0 w bs n k pos g :
  zeroed p w0 (k * bs) w -> 0 <= k -> 0 < bs < 2 ^ 31 -> n + bs < 2 ^ 63 -> k * bs <= n + bs ->
  n <= (k + Z.of_nat fuel) * bs ->
  exists pos' w', io_write_loop sample fuel (OrangefsFile p pos) (CountDistribution bs (k * bs) g) (calloc bs) bs n
      (k * bs) w = (Ok (OrangefsFile p pos'), w') /\ zeroed p w0 (Z.max (k * bs) (round_up bs n)) w'.
Proof.
  revert w k pos. induction fuel as [|fuel IH]; intros w k pos Hz Hk Hb Hn Hkn Hf; cbn [io_write_loop];
    (destruct (Z.ltb_spec (k * bs) n); [|exists pos, w; split; [done|];
       rewrite Z.max_l by (apply round_up_below; lia); done]); [lia|].
  rewrite (lift_Ok _ _ _ _ (count_next bs (k * bs) g)), seek_ok by lia.
  destruct (write_zeros p w0 (k * bs) w bs bs Hz) as (w1 & E1 & Z1); [lia..|].
  rewrite (st_bind_Ok _ _ _ _ _ E1), u64_small by lia.
  replace (k * bs + bs) with ((k + 1) * bs) in * by lia.
  destruct (IH w1 (k + 1) ((k + 1) * bs)) as (pos' & w' & E' & Z'); [done|lia..|].
  exists pos', w'. split; [done|]. pose proof (round_up_above bs n k ltac:(lia) ltac:(done)).
  by rewrite Z.max_r in Z' |- * by lia.
Qed.

Lemma io_read_loop_serves fuel p w v bs n k pos g cs :
  fs_serves p (b_files w) -> fs_view (b_files w) !! p = Some v -> zlen cs = bs ->
  0 <= k -> 0 < bs < 2 ^ 31 -> n + bs < 2 ^ 63 -> n <= (k + Z.of_nat fuel) * bs -> k * bs <= n + bs ->
  io_read_loop sample fuel (OrangefsFile p pos) (CountDistribution bs (k * bs) g) (Some cs) bs n (k * bs) w = (Ok (), w).
Proof.
  intros Hs Hv. revert k pos cs. induction fuel as [|fuel IH]; intros k pos cs Hc Hk Hb Hn Hf Hkn; cbn [io_read_loop];
    (destruct (Z.ltb_spec (k * bs) n); [|done]); [lia|].
  rewrite (lift_Ok _ _ _ _ (count_next bs (k * bs) g)), seek_ok by lia.
  destruct (fs_read_serves p (k * bs) bs (b_files w) v Hs Hv) as (bytes & E & L); [lia..|].
  pose proof (zlen_nonneg bytes).
  rewrite (st_bind_Ok _ _ w (OrangefsFile p (k * bs + zlen bytes), Some (splice None 0 (Some <$> bytes) cs)) w).
  - rewrite u64_small by lia. replace (k * bs + bs) with ((k + 1) * bs) by lia.
    apply IH; [rewrite zlen_splice, zlen_fmap by done; lia|lia..].
  - unfold File_Read. rewrite (st_bind_Ok _ _ w w w) by done. rewrite E, i32_small by lia.
    destruct (Z.ltb_spec (zlen bytes) 0); [lia|].
    by rewrite (lift_Ok _ (Some (splice None 0 (Some <$> bytes) cs)))
      by (apply mem_write_in; rewrite ?zlen_fmap; lia).
Qed.

Lemma blocks_enough bs n : 0 < bs -> 0 <= n -> n <= Z.of_nat (Z.to_nat (n / bs + 1)) * bs.
Proof.
  intros Hb Hn. assert (0 <= n / bs) by (apply Z.div_pos; lia). rewrite Z2Nat.id by lia.
  pose proof (Z.mul_succ_div_gt n bs Hb). lia.
Qed.

(** C29: accesses in order on a file that exists: the writes put zeros into its
    first blocks, as many as the share of the writes, whatever size was given for
    the file, and the reads change nothing. The path serves ([fs_serves]): the file
    system carries out each access in full. *)
Theorem io_file_sequential args addr path rfrac wfrac bs file_size tot wp rp w :
  let p := addr +:+ rank_path rank path in
  0 < nprocs < 2 ^ 31 -> has "-ap" args = false -> 0 < bs < 2 ^ 31 ->
  share nprocs wfrac tot = Ok wp -> share nprocs rfrac tot = Ok rp ->
  0 <= wp < 2 ^ 62 -> 0 <= rp < 2 ^ 62 ->
  fs_serves p (b_files w) -> is_Some (fs_view (b_files w) !! p) ->
  exists w', io_file default_engine seeded reshaped sample args rank nprocs (OrangefsIO addr) path
      rfrac wfrac bs file_size tot w = (Ok (rp, wp), w') /\ zeroed p w (round_up bs wp) w'.
Proof.
  cbv zeta. intros Hp Hap Hb Hwp Hrp Hw Hr Hs Hex. unfold io_file.
  rewrite (lift_Ok _ _ _ _ (per_proc_ok file_size Hp)).
  destruct (open_zeroed addr (rank_path rank path)
    (Z.lor (Z.lor kRead kWrite) (if has "-direct" args then kDirect else 0)) w Hs) as (w1 & E1 & Z1); [by right|].
  rewrite (st_bind_Ok _ _ _ _ _ E1).
  assert (forall n, create_dist default_engine seeded reshaped args n bs = Ok (CountDistribution bs 0 default_engine)) as D.
  { intros n. unfold create_dist, access_pattern. by rewrite Hap. }
  rewrite (lift_Ok _ _ _ _ (D _)), (lift_Ok _ _ _ _ Hwp).
  pose proof (blocks_enough bs wp ltac:(lia) ltac:(lia)). pose proof (blocks_enough bs rp ltac:(lia) ltac:(lia)).
  destruct (io_write_loop_zeros (Z.to_nat (wp / bs + 1)) _ w w1 bs wp 0 0 default_engine Z1) as (pos & w2 & E2 & Z2);
    [lia..|].
  rewrite (st_bind_Ok _ _ _ _ _ E2), (lift_Ok _ _ _ _ (D _)), (lift_Ok _ _ _ _ Hrp).
  assert (0 <= round_up bs wp) by (apply Z.mul_nonneg_nonneg; [apply Z.div_pos|]; lia).
  rewrite Z.max_r in Z2 by lia. exists w2. split; [|done]. destruct Z2 as (_ & S2 & V2).
  erewrite st_bind_Ok; [done|]. eapply (io_read_loop_serves _ _ _ _ bs rp 0); [done|by rewrite V2, lookup_insert_eq| |lia..].
  unfold zlen. rewrite length_replicate. lia.
Qed.

End mounted.
