(* ===== verification/Serializers.v ===== *)
(** * Serializers: src/symbios/storage_cost_predictor/serializers.h

    Numbers in a fixed buffer, in the byte order of the machine (little-endian).
    A number that does not fit is not written or not read. *)

From S2P Require Import Prelude CText Effects Strtol CFloat.

(** ** Bytes of an integer *)

Fixpoint le_bytes (n : nat) (z : Z) : list ascii :=
  match n with
  | O => []
  | S n => ascii_of_N (Z.to_N (z mod 256)) :: le_bytes n (z / 256)
  end.

Fixpoint le_value (l : list ascii) : Z :=
  match l with
  | [] => 0
  | c :: l' => Z.of_N (N_of_ascii c) + 256 * le_value l'
  end.

Lemma length_le_bytes n z : length (le_bytes n z) = n.
Proof. revert z. induction n as [|n IH]; intros z; simpl; [done|]. by rewrite IH. Qed.

Lemma le_value_bytes n z : le_value (le_bytes n z) = z mod 256 ^ Z.of_nat n.
Proof.
  revert z. induction n as [|n IH]; intros z; [by rewrite Z.mod_1_r|]. cbn [le_bytes le_value].
  pose proof (Z.mod_pos_bound z 256 ltac:(lia)).
  rewrite IH, N_ascii_embedding, Z2N.id by lia.
  rewrite Nat2Z.inj_succ, Z.pow_succ_r, Z.rem_mul_r by lia. done.
Qed.

(** The bytes of an [int], a [size_t] and a [float]. *)
Definition int_bytes (n : Z) : list ascii := le_bytes 4 (u32 n).
Definition ulong_bytes (n : Z) : list ascii := le_bytes 8 n.
Definition float_bytes (x : float) : list ascii := le_bytes 4 (float_bits x).
Definition bytes_int (l : list ascii) : Z := i32 (le_value l).
Definition bytes_ulong (l : list ascii) : Z := le_value l.
Definition bytes_float (l : list ascii) : float := bits_float (le_value l).

Lemma bytes_int_bytes n : - 2 ^ 31 <= n < 2 ^ 31 -> bytes_int (int_bytes n) = n.
Proof.
  intros Hn. unfold bytes_int, int_bytes. rewrite le_value_bytes. change (256 ^ Z.of_nat 4) with (2 ^ 32).
  unfold u32. rewrite Z.mod_mod by lia. unfold i32, to_signed. rewrite Z.mod_mod by lia.
  fold (to_signed 32 n). by apply to_signed_small.
Qed.

Lemma bytes_ulong_bytes n : is_u64 n -> bytes_ulong (ulong_bytes n) = n.
Proof.
  intros Hn. unfold bytes_ulong, ulong_bytes. rewrite le_value_bytes. by apply Z.mod_small.
Qed.

Lemma float_bits_range x : valid_binary 24 128 x = true -> 0 <= float_bits x < 2 ^ 32.
Proof.
  destruct x as [s|s| |s m e]; intros Hv; [by destruct s|by destruct s|done|].
  cbn [valid_binary] in Hv. apply andb_prop in Hv as [Hc%Z.eqb_eq Hb%Z.leb_le].
  rewrite digits2_log2 in Hc. unfold fexp, emin in Hc.
  pose proof (Z.log2_spec (Zpos m) ltac:(lia)) as [L1 L2].
  assert (Z.log2 (Zpos m) <= 23) by lia.
  assert (Zpos m < 2 ^ 24).
  { eapply Z.lt_le_trans; [exact L2|]. apply Z.pow_le_mono_r; lia. }
  unfold float_bits. destruct s; zcases; lia.
Qed.

Lemma bytes_float_bytes x : valid_binary 24 128 x = true -> bytes_float (float_bytes x) = x.
Proof.
  intros Hx. unfold bytes_float, float_bytes. rewrite le_value_bytes. change (256 ^ Z.of_nat 4) with (2 ^ 32).
  rewrite Z.mod_small by by apply float_bits_range. by apply bits_float_bits.
Qed.

(** ** The two classes *)

Record Buf := mkBuf { data_ : buffer; buf_off_ : Z; buf_size_ : Z }.

(** Both constructors. *)
Definition new_Buf (buf_size : Z) : Buf := mkBuf (malloc buf_size) 0 buf_size.

Definition GetBuf (b : Buf) : buffer := data_ b.
Definition GetSize (b : Buf) : Z := buf_off_ b.

Definition fits (n : Z) (b : Buf) : bool := negb (buf_size_ b <? buf_off_ b +u n).

Module BinarySerializer.

(** The three writers differ in the bytes. *)
Definition write (bytes : list ascii) : ST Buf bool := fun b =>
  if fits (zlen bytes) b then
    match mem_write (data_ b) (buf_off_ b) (Some <$> bytes) with
    | Ok d => (Ok true, mkBuf d (buf_off_ b +u zlen bytes) (buf_size_ b))
    | Throw e => (Throw e, b)
    | Undefined u => (Undefined u, b)
    | Exit c => (Exit c, b)
    end
  else (Ok false, b).

Definition WriteInt (num : Z) : ST Buf bool := write (int_bytes num).
Definition WriteUlong (num : Z) : ST Buf bool := write (ulong_bytes num).
Definition WriteFloat (num : float) : ST Buf bool := write (float_bytes num).

End BinarySerializer.

Module BinaryDeserializer.

(** The bytes of the next number, when there are enough; the result refers to
    the variable the caller passes, which is not assigned otherwise. *)
Definition parse (n : Z) : ST Buf (option (list ascii)) := fun b =>
  if fits n b then
    match mem_read (data_ b) (buf_off_ b) n ≫= defined with
    | Ok bytes => (Ok (Some bytes), mkBuf (data_ b) (buf_off_ b +u n) (buf_size_ b))
    | Throw e => (Throw e, b)
    | Undefined u => (Undefined u, b)
    | Exit c => (Exit c, b)
    end
  else (Ok None, b).

Definition ParseInt : ST Buf (option Z) := r ← parse 4; mret (bytes_int <$> r).
Definition ParseUlong : ST Buf (option Z) := r ← parse 8; mret (bytes_ulong <$> r).

Section parse_float.

(** [ParseFloat] does not return its value: what happens at its end is the
    argument, [Undefined MissingReturn] by the standard, [Ok ()] for a compiler
    that lets the function return. *)
Context (missing_return : outcome unit).

Definition ParseFloat : ST Buf (option float) :=
  r ← parse 4;
  match r with
  | None => mret None
  | Some bytes => lift missing_return;; mret (Some (bytes_float bytes))
  end.

End parse_float.

End BinaryDeserializer.

(** ** Round trips *)

(** A buffer whose first bytes are written. *)
Definition holds (b : Buf) (bytes : list ascii) : Prop :=
  exists tail, data_ b = Some ((Some <$> bytes) ++ tail) /\ buf_off_ b = zlen bytes /\
    buf_size_ b = zlen bytes + zlen tail /\ buf_size_ b < 2 ^ 63.

Lemma new_Buf_holds n : 0 <= n < 2 ^ 63 -> holds (new_Buf n) [].
Proof.
  intros Hn. exists (replicate (Z.to_nat n) None). unfold new_Buf, malloc. simpl.
  split; [done|]. split; [done|]. unfold zlen. rewrite length_replicate. simpl. lia.
Qed.

Lemma write_holds b bytes new :
  holds b bytes -> zlen bytes + zlen new <= buf_size_ b -> new <> [] ->
  exists b', BinarySerializer.write new b = (Ok true, b') /\ holds b' (bytes ++ new) /\
    buf_size_ b' = buf_size_ b.
Proof.
  intros (tail & D & O & Z' & B) Hn Hne. pose proof (zlen_nonneg bytes). pose proof (zlen_nonneg new).
  unfold BinarySerializer.write, fits. rewrite O, u64_small by lia.
  destruct (Z.ltb_spec (buf_size_ b) (zlen bytes + zlen new)); [lia|]. cbn [negb]. rewrite D.
  rewrite mem_write_in by (rewrite ?zlen_fmap, ?zlen_app, ?zlen_fmap; lia).
  eexists. split; [done|]. split; [|done].
  exists (drop (length new) tail). cbn [data_ buf_off_ buf_size_].
  assert (zlen (drop (length new) tail) = zlen tail - zlen new) as Ht.
  { unfold zlen. rewrite length_drop. unfold zlen in *. lia. }
  rewrite !zlen_app, Ht. split; [|split; [done|split; lia]].
  f_equal. unfold splice. rewrite zlen_to_nat. rewrite resize_app_le by (rewrite length_fmap; lia).
  rewrite resize_all_alt by by rewrite length_fmap. rewrite fmap_app, <- app_assoc. do 2 f_equal.
  rewrite length_fmap, drop_app. rewrite drop_ge by (rewrite length_fmap; lia). simpl. f_equal.
  rewrite length_fmap. lia.
Qed.

Lemma parse_at b bytes n (off : list ascii) rest :
  data_ b = Some ((Some <$> off ++ bytes) ++ rest) -> buf_off_ b = zlen off -> n = zlen bytes ->
  0 < n -> zlen off + n <= buf_size_ b < 2 ^ 63 ->
  BinaryDeserializer.parse n b =
    (Ok (Some bytes), mkBuf (data_ b) (zlen off + n) (buf_size_ b)).
Proof.
  intros D O -> Hn Hb. pose proof (zlen_nonneg off). unfold BinaryDeserializer.parse, fits.
  rewrite O, u64_small by lia.
  destruct (Z.ltb_spec (buf_size_ b) (zlen off + zlen bytes)); [lia|]. cbn [negb]. rewrite D.
  rewrite mem_read_in; [|lia..|rewrite zlen_app, zlen_fmap, zlen_app; pose proof (zlen_nonneg rest); lia].
  rewrite slice_app_l by (rewrite ?zlen_fmap, ?zlen_app; lia). rewrite slice_fmap.
  assert (slice (zlen off) (zlen bytes) (off ++ bytes) = bytes) as ->.
  { unfold slice. rewrite !zlen_to_nat, drop_app_length, take_ge by lia. done. }
  unfold mbind, outcome_bind. rewrite defined_chars. done.
Qed.

(** ** Any sequence of numbers *)

Inductive number := NInt (n : Z) | NUlong (n : Z) | NFloat (x : float).

Definition number_ok (v : number) : Prop :=
  match v with
  | NInt n => - 2 ^ 31 <= n < 2 ^ 31
  | NUlong n => is_u64 n
  | NFloat x => valid_binary 24 128 x = true
  end.

Definition number_bytes (v : number) : list ascii :=
  match v with NInt n => int_bytes n | NUlong n => ulong_bytes n | NFloat x => float_bytes x end.

Definition write_number (v : number) : ST Buf bool :=
  match v with
  | NInt n => BinarySerializer.WriteInt n
  | NUlong n => BinarySerializer.WriteUlong n
  | NFloat x => BinarySerializer.WriteFloat x
  end.

(** A number of the same kind. *)
Definition parse_number (missing_return : outcome unit) (v : number) : ST Buf (option number) :=
  match v with
  | NInt _ => r ← BinaryDeserializer.ParseInt; mret (NInt <$> r)
  | NUlong _ => r ← BinaryDeserializer.ParseUlong; mret (NUlong <$> r)
  | NFloat _ => r ← BinaryDeserializer.ParseFloat missing_return; mret (NFloat <$> r)
  end.

Definition number_size (v : number) : Z := match v with NUlong _ => 8 | _ => 4 end.

Lemma zlen_number_bytes v : zlen (number_bytes v) = number_size v.
Proof.
  destruct v; cbn [number_bytes]; unfold zlen, int_bytes, ulong_bytes, float_bytes; by rewrite length_le_bytes.
Qed.

(** What the end of the parser of a number does: of [ParseFloat], what reaching it
    without a return does. *)
Definition parser_ends (missing_return : outcome unit) (v : number) : outcome unit :=
  match v with NFloat _ => missing_return | _ => Ok () end.

Lemma parse_number_at mr v b (off : list ascii) rest :
  number_ok v -> data_ b = Some ((Some <$> off ++ number_bytes v) ++ rest) -> buf_off_ b = zlen off ->
  zlen off + number_size v <= buf_size_ b < 2 ^ 63 ->
  parse_number mr v b =
    (_ ← parser_ends mr v; Ok (Some v), mkBuf (data_ b) (zlen off + number_size v) (buf_size_ b)).
Proof.
  intros Hv D O Hb.
  pose proof (parse_at b (number_bytes v) (number_size v) off rest D O
    (eq_sym (zlen_number_bytes v)) ltac:(by destruct v) Hb) as P.
  destruct v as [n|n|x]; cbn [parse_number number_size number_bytes number_ok parser_ends] in *.
  - unfold BinaryDeserializer.ParseInt. unfold mbind, st_bind in *. rewrite P. cbn -[int_bytes bytes_int].
    by rewrite bytes_int_bytes.
  - unfold BinaryDeserializer.ParseUlong. unfold mbind, st_bind in *. rewrite P. cbn -[ulong_bytes bytes_ulong].
    by rewrite bytes_ulong_bytes.
  - unfold BinaryDeserializer.ParseFloat. unfold mbind, st_bind in *. rewrite P. cbn -[float_bytes bytes_float].
    destruct mr as [[]| | |]; cbn -[float_bytes bytes_float]; by rewrite ?bytes_float_bytes.
Qed.

Lemma write_number_holds v b bytes :
  holds b bytes -> zlen bytes + number_size v <= buf_size_ b ->
  exists b', write_number v b = (Ok true, b') /\ holds b' (bytes ++ number_bytes v) /\
    buf_size_ b' = buf_size_ b.
Proof.
  intros Hb Hn. rewrite <- zlen_number_bytes in Hn.
  destruct (write_holds b bytes (number_bytes v) Hb Hn) as (b' & E & R); [by destruct v|].
  exists b'. split; [|done]. by destruct v.
Qed.

Lemma write_number_full v b bytes :
  holds b bytes -> buf_size_ b < zlen bytes + number_size v -> write_number v b = (Ok false, b).
Proof.
  intros (tail & D & O & Z' & B) Hn. pose proof (zlen_nonneg bytes). pose proof (zlen_nonneg tail).
  assert (0 < number_size v <= 8) by by destruct v.
  assert (BinarySerializer.write (number_bytes v) b = (Ok false, b)) as E.
  { unfold BinarySerializer.write, fits. rewrite O, zlen_number_bytes, u64_small by lia.
    by destruct (Z.ltb_spec (buf_size_ b) (zlen bytes + number_size v)); [|lia]. }
  by destruct v.
Qed.

Fixpoint total_size (l : list number) : Z :=
  match l with [] => 0 | v :: l' => number_size v + total_size l' end.

Lemma total_size_app l1 l2 : total_size (l1 ++ l2) = total_size l1 + total_size l2.
Proof. induction l1 as [|v l IH]; csimpl; lia. Qed.

Lemma zlen_numbers l : zlen (concat (number_bytes <$> l)) = total_size l.
Proof. induction l as [|v l IH]; [done|]. csimpl. rewrite zlen_app, zlen_number_bytes. lia. Qed.

Lemma numbers_size_nonneg l : 0 <= total_size l.
Proof. induction l as [|v l IH]; cbn; [lia|]. assert (0 < number_size v) by by destruct v. lia. Qed.

Definition write_numbers (l : list number) : ST Buf unit :=
  for_each (fun v => write_number v;; mret ()) l.

Definition parse_numbers (missing_return : outcome unit) (l : list number) (vs : list (option number))
    : ST Buf (list (option number)) :=
  fold_st (fun vs v => r ← parse_number missing_return v; mret (vs ++ [r])) vs l.

Definition is_float (v : number) : bool := match v with NFloat _ => true | _ => false end.

Lemma write_numbers_holds l b bytes :
  holds b bytes -> zlen bytes + total_size l <= buf_size_ b ->
  exists b', write_numbers l b = (Ok (), b') /\
    holds b' (bytes ++ concat (number_bytes <$> l)) /\ buf_size_ b' = buf_size_ b.
Proof.
  unfold write_numbers. revert b bytes.
  induction l as [|v l IH]; intros b bytes Hb Hs; cbn [for_each total_size] in *.
  - exists b. csimpl. by rewrite app_nil_r.
  - pose proof (numbers_size_nonneg l).
    destruct (write_number_holds v b bytes Hb ltac:(lia)) as (b1 & E1 & H1 & S1).
    destruct (IH b1 _ H1) as (b2 & E2 & H2 & S2).
    { rewrite zlen_app, zlen_number_bytes. lia. }
    exists b2. erewrite st_bind_Ok by (erewrite st_bind_Ok by exact E1; done).
    rewrite E2. split; [done|]. split; [|congruence]. csimpl. by rewrite app_assoc.
Qed.

(** The numbers up to the first one whose parser does not return. *)
Lemma parse_numbers_at mr l l0 vs tail n :
  Forall number_ok l -> total_size (l0 ++ l) <= n < 2 ^ 63 ->
  exists b', parse_numbers mr l vs
      (mkBuf (Some ((Some <$> concat (number_bytes <$> l0 ++ l)) ++ tail)) (total_size l0) n) =
    (_ ← (if existsb is_float l then mr else Ok ()); Ok (vs ++ (Some <$> l)), b').
Proof.
  unfold parse_numbers. revert l0 vs. induction l as [|v l IH]; intros l0 vs Hl Hn; cbn [fold_st existsb].
  { eexists. csimpl. rewrite !app_nil_r. reflexivity. }
  inversion Hl as [|? ? Hv Hl1]; subst.
  pose proof (zlen_numbers l0) as H0. pose proof (numbers_size_nonneg l).
  pose proof (total_size_app l0 (v :: l)) as Ht. cbn [total_size] in Ht.
  set (b := mkBuf _ _ _).
  assert (parse_number mr v b = (_ ← parser_ends mr v; Ok (Some v),
            mkBuf (data_ b) (total_size (l0 ++ [v])) n)) as E.
  { rewrite (parse_number_at mr v b (concat (number_bytes <$> l0)) ((Some <$> concat (number_bytes <$> l)) ++ tail));
      [|done| |done|cbn; lia].
    - rewrite total_size_app. cbn [total_size]. do 2 f_equal. lia.
    - unfold b. cbn [data_]. f_equal. rewrite fmap_app. csimpl. rewrite concat_app. csimpl.
      by rewrite !fmap_app, <- !app_assoc. }
  assert (parser_ends mr v = Ok () \/ is_float v = true /\ mr <> Ok ()) as [Ev|[Ev Hm]].
  { destruct v; [by left..|]. destruct mr as [[]| | |]; [by left|by right..]. }
  - rewrite Ev in E. erewrite st_bind_Ok by (erewrite st_bind_Ok by exact E; reflexivity). unfold b. cbn [data_].
    assert (l0 ++ v :: l = (l0 ++ [v]) ++ l) as El by by rewrite <- app_assoc.
    rewrite El in *. destruct (IH (l0 ++ [v]) (vs ++ [Some v]) Hl1 Hn) as [b' E'].
    exists b'. rewrite E', <- app_assoc.
    destruct v; cbn [is_float orb parser_ends] in *; try done. rewrite Ev. by destruct (existsb is_float l).
  - unfold mbind, st_bind. rewrite E. destruct v; try done. by destruct mr as [[]| | |]; [|eexists..].
Qed.

(** C27: what a serializer has written, a deserializer of the same bytes gives back, in
    order, where it parses no float; a [ParseFloat] ends without the return it
    owes, so reading a float back is undefined, and gives the float where an
    implementation lets the function return. *)
Theorem numbers_roundtrip missing_return l n :
  Forall number_ok l -> total_size l <= n < 2 ^ 63 ->
  exists b, write_numbers l (new_Buf n) = (Ok (), b) /\ GetSize b = total_size l /\
    let parsed := parse_numbers missing_return l [] (mkBuf (GetBuf b) 0 n) in
    (existsb is_float l = false \/ missing_return = Ok () -> parsed.1 = Ok (Some <$> l)) /\
    (existsb is_float l = true -> missing_return = Undefined MissingReturn -> parsed.1 = Undefined MissingReturn).
Proof.
  intros Hl Hn. pose proof (numbers_size_nonneg l).
  destruct (write_numbers_holds l (new_Buf n) []) as (b & E & (tail & D & O & _) & _).
  { apply new_Buf_holds. lia. }
  { rewrite zlen_nil. cbn [new_Buf buf_size_]. lia. }
  exists b. split; [exact E|]. unfold GetSize, GetBuf. rewrite O, D. split; [apply zlen_numbers|].
  destruct (parse_numbers_at missing_return l [] [] tail n Hl Hn) as [b' Eb].
  change (total_size []) with 0 in Eb. change ([] ++ l) with l in Eb.
  cbn zeta. change ([] ++ concat (number_bytes <$> l)) with (concat (number_bytes <$> l)). rewrite Eb.
  split.
  - intros [Hf| ->]; [by rewrite Hf|]. by destruct (existsb is_float l).
  - by intros -> ->.
Qed.
