(* ===== verification/DoubleBuffer.v ===== *)
(** * DoubleBuffer: src/symbios/storage_cost_predictor/double_buffer.h

    Two lists, each with a mutex, shared by the main thread and the worker of
    the cost predictor.  The three member functions are given twice: as
    functions of the lists, which is what a call does that meets no other, and
    as the steps a thread takes, interleaved with those of the others.  A step
    is one access to a mutex or to a list; [try_lock] may fail also when the
    mutex is free, as the standard allows. *)

From S2P Require Import Prelude.

(** ** Calls that meet no other *)

(** [tid] is 0 ([false]) or 1 ([true]). *)
Definition DoubleBuffer (A : Type) : Type := bool -> list A.

Definition empty_buffer {A} : DoubleBuffer A := fun _ => [].

Definition bool_upd {A} (i : bool) (x : A) (f : bool -> A) : bool -> A :=
  fun j => if Bool.eqb i j then x else f j.

Definition push {A} (tid : bool) (obj : A) (b : DoubleBuffer A) : DoubleBuffer A :=
  bool_upd tid (b tid ++ [obj]) b.

(** The loop of [pop] and [pop_sync], with [n] turns left. *)
Fixpoint pop_turns {A} (n : nat) (tid : bool) (b : DoubleBuffer A) : option A * DoubleBuffer A :=
  match n with
  | O => (None, b)
  | S n =>
      match b tid with
      | obj :: l => (Some obj, bool_upd tid l b)
      | [] => pop_turns n (negb tid) b
      end
  end.

Definition pop {A} (tid : bool) (b : DoubleBuffer A) : option A * DoubleBuffer A := pop_turns 2 tid b.
Definition pop_sync {A} (b : DoubleBuffer A) : option A * DoubleBuffer A := pop_turns 2 false b.

(** ** Threads *)

Section threads.
Context {A : Type}.

Inductive call := CPush (tid : bool) (obj : A) | CPop (tid : bool) | CPopSync.

(** Where a thread is: between calls; before the [i]-th [try_lock] of [push],
    before its final [lock], inside with the list to change, and before the
    [unlock]; before the [i]-th test of [pop], before its [lock], inside, and
    before the [unlock]; behind a [front ()] of an empty list. *)
Inductive pc :=
| Idle
| PushTry (second : bool) (tid : bool) (obj : A)
| PushLock (tid : bool) (obj : A)
| PushIn (tid : bool) (obj : A)
| PopCheck (second : bool) (tid : bool)
| PopLock (tid : bool)
| PopIn (tid : bool)
| Out (tid : bool)
| Crashed.

Definition start (c : call) : pc :=
  match c with
  | CPush tid obj => PushTry false tid obj
  | CPop tid => PopCheck false tid
  | CPopSync => PopCheck false false
  end.

Record config := mkConfig {
  locks : bool -> option nat;     (* the owner of each mutex *)
  lists : bool -> list A;
  threads : list pc;
  pushed : list A;                (* what was appended, in order *)
  popped : list A;                (* what was removed, in order *)
}.

Definition at_ (t : nat) (p : pc) (c : config) : Prop := threads c !! t = Some p.

Definition goto (t : nat) (p : pc) (c : config) : config :=
  mkConfig (locks c) (lists c) (<[t := p]> (threads c)) (pushed c) (popped c).
Definition set_lock (tid : bool) (o : option nat) (c : config) : config :=
  mkConfig (bool_upd tid o (locks c)) (lists c) (threads c) (pushed c) (popped c).
Definition append (tid : bool) (x : A) (c : config) : config :=
  mkConfig (locks c) (bool_upd tid (lists c tid ++ [x]) (lists c)) (threads c) (pushed c ++ [x]) (popped c).
Definition remove_front (tid : bool) (x : A) (l : list A) (c : config) : config :=
  mkConfig (locks c) (bool_upd tid l (lists c)) (threads c) (pushed c) (popped c ++ [x]).

(** A step of thread [t] inside a call. *)
Inductive step (t : nat) (c : config) : config -> Prop :=
| try_lock_ok i tid x :
    at_ t (PushTry i tid x) c -> locks c tid = None ->
    step t c (goto t (PushIn tid x) (set_lock tid (Some t) c))
| try_lock_fails tid x :
    at_ t (PushTry false tid x) c -> step t c (goto t (PushTry true (negb tid) x) c)
| try_lock_fails_again tid x :
    at_ t (PushTry true tid x) c -> step t c (goto t (PushLock (negb tid) x) c)
| push_lock tid x :
    at_ t (PushLock tid x) c -> locks c tid = None ->
    step t c (goto t (PushIn tid x) (set_lock tid (Some t) c))
| push_back tid x :
    at_ t (PushIn tid x) c -> step t c (goto t (Out tid) (append tid x c))
| pop_some i tid :
    at_ t (PopCheck i tid) c -> lists c tid <> [] -> step t c (goto t (PopLock tid) c)
| pop_none tid :
    at_ t (PopCheck false tid) c -> lists c tid = [] -> step t c (goto t (PopCheck true (negb tid)) c)
| pop_none_again tid :
    at_ t (PopCheck true tid) c -> lists c tid = [] -> step t c (goto t Idle c)
| pop_lock tid :
    at_ t (PopLock tid) c -> locks c tid = None ->
    step t c (goto t (PopIn tid) (set_lock tid (Some t) c))
| pop_front tid x l :
    at_ t (PopIn tid) c -> lists c tid = x :: l ->
    step t c (goto t (Out tid) (remove_front tid x l c))
| pop_front_empty tid :
    at_ t (PopIn tid) c -> lists c tid = [] -> step t c (goto t Crashed c)
| unlock tid :
    at_ t (Out tid) c -> step t c (goto t Idle (set_lock tid None c)).

(** A thread begins a call it may make. *)
Context (may : nat -> call -> Prop).

Inductive event (c : config) : config -> Prop :=
| begin t k : at_ t Idle c -> may t k -> event c (goto t (start k) c)
| continue t c' : step t c c' -> event c c'.

Definition initial (n : nat) : config :=
  mkConfig (fun _ => None) (fun _ => []) (replicate n Idle) [] [].

Definition reachable (n : nat) (c : config) : Prop := rtc event (initial n) c.

(** The steps of the calls that are under way. *)
Definition running (c c' : config) : Prop := exists t, step t c c'.

End threads.

Arguments call : clear implicits.
Arguments pc : clear implicits.
Arguments config : clear implicits.
