(* ===== verification/DoubleBufferSpec.v ===== *)
(** * DoubleBufferSpec: what concurrent calls of a DoubleBuffer do

    Mutual exclusion, no element lost or duplicated, no access to an empty list
    with one consumer, and that calls under way always come to their end. *)

From Stdlib Require Import Permutation.
From stdpp Require Import relations.
From S2P Require Import Prelude DoubleBuffer.

Lemma bool_upd_eq {A} i (x : A) f : bool_upd i x f i = x.
Proof. by destruct i. Qed.

Lemma bool_upd_ne {A} i j (x : A) f : i <> j -> bool_upd i x f j = f j.
Proof. by destruct i, j. Qed.

Section spec.
Context {A : Type}.
Implicit Types (c : config A) (p q : pc A) (x : A).

(** The mutex a thread owns at a place. *)
Definition critical (p : pc A) : option bool :=
  match p with
  | PushIn tid _ | PopIn tid | Out tid => Some tid
  | _ => None
  end.

Definition popping (p : pc A) : bool :=
  match p with PopCheck _ _ | PopLock _ | PopIn _ => true | _ => false end.

(** ** Mutexes *)

(** A mutex is owned by the thread that is inside with its list, and only by it. *)
Definition lock_ok (locks : bool -> option nat) (threads : list (pc A)) : Prop :=
  forall tid t, locks tid = Some t <-> exists p, threads !! t = Some p /\ critical p = Some tid.

Lemma lock_keep locks ths t p q :
  lock_ok locks ths -> ths !! t = Some p -> critical p = critical q -> lock_ok locks (<[t := q]> ths).
Proof.
  intros L Hp E tid t'. rewrite (L tid t'). pose proof (lookup_lt_Some _ _ _ Hp). split; intros (r & Hr & C).
  - destruct (decide (t' = t)) as [->|].
    + exists q. rewrite list_lookup_insert_eq by done. split; [done|]. congruence.
    + exists r. by rewrite list_lookup_insert_ne.
  - destruct (decide (t' = t)) as [->|].
    + exists p. rewrite list_lookup_insert_eq in Hr by done. split; [done|]. congruence.
    + exists r. by rewrite list_lookup_insert_ne in Hr.
Qed.

Lemma lock_take locks ths t p q tid :
  lock_ok locks ths -> ths !! t = Some p -> critical p = None -> locks tid = None ->
  critical q = Some tid -> lock_ok (bool_upd tid (Some t) locks) (<[t := q]> ths).
Proof.
  intros L Hp Ep Hl Eq tid' t'. pose proof (lookup_lt_Some _ _ _ Hp).
  destruct (decide (t' = t)) as [->|Ht].
  - rewrite list_lookup_insert_eq by done. split.
    + intros E. exists q. split; [done|]. destruct (decide (tid = tid')) as [<-|Hn]; [done|].
      rewrite bool_upd_ne in E by done. apply L in E as (r & Hr & C). congruence.
    + intros (r & [= <-] & C). assert (tid = tid') as <- by congruence. apply bool_upd_eq.
  - rewrite list_lookup_insert_ne by done. destruct (decide (tid = tid')) as [<-|Hn].
    + rewrite bool_upd_eq. split; [naive_solver|]. intros Hr%L. congruence.
    + rewrite bool_upd_ne by done. apply L.
Qed.

Lemma lock_release locks ths t p q tid :
  lock_ok locks ths -> ths !! t = Some p -> critical p = Some tid -> critical q = None ->
  lock_ok (bool_upd tid None locks) (<[t := q]> ths).
Proof.
  intros L Hp Ep Eq tid' t'. pose proof (lookup_lt_Some _ _ _ Hp).
  assert (locks tid = Some t) as Ht by (apply L; eauto).
  destruct (decide (tid = tid')) as [<-|Hn].
  - rewrite bool_upd_eq. split; [done|]. intros (r & Hr & C). destruct (decide (t' = t)) as [->|Hne].
    + rewrite list_lookup_insert_eq in Hr by done. congruence.
    + rewrite list_lookup_insert_ne in Hr by done.
      assert (locks tid = Some t') by (apply L; eauto). congruence.
  - rewrite bool_upd_ne by done. rewrite (L tid' t'). destruct (decide (t' = t)) as [->|Hne].
    + rewrite list_lookup_insert_eq by done. split; intros (r & Hr & C); congruence.
    + by rewrite list_lookup_insert_ne by done.
Qed.

(** ** The invariant *)

Record inv (consumer : nat) (c : config A) : Prop := mkInv {
  inv_lock : lock_ok (locks c) (threads c);
  inv_perm : pushed c ≡ₚ popped c ++ lists c false ++ lists c true;
  inv_pop : forall t p, at_ t p c -> popping p = true -> t = consumer;
  inv_nonempty : forall t tid, at_ t (PopLock tid) c \/ at_ t (PopIn tid) c -> lists c tid <> [];
  inv_crash : forall t, ~ at_ t Crashed c;
}.

(** Where the threads are after a step. *)
Lemma at_goto c t p q t' r :
  threads c !! t = Some p -> <[t := q]> (threads c) !! t' = Some r ->
  t' = t /\ r = q \/ t' <> t /\ threads c !! t' = Some r.
Proof.
  intros Hp Hr. destruct (decide (t' = t)) as [->|Hn].
  - left. rewrite list_lookup_insert_eq in Hr by by eapply lookup_lt_Some. naive_solver.
  - right. by rewrite list_lookup_insert_ne in Hr.
Qed.

(** A thread goes on without a change of the lists. *)
Lemma inv_goto k c t p q locks' :
  inv k c -> at_ t p c -> lock_ok locks' (<[t := q]> (threads c)) ->
  (popping q = true -> t = k) -> q <> Crashed ->
  (forall tid, q = PopLock tid \/ q = PopIn tid -> lists c tid <> []) ->
  inv k (mkConfig locks' (lists c) (<[t := q]> (threads c)) (pushed c) (popped c)).
Proof.
  intros [L P C N X] Hp L' Hk Hx Hn. split; cbn; [done|done|..].
  - intros t' r Hr Hr'. destruct (at_goto _ _ _ _ _ _ Hp Hr) as [[-> ->]|[_ Hr0]]; [auto|]. by eapply C.
  - intros t' tid [Hr|Hr]; destruct (at_goto _ _ _ _ _ _ Hp Hr) as [[-> E]|[_ Hr0]];
      try (apply Hn; auto; fail); eapply N; eauto.
  - intros t' Hr. destruct (at_goto _ _ _ _ _ _ Hp Hr) as [[-> E]|[_ Hr0]]; [by apply Hx|by eapply X].
Qed.

Lemma inv_append k c t tid x :
  inv k c -> at_ t (PushIn tid x) c -> inv k (goto t (Out tid) (append tid x c)).
Proof.
  intros [L P C N X] Hp. split; cbn.
  - by eapply lock_keep.
  - rewrite P. destruct tid; cbn; solve_Permutation.
  - intros t' r Hr Hr'. destruct (at_goto _ _ _ _ _ _ Hp Hr) as [[-> ->]|[_ Hr0]]; [done|]. by eapply C.
  - intros t' tid' Hr. assert (lists c tid' <> []) as Hl.
    { destruct Hr as [Hr|Hr]; destruct (at_goto _ _ _ _ _ _ Hp Hr) as [[-> E]|[_ Hr0]];
        try discriminate E; eapply N; eauto. }
    destruct (decide (tid = tid')) as [<-|]; [rewrite bool_upd_eq; by destruct (lists c tid)|].
    by rewrite bool_upd_ne.
  - intros t' Hr. destruct (at_goto _ _ _ _ _ _ Hp Hr) as [[-> E]|[_ Hr0]]; [done|by eapply X].
Qed.

Lemma inv_remove k c t tid x l :
  inv k c -> at_ t (PopIn tid) c -> lists c tid = x :: l ->
  inv k (goto t (Out tid) (remove_front tid x l c)).
Proof.
  intros [L P C N X] Hp Hl. assert (t = k) as Ht by by eapply C. split; cbn.
  - by eapply lock_keep.
  - rewrite P. destruct tid; cbn; rewrite Hl; solve_Permutation.
  - intros t' r Hr Hr'. destruct (at_goto _ _ _ _ _ _ Hp Hr) as [[-> ->]|[_ Hr0]]; [done|]. by eapply C.
  - intros t' tid' Hr. exfalso. destruct Hr as [Hr|Hr];
      destruct (at_goto _ _ _ _ _ _ Hp Hr) as [[-> E]|[Hne Hr0]]; try discriminate E;
      apply Hne; rewrite Ht; by eapply C.
  - intros t' Hr. destruct (at_goto _ _ _ _ _ _ Hp Hr) as [[-> E]|[_ Hr0]]; [done|by eapply X].
Qed.

Lemma inv_step k t c c' : inv k c -> step t c c' -> inv k c'.
Proof.
  intros I S. pose proof I as [L P C N X].
  destruct S as [i tid x H Hl|tid x H|tid x H|tid x H Hl|tid x H|i tid H Hl|tid H Hl|tid H Hl
                |tid H Hl|tid x l H Hl|tid H Hl|tid H]; unfold goto, set_lock in *; cbn.
  - by eapply inv_goto; [done|done|eapply lock_take| | |intros ? [?|?]].
  - by eapply inv_goto; [done|done|eapply lock_keep| | |intros ? [?|?]].
  - by eapply inv_goto; [done|done|eapply lock_keep| | |intros ? [?|?]].
  - by eapply inv_goto; [done|done|eapply lock_take| | |intros ? [?|?]].
  - by apply (inv_append k c t tid x).
  - eapply inv_goto; [done|done|by eapply lock_keep|intros _; by eapply C|done|].
    intros tid' [[= ->]|?]; [done|discriminate].
  - eapply inv_goto; [done|done|by eapply lock_keep|intros _; by eapply C|done|by intros ? [?|?]].
  - by eapply inv_goto; [done|done|eapply lock_keep| | |intros ? [?|?]].
  - eapply inv_goto; [done|done|by eapply lock_take|intros _; by eapply C|done|].
    intros tid' [?|[= ->]]; [discriminate|]. by eapply N; left.
  - by apply (inv_remove k c t tid x l).
  - exfalso. eapply N; [right|]; done.
  - by eapply inv_goto; [done|done|eapply lock_release| | |intros ? [?|?]].
Qed.

Lemma inv_initial k n : inv k (initial n).
Proof.
  assert (forall t p, replicate n (@Idle A) !! t = Some p -> p = Idle) as R
    by (intros t p Hp; by apply lookup_replicate in Hp as [-> _]).
  split; cbn.
  - intros tid t. split; [done|]. intros (p & Hp & C). by rewrite (R _ _ Hp) in C.
  - done.
  - intros t p Hp C. by rewrite (R _ _ Hp) in C.
  - intros t tid [Hp|Hp]; by apply R in Hp.
  - intros t Hp. by apply R in Hp.
Qed.

(** Only the consumer takes elements out. *)
Definition one_consumer (may : nat -> call A -> Prop) (k : nat) : Prop :=
  forall t, (forall tid, may t (CPop tid) -> t = k) /\ (may t CPopSync -> t = k).

Section runs.
Context (may : nat -> call A -> Prop) (k n : nat).
Hypothesis Hone : one_consumer may k.

Lemma inv_event c c' : inv k c -> event may c c' -> inv k c'.
Proof.
  intros I [t b H M|t c'' S]; [|by eapply inv_step]. unfold goto. eapply inv_goto; [done|done|..].
  - eapply lock_keep; [apply I|done|by destruct b].
  - destruct (Hone t) as [H1 H2]. intros Hb. destruct b as [tid x|tid|]; [done|by eapply H1|by apply H2].
  - by destruct b.
  - intros tid [E|E]; by destruct b.
Qed.

Lemma reachable_inv c : reachable may n c -> inv k c.
Proof.
  intros R. unfold reachable in R.
  assert (forall c0, inv k c0 -> rtc (event may) c0 c -> inv k c) as G; [|eapply G, R; apply inv_initial].
  clear R. intros c0 I R. induction R as [|c0 c1 c E _ IH]; [done|]. apply IH. by eapply inv_event.
Qed.

(** C18: however the calls of the threads interleave: two threads are never inside
    with the same list, what was pushed is what was popped and what the two
    lists hold, and with one consumer no front of an empty list is taken. *)
Theorem buffer_safe c :
  reachable may n c ->
  (forall t1 t2 p1 p2 tid, at_ t1 p1 c -> at_ t2 p2 c ->
    critical p1 = Some tid -> critical p2 = Some tid -> t1 = t2) /\
  pushed c ≡ₚ popped c ++ lists c false ++ lists c true /\
  (forall t, ~ at_ t Crashed c).
Proof.
  intros I%reachable_inv. split; [|split; apply I].
  intros t1 t2 p1 p2 tid H1 H2 C1 C2. pose proof (inv_lock _ _ I tid) as L.
  assert (locks c tid = Some t1) by (apply L; eauto).
  assert (locks c tid = Some t2) by (apply L; eauto). congruence.
Qed.

(** ** Calls come to their end *)

(** The steps a thread still takes at most. *)
Definition pc_work (p : pc A) : nat :=
  match p with
  | Idle | Crashed => 0
  | Out _ => 1
  | PushIn _ _ | PopIn _ => 2
  | PushLock _ _ | PopLock _ => 3
  | PushTry true _ _ | PopCheck true _ => 4
  | PushTry false _ _ | PopCheck false _ => 5
  end.

Definition work (c : config A) : nat := sum_list_with pc_work (threads c).

Lemma work_goto (ths : list (pc A)) t p q :
  ths !! t = Some p -> (pc_work q < pc_work p)%nat ->
  (sum_list_with pc_work (<[t := q]> ths) < sum_list_with pc_work ths)%nat.
Proof.
  revert t. induction ths as [|r ths IH]; intros [|t] Hp Hq; simplify_eq/=; [lia|].
  specialize (IH t Hp Hq). lia.
Qed.

Lemma running_work c c' : running c c' -> (work c' < work c)%nat.
Proof.
  intros [t S]. destruct S; unfold work, goto; cbn; (eapply work_goto; [done|]);
    repeat match goal with i : bool |- _ => destruct i end; cbn; lia.
Qed.

(** A thread inside with a list is never held up. *)
Lemma critical_steps c t p :
  inv k c -> at_ t p c -> critical p <> None -> exists c', step t c c'.
Proof.
  intros I Hp C. destruct p as [| | |tid x| | |tid|tid|]; try done.
  - eexists. by apply push_back.
  - destruct (lists c tid) as [|x l] eqn:E.
    + exfalso. eapply (inv_nonempty _ _ I t tid); [by right|done].
    + eexists. by apply (pop_front t c tid x l).
  - eexists. by apply unlock.
Qed.

Lemma running_progress c t p : inv k c -> at_ t p c -> p <> Idle -> exists c', running c c'.
Proof.
  intros I Hp Hn.
  assert (forall tid, locks c tid <> None -> exists c', running c c') as Blocked.
  { intros tid Hl. destruct (locks c tid) as [t'|] eqn:E; [|done].
    apply (inv_lock _ _ I) in E as (p' & Hp' & C).
    destruct (critical_steps c t' p' I Hp') as [c' S]; [by rewrite C|]. by exists c', t'. }
  destruct p as [|i tid x|tid x|tid x|i tid|tid|tid|tid|].
  - done.
  - destruct i; eexists _, t; [by apply try_lock_fails_again|by apply try_lock_fails].
  - destruct (locks c tid) eqn:E; [apply (Blocked tid); congruence|]. eexists _, t. by apply push_lock.
  - destruct (critical_steps c t _ I Hp) as [c' S]; [done|]. by exists c', t.
  - destruct (lists c tid) as [|x l] eqn:E.
    + destruct i; eexists _, t; [by apply (pop_none_again t c tid)|by apply pop_none].
    + eexists _, t. apply (pop_some t c i tid); [done|congruence].
  - destruct (locks c tid) eqn:E; [apply (Blocked tid); congruence|]. eexists _, t. by apply pop_lock.
  - destruct (critical_steps c t _ I Hp) as [c' S]; [done|]. by exists c', t.
  - eexists _, t. by apply unlock.
  - by destruct (inv_crash _ _ I t).
Qed.

Lemma running_inv c c' : inv k c -> rtc running c c' -> inv k c'.
Proof. induction 2 as [|c0 c1 c2 [t S] _ IH]; [done|]. apply IH. by eapply inv_step. Qed.

(** C19: with one consumer, calls under way come to their end whatever the schedule:
    no sequence of their steps is longer than the work left, and where none is
    possible every thread is between calls; no thread waits for a mutex forever. *)
Theorem calls_complete c :
  reachable may n c ->
  (forall m c', nsteps running m c c' -> (m <= work c)%nat) /\
  (forall c', rtc running c c' -> (forall c'', ~ running c' c'') ->
    forall t p, at_ t p c' -> p = Idle).
Proof.
  intros I%reachable_inv. split.
  - intros m c' S. induction S as [|m c0 c1 c2 S _ IH]; [lia|].
    pose proof (running_work _ _ S). destruct S as [t S]. specialize (IH (inv_step _ _ _ _ I S)). lia.
  - intros c' R Hstop t p Hp. apply (running_inv _ _ I) in R. assert (p = Idle \/ p <> Idle) as [?|Hn] by (destruct p; auto).
    + done.
    + destruct (running_progress c' t p R Hp Hn) as [c'' S]. by destruct (Hstop c'').
Qed.

End runs.

End spec.

(** ** Sequential calls *)

Section alone.
Context {A : Type}.
Implicit Types (c : config A) (x : A).

(** A thread whose first [try_lock] succeeds appends what [push] appends. *)
Lemma push_alone c t tid x :
  at_ t Idle c -> locks c tid = None ->
  exists c', rtc (step t) (goto t (start (CPush tid x)) c) c' /\ at_ t Idle c' /\
    lists c' = push tid x (lists c) /\ locks c' tid = None /\ popped c' = popped c.
Proof.
  intros Ht Hl. pose proof (lookup_lt_Some _ _ _ Ht).
  eexists. split; [|split; [|split; [|split]]].
  - eapply rtc_l; [eapply (try_lock_ok t _ false tid x); [|done]|].
    { by apply list_lookup_insert_eq. }
    eapply rtc_l; [eapply (push_back t _ tid x)|].
    { apply list_lookup_insert_eq. cbn. by rewrite length_insert. }
    eapply rtc_l; [eapply (unlock t _ tid)|].
    { apply list_lookup_insert_eq. cbn. by rewrite !length_insert. }
    apply rtc_refl.
  - apply list_lookup_insert_eq. cbn. by rewrite !length_insert.
  - done.
  - cbn. apply bool_upd_eq.
  - done.
Qed.

(** A thread that takes an element from a list which no thread holds. *)
Lemma pop_run c t i tid x l :
  at_ t (PopCheck i tid) c -> lists c tid = x :: l -> locks c tid = None ->
  exists c', rtc (step t) c c' /\ at_ t Idle c' /\ lists c' = bool_upd tid l (lists c) /\
    popped c' = popped c ++ [x].
Proof.
  intros Ht E Hl. pose proof (lookup_lt_Some _ _ _ Ht).
  eexists. split; [|split; [|split]].
  - eapply rtc_l; [eapply (pop_some t _ i tid); [done|congruence]|].
    eapply rtc_l; [eapply (pop_lock t _ tid); [|done]|].
    { by apply list_lookup_insert_eq. }
    eapply rtc_l; [eapply (pop_front t _ tid x l); [|done]|].
    { apply list_lookup_insert_eq. cbn. by rewrite length_insert. }
    eapply rtc_l; [eapply (unlock t _ tid)|].
    { apply list_lookup_insert_eq. cbn. by rewrite !length_insert. }
    apply rtc_refl.
  - apply list_lookup_insert_eq. cbn. by rewrite !length_insert.
  - done.
  - done.
Qed.

(** A call of [pop] that meets no other does what the function does: the same
    lists, and the element that is returned is the one taken out. *)
Theorem pop_alone c t tid :
  at_ t Idle c -> (forall i, locks c i = None) ->
  exists c', rtc (step t) (goto t (start (CPop tid)) c) c' /\ at_ t Idle c' /\
    lists c' = (pop tid (lists c)).2 /\
    popped c' = popped c ++ match (pop tid (lists c)).1 with Some x => [x] | None => [] end.
Proof.
  intros Ht Hl. pose proof (lookup_lt_Some _ _ _ Ht).
  assert (at_ t (PopCheck false tid) (goto t (PopCheck false tid) c)) as H1 by by apply list_lookup_insert_eq.
  unfold pop. cbn [pop_turns start]. destruct (lists c tid) as [|x l] eqn:E1.
  - set (c1 := goto t (PopCheck true (negb tid)) (goto t (PopCheck false tid) c)).
    assert (step t (goto t (PopCheck false tid) c) c1) as S1 by by apply pop_none.
    assert (at_ t (PopCheck true (negb tid)) c1) as H2
      by (apply list_lookup_insert_eq; cbn; by rewrite length_insert).
    destruct (lists c (negb tid)) as [|x l] eqn:E2.
    + eexists. split; [|split; [|split]].
      * eapply rtc_l; [exact S1|]. eapply rtc_l; [by eapply (pop_none_again t c1 (negb tid))|]. apply rtc_refl.
      * apply list_lookup_insert_eq. cbn. by rewrite !length_insert.
      * done.
      * cbn. by rewrite app_nil_r.
    + destruct (pop_run c1 t true (negb tid) x l) as (c' & R & I & L & P); [done|done|apply Hl|].
      exists c'. by repeat split; [eapply rtc_l| | |].
  - destruct (pop_run (goto t (PopCheck false tid) c) t false tid x l) as (c' & R & I & L & P);
      [done|done|apply Hl|]. by exists c'.
Qed.

(** ** What the interface does not allow *)

(** A thread tests the size of a list without its mutex: the other thread can be
    about to change that list at that point. *)
Theorem size_is_raced x :
  exists c : config A, reachable (fun t k => t = 0%nat \/ k = CPop true) 2 c /\
    at_ 0 (PushIn false x) c /\ at_ 1 (PopCheck true false) c.
Proof.
  eexists. split; [|split].
  - eapply rtc_l; [eapply (begin _ _ 0 (CPush false x)); [done|by left]|].
    eapply rtc_l; [eapply continue, (try_lock_ok 0 _ false false x); done|].
    eapply rtc_l; [eapply (begin _ _ 1 (CPop true)); [done|by right]|].
    eapply rtc_l; [eapply continue, (pop_none 1 _ true); done|]. apply rtc_refl.
  - done.
  - done.
Qed.

(** With two consumers the front of an empty list can be taken. *)
Theorem two_consumers_crash x :
  exists c : config A, reachable (fun _ _ => True) 2 c /\ at_ 0 Crashed c.
Proof.
  eexists. split.
  - eapply rtc_l; [eapply (begin _ _ 0 (CPush false x)); done|].
    eapply rtc_l; [eapply continue, (try_lock_ok 0 _ false false x); done|].
    eapply rtc_l; [eapply continue, (push_back 0 _ false x); done|].
    eapply rtc_l; [eapply continue, (unlock 0 _ false); done|].
    eapply rtc_l; [eapply (begin _ _ 0 (CPop false)); done|].
    eapply rtc_l; [eapply continue, (pop_some 0 _ false false); done|].
    eapply rtc_l; [eapply (begin _ _ 1 (CPop false)); done|].
    eapply rtc_l; [eapply continue, (pop_some 1 _ false false); done|].
    eapply rtc_l; [eapply continue, (pop_lock 1 _ false); done|].
    eapply rtc_l; [eapply continue, (pop_front 1 _ false x []); done|].
    eapply rtc_l; [eapply continue, (unlock 1 _ false); done|].
    eapply rtc_l; [eapply continue, (pop_lock 0 _ false); done|].
    eapply rtc_l; [eapply continue, (pop_front_empty 0 _ false); done|]. apply rtc_refl.
  - done.
Qed.

End alone.
