(* ===== verification/CostModel.v ===== *)
(** * CostModel: src/symbios/storage_cost_predictor/storage_cost_predictor.h

    A linear model of the bandwidth of each storage solution ([LinRegModel]) and
    the predictor that keeps them, loads and saves their coefficients
    ([StorageCostPredictor]).  Here every operation runs alone; the two threads of
    the predictor, step by step, are in PredictorThreads, and how the buffers
    they share behave when pushes and pops overlap in DoubleBuffer.  dlib's least-squares solver and its
    random start are a parameter, as is [std::pow]. *)

From S2P Require Import Prelude CText Effects Strtol CFloat Services Serializers DoubleBuffer.

(** ** LinRegModel *)

(** LINREG_NPARAMS numbers: coefficients, or an input. *)
Record Vec := mkVec { v0 : double; v1 : double; v2 : double }.

Abbreviation CoeffArray := Vec (only parsing).

Record Observation := mkObservation { input : Vec; bandwidth : double }.

Record LinRegModel := mkLinRegModel {
  dataset_ : DoubleBuffer Observation;
  coeffs_q_ : DoubleBuffer CoeffArray;
  coeffs_ : bool -> CoeffArray;
  buffer_ : bool;
}.

(** A model in [storage_models_] is value-initialised: its coefficients are 0. *)
Definition dzero : double := S754_zero false.
Definition new_model : LinRegModel :=
  mkLinRegModel empty_buffer empty_buffer (fun _ => mkVec dzero dzero dzero) false.

(** Pops until nothing is left; the fuel bounds the number of elements. *)
Fixpoint drain {A} (fuel : nat) (pop : DoubleBuffer A -> option A * DoubleBuffer A)
    (b : DoubleBuffer A) : list A * DoubleBuffer A :=
  match fuel with
  | O => ([], b)
  | S fuel =>
      match pop b with
      | (Some x, b') => let '(l, b'') := drain fuel pop b' in (x :: l, b'')
      | (None, b') => ([], b')
      end
  end.

Definition drain_fuel {A} (b : DoubleBuffer A) : nat := S (length (b false) + length (b true)).

Section linreg.
Context (pow : double -> double -> double).

(** [dlib::solve_least_squares_lm] from the start of the given draw of [randm]:
    the residual, the data, the parameters. *)
Context (solve : (Observation -> Vec -> double) -> list Observation -> nat -> Vec).

Definition Residual (data : Observation) (params : Vec) : double :=
  let x := input data in
  let sum := dadd (dadd (dadd dzero (dmul (v0 params) (v0 x))) (dmul (v1 params) (v1 x)))
                  (dmul (v2 params) (v2 x)) in
  pow (dsub (bandwidth data) sum) (double_of_Z 2).

Definition GetWindow (m : LinRegModel) : list Observation * LinRegModel :=
  let '(l, d) := drain (drain_fuel (dataset_ m)) (pop true) (dataset_ m) in
  (l, mkLinRegModel d (coeffs_q_ m) (coeffs_ m) (buffer_ m)).

Definition average (a b : double) : double := ddiv (dadd a b) (double_of_Z 2).

(** [UpdateCoeffs (coeffs, required)]: the buffer that is not in use gets the mean
    of what it holds and the new coefficients, and is taken into use. *)
Definition UpdateCoeffs (coeffs : CoeffArray) (required : bool) (m : LinRegModel) : LinRegModel :=
  let buffer := negb (buffer_ m) in
  let old := coeffs_ m buffer in
  let new := mkVec (average (v0 old) (v0 coeffs)) (average (v1 old) (v1 coeffs))
                   (average (v2 old) (v2 coeffs)) in
  mkLinRegModel (dataset_ m)
    (if required then push true coeffs (coeffs_q_ m) else coeffs_q_ m)
    (bool_upd buffer new (coeffs_ m)) buffer.

(** The overload of three numbers, which does not save them. *)
Definition UpdateCoeffs_values (nprocs_coeff tot_read_coeff tot_write_coeff : double) : LinRegModel -> LinRegModel :=
  UpdateCoeffs (mkVec nprocs_coeff tot_read_coeff tot_write_coeff) false.

(** [Fit], with the number of draws so far. *)
Definition LinReg_Fit (m : LinRegModel) (draws : nat) : LinRegModel * nat :=
  let '(datavec, m') := GetWindow m in
  match datavec with
  | [] => (m', draws)
  | _ => (UpdateCoeffs (solve Residual datavec draws) true m', S draws)
  end.

Definition LinReg_Feedback (bw nprocs read_bytes write_bytes : double) (m : LinRegModel) : LinRegModel :=
  mkLinRegModel (push false (mkObservation (mkVec nprocs read_bytes write_bytes) bw) (dataset_ m))
    (coeffs_q_ m) (coeffs_ m) (buffer_ m).

Definition LinReg_Predict (nprocs read_bytes write_bytes : double) (m : LinRegModel) : double :=
  let c := coeffs_ m (buffer_ m) in
  dadd (dadd (dmul (v0 c) nprocs) (dmul (v1 c) read_bytes)) (dmul (v2 c) write_bytes).

(** ** StorageCostPredictor *)

Definition RECORD_SIZE : Z := 16.
Definition MB : Z := 2 ^ 20.

Record Predictor := mkPredictor {
  model_file_path_ : string;
  model_file_ : option (string * Z);   (* the open file and its position *)
  rank_ : Z;
  nprocs_ : Z;
  commit_metrics_ : bool;
  window_size_ : Z;
  window_tick_ : Z;
  storage_models_ : gmap Z LinRegModel;
  storage_configs_ : list Z;
  disk : FS;
  draws : nat;
}.

Definition buffer_size_ : Z := 2 * MB.

(** The members with their initial values. *)
Definition new_Predictor (fs : FS) : Predictor :=
  mkPredictor "" None 0 1 true 256 0 ∅ [] fs 0.

Definition set_models ms p := mkPredictor (model_file_path_ p) (model_file_ p) (rank_ p) (nprocs_ p)
  (commit_metrics_ p) (window_size_ p) (window_tick_ p) ms (storage_configs_ p) (disk p) (draws p).
Definition set_configs l p := mkPredictor (model_file_path_ p) (model_file_ p) (rank_ p) (nprocs_ p)
  (commit_metrics_ p) (window_size_ p) (window_tick_ p) (storage_models_ p) l (disk p) (draws p).
Definition set_tick n p := mkPredictor (model_file_path_ p) (model_file_ p) (rank_ p) (nprocs_ p)
  (commit_metrics_ p) (window_size_ p) n (storage_models_ p) (storage_configs_ p) (disk p) (draws p).
Definition set_model_file f fs p := mkPredictor (model_file_path_ p) f (rank_ p) (nprocs_ p)
  (commit_metrics_ p) (window_size_ p) (window_tick_ p) (storage_models_ p) (storage_configs_ p) fs (draws p).
Definition set_draws n p := mkPredictor (model_file_path_ p) (model_file_ p) (rank_ p) (nprocs_ p)
  (commit_metrics_ p) (window_size_ p) (window_tick_ p) (storage_models_ p) (storage_configs_ p) (disk p) n.
Definition set_run rank nprocs path p := mkPredictor path (model_file_ p) rank nprocs
  (commit_metrics_ p) (window_size_ p) (window_tick_ p) (storage_models_ p) (storage_configs_ p) (disk p) (draws p).

Definition SetWindowSize (n : Z) (p : Predictor) : Predictor :=
  mkPredictor (model_file_path_ p) (model_file_ p) (rank_ p) (nprocs_ p) (commit_metrics_ p) n
    (window_tick_ p) (storage_models_ p) (storage_configs_ p) (disk p) (draws p).
Definition EnableMetricStorage (b : bool) (p : Predictor) : Predictor :=
  mkPredictor (model_file_path_ p) (model_file_ p) (rank_ p) (nprocs_ p) b (window_size_ p)
    (window_tick_ p) (storage_models_ p) (storage_configs_ p) (disk p) (draws p).

(** [storage_models_ [i]], which creates a model that is missing. *)
Definition model_of (i : Z) (p : Predictor) : LinRegModel := default new_model (storage_models_ p !! i).
Definition set_model (i : Z) (m : LinRegModel) (p : Predictor) : Predictor :=
  set_models (<[i := m]> (storage_models_ p)) p.

Definition modify (f : Predictor -> Predictor) : ST Predictor unit := fun p => (Ok (), f p).

(** [SaveCSV]: the bytes at the position of the file. *)
Definition SaveCSV (serial : list ascii) (file : option (string * Z)) : ST Predictor (option (string * Z)) := fun p =>
  match file with
  | None => (Throw (IntException 1), p)
  | Some (path, pos) =>
      if io_error (disk p) && (0 <? zlen serial) then (Throw (IntException 1), p)
      else (Ok (Some (path, pos + zlen serial)),
            set_model_file (model_file_ p)
              (set_files (<[path := splice nul pos serial (file_content (disk p) path)]> (files (disk p)))
                 (disk p)) p)
  end.

(** A function of a buffer, on its own. *)
Definition with_buf {A} (f : ST Buf A) (d : Buf) : ST Predictor (A * Buf) := fun p =>
  match f d with
  | (Ok a, d') => (Ok (a, d'), p)
  | (Throw e, _) => (Throw e, p)
  | (Undefined u, _) => (Undefined u, p)
  | (Exit c, _) => (Exit c, p)
  end.

(** A variable that was not assigned is not used. *)
Definition assigned {A} (o : option A) : outcome A :=
  match o with Some a => Ok a | None => Undefined UninitRead end.

Section load.
Context (missing_return : outcome unit).

Definition ParseModelRow (d : Buf) : ST Predictor Buf :=
  '(f0, d) ← with_buf (BinaryDeserializer.ParseFloat missing_return) d;
  '(f1, d) ← with_buf (BinaryDeserializer.ParseFloat missing_return) d;
  '(f2, d) ← with_buf (BinaryDeserializer.ParseFloat missing_return) d;
  '(n, d) ← with_buf BinaryDeserializer.ParseInt d;
  conf ← lift (assigned n);
  modify (fun p => if bool_decide (is_Some (storage_models_ p !! conf)) then p
                   else set_configs (storage_configs_ p ++ [conf]) p);;
  nprocs_coeff ← lift (assigned f0);
  tot_read_coeff ← lift (assigned f1);
  tot_write_coeff ← lift (assigned f2);
  modify (fun p =>
    set_model conf
      (UpdateCoeffs_values (double_of_float nprocs_coeff) (double_of_float tot_read_coeff)
         (double_of_float tot_write_coeff) (model_of conf p)) p);;
  mret d.

Fixpoint parse_rows (n : nat) (d : Buf) : ST Predictor Buf :=
  match n with
  | O => mret d
  | S n => d ← ParseModelRow d; parse_rows n d
  end.

(** The loop of [LoadModelCSV_part] over what is left of the file; each [fread]
    fills the buffer from its start.  The fuel bounds the number of reads. *)
Fixpoint load_loop (fuel : nat) (rest : list ascii) (d : Buf) : ST Predictor unit :=
  let bytes := slice 0 RECORD_SIZE rest in
  if zlen bytes =? 0 then mret () else
  match fuel with
  | O => undefined NoReturn
  | S fuel =>
      data ← lift (mem_write (GetBuf d) 0 (Some <$> bytes));
      d ← parse_rows (Z.to_nat (zlen bytes / RECORD_SIZE)) (mkBuf data (buf_off_ d) (buf_size_ d));
      load_loop fuel (drop (Z.to_nat RECORD_SIZE) rest) d
  end.

Definition LoadModelCSV_part (path : string) (required : bool) : ST Predictor bool := fun p =>
  if open_rdonly (disk p) path then
    (load_loop (length (file_content (disk p) path)) (file_content (disk p) path) (new_Buf buffer_size_);;
     mret true) p
  else if required then (Throw (IntException 1), p) else (Ok false, p).

(** [fopen (path, "r+")], and [fopen (path, "w")] when there is no such file. *)
Definition open_model_file : ST Predictor unit := fun p =>
  let path := model_file_path_ p +:+ to_string (rank_ p) in
  if open_rdonly (disk p) path then (Ok (), set_model_file (Some (path, 0)) (disk p) p)
  else if decide (path ∈ denied (disk p)) then (Throw (IntException 1), p)
  else (Ok (), set_model_file (Some (path, 0)) (set_files (<[path := []]> (files (disk p))) (disk p)) p).

(** The parts of the ranks from [i] on. *)
Fixpoint load_parts (n : nat) (i : Z) : ST Predictor unit :=
  match n with
  | O => mret ()
  | S n =>
      p ← get_state;
      LoadModelCSV_part (model_file_path_ p +:+ to_string i) false;;
      load_parts n (i + 1)
  end.

Definition LoadModelCSV : ST Predictor unit :=
  open_model_file;;
  p ← get_state;
  load_parts (Z.to_nat (nprocs_ p)) 0;;
  LoadModelCSV_part (model_file_path_ p) true;;
  mret ().

(** [Init], up to the start of the worker. *)
Definition Init (rank nprocs : Z) (path : string) : ST Predictor unit := fun p =>
  LoadModelCSV (set_run rank nprocs path p).

End load.

(** The records of one model: three coefficients and its number; what does not
    fit into the buffer is left out. *)
Definition write_record (conf : Z) (c : CoeffArray) : ST Buf unit :=
  BinarySerializer.WriteFloat (float_of_double (v0 c));;
  BinarySerializer.WriteFloat (float_of_double (v1 c));;
  BinarySerializer.WriteFloat (float_of_double (v2 c));;
  BinarySerializer.WriteInt conf;;
  mret ().

Fixpoint save_configs (configs : list Z) (s : Buf) : ST Predictor Buf :=
  match configs with
  | [] => mret s
  | conf :: configs' => fun p =>
      let m := model_of conf p in
      let '(l, q) := drain (drain_fuel (coeffs_q_ m)) pop_sync (coeffs_q_ m) in
      ('(_, s) ← with_buf (for_each (write_record conf) l) s;
       save_configs configs' s)
        (set_model conf (mkLinRegModel (dataset_ m) q (coeffs_ m) (buffer_ m)) p)
  end.

Definition SaveModelCSV : ST Predictor unit :=
  p ← get_state;
  s ← save_configs (storage_configs_ p) (new_Buf buffer_size_);
  bytes ← lift (mem_read (GetBuf s) 0 (GetSize s) ≫= defined);
  p ← get_state;
  f ← SaveCSV bytes (model_file_ p);
  modify (fun p => set_model_file f (disk p) p).

Definition CommitMetrics : ST Predictor unit :=
  p ← get_state;
  if commit_metrics_ p then SaveModelCSV else mret ().

Fixpoint fit_configs (configs : list Z) (p : Predictor) : Predictor :=
  match configs with
  | [] => p
  | conf :: configs' =>
      let '(m, n) := LinReg_Fit (model_of conf p) (draws p) in
      fit_configs configs' (set_draws n (set_model conf m p))
  end.

Definition Fit : ST Predictor unit := fun p => (Ok (), fit_configs (storage_configs_ p) p).

(** [Run]: the body of its loop, and what follows the loop. *)
Definition Run_turn : ST Predictor unit :=
  p ← get_state;
  if window_size_ p <=? window_tick_ p then
    Fit;; CommitMetrics;; modify (set_tick 0)
  else mret ().

Definition Run_end : ST Predictor unit :=
  p ← get_state;
  (if window_size_ p <=? window_tick_ p then Fit else mret ());;
  CommitMetrics.

Definition Feedback (bw_measured read_bytes write_bytes : double) (storage_index : Z) : ST Predictor unit := fun p =>
  let m := LinReg_Feedback bw_measured (double_of_Z (nprocs_ p)) write_bytes read_bytes (model_of storage_index p) in
  let p := set_model storage_index m p in
  (Ok (), set_tick (window_tick_ p +u 1) p).

Definition Predict (read_bytes write_bytes : double) (storage_index : Z) : ST Predictor double := fun p =>
  let m := model_of storage_index p in
  (Ok (LinReg_Predict (double_of_Z (nprocs_ p)) read_bytes write_bytes m), set_model storage_index m p).

(** [CloseCSV] of the model file: what was written stays; the pointer that is
    left, to a closed file, is not used again. *)
Definition CloseCSV : ST Predictor unit := modify (fun p => set_model_file None (disk p) p).

(** [Finalize]: the worker ends, the file is closed. *)
Definition Finalize : ST Predictor unit :=
  Run_end;;
  CloseCSV.

(** The calls of the main thread and the turns of the worker, in an order. *)
Inductive action :=
| DoFeedback (bw read_bytes write_bytes : double) (storage_index : Z)
| DoPredict (read_bytes write_bytes : double) (storage_index : Z)
| WorkerTurn.

Definition act (a : action) : ST Predictor unit :=
  match a with
  | DoFeedback bw r w i => Feedback bw r w i
  | DoPredict r w i => Predict r w i;; mret ()
  | WorkerTurn => Run_turn
  end.

End linreg.
