(* ===== verification/CostModelSpec.v ===== *)
(** * CostModelSpec: what the cost predictor learns, saves and loads *)

From S2P Require Import Prelude CText Effects Strtol CFloat Services Serializers DoubleBuffer.
From S2P Require Import CostModel.

Lemma bool_upd_same {A} i (x : A) f : bool_upd i x f i = x.
Proof. by destruct i. Qed.

Lemma bool_upd_other {A} i (x : A) f : bool_upd i x f (negb i) = f (negb i).
Proof. by destruct i. Qed.

(** ** Emptying a buffer *)

Lemma drain_pop {A} (tid : bool) fuel (b : DoubleBuffer A) :
  (length (b tid) + length (b (negb tid)) < fuel)%nat ->
  exists b', drain fuel (pop tid) b = (b tid ++ b (negb tid), b') /\ b' false = [] /\ b' true = [].
Proof.
  revert b. induction fuel as [|fuel IH]; intros b Hf; [lia|]. cbn [drain]. unfold pop at 1. cbn [pop_turns].
  destruct (b tid) as [|x l] eqn:E1.
  - destruct (b (negb tid)) as [|x l] eqn:E2.
    + exists b. by destruct tid.
    + destruct (IH (bool_upd (negb tid) l b)) as (b' & E & F).
      { rewrite bool_upd_same. destruct tid; cbn in *; rewrite E1; cbn in *; lia. }
      exists b'. rewrite E, bool_upd_same. split; [|done].
      by destruct tid; cbn in *; rewrite E1.
  - destruct (IH (bool_upd tid l b)) as (b' & E & F).
    { rewrite bool_upd_same, bool_upd_other. cbn in *. lia. }
    exists b'. by rewrite E, bool_upd_same, bool_upd_other.
Qed.

(** All elements of a buffer, those of the second list first, as [pop (1)] takes
    them, and the other way round, as [pop_sync] takes them. *)
Definition all_of {A} (b : DoubleBuffer A) : list A := b true ++ b false.
Definition all_sync {A} (b : DoubleBuffer A) : list A := b false ++ b true.

Lemma drain_all {A} (b : DoubleBuffer A) :
  exists b', drain (drain_fuel b) (pop true) b = (all_of b, b') /\ b' false = [] /\ b' true = [].
Proof. apply (drain_pop true). unfold drain_fuel. cbn. lia. Qed.

Lemma drain_all_sync {A} (b : DoubleBuffer A) :
  exists b', drain (drain_fuel b) pop_sync b = (all_sync b, b') /\ b' false = [] /\ b' true = [].
Proof. apply (drain_pop false). unfold drain_fuel. cbn. lia. Qed.

Section spec.
Context (pow : double -> double -> double)
  (solve : (Observation -> Vec -> double) -> list Observation -> nat -> Vec).
Implicit Types (m : LinRegModel) (p : Predictor).

(** ** Learning *)

(** The model's value at an input. *)
Definition eval (c x : Vec) : double :=
  dadd (dadd (dmul (v0 c) (v0 x)) (dmul (v1 c) (v1 x))) (dmul (v2 c) (v2 x)).

(** The observations a list of measurements gives: bandwidth, processes, bytes. *)
Definition observe (f : double * double * double * double) : Observation :=
  let '(bw, n, r, w) := f in mkObservation (mkVec n r w) bw.

Lemma feedback_all l m :
  let m' := foldl (fun m f => let '(bw, n, r, w) := f in LinReg_Feedback bw n r w m) m l in
  dataset_ m' false = dataset_ m false ++ (observe <$> l) /\ dataset_ m' true = dataset_ m true /\
  coeffs_q_ m' = coeffs_q_ m /\ coeffs_ m' = coeffs_ m /\ buffer_ m' = buffer_ m.
Proof.
  revert m. induction l as [|[[[bw n] r] w] l IH]; intros m; cbn [foldl]; [csimpl; by rewrite app_nil_r|].
  destruct (IH (LinReg_Feedback bw n r w m)) as (D0 & D1 & Q & C & B).
  rewrite D0, D1, Q, C, B. cbn. by rewrite <- app_assoc.
Qed.

(** C24: A fit gives the solver all measurements since the last one, in their order,
    and leaves none; the model moves to its other coefficients, the mean of what
    they were and the solution, and the solution is queued for saving. *)
Theorem fit_window l m n :
  all_of (dataset_ m) = [] -> l <> [] ->
  let m1 := foldl (fun m f => let '(bw, n, r, w) := f in LinReg_Feedback bw n r w m) m l in
  let c := solve (Residual pow) (observe <$> l) n in
  let old := coeffs_ m (negb (buffer_ m)) in
  exists m', LinReg_Fit pow solve m1 n = (m', S n) /\
    all_of (dataset_ m') = [] /\ all_sync (coeffs_q_ m') = all_sync (coeffs_q_ m) ++ [c] /\
    buffer_ m' = negb (buffer_ m) /\
    coeffs_ m' (buffer_ m') =
      mkVec (average (v0 old) (v0 c)) (average (v1 old) (v1 c)) (average (v2 old) (v2 c)) /\
    coeffs_ m' (negb (buffer_ m')) = coeffs_ m (buffer_ m).
Proof.
  intros He Hl. cbv zeta. destruct (feedback_all l m) as (D0 & D1 & Q & C & B).
  set (m1 := foldl _ m l) in *. apply app_eq_nil in He as [He1 He0].
  destruct (drain_all (dataset_ m1)) as (d & E & F0 & F1).
  unfold all_of in E. rewrite D0, D1, He1, He0 in E. cbn [app] in E.
  unfold LinReg_Fit, GetWindow. rewrite E. destruct (observe <$> l) as [|o os] eqn:Eo.
  { by apply fmap_nil_inv in Eo. }
  eexists. split; [reflexivity|]. unfold UpdateCoeffs, push. cbn.
  unfold all_of, all_sync. rewrite F0, F1, B, C, Q. split; [done|]. split.
  { cbn. by rewrite app_assoc. }
  split; [done|]. split; [by rewrite bool_upd_same|]. by destruct (buffer_ m).
Qed.

(** [Feedback] records the bytes read and written in the other order than
    [Predict] uses them: the input of a measurement is the one of a prediction
    with the two exchanged. *)
Theorem feedback_exchanges bw read_bytes write_bytes i p :
  (exists p', Feedback bw read_bytes write_bytes i p = (Ok (), p') /\
    dataset_ (model_of i p') false = dataset_ (model_of i p) false ++
      [mkObservation (mkVec (double_of_Z (nprocs_ p)) write_bytes read_bytes) bw]) /\
  (Predict read_bytes write_bytes i p).1 =
    Ok (eval (coeffs_ (model_of i p) (buffer_ (model_of i p)))
             (mkVec (double_of_Z (nprocs_ p)) read_bytes write_bytes)).
Proof.
  split; [|done]. eexists. split; [done|]. unfold model_of. cbn. by rewrite lookup_insert_eq.
Qed.

(** ** Storage solutions without a configuration *)

Lemma fit_configs_other configs i p :
  i ∉ configs -> model_of i (fit_configs pow solve configs p) = model_of i p.
Proof.
  revert p. induction configs as [|k configs IH]; intros p Hi; cbn [fit_configs]; [done|].
  apply not_elem_of_cons in Hi as [Hk Hi]. destruct (LinReg_Fit pow solve (model_of k p) (draws p)) as [m n].
  rewrite IH by done. unfold model_of. cbn. by rewrite lookup_insert_ne by congruence.
Qed.

Lemma fit_configs_configs configs p :
  storage_configs_ (fit_configs pow solve configs p) = storage_configs_ p.
Proof.
  revert p. induction configs as [|k configs IH]; intros p; cbn [fit_configs]; [done|].
  destruct (LinReg_Fit pow solve (model_of k p) (draws p)) as [m n]. by rewrite IH.
Qed.

(** What an operation leaves of a model outside the configuration. *)
Definition untouched (i : Z) (p p' : Predictor) : Prop :=
  storage_configs_ p' = storage_configs_ p /\
  coeffs_ (model_of i p') = coeffs_ (model_of i p) /\ buffer_ (model_of i p') = buffer_ (model_of i p).

#[global] Instance untouched_preorder i : PreOrder (untouched i).
Proof.
  split; [by intros p|]. intros p q r (A1 & B1 & C1) (A2 & B2 & C2). unfold untouched. by rewrite A2, B2, C2.
Qed.

Lemma set_model_coeffs i k m p :
  coeffs_ m = coeffs_ (model_of k p) -> buffer_ m = buffer_ (model_of k p) -> untouched i p (set_model k m p).
Proof.
  intros Hc Hb. split; [done|]. unfold model_of in *. cbn. destruct (decide (i = k)) as [->|].
  - by rewrite lookup_insert_eq.
  - by rewrite lookup_insert_ne.
Qed.

Lemma with_buf_state {B} (f : ST Buf B) d p : (with_buf f d p).2 = p.
Proof. unfold with_buf. by destruct (f d) as [[| | |] ?]. Qed.

Lemma save_configs_untouched i configs s p : untouched i p (save_configs configs s p).2.
Proof.
  revert s p. induction configs as [|k configs IH]; intros s p; cbn [save_configs]; [done|].
  destruct (drain _ _ _) as [l q]. set (p1 := set_model _ _ p).
  assert (untouched i p p1) as H1 by by apply set_model_coeffs.
  unfold mbind, st_bind. pose proof (with_buf_state (for_each (write_record k) l) s p1) as W.
  destruct (with_buf _ s p1) as [[[u s1]| | |] p2]; cbn [snd] in W; subst p2; try done.
  etransitivity; [exact H1|apply IH].
Qed.

Lemma CommitMetrics_untouched i p p' : CommitMetrics p = (Ok (), p') -> untouched i p p'.
Proof.
  unfold CommitMetrics, SaveModelCSV, get_state. unfold mbind, st_bind, mret, st_ret, lift, modify.
  destruct (commit_metrics_ p); [|by intros [= <-]].
  pose proof (save_configs_untouched i (storage_configs_ p) (new_Buf buffer_size_) p) as H.
  destruct (save_configs _ _ p) as [[s| | |] p1]; try done. cbn [snd] in H.
  destruct (outcome_bind _ _ defined _) as [bytes| | |]; try done.
  unfold SaveCSV. destruct (model_file_ p1) as [[path pos]|]; [|discriminate].
  destruct (io_error (disk p1) && _); [discriminate|]. intros [= <-]. destruct H as (A1 & B1 & C1). done.
Qed.

Lemma Run_turn_untouched i p p' :
  i ∉ storage_configs_ p -> Run_turn pow solve p = (Ok (), p') -> untouched i p p'.
Proof.
  intros Hi. unfold Run_turn, get_state, Fit. unfold mbind, st_bind at 1. cbn beta.
  destruct (window_size_ p <=? window_tick_ p); [|by intros [= <-]].
  unfold st_bind at 1. cbn beta.
  set (p1 := fit_configs pow solve (storage_configs_ p) p). unfold st_bind.
  destruct (CommitMetrics p1) as [[[]| | |] p2] eqn:E; try done. intros [= <-].
  assert (untouched i p p1) as H1.
  { unfold p1, untouched. by rewrite fit_configs_configs, fit_configs_other. }
  apply (CommitMetrics_untouched i) in E. etransitivity; [exact H1|]. by destruct E.
Qed.

(** A storage solution that no model file names is never fitted, however much
    feedback it gets: its predictions stay those of its initial coefficients. *)
Theorem unconfigured_never_fitted l i p p' :
  i ∉ storage_configs_ p -> for_each (act pow solve) l p = (Ok (), p') -> untouched i p p'.
Proof.
  revert p. induction l as [|a l IH]; intros p Hi E; cbn [for_each] in E; [by injection E as <-|].
  unfold mbind, st_bind in E. destruct (act pow solve a p) as [[[]| | |] p1] eqn:E1; try done.
  assert (untouched i p p1) as H1.
  { destruct a as [bw r w k|r w k|]; cbn [act] in E1.
    - injection E1 as <-. destruct (set_model_coeffs i k
        (LinReg_Feedback bw (double_of_Z (nprocs_ p)) w r (model_of k p)) p) as (A1 & B1 & C1); done.
    - unfold mbind, st_bind in E1. cbn in E1. injection E1 as <-. by apply set_model_coeffs.
    - by apply Run_turn_untouched. }
  etransitivity; [exact H1|]. apply IH; [|done]. by destruct H1 as [-> _].
Qed.

(** ** Saving *)

(** The record of a solution and its coefficients, in single precision. *)
Definition record (conf : Z) (c : Vec) : list number :=
  [NFloat (float_of_double (v0 c)); NFloat (float_of_double (v1 c)); NFloat (float_of_double (v2 c)); NInt conf].

Definition record_bytes (conf : Z) (c : Vec) : list ascii := concat (number_bytes <$> record conf c).

Lemma zlen_record_bytes conf c : zlen (record_bytes conf c) = RECORD_SIZE.
Proof. unfold record_bytes. by rewrite zlen_numbers. Qed.

Lemma write_record_holds conf c b bytes :
  holds b bytes -> zlen bytes + RECORD_SIZE <= buf_size_ b ->
  exists b', write_record conf c b = (Ok (), b') /\ holds b' (bytes ++ record_bytes conf c) /\
    buf_size_ b' = buf_size_ b.
Proof.
  unfold RECORD_SIZE. intros H0 Hs.
  destruct (write_number_holds (NFloat (float_of_double (v0 c))) b bytes H0) as (b1 & E1 & H1 & S1); [cbn; lia|].
  destruct (write_number_holds (NFloat (float_of_double (v1 c))) b1 _ H1) as (b2 & E2 & H2 & S2).
  { rewrite zlen_app, zlen_number_bytes. cbn [number_size]. lia. }
  destruct (write_number_holds (NFloat (float_of_double (v2 c))) b2 _ H2) as (b3 & E3 & H3 & S3).
  { rewrite !zlen_app, !zlen_number_bytes. cbn [number_size]. lia. }
  destruct (write_number_holds (NInt conf) b3 _ H3) as (b4 & E4 & H4 & S4).
  { rewrite !zlen_app, !zlen_number_bytes. cbn [number_size]. lia. }
  exists b4. split; [|split; [|congruence]].
  - unfold write_record. rewrite (st_bind_Ok _ _ _ _ _ E1), (st_bind_Ok _ _ _ _ _ E2).
    by rewrite (st_bind_Ok _ _ _ _ _ E3), (st_bind_Ok _ _ _ _ _ E4).
  - unfold record_bytes, record. cbn [fmap list_fmap concat]. rewrite app_nil_r, !app_assoc. exact H4.
Qed.

Definition model_records (conf : Z) (l : list Vec) : list ascii := concat (record_bytes conf <$> l).

Lemma zlen_model_records conf l : zlen (model_records conf l) = RECORD_SIZE * zlen l.
Proof.
  induction l as [|c l IH]; [done|].
  change (model_records conf (c :: l)) with (record_bytes conf c ++ model_records conf l).
  rewrite zlen_app, zlen_record_bytes, IH, zlen_cons. unfold RECORD_SIZE. lia.
Qed.

Lemma write_records_holds conf l b bytes :
  holds b bytes -> zlen bytes + zlen (model_records conf l) <= buf_size_ b ->
  exists b', for_each (write_record conf) l b = (Ok (), b') /\
    holds b' (bytes ++ model_records conf l) /\ buf_size_ b' = buf_size_ b.
Proof.
  revert b bytes. induction l as [|c l IH]; intros b bytes Hb Hs; cbn [for_each].
  - exists b. unfold model_records. csimpl. by rewrite app_nil_r.
  - rewrite zlen_model_records, zlen_cons in Hs. unfold RECORD_SIZE in Hs. pose proof (zlen_nonneg l).
    destruct (write_record_holds conf c b bytes Hb) as (b1 & E1 & H1 & S1); [unfold RECORD_SIZE; lia|].
    destruct (IH b1 _ H1) as (b2 & E2 & H2 & S2).
    { rewrite zlen_app, zlen_record_bytes, zlen_model_records. unfold RECORD_SIZE. lia. }
    exists b2. rewrite (st_bind_Ok _ _ _ _ _ E1), E2. split; [done|]. split; [|congruence].
    change (model_records conf (c :: l)) with (record_bytes conf c ++ model_records conf l).
    by rewrite app_assoc.
Qed.

(** What is queued in the models of some solutions, in the order it is saved. *)
Definition queued (i : Z) (p : Predictor) : list Vec := all_sync (coeffs_q_ (model_of i p)).
Definition saved (configs : list Z) (p : Predictor) : list ascii :=
  concat ((fun i => model_records i (queued i p)) <$> configs).

Lemma with_buf_Ok {B} (f : ST Buf B) d p a d' : f d = (Ok a, d') -> with_buf f d p = (Ok (a, d'), p).
Proof. unfold with_buf. by intros ->. Qed.

Lemma save_configs_holds configs s p bytes :
  NoDup configs -> holds s bytes -> zlen bytes + zlen (saved configs p) <= buf_size_ s ->
  exists s' p', save_configs configs s p = (Ok s', p') /\ holds s' (bytes ++ saved configs p) /\
    model_file_ p' = model_file_ p /\ disk p' = disk p /\
    (forall i, i ∈ configs -> queued i p' = []) /\
    (forall i, i ∉ configs -> model_of i p' = model_of i p).
Proof.
  revert s p bytes. induction configs as [|k configs IH]; intros s p bytes Hd Hb Hs; cbn [save_configs].
  { exists s, p. unfold saved. csimpl. rewrite app_nil_r. repeat split; try done. by intros i ?%elem_of_nil. }
  inversion Hd as [|? ? Hk Hd']; subst.
  destruct (drain_all_sync (coeffs_q_ (model_of k p))) as (q & E & Q0 & Q1). rewrite E.
  set (p1 := set_model k _ p).
  assert (forall i, i <> k -> model_of i p1 = model_of i p) as M1.
  { intros i Hi. unfold p1, model_of. cbn. by rewrite lookup_insert_ne. }
  assert (saved configs p1 = saved configs p) as Es.
  { unfold saved. f_equal. apply list_fmap_ext. intros j i Hi%list_elem_of_lookup_2. unfold queued.
    rewrite M1; [done|]. by intros ->. }
  assert (saved (k :: configs) p = model_records k (queued k p) ++ saved configs p) as Ec by done.
  rewrite Ec, zlen_app in Hs. pose proof (zlen_nonneg (saved configs p)).
  destruct (write_records_holds k (queued k p) s bytes Hb ltac:(lia)) as (s1 & E1 & H1 & S1).
  destruct (IH s1 p1 _ Hd' H1) as (s2 & p2 & E2 & H2 & F2 & D2 & Q2 & M2).
  { rewrite zlen_app, Es. lia. }
  exists s2, p2. split; [|split; [|split; [|split; [|split]]]].
  - rewrite (st_bind_Ok _ _ _ _ _ (with_buf_Ok _ _ p1 _ _ E1)). exact E2.
  - by rewrite Ec, app_assoc, <- Es.
  - done.
  - done.
  - intros i [->|Hi]%elem_of_cons; [|by apply Q2]. unfold queued. rewrite M2 by done.
    unfold p1, model_of. cbn. rewrite lookup_insert_eq. cbn. unfold all_sync. by rewrite Q0, Q1.
  - intros i [Hi Hn]%not_elem_of_cons. by rewrite M2, M1.
Qed.

Lemma SaveModelCSV_saves p path pos :
  NoDup (storage_configs_ p) -> zlen (saved (storage_configs_ p) p) <= buffer_size_ ->
  model_file_ p = Some (path, pos) -> io_error (disk p) = false ->
  let new := saved (storage_configs_ p) p in
  exists p', SaveModelCSV p = (Ok (), p') /\
    disk p' = set_files (<[path := splice nul pos new (file_content (disk p) path)]> (files (disk p))) (disk p) /\
    model_file_ p' = Some (path, pos + zlen new) /\
    (forall i, i ∈ storage_configs_ p -> queued i p' = []).
Proof.
  intros Hd Hs Hf Hio. cbv zeta. set (new := saved (storage_configs_ p) p) in *.
  destruct (save_configs_holds (storage_configs_ p) (new_Buf buffer_size_) p []) as
    (s & p1 & E & (tail & D & O & S & B) & F1 & D1 & Q1 & _); [done| |by cbn|].
  { apply new_Buf_holds. by unfold buffer_size_, MB. }
  fold new in D, O, S. cbn [app] in D, O, S.
  assert ((mem_read (GetBuf s) 0 (GetSize s) ≫= defined) = Ok new) as R.
  { unfold GetBuf, GetSize. rewrite D, O. pose proof (zlen_nonneg new). pose proof (zlen_nonneg tail).
    rewrite mem_read_in by (rewrite ?zlen_app, ?zlen_fmap; lia).
    rewrite slice_0_app by by rewrite zlen_fmap. unfold mbind, outcome_bind. by rewrite defined_chars. }
  eexists. split; [|split; [|split]].
  - unfold SaveModelCSV. rewrite (st_bind_Ok _ _ p p p) by done.
    rewrite (st_bind_Ok _ _ _ _ _ E). rewrite (st_bind_Ok (lift _) _ p1 new p1) by (unfold lift; by rewrite R).
    rewrite (st_bind_Ok _ _ p1 p1 p1) by done.
    unfold mbind, st_bind, SaveCSV. rewrite F1, Hf, D1, Hio. cbn [andb]. reflexivity.
  - done.
  - done.
  - intros i Hi. by apply Q1.
Qed.

(** A commit writes the queued coefficients of all configured solutions, in the
    order of the configurations and of the fits, at the position of the model
    file, over what the file holds there, and leaves the queues empty. *)
Theorem commit_saves p path pos :
  commit_metrics_ p = true ->
  NoDup (storage_configs_ p) -> zlen (saved (storage_configs_ p) p) <= buffer_size_ ->
  model_file_ p = Some (path, pos) -> io_error (disk p) = false ->
  let new := saved (storage_configs_ p) p in
  exists p', CommitMetrics p = (Ok (), p') /\
    disk p' = set_files (<[path := splice nul pos new (file_content (disk p) path)]> (files (disk p))) (disk p) /\
    model_file_ p' = Some (path, pos + zlen new) /\
    (forall i, i ∈ storage_configs_ p -> queued i p' = []).
Proof.
  intros Hc Hd Hs Hf Hio. unfold CommitMetrics. rewrite (st_bind_Ok _ _ p p p) by done. rewrite Hc.
  by apply SaveModelCSV_saves.
Qed.

(** ** Loading *)

(** The parts of a record. *)
Definition row_coeffs (bytes : list ascii) : Vec :=
  mkVec (double_of_float (bytes_float (slice 0 4 bytes))) (double_of_float (bytes_float (slice 4 4 bytes)))
        (double_of_float (bytes_float (slice 8 4 bytes))).
Definition row_conf (bytes : list ascii) : Z := bytes_int (slice 12 4 bytes).

Definition add_config (i : Z) (p : Predictor) : Predictor :=
  if bool_decide (is_Some (storage_models_ p !! i)) then p else set_configs (storage_configs_ p ++ [i]) p.

(** What a record does. *)
Definition row_effect (bytes : list ascii) (p : Predictor) : Predictor :=
  let p := add_config (row_conf bytes) p in
  set_model (row_conf bytes)
    (UpdateCoeffs (row_coeffs bytes) false (model_of (row_conf bytes) p)) p.

Lemma parse_slice d (cells : list (option ascii)) bytes off n :
  data_ d = Some ((Some <$> bytes) ++ cells) -> buf_off_ d = off -> 0 <= off -> 0 < n ->
  off + n <= zlen bytes -> zlen bytes <= buf_size_ d < 2 ^ 63 ->
  BinaryDeserializer.parse n d = (Ok (Some (slice off n bytes)), mkBuf (data_ d) (off + n) (buf_size_ d)).
Proof.
  intros D O Ho Hn Hb Hs. unfold BinaryDeserializer.parse, fits. rewrite O, u64_small by lia.
  destruct (Z.ltb_spec (buf_size_ d) (off + n)); [lia|]. cbn [negb]. rewrite D.
  pose proof (zlen_nonneg cells).
  rewrite mem_read_in by (rewrite ?zlen_app, ?zlen_fmap; lia).
  rewrite slice_app_l by (rewrite ?zlen_fmap; lia). rewrite slice_fmap.
  unfold mbind, outcome_bind. by rewrite defined_chars.
Qed.

Lemma ParseModelRow_ok d cells bytes p :
  data_ d = Some ((Some <$> bytes) ++ cells) -> buf_off_ d = 0 -> zlen bytes = RECORD_SIZE ->
  RECORD_SIZE <= buf_size_ d < 2 ^ 63 ->
  ParseModelRow (Ok ()) d p = (Ok (mkBuf (data_ d) RECORD_SIZE (buf_size_ d)), row_effect bytes p).
Proof.
  unfold RECORD_SIZE. intros D O Hb Hs.
  assert (forall off, 0 <= off -> off + 4 <= 16 ->
    BinaryDeserializer.parse 4 (mkBuf (data_ d) off (buf_size_ d)) =
      (Ok (Some (slice off 4 bytes)), mkBuf (data_ d) (off + 4) (buf_size_ d))) as P.
  { intros off H1 H2. apply (parse_slice (mkBuf (data_ d) off (buf_size_ d)) cells bytes off 4); cbn; try done; lia. }
  assert (forall off, 0 <= off -> off + 4 <= 16 ->
    with_buf (BinaryDeserializer.ParseFloat (Ok ())) (mkBuf (data_ d) off (buf_size_ d)) p =
      (Ok (Some (bytes_float (slice off 4 bytes)), mkBuf (data_ d) (off + 4) (buf_size_ d)), p)) as F.
  { intros off H1 H2. apply with_buf_Ok. unfold BinaryDeserializer.ParseFloat.
    by rewrite (st_bind_Ok _ _ _ _ _ (P off H1 H2)). }
  assert (with_buf BinaryDeserializer.ParseInt (mkBuf (data_ d) 12 (buf_size_ d)) p =
    (Ok (Some (bytes_int (slice 12 4 bytes)), mkBuf (data_ d) 16 (buf_size_ d)), p)) as I.
  { apply with_buf_Ok. unfold BinaryDeserializer.ParseInt.
    by rewrite (st_bind_Ok _ _ _ _ _ (P 12 ltac:(lia) ltac:(lia))). }
  unfold ParseModelRow. destruct d as [data off size]. cbn [data_ buf_off_ buf_size_] in *. subst off.
  rewrite (st_bind_Ok _ _ _ _ _ (F 0 ltac:(lia) ltac:(lia))). cbv beta iota.
  rewrite (st_bind_Ok _ _ _ _ _ (F 4 ltac:(lia) ltac:(lia))). cbv beta iota.
  rewrite (st_bind_Ok _ _ _ _ _ (F 8 ltac:(lia) ltac:(lia))). cbv beta iota.
  rewrite (st_bind_Ok _ _ _ _ _ I). reflexivity.
Qed.

Section load.
Context (missing_return : outcome unit).

Lemma open_content p path : open_rdonly (disk p) path = true -> LoadModelCSV_part missing_return path true p =
  (load_loop missing_return (length (file_content (disk p) path)) (file_content (disk p) path)
     (new_Buf buffer_size_);; mret true) p.
Proof. unfold LoadModelCSV_part. by intros ->. Qed.

(** The buffer behind the first [fread] of a file with a whole record. *)
Lemma first_read n (bytes : list ascii) :
  zlen bytes = RECORD_SIZE -> RECORD_SIZE <= n ->
  mem_write (GetBuf (new_Buf n)) 0 (Some <$> bytes) =
    Ok (Some ((Some <$> bytes) ++ replicate (Z.to_nat (n - RECORD_SIZE)) None)).
Proof.
  intros Hb Hn. assert (length bytes = Z.to_nat RECORD_SIZE) as Hl by by rewrite <- zlen_to_nat, Hb.
  unfold GetBuf, new_Buf, malloc. cbn [data_]. rewrite mem_write_in; [|done|].
  - do 2 f_equal. unfold splice. rewrite length_fmap, Hl. change (Z.to_nat 0) with 0%nat.
    assert (forall l : list (option ascii), resize 0 None l = []) as R0 by by intros [].
    rewrite R0. cbn [app Nat.add]. f_equal. rewrite drop_replicate. f_equal.
    unfold RECORD_SIZE in *. lia.
  - rewrite zlen_fmap, Hb. unfold zlen. rewrite length_replicate. lia.
Qed.

Lemma whole_record (content : list ascii) :
  RECORD_SIZE <= zlen content ->
  zlen (slice 0 RECORD_SIZE content) = RECORD_SIZE /\ length content <> 0%nat.
Proof.
  unfold RECORD_SIZE. intros H. split; [|unfold zlen in H; lia].
  unfold slice, zlen in *. rewrite length_take, length_drop. lia.
Qed.

End load.

#[local] Opaque buffer_size_.

Lemma buffer_size_range : 2 * RECORD_SIZE <= buffer_size_ < 2 ^ 63.
Proof. by vm_compute. Qed.

Lemma load_record path p :
  open_rdonly (disk p) path = true -> zlen (file_content (disk p) path) = RECORD_SIZE ->
  LoadModelCSV_part (Ok ()) path true p = (Ok true, row_effect (file_content (disk p) path) p).
Proof.
  intros Ho Hc. rewrite open_content by done. set (content := file_content (disk p) path) in *.
  assert (length content = 16%nat) as Hl by (unfold zlen, RECORD_SIZE in Hc; lia). rewrite Hl.
  assert (slice 0 RECORD_SIZE content = content) as Es by (rewrite <- Hc; apply slice_whole).
  assert (drop (Z.to_nat RECORD_SIZE) content = []) as Ed by (apply drop_ge; rewrite Hl; done).
  erewrite st_bind_Ok; [reflexivity|]. cbn [load_loop]. rewrite Es, Ed, Hc.
  change (RECORD_SIZE =? 0) with false. cbv iota. unfold lift at 1.
  rewrite (st_bind_Ok _ _ p _ p) by (rewrite first_read; [done|done|]; pose proof buffer_size_range; unfold RECORD_SIZE in *; lia).
  change (Z.to_nat (RECORD_SIZE / RECORD_SIZE)) with 1%nat. cbn [parse_rows].
  erewrite st_bind_Ok; [|erewrite st_bind_Ok; [reflexivity|]].
  2:{ eapply ParseModelRow_ok; [reflexivity|reflexivity|done|].
      pose proof buffer_size_range. cbn [new_Buf buf_size_]. unfold RECORD_SIZE in *. lia. }
  reflexivity.
Qed.

Lemma row_undefined mr d u p :
  with_buf (BinaryDeserializer.ParseFloat mr) d p = (Undefined u, p) -> ParseModelRow mr d p = (Undefined u, p).
Proof. intros H. unfold ParseModelRow. by apply st_bind_Undefined. Qed.

Lemma ParseFloat_no_return u d b d' p :
  BinaryDeserializer.parse 4 d = (Ok (Some b), d') ->
  with_buf (BinaryDeserializer.ParseFloat (Undefined u)) d p = (Undefined u, p).
Proof.
  intros H. unfold with_buf, BinaryDeserializer.ParseFloat. by rewrite (st_bind_Ok _ _ _ _ _ H).
Qed.

Lemma ParseFloat_unreadable mr u d d' p :
  BinaryDeserializer.parse 4 d = (Undefined u, d') ->
  with_buf (BinaryDeserializer.ParseFloat mr) d p = (Undefined u, p).
Proof.
  intros H. unfold with_buf, BinaryDeserializer.ParseFloat. by rewrite (st_bind_Undefined _ _ _ _ _ H).
Qed.

(** One turn of the loading loop with a whole record. *)
Lemma load_turn mr fuel content d p data :
  RECORD_SIZE <= zlen content ->
  mem_write (GetBuf d) 0 (Some <$> slice 0 RECORD_SIZE content) = Ok data ->
  load_loop mr (S fuel) content d p =
    (d' ← (d' ← ParseModelRow mr (mkBuf data (buf_off_ d) (buf_size_ d)); mret d');
     load_loop mr fuel (drop (Z.to_nat RECORD_SIZE) content) d') p.
Proof.
  intros Hc W. destruct (whole_record content Hc) as [Hz _]. cbn [load_loop]. rewrite Hz.
  change (RECORD_SIZE =? 0) with false. cbv iota. unfold lift at 1.
  by rewrite (st_bind_Ok _ _ p data p) by by rewrite W.
Qed.

(** A file with one record: its solution is configured, and its model moves to the
    mean of what it was and the record.  The end of [ParseFloat] returns here. *)
Theorem load_one_record path p :
  open_rdonly (disk p) path = true -> zlen (file_content (disk p) path) = RECORD_SIZE ->
  LoadModelCSV_part (Ok ()) path true p = (Ok true, row_effect (file_content (disk p) path) p).
Proof. apply load_record. Qed.

(** By the standard, a file with a record cannot be loaded: [ParseFloat] reaches
    its end without a return. *)
Theorem load_without_return u path p :
  open_rdonly (disk p) path = true -> RECORD_SIZE <= zlen (file_content (disk p) path) ->
  LoadModelCSV_part (Undefined u) path true p = (Undefined u, p).
Proof.
  intros Ho Hc. rewrite open_content by done. set (content := file_content (disk p) path) in *.
  destruct (whole_record content Hc) as [Hz Hl]. destruct (length content) as [|fuel]; [done|].
  pose proof buffer_size_range as [B1 B2]. unfold RECORD_SIZE in B1.
  apply st_bind_Undefined. erewrite load_turn by (done || (apply first_read; [done|unfold RECORD_SIZE; lia])).
  apply st_bind_Undefined, st_bind_Undefined, row_undefined. eapply ParseFloat_no_return.
  eapply (parse_slice _ _ _ 0 4); cbn; [reflexivity|done|done|done| |]; rewrite Hz; unfold RECORD_SIZE; lia.
Qed.

Lemma second_write (b1 b2 : list ascii) (cells : list (option ascii)) :
  zlen b1 = zlen b2 ->
  mem_write (Some ((Some <$> b1) ++ cells)) 0 (Some <$> b2) = Ok (Some ((Some <$> b2) ++ cells)).
Proof.
  intros Hb. pose proof (zlen_nonneg cells).
  rewrite mem_write_in by (rewrite ?zlen_app, ?zlen_fmap; lia).
  do 2 f_equal. unfold splice. change (Z.to_nat 0) with 0%nat.
  assert (forall l : list (option ascii), resize 0 None l = []) as R0 by by intros [].
  rewrite R0. cbn [app Nat.add]. f_equal.
  assert (length (Some <$> b2) = length (Some <$> b1)) as -> by (rewrite !length_fmap; unfold zlen in Hb; lia).
  apply drop_app_length.
Qed.

(** What was never written cannot be read. *)
Lemma parse_unwritten (bytes : list ascii) k n size :
  zlen bytes = n -> 0 <= n -> (4 <= k)%nat -> n + 4 <= size < 2 ^ 63 ->
  BinaryDeserializer.parse 4 (mkBuf (Some ((Some <$> bytes) ++ replicate k None)) n size) =
    (Undefined UninitRead, mkBuf (Some ((Some <$> bytes) ++ replicate k None)) n size).
Proof.
  intros Hb Hn Hk Hs. unfold BinaryDeserializer.parse, fits. cbn [data_ buf_off_ buf_size_].
  rewrite u64_small by lia. destruct (Z.ltb_spec size (n + 4)); [lia|]. cbn [negb].
  rewrite mem_read_in; [|done|done|].
  - assert (slice n 4 ((Some <$> bytes) ++ replicate k None) = replicate 4 None) as ->; [|done].
    unfold slice. rewrite <- Hb, zlen_to_nat. rewrite <- (length_fmap Some bytes), drop_app_length.
    rewrite take_replicate. f_equal. lia.
  - rewrite zlen_app, zlen_fmap, Hb. unfold zlen. rewrite length_replicate. lia.
Qed.

(** C26: where [ParseFloat] returns at its end (by the standard already the first
    record is undefined): a second record is read behind the first one in the buffer, where nothing was
    written: [fread] fills the buffer from its start each time. *)
Theorem load_second_record path p :
  open_rdonly (disk p) path = true -> 2 * RECORD_SIZE <= zlen (file_content (disk p) path) ->
  (LoadModelCSV_part (Ok ()) path true p).1 = Undefined UninitRead.
Proof.
  intros Ho Hc. rewrite open_content by done. set (content := file_content (disk p) path) in *.
  assert (RECORD_SIZE <= zlen content) as H1 by (unfold RECORD_SIZE in *; lia).
  destruct (whole_record content H1) as [Z1 _]. set (rest := drop (Z.to_nat RECORD_SIZE) content).
  assert (RECORD_SIZE <= zlen rest) as H2.
  { unfold rest, zlen, RECORD_SIZE in *. rewrite length_drop. lia. }
  destruct (whole_record rest H2) as [Z2 _].
  assert (2 <= length content)%nat as Hf by (unfold zlen, RECORD_SIZE in Hc; lia).
  destruct (length content) as [|[|fuel]]; [lia..|].
  pose proof buffer_size_range as [B1 B2]. unfold RECORD_SIZE in B1.
  set (p1 := row_effect (slice 0 RECORD_SIZE content) p).
  enough (load_loop (Ok ()) (S (S fuel)) content (new_Buf buffer_size_) p = (Undefined UninitRead, p1)) as E
    by by rewrite (st_bind_Undefined _ _ _ _ _ E).
  erewrite load_turn by (done || (apply first_read; [done|unfold RECORD_SIZE; lia])).
  erewrite st_bind_Ok; [|erewrite st_bind_Ok; [reflexivity|]].
  2:{ eapply ParseModelRow_ok; [reflexivity|reflexivity|done|].
      cbn [new_Buf buf_size_]. unfold RECORD_SIZE. lia. }
  fold rest p1. cbn [data_ buf_size_ new_Buf].
  erewrite load_turn; [|done|cbn [GetBuf data_]; apply second_write; by rewrite Z1, Z2].
  apply st_bind_Undefined, st_bind_Undefined, row_undefined. eapply ParseFloat_unreadable.
  apply parse_unwritten; [done|done| |cbn; unfold RECORD_SIZE; lia]. unfold RECORD_SIZE. lia.
Qed.

(** ** From one predictor to another *)

(** Coefficients in single precision. *)
Definition single (x : double) : double := double_of_float (float_of_double x).
Definition single_coeffs (c : Vec) : Vec := mkVec (single (v0 c)) (single (v1 c)) (single (v2 c)).

Lemma row_of_record conf c :
  - 2 ^ 31 <= conf < 2 ^ 31 ->
  row_conf (record_bytes conf c) = conf /\ row_coeffs (record_bytes conf c) = single_coeffs c.
Proof.
  intros Hc. split.
  - change (row_conf (record_bytes conf c)) with (bytes_int (int_bytes conf)). by apply bytes_int_bytes.
  - assert (forall x, bytes_float (float_bytes (float_of_double x)) = float_of_double x) as F.
    { intros x. apply bytes_float_bytes, float_of_double_valid. }
    unfold single_coeffs, single. rewrite <- (F (v0 c)), <- (F (v1 c)), <- (F (v2 c)). reflexivity.
Qed.

(** C25: the solution of one fit, saved by one predictor into an empty file, cannot be
    loaded by the standard, because [ParseFloat] ends without a return; an
    implementation that lets it return loads the solution in single precision:
    the model moves to the mean of what it was and the solution. *)
Theorem save_load path p q conf c :
  commit_metrics_ p = true -> storage_configs_ p = [conf] -> queued conf p = [c] ->
  - 2 ^ 31 <= conf < 2 ^ 31 ->
  model_file_ p = Some (path, 0) -> file_content (disk p) path = [] -> io_error (disk p) = false ->
  path ∉ denied (disk p) ->
  exists p', CommitMetrics p = (Ok (), p') /\
    (disk q = disk p' ->
     LoadModelCSV_part (Undefined MissingReturn) path true q = (Undefined MissingReturn, q) /\
     exists q', LoadModelCSV_part (Ok ()) path true q = (Ok true, q') /\
       model_of conf q' = UpdateCoeffs (single_coeffs c) false (model_of conf q) /\
       (forall i, i <> conf -> model_of i q' = model_of i q) /\
       (storage_models_ q !! conf = None -> storage_configs_ q' = storage_configs_ q ++ [conf])).
Proof.
  intros Hm Hcs Hq Hr Hf He Hio Hd.
  assert (saved (storage_configs_ p) p = record_bytes conf c) as Hs.
  { rewrite Hcs. change (saved [conf] p) with (model_records conf (queued conf p) ++ []).
    rewrite app_nil_r, Hq. change (model_records conf [c]) with (record_bytes conf c ++ []).
    by rewrite app_nil_r. }
  destruct (SaveModelCSV_saves p path 0) as (p' & E & D & _ & _);
    [rewrite Hcs; apply NoDup_singleton| |done|done|].
  { rewrite Hs, zlen_record_bytes. pose proof buffer_size_range. unfold RECORD_SIZE in *. lia. }
  exists p'. split.
  { unfold CommitMetrics. rewrite (st_bind_Ok _ _ p p p) by done. by rewrite Hm. }
  intros Hq'. rewrite Hs, He, splice_nil in D.
  assert (file_content (disk q) path = record_bytes conf c) as C.
  { rewrite Hq', D. unfold file_content. cbn. by rewrite lookup_insert_eq. }
  assert (open_rdonly (disk q) path = true) as O.
  { unfold open_rdonly. apply bool_decide_eq_true. rewrite Hq', D. cbn. by rewrite lookup_insert_eq. }
  split; [apply load_without_return; [done|]; by rewrite C, zlen_record_bytes|].
  eexists. split; [apply load_record; [done|]; by rewrite C, zlen_record_bytes|].
  destruct (row_of_record conf c Hr) as [Rn Rc]. rewrite C. unfold row_effect. rewrite Rn, Rc.
  assert (forall i, model_of i (add_config conf q) = model_of i q) as M.
  { intros i. unfold add_config. by destruct (bool_decide _). }
  split; [|split].
  - rewrite <- M. unfold model_of at 1. cbn. by rewrite lookup_insert_eq.
  - intros i Hi. rewrite <- M. unfold model_of at 1. cbn. by rewrite lookup_insert_ne.
  - intros Hn. cbn. unfold add_config. by rewrite Hn.
Qed.

End spec.
