(* ===== verification/PredictorThreads.v ===== *)
(** * PredictorThreads: the calls of the predictor while its worker fits

    The main thread gives feedback, asks for predictions and at last ends the
    predictor, while the worker runs [Run].  A step is one access to the shared
    members that the other thread may meet: to [window_tick_], to one of the lists of
    a dataset, to one coefficient, or to [buffer_]; [window_tick_] is read and
    written in two steps, and the three coefficients of a prediction may be read in
    any order.  What only the worker touches while it runs (the queue of
    coefficients, the model file) changes in one step.  [CostModel] has the calls as
    they are when they do not overlap; which list of the dataset a [push] meets is
    in DoubleBuffer and is a choice here.  A call names a model that exists: one
    that makes a model changes [storage_models_] itself, which nothing protects. *)

From S2P Require Import Prelude CText Effects Strtol CFloat Services Serializers DoubleBuffer CostModel.

(** ** Coordinates *)

Inductive coord := K0 | K1 | K2.

#[export] Instance coord_eq_dec : EqDecision coord.
Proof. solve_decision. Defined.

Definition vget (k : coord) (v : Vec) : double := match k with K0 => v0 v | K1 => v1 v | K2 => v2 v end.
Definition vset (k : coord) (x : double) (v : Vec) : Vec :=
  match k with K0 => mkVec x (v1 v) (v2 v) | K1 => mkVec (v0 v) x (v2 v) | K2 => mkVec (v0 v) (v1 v) x end.
Definition next_coord (k : coord) : option coord := match k with K0 => Some K1 | K1 => Some K2 | K2 => None end.

Definition fn_upd {K} `{EqDecision K} {B : Type} (k : K) (x : B) (f : K -> B) : K -> B :=
  fun k' => if decide (k' = k) then x else f k'.

(** ** Threads *)

Inductive thread_call :=
| CallFeedback (bw read_bytes write_bytes : double) (storage_index : Z)
| CallPredict (read_bytes write_bytes : double) (storage_index : Z)
| CallFinalize.

(** The main thread: between calls; in [Feedback] before the [push], before and
    inside [++window_tick_]; in [Predict] before the read of [buffer_] and with the
    coefficients it has read; in [Finalize] waiting for the worker; behind it.  A
    prediction remembers how many updates of the model it has seen. *)
Inductive main_pc :=
| MIdle
| MPush (i : Z) (o : Observation)
| MTick
| MTicked (n : Z)
| MBuffer (i : Z) (read_bytes write_bytes : double)
| MRead (i : Z) (read_bytes write_bytes : double) (b : bool) (version : nat) (got : coord -> option double)
| MJoin
| MDone.

(** The worker: before the test of the window, at the end for the last time; before
    the next model of a fit; before a [pop] on its first or second list, with what
    it has taken; with the solution, before the write of a coefficient or the
    [push] behind the last; before the change of [buffer_]; before the commit and
    the reset of the window; waiting; ended, or ended by an exception. *)
Inductive worker_pc :=
| WCheck (last : bool)
| WFit (last : bool) (l : list Z)
| WPop (last : bool) (l : list Z) (i : Z) (second : bool) (datavec : list Observation)
| WWrite (last : bool) (l : list Z) (i : Z) (coeffs : CoeffArray) (b : bool) (k : option coord)
| WFlip (last : bool) (l : list Z) (i : Z) (b : bool)
| WCommit (last : bool)
| WReset
| WWait
| WEnd
| WCrashed.

(** A prediction that was returned. *)
Record predicted := mkPredicted {
  pr_model : Z;
  pr_read : double;
  pr_write : double;
  pr_version : nat;    (* updates before it read [buffer_] *)
  pr_begun : nat;      (* updates begun when it returned *)
  pr_value : double;
}.

(** What the threads share, where they are, and the history: the measurements and
    the windows of each model, its coefficients in the order they came into use, the
    updates begun, the predictions. *)
Record pconfig := mkPConfig {
  pred : Predictor;
  terminate : bool;
  main : main_pc;
  worker : worker_pc;
  fed : Z -> list Observation;
  windows : Z -> list (list Observation);
  published : Z -> list Vec;
  begun : Z -> nat;
  returned : list predicted;
}.

(** What the scheduler chooses; the list a [push] gets, and the coefficient that is
    read next. *)
Inductive choice :=
| Begin (c : thread_call)
| Push (tid : bool)
| ReadCoeff (k : coord)
| MainStep
| WorkerStep.

Definition with_main (m : main_pc) (c : pconfig) : pconfig :=
  mkPConfig (pred c) (terminate c) m (worker c) (fed c) (windows c) (published c) (begun c) (returned c).
Definition with_worker (w : worker_pc) (c : pconfig) : pconfig :=
  mkPConfig (pred c) (terminate c) (main c) w (fed c) (windows c) (published c) (begun c) (returned c).
Definition with_pred (p : Predictor) (c : pconfig) : pconfig :=
  mkPConfig p (terminate c) (main c) (worker c) (fed c) (windows c) (published c) (begun c) (returned c).

Definition with_dataset (d : DoubleBuffer Observation) (m : LinRegModel) : LinRegModel :=
  mkLinRegModel d (coeffs_q_ m) (coeffs_ m) (buffer_ m).
Definition with_coeffs (f : bool -> CoeffArray) (m : LinRegModel) : LinRegModel :=
  mkLinRegModel (dataset_ m) (coeffs_q_ m) f (buffer_ m).
Definition with_queue (q : DoubleBuffer CoeffArray) (m : LinRegModel) : LinRegModel :=
  mkLinRegModel (dataset_ m) q (coeffs_ m) (buffer_ m).
Definition with_buffer (b : bool) (m : LinRegModel) : LinRegModel :=
  mkLinRegModel (dataset_ m) (coeffs_q_ m) (coeffs_ m) b.

(** [storage_models_ [i]] changed in place. *)
Definition on_model (i : Z) (f : LinRegModel -> LinRegModel) (c : pconfig) : pconfig :=
  with_pred (set_model i (f (model_of i (pred c))) (pred c)) c.

Definition tick (n : Z) (c : pconfig) : pconfig := with_pred (set_tick n (pred c)) c.

Definition known (i : Z) (c : pconfig) : bool := bool_decide (is_Some (storage_models_ (pred c) !! i)).

(** ** Steps of the main thread *)

(** The call starts: [Finalize] first sets the promise. *)
Definition begin_call (k : thread_call) (c : pconfig) : option pconfig :=
  match main c, k with
  | MIdle, CallFeedback bw r w i =>
      if known i c
      then Some (with_main (MPush i (mkObservation (mkVec (double_of_Z (nprocs_ (pred c))) w r) bw)) c)
      else None
  | MIdle, CallPredict r w i => if known i c then Some (with_main (MBuffer i r w) c) else None
  | MIdle, CallFinalize =>
      Some (mkPConfig (pred c) true MJoin (worker c) (fed c) (windows c) (published c) (begun c) (returned c))
  | _, _ => None
  end.

Definition push_step (tid : bool) (c : pconfig) : option pconfig :=
  match main c with
  | MPush i o =>
      let c := on_model i (fun m => with_dataset (push tid o (dataset_ m)) m) c in
      Some (mkPConfig (pred c) (terminate c) MTick (worker c) (fn_upd i (fed c i ++ [o]) (fed c))
              (windows c) (published c) (begun c) (returned c))
  | _ => None
  end.

Definition read_step (k : coord) (c : pconfig) : option pconfig :=
  match main c with
  | MRead i r w b v got =>
      Some (with_main (MRead i r w b v (fn_upd k (Some (vget k (coeffs_ (model_of i (pred c)) b))) got)) c)
  | _ => None
  end.

(** The value of a prediction from the coefficients read. *)
Definition predict_with (nprocs read_bytes write_bytes : double) (c : Vec) : double :=
  dadd (dadd (dmul (v0 c) nprocs) (dmul (v1 c) read_bytes)) (dmul (v2 c) write_bytes).

Definition main_step (c : pconfig) : option pconfig :=
  match main c with
  | MTick => Some (with_main (MTicked (window_tick_ (pred c))) c)
  | MTicked n => Some (with_main MIdle (tick (n +u 1) c))
  | MBuffer i r w =>
      Some (with_main (MRead i r w (buffer_ (model_of i (pred c))) (Nat.pred (length (published c i))) (fun _ => None)) c)
  | MRead i r w b v got =>
      match got K0, got K1, got K2 with
      | Some x0, Some x1, Some x2 =>
          let value := predict_with (double_of_Z (nprocs_ (pred c))) r w (mkVec x0 x1 x2) in
          Some (mkPConfig (pred c) (terminate c) MIdle (worker c) (fed c) (windows c) (published c) (begun c)
                  (returned c ++ [mkPredicted i r w v (begun c i) value]))
      | _, _, _ => None
      end
  | MJoin =>
      match worker c with
      | WEnd => Some (with_main MDone (with_pred (set_model_file None (disk (pred c)) (pred c)) c))
      | _ => None
      end
  | _ => None
  end.

(** ** Steps of the worker *)

Section worker.
Context (pow : double -> double -> double)
  (solve : (Observation -> Vec -> double) -> list Observation -> nat -> Vec).

(** The solution of a window: the update of the coefficients begins in the buffer
    that is not in use. *)
Definition solve_step (last : bool) (l : list Z) (i : Z) (datavec : list Observation) (c : pconfig) : pconfig :=
  let coeffs := solve (Residual pow) datavec (draws (pred c)) in
  mkPConfig (set_draws (S (draws (pred c))) (pred c)) (terminate c) (main c)
    (WWrite last l i coeffs (negb (buffer_ (model_of i (pred c)))) (Some K0))
    (fed c) (fn_upd i (windows c i ++ [datavec]) (windows c)) (published c)
    (fn_upd i (S (begun c i)) (begun c)) (returned c).

(** [pop (1, obs)] until there is none. *)
Definition pop_step (last : bool) (l : list Z) (i : Z) (second : bool) (datavec : list Observation)
    (c : pconfig) : pconfig :=
  let tid := negb second in
  let d := dataset_ (model_of i (pred c)) in
  match d tid with
  | o :: rest =>
      with_worker (WPop last l i false (datavec ++ [o])) (on_model i (with_dataset (bool_upd tid rest d)) c)
  | [] =>
      if second then
        match datavec with
        | [] => with_worker (WFit last l) c
        | _ => solve_step last l i datavec c
        end
      else with_worker (WPop last l i true datavec) c
  end.

Definition write_step (last : bool) (l : list Z) (i : Z) (coeffs : CoeffArray) (b : bool) (k : option coord)
    (c : pconfig) : pconfig :=
  match k with
  | Some k =>
      with_worker (WWrite last l i coeffs b (next_coord k))
        (on_model i (fun m =>
           let old := coeffs_ m b in
           with_coeffs (bool_upd b (vset k (average (vget k old) (vget k coeffs)) old) (coeffs_ m)) m) c)
  | None => with_worker (WFlip last l i b) (on_model i (fun m => with_queue (push true coeffs (coeffs_q_ m)) m) c)
  end.

(** The new coefficients come into use. *)
Definition flip_step (last : bool) (l : list Z) (i : Z) (b : bool) (c : pconfig) : pconfig :=
  let c := on_model i (with_buffer b) c in
  mkPConfig (pred c) (terminate c) (main c) (WFit last l) (fed c) (windows c)
    (fn_upd i (published c i ++ [coeffs_ (model_of i (pred c)) b]) (published c)) (begun c) (returned c).

Definition commit_step (last : bool) (c : pconfig) : pconfig :=
  let '(o, p) := CommitMetrics (pred c) in
  with_worker match o with Ok _ => if last then WEnd else WReset | _ => WCrashed end (with_pred p c).

Definition window_full (c : pconfig) : bool := window_size_ (pred c) <=? window_tick_ (pred c).

Definition worker_step (c : pconfig) : option pconfig :=
  match worker c with
  | WCheck last =>
      Some (with_worker (if window_full c then WFit last (storage_configs_ (pred c))
                         else if last then WCommit true else WWait) c)
  | WFit last [] => Some (with_worker (WCommit last) c)
  | WFit last (i :: l) => Some (with_worker (WPop last l i false []) (on_model i id c))
  | WPop last l i second datavec => Some (pop_step last l i second datavec c)
  | WWrite last l i coeffs b k => Some (write_step last l i coeffs b k c)
  | WFlip last l i b => Some (flip_step last l i b c)
  | WCommit last => Some (commit_step last c)
  | WReset => Some (with_worker WWait (tick 0 c))
  | WWait => Some (with_worker (WCheck (terminate c)) c)
  | WEnd | WCrashed => None
  end.

Definition choose (ch : choice) (c : pconfig) : option pconfig :=
  match ch with
  | Begin k => begin_call k c
  | Push tid => push_step tid c
  | ReadCoeff k => read_step k c
  | MainStep => main_step c
  | WorkerStep => worker_step c
  end.

(** A schedule; none where it chooses what no thread can do. *)
Fixpoint schedule (chs : list choice) (c : pconfig) : option pconfig :=
  match chs with
  | [] => Some c
  | ch :: chs' => c' ← choose ch c; schedule chs' c'
  end.

(** The measurements that wait for a fit. *)
Definition waiting (m : LinRegModel) : list Observation := dataset_ m false ++ dataset_ m true.

(** The worker has just been started by [Init]. *)
Definition started (p : Predictor) : pconfig :=
  mkPConfig p false MIdle (WCheck false) (fun i => waiting (model_of i p)) (fun _ => [])
    (fun i => [coeffs_ (model_of i p) (buffer_ (model_of i p))]) (fun _ => 0%nat) [].

Definition reached (p : Predictor) (c : pconfig) : Prop := exists chs, schedule chs (started p) = Some c.

End worker.
