(* ===== verification/PredictorThreadsSpec.v ===== *)
(** * PredictorThreadsSpec: what the predictor guarantees while it fits

    Whatever the schedule, every measurement ends in one window or waits for the
    next one.  [reached_inv] is the rule of invariants the files on predictions and on
    the turns of the worker share. *)

From Stdlib Require Import Permutation FunctionalExtensionality.
From S2P Require Import Prelude CText Effects Strtol CFloat Services Serializers DoubleBuffer CostModel.
From S2P Require Import CostModelSpec PredictorThreads.

(** ** Updates *)

Lemma fn_upd_eq {K} `{EqDecision K} {B : Type} (k : K) (x : B) f : fn_upd k x f k = x.
Proof. unfold fn_upd. by rewrite decide_True. Qed.

Lemma fn_upd_ne {K} `{EqDecision K} {B : Type} (k k' : K) (x : B) f : k' <> k -> fn_upd k x f k' = f k'.
Proof. intros. unfold fn_upd. by rewrite decide_False. Qed.

Lemma vget_vset k k' x v : vget k (vset k' x v) = if decide (k = k') then x else vget k v.
Proof. by destruct k, k'. Qed.

Lemma vec_eq (u v : Vec) : (forall k, vget k u = vget k v) -> u = v.
Proof. intros E. pose proof (E K0). pose proof (E K1). pose proof (E K2). destruct u, v. simpl in *. congruence. Qed.

Lemma model_of_set i j m p : model_of j (set_model i m p) = if decide (j = i) then m else model_of j p.
Proof.
  unfold model_of. cbn. case_decide as E; [subst; by rewrite lookup_insert_eq|by rewrite lookup_insert_ne].
Qed.

Lemma model_on i j f c :
  model_of j (pred (on_model i f c)) = if decide (j = i) then f (model_of i (pred c)) else model_of j (pred c).
Proof. apply model_of_set. Qed.

(** ** What a commit leaves *)

(** Everything but the queues and the file. *)
Record keeps (p p' : Predictor) : Prop := {
  ks_nprocs : nprocs_ p' = nprocs_ p;
  ks_window : window_size_ p' = window_size_ p;
  ks_tick : window_tick_ p' = window_tick_ p;
  ks_draws : draws p' = draws p;
  ks_configs : storage_configs_ p' = storage_configs_ p;
  ks_dataset i : dataset_ (model_of i p') = dataset_ (model_of i p);
  ks_coeffs i : coeffs_ (model_of i p') = coeffs_ (model_of i p);
  ks_buffer i : buffer_ (model_of i p') = buffer_ (model_of i p);
  ks_known i : is_Some (storage_models_ p !! i) -> is_Some (storage_models_ p' !! i);
}.

#[export] Instance keeps_preorder : PreOrder keeps.
Proof. split; [by intros p|]. intros p q r [] []. split; intros; first [by auto|etransitivity; eauto]. Qed.

Lemma known_set i m j p : is_Some (storage_models_ p !! j) -> is_Some (storage_models_ (set_model i m p) !! j).
Proof. intros H. cbn. rewrite lookup_insert_is_Some. destruct (decide (i = j)); auto. Qed.

Lemma keeps_queue i q p : keeps p (set_model i (with_queue q (model_of i p)) p).
Proof. split; try done; intros j; [..|apply known_set]; rewrite model_of_set; case_decide; by subst. Qed.

Lemma save_configs_keeps configs s p : keeps p (save_configs configs s p).2.
Proof.
  revert s p. induction configs as [|k configs IH]; intros s p; cbn [save_configs]; [done|].
  destruct (drain _ _ _) as [l q]. set (p1 := set_model _ _ p).
  assert (keeps p p1) as H1 by apply keeps_queue.
  unfold mbind, st_bind. pose proof (with_buf_state (for_each (write_record k) l) s p1) as W.
  destruct (with_buf _ s p1) as [[[u s1]| | |] p2]; cbn [snd] in W; subst p2; try done.
  etransitivity; [exact H1|apply IH].
Qed.

Lemma CommitMetrics_keeps p : keeps p (CommitMetrics p).2.
Proof.
  unfold CommitMetrics, SaveModelCSV, get_state. unfold mbind, st_bind, mret, st_ret, lift, modify.
  destruct (commit_metrics_ p); [|done].
  pose proof (save_configs_keeps (storage_configs_ p) (new_Buf buffer_size_) p) as H.
  destruct (save_configs _ _ p) as [[s| | |] p1]; try done. cbn [snd] in H.
  destruct (outcome_bind _ _ defined _) as [bytes| | |]; try done.
  unfold SaveCSV. destruct (model_file_ p1) as [[path pos]|]; [|done].
  destruct (io_error (disk p1) && _); [done|]. by destruct H.
Qed.

Section spec.
Context (pow : double -> double -> double)
  (solve : (Observation -> Vec -> double) -> list Observation -> nat -> Vec).
Implicit Types c : pconfig.

Abbreviation choose := (choose pow solve).
Abbreviation schedule := (schedule pow solve).
Abbreviation worker_step := (worker_step pow solve).
Abbreviation reached := (reached pow solve).

(** An invariant of all schedules. *)
Lemma reached_inv (I : pconfig -> Prop) p c :
  I (started p) -> (forall ch c c', I c -> choose ch c = Some c' -> I c') -> reached p c -> I c.
Proof.
  intros H0 Hs [chs E]. revert H0 E. generalize (started p). induction chs as [|ch chs IH]; intros c0 H0 E.
  - by injection E as <-.
  - cbn in E. destruct (choose ch c0) as [c1|] eqn:E1; [|done]. eapply IH; [|exact E]. by eapply Hs.
Qed.

Lemma schedule_app chs1 chs2 c : schedule (chs1 ++ chs2) c = (c1 ← schedule chs1 c; schedule chs2 c1).
Proof.
  revert c. induction chs1 as [|ch chs1 IH]; intros c; [done|]. cbn. destruct (choose ch c); [apply IH|done].
Qed.

(** ** Measurements *)

(** What the worker has taken out of the dataset of a model and not yet used. *)
Definition in_hand (i : Z) (w : worker_pc) : list Observation :=
  match w with WPop _ _ j _ datavec => if decide (j = i) then datavec else [] | _ => [] end.

Definition conserved c : Prop := forall i,
  fed c i ≡ₚ concat (windows c i) ++ in_hand i (worker c) ++ waiting (model_of i (pred c)).

(** A step that moves no measurement. *)
Lemma conserved_quiet c c' :
  fed c' = fed c -> windows c' = windows c -> (forall i, in_hand i (worker c') = in_hand i (worker c)) ->
  (forall i, dataset_ (model_of i (pred c')) = dataset_ (model_of i (pred c))) -> conserved c -> conserved c'.
Proof. intros F W H D I i. rewrite F, W, H. unfold waiting. rewrite D. apply I. Qed.

Lemma dataset_on i f c j :
  (forall m, dataset_ (f m) = dataset_ m) ->
  dataset_ (model_of j (pred (on_model i f c))) = dataset_ (model_of j (pred c)).
Proof. intros Hf. rewrite model_on. case_decide; [subst; apply Hf|done]. Qed.

Lemma conserved_push tid c c' : conserved c -> push_step tid c = Some c' -> conserved c'.
Proof.
  unfold push_step. destruct (main c); try done. intros I [= <-] j. cbn -[on_model model_of].
  rewrite model_of_set. unfold fn_upd. case_decide as E; [subst j|apply I].
  rewrite (I i). unfold waiting, with_dataset, push. destruct tid; cbn [dataset_ bool_upd Bool.eqb]; solve_Permutation.
Qed.

Lemma conserved_pop last l i second datavec c :
  conserved c -> worker c = WPop last l i second datavec -> conserved (pop_step pow solve last l i second datavec c).
Proof.
  intros I E. unfold pop_step. destruct (dataset_ (model_of i (pred c)) (negb second)) as [|o rest] eqn:Ed.
  - destruct second; [destruct datavec as [|o datavec]|].
    + apply (conserved_quiet c); try done. intros j. rewrite E. simpl. by case_decide.
    + intros j. pose proof (I j) as P. rewrite E in P. cbn [in_hand] in P. unfold solve_step.
      cbn [fed windows worker pred in_hand app]. destruct (decide (i = j)) as [->|Hj].
      * rewrite fn_upd_eq, concat_app. cbn [concat]. rewrite app_nil_r, <- app_assoc. exact P.
      * rewrite fn_upd_ne by congruence. exact P.
    + apply (conserved_quiet c); try done. intros j. by rewrite E.
  - intros j. pose proof (I j) as P. rewrite E in P. cbn [in_hand] in P.
    cbn [fed windows worker with_worker in_hand on_model with_pred].
    change (pred (with_worker _ ?c)) with (pred c). rewrite model_on.
    destruct (decide (i = j)) as [->|Hj]; [|by rewrite decide_False by congruence].
    rewrite decide_True by done. rewrite P. unfold waiting, with_dataset. cbn [dataset_].
    destruct second; cbn [negb] in Ed |- *; cbn [bool_upd Bool.eqb]; rewrite Ed; solve_Permutation.
Qed.

Lemma conserved_worker c c' : conserved c -> worker_step c = Some c' -> conserved c'.
Proof.
  intros I. unfold worker_step. destruct (worker c) as [last|last [|i l]|last l i second datavec|last l i coeffs b k|
    last l i b|last| | | |] eqn:E; intros [= <-].
  - apply (conserved_quiet c); try done. intros j. rewrite E. simpl. by destruct (window_full c), last.
  - apply (conserved_quiet c); try done. intros j. by rewrite E.
  - apply (conserved_quiet c); try done.
    + intros j. rewrite E. simpl. by case_decide.
    + intros j. by apply dataset_on.
  - by apply conserved_pop.
  - apply (conserved_quiet c); try (by destruct k); intros j; [rewrite E; by destruct k|].
    destruct k; by apply dataset_on.
  - apply (conserved_quiet c); try done; intros j; [by rewrite E|by apply dataset_on].
  - unfold commit_step. pose proof (CommitMetrics_keeps (pred c)) as K.
    destruct (CommitMetrics (pred c)) as [o p]. cbn [snd] in K. apply (conserved_quiet c); try done.
    + intros j. rewrite E. by destruct o, last.
    + intros j. apply (ks_dataset _ _ K).
  - apply (conserved_quiet c); try done. intros j. by rewrite E.
  - apply (conserved_quiet c); try done. intros j. by rewrite E.
Qed.

Lemma conserved_main c c' : conserved c -> main_step c = Some c' -> conserved c'.
Proof.
  intros I. unfold main_step. destruct (main c) as [| | |n|i r w|i r w b v got| |]; try done.
  - intros [= <-]. by apply (conserved_quiet c).
  - intros [= <-]. by apply (conserved_quiet c).
  - intros [= <-]. by apply (conserved_quiet c).
  - destruct (got K0), (got K1), (got K2); try done. intros [= <-]. by apply (conserved_quiet c).
  - destruct (worker c) eqn:E; try done. intros [= <-]. by apply (conserved_quiet c).
Qed.

Lemma conserved_choose ch c c' : conserved c -> choose ch c = Some c' -> conserved c'.
Proof.
  intros I. destruct ch as [k|tid|k| |]; cbn [PredictorThreads.choose].
  - unfold begin_call. destruct (main c), k; try done; try (destruct (known _ c); [|done]);
      intros [= <-]; by apply (conserved_quiet c).
  - by apply conserved_push.
  - unfold read_step. destruct (main c); try done. intros [= <-]. by apply (conserved_quiet c).
  - by apply conserved_main.
  - by apply conserved_worker.
Qed.

Lemma conserved_started p : conserved (started p).
Proof. intros i. done. Qed.

(** C21: however feedback, predictions and the turns of the worker interleave: the
    measurements fed to a model, with those that waited when the worker was started,
    are the ones of the windows its fits used, of the window being collected and of
    the dataset: none is lost, and none is used twice. *)
Theorem measurements_conserved p c i :
  reached p c ->
  fed c i ≡ₚ concat (windows c i) ++ in_hand i (worker c) ++ waiting (model_of i (pred c)).
Proof. intros R. revert i. exact (reached_inv conserved p c (conserved_started p) conserved_choose R). Qed.

(** ** Turns: the model one is at and those it still comes to *)

(** The model a turn is at and those it still comes to. *)
Definition agenda c : list Z :=
  match worker c with
  | WFit _ l => l
  | WPop _ l i _ _ | WWrite _ l i _ _ _ | WFlip _ l i _ => i :: l
  | _ => storage_configs_ (pred c)
  end.

Definition orderly c : Prop := NoDup (agenda c) /\ NoDup (storage_configs_ (pred c)).

Lemma orderly_choose ch c c' : orderly c -> choose ch c = Some c' -> orderly c'.
Proof.
  intros [A C]. destruct ch as [k|tid|k| |]; cbn [PredictorThreads.choose].
  - unfold begin_call. destruct (main c), k; try done; try (destruct (known _ c); [|done]); by intros [= <-].
  - unfold push_step. destruct (main c); try done. by intros [= <-].
  - unfold read_step. destruct (main c); try done. by intros [= <-].
  - unfold main_step. destruct (main c) as [| | |n|i r w|i r w b v got| |]; try done; try by intros [= <-].
    + destruct (got K0), (got K1), (got K2); try done. by intros [= <-].
    + destruct (worker c) eqn:E; try done. intros [= <-]. unfold orderly, agenda in *. cbn [worker with_main with_pred] in *.
      by rewrite E in *.
  - unfold PredictorThreads.worker_step, orderly, agenda in *.
    destruct (worker c) as [last|last [|i l]|last l i second datavec|last l i coeffs b k|last l i b|last| | | |] eqn:E;
      intros [= <-].
    + cbn [worker with_worker pred]. by destruct (window_full c), last.
    + done.
    + done.
    + unfold pop_step. destruct (dataset_ _ _); [|done].
      destruct second; [destruct datavec|]; try done. split; [by apply NoDup_cons in A as [_ A]|done].
    + by destruct k.
    + split; [by apply NoDup_cons in A as [_ A]|done].
    + unfold commit_step. pose proof (CommitMetrics_keeps (pred c)) as K.
      destruct (CommitMetrics (pred c)) as [o p]. cbn [snd] in K. cbn [worker with_worker pred with_pred].
      rewrite (ks_configs _ _ K). by destruct o, last.
    + done.
    + done.
Qed.

Lemma reached_orderly p c : NoDup (storage_configs_ p) -> reached p c -> orderly c.
Proof. intros H. apply reached_inv; [by split|]. intros ch c1 c2. apply orderly_choose. Qed.

End spec.
