(* ===== verification/PredictorReads.v ===== *)
(** * PredictorReads: what a prediction that meets an update reads

    The coefficients of a model are kept twice; an update writes those that are not
    in use and then exchanges the two.  A prediction reads [buffer_] once and then
    three coefficients: they are the ones that were in use then, unless a second
    update of the model begins before it returns; and no second update does, because
    a full window takes feedback, which the thread that predicts does not give. *)

From S2P Require Import Prelude CText Effects Strtol CFloat Services Serializers DoubleBuffer CostModel.
From S2P Require Import CostModelSpec PredictorThreads PredictorThreadsSpec.

Section spec.
Context (pow : double -> double -> double)
  (solve : (Observation -> Vec -> double) -> list Observation -> nat -> Vec).
Implicit Types c : pconfig.

Abbreviation choose := (choose pow solve).
Abbreviation worker_step := (worker_step pow solve).
Abbreviation reached := (reached pow solve).

(** The model an update is under way for, and the coefficients it writes. *)
Definition update_of (w : worker_pc) : option (Z * bool) :=
  match w with WWrite _ _ i _ b _ | WFlip _ _ i b => Some (i, b) | _ => None end.

(** [x] was in use after [v] updates of the model. *)
Definition was_in_use c (i : Z) (v : nat) (x : Vec) : Prop := published c i !! v = Some x.

Record model_coherent c (i : Z) : Prop := {
  mc_current : last (published c i) = Some (coeffs_ (model_of i (pred c)) (buffer_ (model_of i (pred c))));
  mc_updating b : update_of (worker c) = Some (i, b) ->
    begun c i = length (published c i) /\ b = negb (buffer_ (model_of i (pred c)));
  mc_idle : (forall b, update_of (worker c) <> Some (i, b)) ->
    S (begun c i) = length (published c i) /\
    forall v, length (published c i) = S (S v) ->
      was_in_use c i v (coeffs_ (model_of i (pred c)) (negb (buffer_ (model_of i (pred c)))));
}.

(** A prediction under way. *)
Definition reader_coherent c : Prop :=
  match main c with
  | MRead i _ _ b v got =>
      (v < length (published c i))%nat /\
      ((begun c i <= S v)%nat ->
        (length (published c i) = S v -> b = buffer_ (model_of i (pred c))) /\
        (length (published c i) = S (S v) -> b = negb (buffer_ (model_of i (pred c)))) /\
        exists x, was_in_use c i v x /\ coeffs_ (model_of i (pred c)) b = x /\
          forall k y, got k = Some y -> y = vget k x)
  | _ => True
  end.

(** A prediction that returned before a second update began. *)
Definition prediction_ok (n : double) c (p : predicted) : Prop :=
  (pr_version p < length (published c (pr_model p)))%nat /\
  ((pr_begun p <= S (pr_version p))%nat ->
    exists x, was_in_use c (pr_model p) (pr_version p) x /\ pr_value p = predict_with n (pr_read p) (pr_write p) x).

Record coherent (n : Z) c : Prop := {
  co_nprocs : nprocs_ (pred c) = n;
  co_model i : model_coherent c i;
  co_reader : reader_coherent c;
  co_returned : Forall (prediction_ok (double_of_Z n) c) (returned c);
}.

(** ** Steps that change no coefficients *)

Definition same_coeffs c c' : Prop := forall i,
  coeffs_ (model_of i (pred c')) = coeffs_ (model_of i (pred c)) /\
  buffer_ (model_of i (pred c')) = buffer_ (model_of i (pred c)).

Lemma same_coeffs_on i f c :
  (forall m, coeffs_ (f m) = coeffs_ m /\ buffer_ (f m) = buffer_ m) -> same_coeffs c (on_model i f c).
Proof. intros Hf j. rewrite model_on. case_decide; [subst; apply Hf|done]. Qed.

Lemma coherent_quiet n c c' :
  same_coeffs c c' -> nprocs_ (pred c') = nprocs_ (pred c) -> published c' = published c -> begun c' = begun c ->
  update_of (worker c') = update_of (worker c) -> returned c' = returned c -> reader_coherent c' ->
  coherent n c -> coherent n c'.
Proof.
  intros S N P B U L Hr [C1 C2 C3 C4]. split; [by rewrite N| |done|].
  - intros i. destruct (S i) as [Sc Sb]. destruct (C2 i) as [A1 A2 A3]. unfold was_in_use in *.
    split; unfold was_in_use; rewrite P, ?Sc, ?Sb, ?U, ?B; done.
  - rewrite L. eapply Forall_impl; [exact C4|]. intros p. unfold prediction_ok, was_in_use. by rewrite P.
Qed.

(** The reader is where it was, or no longer a reader. *)
Lemma reader_quiet c c' :
  same_coeffs c c' -> published c' = published c -> begun c' = begun c ->
  (main c' = main c \/ match main c' with MRead _ _ _ _ _ _ => False | _ => True end) ->
  reader_coherent c -> reader_coherent c'.
Proof.
  intros S P B Hm. unfold reader_coherent, was_in_use. rewrite P, B. destruct Hm as [-> | Hm].
  - destruct (main c) as [| | | | |i r w b v got| |]; try done. by destruct (S i) as [-> ->].
  - by destruct (main c').
Qed.

Lemma coherent_same n c c' :
  same_coeffs c c' -> nprocs_ (pred c') = nprocs_ (pred c) -> published c' = published c -> begun c' = begun c ->
  update_of (worker c') = update_of (worker c) -> returned c' = returned c ->
  (main c' = main c \/ match main c' with MRead _ _ _ _ _ _ => False | _ => True end) ->
  coherent n c -> coherent n c'.
Proof. intros S N P B U L Hm C. apply (coherent_quiet n c); try done. apply (reader_quiet c); try done. apply C. Qed.

(** ** The reader *)

Lemma last_length {A} (l : list A) x : last l = Some x -> l !! Nat.pred (length l) = Some x /\ (0 < length l)%nat.
Proof. intros E. rewrite last_lookup in E. split; [done|]. destruct l; [done|]. simpl. lia. Qed.

Lemma coherent_main n c c' : coherent n c -> main_step c = Some c' -> coherent n c'.
Proof.
  intros C. unfold main_step. destruct (main c) as [| | |k|i r w|i r w b v got| |] eqn:E; try done.
  - intros [= <-]. apply (coherent_same n c); try done. by right.
  - intros [= <-]. apply (coherent_same n c); try done. by right.
  - intros [= <-]. apply (coherent_quiet n c); try done. unfold reader_coherent. cbn [main with_main published begun pred].
    pose proof (co_model _ _ C i) as [M1 M2 M3]. apply last_length in M1 as [M1 Hl].
    change (published (with_main _ c)) with (published c). split; [lia|]. intros _. split; [done|].
    split; [intros; lia|]. eexists. split; [exact M1|]. done.
  - destruct (got K0) as [x0|] eqn:E0, (got K1) as [x1|] eqn:E1, (got K2) as [x2|] eqn:E2; try done.
    intros [= <-]. destruct C as [C1 C2 C3 C4]. unfold reader_coherent in C3. rewrite E in C3.
    split; [done| |done|].
    + intros j. by destruct (C2 j).
    + apply Forall_app. split; [exact C4|]. apply Forall_singleton. split; [apply C3|]. intros Hb.
      destruct C3 as (_ & H). destruct (H Hb) as (_ & _ & x & X1 & X2 & X3). exists x. split; [exact X1|].
      cbn [pr_value pr_read pr_write]. rewrite C1. f_equal. apply vec_eq. intros [].
      * exact (X3 K0 x0 E0).
      * exact (X3 K1 x1 E1).
      * exact (X3 K2 x2 E2).
  - destruct (worker c) eqn:Ew; try done. intros [= <-]. apply (coherent_same n c); try done. by right.
Qed.

Lemma coherent_read n k c c' : coherent n c -> read_step k c = Some c' -> coherent n c'.
Proof.
  intros C. unfold read_step. destruct (main c) as [| | | | |i r w b v got| |] eqn:E; try done.
  intros [= <-]. apply (coherent_quiet n c); try done. pose proof (co_reader _ _ C) as R.
  unfold reader_coherent in *. rewrite E in R. cbn [main with_main].
  destruct R as (Hv & R). split; [exact Hv|]. intros Hb. destruct (R Hb) as (R1 & R2 & x & X1 & X2 & X3).
  split; [exact R1|]. split; [exact R2|]. exists x. split; [exact X1|]. split; [exact X2|].
  intros k' y. unfold fn_upd. case_decide as Ek; [|apply X3]. subst k'. intros [= <-]. f_equal. exact X2.
Qed.

(** ** Updates *)

(** The solution: the update begins. *)
Lemma coherent_solve n last l i datavec c :
  coherent n c -> update_of (worker c) = None -> coherent n (solve_step pow solve last l i datavec c).
Proof.
  intros C U. pose proof C as [C1 C2 C3 C4]. pose proof (C2 i) as [A1 A2 A3].
  destruct A3 as [Hb Hold]; [by rewrite U|].
  unfold solve_step. split; [done| | |].
  - intros j. destruct (C2 j) as [B1 B2 B3]. cbn [published begun worker pred]. destruct (decide (j = i)) as [->|Hj].
    + split; cbn [published begun worker pred]; [exact B1| |].
      * intros b [= <-]. rewrite fn_upd_eq. by split.
      * intros H. by destruct (H (negb (buffer_ (model_of i (pred c))))).
    + split; cbn [published begun worker pred update_of]; [exact B1|congruence|].
      intros _. rewrite fn_upd_ne by done. apply B3. by rewrite U.
  - unfold reader_coherent in *. cbn [main published begun pred]. destruct (main c) as [| | | | |k r w b v got| |]; try done.
    destruct C3 as (Hv & R). split; [exact Hv|]. destruct (decide (k = i)) as [->|Hk]; [|by rewrite fn_upd_ne].
    rewrite fn_upd_eq. intros H. by apply R; lia.
  - exact C4.
Qed.

(** A coefficient of the buffer that is not in use. *)
Lemma coherent_write n c i f b w' :
  coherent n c -> update_of (worker c) = Some (i, b) -> update_of w' = Some (i, b) ->
  (forall m, coeffs_ (f m) (negb b) = coeffs_ m (negb b) /\ buffer_ (f m) = buffer_ m) ->
  coherent n (with_worker w' (on_model i f c)).
Proof.
  intros C U U' Hf. pose proof C as [C1 C2 C3 C4]. destruct (C2 i) as [A1 A2 A3].
  destruct (A2 b U) as [Hb Hbuf]. set (c' := with_worker w' (on_model i f c)).
  assert (forall j, model_of j (pred c') = if decide (j = i) then f (model_of i (pred c)) else model_of j (pred c)) as Hm
    by (intros j; apply model_on).
  split; [done| | |exact C4].
  - intros j. destruct (C2 j) as [B1 B2 B3]. destruct (decide (j = i)) as [->|Hj].
    + destruct (Hf (model_of i (pred c))) as [Hc Hbf]. split; rewrite Hm, decide_True by done; rewrite ?Hbf.
      * rewrite Hbuf, negb_involutive in Hc. rewrite Hc. exact B1.
      * intros b' E. change (worker c') with w' in E. rewrite U' in E. injection E as <-. by split.
      * intros H. by destruct (H b).
    + split; rewrite ?Hm; rewrite ?decide_False by done; [exact B1| |].
      * intros b' E. change (worker c') with w' in E. rewrite U' in E. congruence.
      * intros _. apply B3. rewrite U. congruence.
  - unfold reader_coherent in *. change (main c') with (main c). destruct (main c) as [| | | | |k r w b' v got| |]; try done.
    destruct C3 as (Hv & R). split; [exact Hv|]. intros H. destruct (R H) as (R1 & R2 & x & X1 & X2 & X3).
    rewrite Hm. destruct (decide (k = i)) as [->|Hk]; [|by split; [|split; [|exists x]]].
    destruct (Hf (model_of i (pred c))) as [Hc Hbf]. rewrite Hbf. split; [exact R1|]. split; [exact R2|].
    exists x. split; [exact X1|]. split; [|exact X3].
    change (begun c') with (begun c) in H. assert (b' = negb b) as ->.
    { rewrite Hbuf, negb_involutive. apply R1. lia. }
    by rewrite Hc.
Qed.

(** The exchange. *)
Lemma coherent_flip n last l i b c :
  coherent n c -> update_of (worker c) = Some (i, b) -> coherent n (flip_step last l i b c).
Proof.
  intros C U. pose proof C as [C1 C2 C3 C4]. destruct (C2 i) as [A1 A2 A3].
  destruct (A2 b U) as [Hb Hbuf]. set (c' := flip_step last l i b c).
  assert (forall j, model_of j (pred c') =
    if decide (j = i) then with_buffer b (model_of i (pred c)) else model_of j (pred c)) as Hm by (intros j; apply model_on).
  assert (published c' = fn_upd i (published c i ++ [coeffs_ (model_of i (pred c)) b]) (published c)) as Hp.
  { unfold c', flip_step. cbn [published]. rewrite model_on, decide_True by done. done. }
  assert (forall j v x, was_in_use c j v x -> was_in_use c' j v x) as Hw.
  { intros j v x. unfold was_in_use. rewrite Hp. unfold fn_upd. case_decide; [subst|done]. apply lookup_app_l_Some. }
  assert (forall j, (length (published c j) <= length (published c' j))%nat) as Hlen.
  { intros j. rewrite Hp. unfold fn_upd. case_decide; [subst; rewrite length_app; lia|done]. }
  split; [done| | |].
  - intros j. destruct (C2 j) as [B1 B2 B3]. destruct (decide (j = i)) as [->|Hj].
    + split; rewrite ?Hm, ?Hp, ?fn_upd_eq, ?decide_True by done; cbn [buffer_ coeffs_ with_buffer].
      * by rewrite last_snoc.
      * done.
      * intros _. change (begun c') with (begun c). rewrite length_app. split; [simpl; lia|]. intros v Hv.
        apply Hw. apply last_length in B1 as [B1 _]. unfold was_in_use. rewrite Hbuf, negb_involutive.
        rewrite <- B1. f_equal. simpl in Hv. lia.
    + split; rewrite ?Hm, ?Hp, ?fn_upd_ne, ?decide_False by done; [exact B1|done|].
      intros _. change (begun c') with (begun c). destruct B3 as [B3 B4]; [rewrite U; congruence|].
      split; [exact B3|]. intros v Hv. by apply Hw, B4.
  - unfold reader_coherent in *. change (main c') with (main c). destruct (main c) as [| | | | |k r w b' v got| |]; try done.
    destruct C3 as (Hv & R). specialize (Hlen k). split; [lia|]. change (begun c') with (begun c). intros H.
    destruct (R H) as (R1 & R2 & x & X1 & X2 & X3).
    destruct (decide (k = i)) as [->|Hk].
    + rewrite Hm, Hp, fn_upd_eq, decide_True, length_app by done. cbn [buffer_ coeffs_ with_buffer length].
      split; [intros; lia|]. split.
      * intros _. rewrite Hbuf, negb_involutive. apply R1. lia.
      * exists x. by split; [apply Hw|].
    + rewrite Hm, Hp, fn_upd_ne, decide_False by done. split; [done|]. split; [done|]. exists x. by split; [apply Hw|].
  - eapply Forall_impl; [exact C4|]. intros p [P1 P2]. split; [specialize (Hlen (pr_model p)); lia|].
    intros H. destruct (P2 H) as (x & X1 & X2). exists x. by split; [apply Hw|].
Qed.

Lemma coherent_worker n c c' : coherent n c -> worker_step c = Some c' -> coherent n c'.
Proof.
  intros C. unfold PredictorThreads.worker_step. destruct (worker c) as [last|last [|i l]|last l i second datavec|last l i coeffs b k|
    last l i b|last| | | |] eqn:E; intros [= <-].
  - apply (coherent_same n c); try done; [|by left]. cbn [worker with_worker]. rewrite E. by destruct (window_full c), last.
  - apply (coherent_same n c); try done; [by cbn [worker with_worker]; rewrite E|by left].
  - apply (coherent_same n c); try done; [by apply same_coeffs_on|by cbn [worker with_worker]; rewrite E|by left].
  - unfold pop_step. destruct (dataset_ _ _) as [|o rest].
    + destruct second; [destruct datavec as [|o datavec]|].
      * apply (coherent_same n c); try done; [by cbn [worker with_worker]; rewrite E|by left].
      * apply coherent_solve; [done|by rewrite E].
      * apply (coherent_same n c); try done; [by cbn [worker with_worker]; rewrite E|by left].
    + apply (coherent_same n c); try done; [by apply same_coeffs_on|by cbn [worker with_worker]; rewrite E|by left].
  - destruct k as [k|]; cbn [write_step].
    + apply (coherent_write n c i _ b); [done|by rewrite E|done|]. intros m. cbn. by destruct b.
    + apply (coherent_same n c); try done; [by apply same_coeffs_on|by cbn [worker with_worker]; rewrite E|by left].
  - apply coherent_flip; [done|by rewrite E].
  - unfold commit_step. pose proof (CommitMetrics_keeps (pred c)) as K.
    destruct (CommitMetrics (pred c)) as [o p]. cbn [snd] in K.
    apply (coherent_same n c); try done; [|by apply K| |by left].
    + intros j. split; [apply (ks_coeffs _ _ K)|apply (ks_buffer _ _ K)].
    + cbn [worker with_worker]. rewrite E. by destruct o, last.
  - apply (coherent_same n c); try done; [by cbn [worker with_worker]; rewrite E|by left].
  - apply (coherent_same n c); try done; [by cbn [worker with_worker]; rewrite E|by left].
Qed.

Lemma coherent_choose n ch c c' : coherent n c -> choose ch c = Some c' -> coherent n c'.
Proof.
  intros C. destruct ch as [k|tid|k| |]; cbn [PredictorThreads.choose].
  - unfold begin_call. destruct (main c), k; try done; try (destruct (known _ c); [|done]);
      intros [= <-]; (apply (coherent_same n c); try done; by right).
  - unfold push_step. destruct (main c); try done. intros [= <-].
    apply (coherent_same n c); try done; [by apply same_coeffs_on|by right].
  - by apply coherent_read.
  - by apply coherent_main.
  - by apply coherent_worker.
Qed.

Lemma coherent_started p : coherent (nprocs_ p) (started p).
Proof.
  split; [done| |done|done]. intros i. split; [done|done|]. intros _. split; [done|]. intros v Hv.
  cbn in Hv. lia.
Qed.

(** ** Only one update begins during a prediction

    The main thread gives no feedback meanwhile, so once the worker has reset the
    window, it does not fit again before the prediction has returned. *)

(** The worker may still begin an update of the model if the main thread waits. *)
Definition may_update (i : Z) c : bool :=
  match worker c with
  | WCheck _ | WWait => window_full c
  | WFit _ l | WWrite _ l _ _ _ _ | WFlip _ l _ _ => bool_decide (i ∈ l)
  | WPop _ l j _ _ => bool_decide (i ∈ j :: l)
  | _ => false
  end.

Definition to_begin (i : Z) c : nat := if may_update i c then 1 else 0.

Definition once c : Prop :=
  0 < window_size_ (pred c) /\
  match main c with MRead i _ _ _ v _ => (begun c i + to_begin i c <= S v)%nat | _ => True end /\
  Forall (fun r => pr_begun r <= S (pr_version r))%nat (returned c).

Lemma to_begin_true i c : may_update i c = true -> to_begin i c = 1%nat.
Proof. unfold to_begin. by intros ->. Qed.

Lemma to_begin_le i c : (to_begin i c <= 1)%nat.
Proof. unfold to_begin. destruct (may_update i c); lia. Qed.

Lemma to_begin_mono i c c' : (may_update i c' = true -> may_update i c = true) -> (to_begin i c' <= to_begin i c)%nat.
Proof. unfold to_begin. intros H. destruct (may_update i c'); [by rewrite H|destruct (may_update i c); lia]. Qed.

(** A step of the worker begins no more updates than it could before. *)
Lemma worker_begins i c c' :
  orderly c -> 0 < window_size_ (pred c) -> worker_step c = Some c' ->
  (begun c' i + to_begin i c' <= begun c i + to_begin i c)%nat.
Proof.
  intros [A _] Hw. unfold PredictorThreads.worker_step, agenda in *.
  destruct (worker c) as [last|last [|j l]|last l j second datavec|last l j coeffs b k|last l j b|last| | | |] eqn:E;
    intros [= <-].
  - change (begun (with_worker _ c) i) with (begun c i). apply Nat.add_le_mono_l, to_begin_mono.
    unfold may_update. cbn [worker with_worker]. rewrite E.
    change (window_full (with_worker _ c)) with (window_full c). destruct (window_full c) eqn:F; [done|]. by destruct last.
  - apply Nat.add_le_mono_l, to_begin_mono. unfold may_update. cbn [worker with_worker]. done.
  - apply Nat.add_le_mono_l, to_begin_mono. unfold may_update. cbn [worker with_worker]. by rewrite E.
  - unfold pop_step. destruct (dataset_ (model_of j (pred c)) (negb second)) as [|o rest].
    + destruct second; [destruct datavec as [|o datavec]|].
      * apply Nat.add_le_mono_l, to_begin_mono. unfold may_update. cbn [worker with_worker]. rewrite E.
        rewrite !bool_decide_eq_true. intros. by right.
      * apply NoDup_cons in A as [A1 A2]. unfold solve_step, to_begin, may_update. cbn [begun worker]. rewrite E.
        unfold fn_upd. destruct (decide (i = j)) as [->|Hi].
        -- rewrite (bool_decide_eq_false_2 (j ∈ l)), (bool_decide_eq_true_2 (j ∈ j :: l)) by (done || by left). lia.
        -- rewrite (bool_decide_ext (i ∈ j :: l) (i ∈ l)) by (rewrite elem_of_cons; intuition congruence). lia.
      * apply Nat.add_le_mono_l, to_begin_mono. unfold may_update. cbn [worker with_worker]. by rewrite E.
    + apply Nat.add_le_mono_l, to_begin_mono. unfold may_update. cbn [worker with_worker]. by rewrite E.
  - assert (begun (write_step last l j coeffs b k c) = begun c) as -> by by destruct k.
    apply Nat.add_le_mono_l, to_begin_mono. unfold may_update. rewrite E. by destruct k.
  - apply Nat.add_le_mono_l, to_begin_mono. unfold may_update, flip_step. cbn [worker]. by rewrite E.
  - unfold commit_step. destruct (CommitMetrics (pred c)) as [o p]. cbn [begun with_worker with_pred].
    apply Nat.add_le_mono_l, to_begin_mono. unfold may_update. cbn [worker with_worker]. by destruct o, last.
  - apply Nat.add_le_mono_l, to_begin_mono. unfold may_update, window_full. cbn. by destruct (Z.leb_spec (window_size_ (pred c)) 0); [lia|].
  - apply Nat.add_le_mono_l, to_begin_mono. unfold may_update. cbn [worker with_worker]. by rewrite E.
Qed.

(** Where an update is under way, the turn does not come back to the model. *)
Lemma updating_last i b c : orderly c -> update_of (worker c) = Some (i, b) -> may_update i c = false.
Proof.
  intros [A _]. unfold agenda, may_update in *. destruct (worker c); try done; cbn [update_of]; intros [= -> ->];
    apply NoDup_cons in A as [A1 A2]; by apply bool_decide_eq_false_2.
Qed.

Lemma once_worker c c' : orderly c -> once c -> worker_step c = Some c' -> once c'.
Proof.
  intros O (W & Hm & Hr) E. pose proof (fun i => worker_begins i c c' O W E) as Hb.  unfold once.
  assert (main c' = main c /\ returned c' = returned c /\ window_size_ (pred c') = window_size_ (pred c)) as (-> & -> & ->).
  { clear -E. unfold PredictorThreads.worker_step in E.
    destruct (worker c) as [last|last [|j l]|last l j second datavec|last l j coeffs b k|last l j b|last| | | |];
      try discriminate E; injection E as <-; try done.
    - unfold pop_step. destruct (dataset_ _ _); [by destruct second, datavec|done].
    - by destruct k.
    - unfold commit_step. pose proof (CommitMetrics_keeps (pred c)) as K.
      destruct (CommitMetrics (pred c)) as [o p]. split; [done|]. split; [done|]. by apply (ks_window _ _ K). }
  split; [done|]. split; [|done]. destruct (main c) as [| | | | |i r w b v got| |]; try done. specialize (Hb i). lia.
Qed.

Lemma once_main n c c' : coherent n c -> orderly c -> once c -> main_step c = Some c' -> once c'.
Proof.
  intros C O (W & Hm & Hr). unfold main_step. destruct (main c) as [| | |k|i r w|i r w b v got| |] eqn:E; try done.
  - by intros [= <-].
  - by intros [= <-].
  - intros [= <-]. split; [done|]. split; [|done]. cbn [main with_main].
    change (begun (with_main _ c) i) with (begun c i). change (to_begin i (with_main _ c)) with (to_begin i c).
    pose proof (to_begin_le i c). destruct (co_model _ _ C i) as [_ M2 M3].
    assert ((exists b, update_of (worker c) = Some (i, b)) \/ forall b, update_of (worker c) <> Some (i, b)) as [[b Hu]|Hu].
    { destruct (update_of (worker c)) as [[j b]|]; [|by right]. destruct (decide (j = i)) as [->|]; [left; by exists b|].
      right. intros b'. congruence. }
    + unfold to_begin. rewrite (updating_last i b c O Hu). destruct (M2 b Hu) as [-> _]. lia.
    + destruct (M3 Hu) as [H3 _]. lia.
  - destruct (got K0), (got K1), (got K2); try done. intros [= <-]. split; [done|]. split; [done|].
    apply Forall_app. split; [done|]. apply Forall_singleton. cbn. lia.
  - destruct (worker c); try done. by intros [= <-].
Qed.

Lemma once_choose n ch c c' : coherent n c -> orderly c -> once c -> choose ch c = Some c' -> once c'.
Proof.
  intros C O I. destruct ch as [k|tid|k| |]; cbn [PredictorThreads.choose].
  - destruct I as (W & _ & Hr). unfold begin_call.
    destruct (main c), k; try done; try (destruct (known _ c); [|done]); by intros [= <-].
  - destruct I as (W & _ & Hr). unfold push_step. destruct (main c); try done. by intros [= <-].
  - destruct I as (W & Hm & Hr). unfold read_step. destruct (main c); try done. by intros [= <-].
  - by eapply once_main.
  - by apply once_worker.
Qed.

(** C20: whatever the schedule, for a window of at least one measurement (the
    default is 256): a prediction has the value of coefficients that were in use
    when it began to read, all three of one update, although the worker may write
    the others and exchange the two meanwhile. *)
Theorem predictions_consistent p c r :
  NoDup (storage_configs_ p) -> 0 < window_size_ p -> reached p c -> r ∈ returned c ->
  exists x, published c (pr_model r) !! pr_version r = Some x /\
    pr_value r = predict_with (double_of_Z (nprocs_ p)) (pr_read r) (pr_write r) x.
Proof.
  intros Hd Hw R Hr.
  assert (coherent (nprocs_ p) c /\ orderly c /\ once c) as (C & _ & _ & _ & Hb).
  { apply (reached_inv pow solve (fun c => coherent (nprocs_ p) c /\ orderly c /\ once c) p c); [| |exact R].
    - split; [apply coherent_started|]. by repeat split.
    - intros ch c1 c2 (C & O & I) E. split; [by eapply coherent_choose|]. split; [by eapply orderly_choose|].
      by eapply once_choose. }
  pose proof (proj1 (Forall_forall _ _) (co_returned _ _ C) r Hr) as [_ H]. apply H.
  exact (proj1 (Forall_forall _ _) Hb r Hr).
Qed.

End spec.
