(* ===== verification/PredictorTurns.v ===== *)
(** * PredictorTurns: the turns of the worker end, and what a turn alone does

    The work left in a turn is bounded by what waits in the datasets; each step of
    the worker takes some of it away, and only a [push] of the main thread adds to
    it.  So no feedback can keep a turn going without being counted, and [Finalize],
    behind which there is no feedback, returns unless a commit throws.  A turn that
    meets no call is [Run_turn] of CostModel. *)

From Stdlib Require Import FunctionalExtensionality.
From S2P Require Import Prelude CText Effects Strtol CFloat Services Serializers DoubleBuffer CostModel.
From S2P Require Import CostModelSpec PredictorThreads PredictorThreadsSpec.

Section spec.
Context (pow : double -> double -> double)
  (solve : (Observation -> Vec -> double) -> list Observation -> nat -> Vec).
Implicit Types c : pconfig.

Abbreviation choose := (choose pow solve).
Abbreviation schedule := (schedule pow solve).
Abbreviation worker_step := (worker_step pow solve).
Abbreviation reached := (reached pow solve).

(** ** The work left in a turn *)

Definition pending (i : Z) (p : Predictor) : nat := length (waiting (model_of i p)).

(** A fit of a model: its start, two steps for each measurement, the two tests that
    find none, and five steps of the update. *)
Definition fit_work (p : Predictor) (l : list Z) : nat := sum_list_with (fun i => 2 * pending i p + 8)%nat l.

Definition write_work (k : option coord) : nat :=
  match k with Some K0 => 5 | Some K1 => 4 | Some K2 => 3 | None => 2 end.

Definition turn_work c : nat :=
  match worker c with
  | WCheck _ => fit_work (pred c) (storage_configs_ (pred c)) + 4
  | WFit _ l => fit_work (pred c) l + 3
  | WPop _ l i second _ => 2 * pending i (pred c) + fit_work (pred c) l + (if second then 9 else 10)
  | WWrite _ l _ _ _ k => write_work k + fit_work (pred c) l + 3
  | WFlip _ l _ _ => fit_work (pred c) l + 4
  | WCommit _ => 2
  | WReset => 1
  | WWait | WEnd | WCrashed => 0
  end.

(** Between turns, or behind the last one. *)
Definition at_rest (w : worker_pc) : bool := match w with WWait | WEnd | WCrashed => true | _ => false end.

Lemma worker_steps c : at_rest (worker c) = false -> exists c', worker_step c = Some c'.
Proof. unfold PredictorThreads.worker_step. destruct (worker c) as [|? [|]| | | | | | | |]; try done; by eexists. Qed.

Lemma fit_work_ext p p' l :
  (forall i, pending i p' = pending i p) -> fit_work p' l = fit_work p l.
Proof. intros E. unfold fit_work. induction l as [|i l IH]; [done|]. cbn [sum_list_with]. by rewrite E, IH. Qed.

Lemma pending_keeps p p' i : dataset_ (model_of i p') = dataset_ (model_of i p) -> pending i p' = pending i p.
Proof. unfold pending, waiting. by intros ->. Qed.

Lemma pending_on i f c j : (forall m, dataset_ (f m) = dataset_ m) -> pending j (pred (on_model i f c)) = pending j (pred c).
Proof. intros Hf. apply pending_keeps. by apply dataset_on. Qed.

Lemma fit_work_le p p' l : (forall i, pending i p' <= pending i p)%nat -> (fit_work p' l <= fit_work p l)%nat.
Proof. intros E. unfold fit_work. induction l as [|i l IH]; [done|]. cbn [sum_list_with]. specialize (E i). lia. Qed.

(** A measurement is taken. *)
Lemma pending_pop i tid o rest c :
  dataset_ (model_of i (pred c)) tid = o :: rest ->
  let c' := on_model i (with_dataset (bool_upd tid rest (dataset_ (model_of i (pred c))))) c in
  pending i (pred c) = S (pending i (pred c')) /\ forall j, (pending j (pred c') <= pending j (pred c))%nat.
Proof.
  intros E c'. assert (pending i (pred c) = S (pending i (pred c'))) as H.
  { unfold c', pending, waiting. rewrite model_on, decide_True by done. cbn [dataset_ with_dataset].
    rewrite !length_app. destruct tid; cbn [bool_upd Bool.eqb]; rewrite E; simpl; lia. }
  split; [exact H|]. intros j. destruct (decide (j = i)) as [->|Hj]; [lia|].
  unfold c', pending. by rewrite model_on, decide_False.
Qed.

(** Every step of the worker does some of the work. *)
Lemma worker_step_work c c' :
  at_rest (worker c) = false -> worker_step c = Some c' -> (turn_work c' < turn_work c)%nat.
Proof.
  intros Hr. unfold PredictorThreads.worker_step. unfold turn_work at 2.
  destruct (worker c) as [last|last [|i l]|last l i second datavec|last l i coeffs b k|last l i b|last| | | |] eqn:E;
    try done; intros [= <-].
  - unfold turn_work. cbn [worker with_worker pred]. destruct (window_full c); [simpl; lia|]. destruct last; simpl; lia.
  - unfold turn_work. simpl. lia.
  - unfold turn_work. cbn [worker with_worker]. change (pred (with_worker _ ?x)) with (pred x).
    rewrite (fit_work_ext (pred c)), pending_on by (done || (intros j; by apply pending_on)).
    unfold fit_work. cbn [sum_list_with]. lia.
  - unfold pop_step. destruct (dataset_ (model_of i (pred c)) (negb second)) as [|o rest] eqn:Ed.
    + destruct second; [destruct datavec|]; unfold turn_work; cbn [worker with_worker solve_step write_work pred].
      * lia.
      * rewrite (fit_work_ext (pred c)) by done. lia.
      * lia.
    + destruct (pending_pop i (negb second) o rest c Ed) as [H1 H2]. unfold turn_work. cbn [worker with_worker].
      change (pred (with_worker _ ?x)) with (pred x). pose proof (fit_work_le _ _ l H2). destruct second; lia.
  - destruct k as [k|]; unfold turn_work; cbn [write_step worker with_worker];
      change (pred (with_worker _ ?x)) with (pred x); rewrite (fit_work_ext (pred c)) by (intros j; by apply pending_on).
    + destruct k; simpl; lia.
    + simpl. lia.
  - unfold turn_work, flip_step. cbn [worker pred].
    change (set_model i (with_buffer b (model_of i (pred c))) (pred c)) with (pred (on_model i (with_buffer b) c)).
    rewrite (fit_work_ext (pred c)) by (intros j; by apply pending_on). lia.
  - unfold commit_step. destruct (CommitMetrics (pred c)) as [[]]; destruct last; unfold turn_work; simpl; lia.
  - unfold turn_work. simpl. lia.
Qed.

(** ** What the main thread adds *)

Lemma pending_push i tid o c j :
  let c' := on_model i (fun m => with_dataset (push tid o (dataset_ m)) m) c in
  pending j (pred c') = (pending j (pred c) + if decide (j = i) then 1 else 0)%nat.
Proof.
  unfold pending. rewrite model_on. case_decide; [subst j|lia]. unfold waiting. cbn [dataset_ with_dataset].
  rewrite !length_app. unfold push. destruct tid; cbn [bool_upd Bool.eqb]; rewrite length_app; simpl; lia.
Qed.

Lemma fit_work_push i tid o c l :
  NoDup l ->
  let c' := on_model i (fun m => with_dataset (push tid o (dataset_ m)) m) c in
  fit_work (pred c') l = (fit_work (pred c) l + if decide (i ∈ l) then 2 else 0)%nat.
Proof.
  intros Hd c'. unfold fit_work. induction Hd as [|j l Hj Hd IH]; [done|]. cbn [sum_list_with].
  rewrite IH. unfold c'. rewrite pending_push.
  destruct (decide (j = i)) as [->|Hn].
  - rewrite decide_False by done. rewrite decide_True by (by left). lia.
  - rewrite (decide_ext (i ∈ j :: l) (i ∈ l)) by (rewrite elem_of_cons; intuition congruence). lia.
Qed.

(** Only a [push] adds work, two steps at most. *)
Lemma other_step_work ch c c' :
  orderly c -> ch <> WorkerStep -> choose ch c = Some c' ->
  worker c' = worker c /\
  (turn_work c' <= turn_work c + match ch with Push _ => 2 | _ => 0 end)%nat.
Proof.
  intros [A C] Hn. destruct ch as [k|tid|k| |]; cbn [PredictorThreads.choose]; try done.
  - unfold begin_call. destruct (main c), k; try done; try (destruct (known _ c); [|done]);
      intros [= <-]; (split; [done|]; by rewrite Nat.add_0_r).
  - unfold push_step. destruct (main c) as [|i o| | | | | |]; try done. intros [= <-]. split; [done|].
    set (c1 := on_model i (fun m => with_dataset (push tid o (dataset_ m)) m) c).
    unfold turn_work, agenda in *. cbn -[fit_work pending c1].
    change (set_model i _ (pred c)) with (pred c1).
    destruct (worker c) as [last|last l|last l j second datavec|last l j coeffs b k|last l j b|last| | | |];
      try (unfold c1; rewrite ?fit_work_push by (done || by apply NoDup_cons in A as [_ A]); try (case_decide; lia); lia).
    apply NoDup_cons in A as [A1 A2]. unfold c1. rewrite fit_work_push, pending_push by done.
    destruct second, (decide (j = i)) as [->|]; try (case_decide; done || lia).
  - unfold read_step. destruct (main c); try done. intros [= <-]. split; [done|]. by rewrite Nat.add_0_r.
  - unfold main_step. destruct (main c) as [| | |n|i r w|i r w b v got| |]; try done.
    + intros [= <-]. split; [done|]. by rewrite Nat.add_0_r.
    + intros [= <-]. split; [done|]. by rewrite Nat.add_0_r.
    + intros [= <-]. split; [done|]. by rewrite Nat.add_0_r.
    + destruct (got K0), (got K1), (got K2); try done. intros [= <-]. split; [done|]. by rewrite Nat.add_0_r.
    + destruct (worker c) eqn:E; try done. intros [= <-]. cbn [worker with_main with_pred]. split; [by rewrite E|].
      unfold turn_work. cbn [worker with_main with_pred]. by rewrite E.
Qed.

Definition is_worker_step (ch : choice) : bool := match ch with WorkerStep => true | _ => false end.
Definition is_push (ch : choice) : bool := match ch with Push _ => true | _ => false end.
Definition count (f : choice -> bool) (chs : list choice) : nat := length (filter (fun ch => f ch = true) chs).

Lemma count_cons f ch chs : count f (ch :: chs) = ((if f ch then 1 else 0) + count f chs)%nat.
Proof. unfold count. rewrite filter_cons. destruct (f ch); [rewrite decide_True by done|rewrite decide_False by done]; simpl; lia. Qed.

(** The worker is busy all along a schedule, but perhaps at its end. *)
Fixpoint busy (chs : list choice) c : Prop :=
  match chs with
  | [] => True
  | ch :: chs' => at_rest (worker c) = false /\ match choose ch c with Some c' => busy chs' c' | None => False end
  end.

Lemma busy_bound chs c : orderly c -> busy chs c -> (count is_worker_step chs <= turn_work c + 2 * count is_push chs)%nat.
Proof.
  revert c. induction chs as [|ch chs IH]; intros c O; [unfold count; simpl; lia|]. cbn [busy]. intros [Hr Hb].
  destruct (choose ch c) as [c'|] eqn:E; [|done]. specialize (IH c' (orderly_choose pow solve _ _ _ O E) Hb).
  rewrite !count_cons. assert (ch = WorkerStep \/ ch <> WorkerStep) as [->|Hn] by (destruct ch; first [by left|by right]).
  - cbn [is_worker_step is_push]. pose proof (worker_step_work c c' Hr E). lia.
  - destruct (other_step_work ch c c' O Hn E) as [_ Hw]. destruct ch; cbn [is_worker_step is_push]; try done; lia.
Qed.

(** C22: A turn of the worker ends, however much feedback overlaps it: the worker can
    always go on, and in a schedule in which it never rests it takes at most the
    steps of the work that waits and two for each measurement pushed meanwhile. *)
Theorem turns_end p c :
  NoDup (storage_configs_ p) -> reached p c ->
  (at_rest (worker c) = false -> exists c', worker_step c = Some c') /\
  (forall chs, busy chs c -> (count is_worker_step chs <= turn_work c + 2 * count is_push chs)%nat).
Proof.
  intros Hd R. split; [apply worker_steps|]. intros chs. apply busy_bound. by apply (reached_orderly pow solve p).
Qed.

(** ** The end *)

(** Without other steps the worker comes to rest. *)
Lemma worker_rests c :
  exists k c', schedule (replicate k WorkerStep) c = Some c' /\ at_rest (worker c') = true.
Proof.
  remember (turn_work c) as n eqn:En. revert c En. induction (lt_wf n) as [n _ IH]. intros c En.
  destruct (at_rest (worker c)) eqn:Er; [by exists 0%nat, c|].
  destruct (worker_steps c Er) as [c1 E1]. pose proof (worker_step_work c c1 Er E1).
  destruct (IH (turn_work c1)) with (c := c1) as (k & c' & E & R); [lia|done|].
  exists (S k), c'. split; [|done]. cbn. by rewrite E1.
Qed.

(** The worker is in its last turn. *)
Definition last_turn (w : worker_pc) : bool :=
  match w with
  | WCheck b | WFit b _ | WPop b _ _ _ _ | WWrite b _ _ _ _ _ | WFlip b _ _ _ | WCommit b => b
  | WEnd | WCrashed => true
  | WReset | WWait => false
  end.

Lemma last_turn_step c c' :
  last_turn (worker c) = true -> worker_step c = Some c' -> last_turn (worker c') = true.
Proof.
  unfold PredictorThreads.worker_step. destruct (worker c) as [last|last [|i l]|last l i second datavec|last l i coeffs b k|last l i b|last| | | |];
    try done; cbn [last_turn]; intros -> [= <-]; try done.
  - cbn [worker with_worker]. by destruct (window_full c).
  - unfold pop_step. destruct (dataset_ _ _); [|done]. by destruct second, datavec.
  - by destruct k.
  - unfold commit_step. by destruct (CommitMetrics (pred c)) as [[]].
Qed.

Lemma last_turn_steps k c c' :
  last_turn (worker c) = true -> schedule (replicate k WorkerStep) c = Some c' -> last_turn (worker c') = true.
Proof.
  revert c. induction k as [|k IH]; intros c Hl E; [by injection E as <-|]. cbn in E.
  destruct (worker_step c) as [c1|] eqn:E1; [|done]. eapply IH; [|exact E]. by eapply last_turn_step.
Qed.

Lemma worker_keeps_main c c' : worker_step c = Some c' -> main c' = main c /\ terminate c' = terminate c.
Proof.
  unfold PredictorThreads.worker_step. destruct (worker c) as [last|last [|i l]|last l i second datavec|last l i coeffs b k|last l i b|last| | | |];
    intros [= <-]; try done.
  - unfold pop_step. destruct (dataset_ _ _); [|done]. by destruct second, datavec.
  - by destruct k.
  - unfold commit_step. by destruct (CommitMetrics (pred c)).
Qed.

Lemma steps_keep_main k c c' :
  schedule (replicate k WorkerStep) c = Some c' -> main c' = main c /\ terminate c' = terminate c.
Proof.
  revert c. induction k as [|k IH]; intros c E; [by injection E as <-|]. cbn in E.
  destruct (worker_step c) as [c1|] eqn:E1; [|done]. destruct (IH c1 E) as [-> ->]. by apply worker_keeps_main.
Qed.

Lemma replicate_steps k1 k2 c :
  schedule (replicate (k1 + k2) WorkerStep) c = (c1 ← schedule (replicate k1 WorkerStep) c; schedule (replicate k2 WorkerStep) c1).
Proof. by rewrite replicate_add, schedule_app. Qed.

(** The promise is set while [Finalize] waits, and only then. *)
Lemma reached_terminate p c : reached p c -> main c = MJoin -> terminate c = true.
Proof.
  intros R. apply (reached_inv pow solve (fun c => main c = MJoin -> terminate c = true) p c); [done| |exact R]. clear c R.
  intros ch c c' I. destruct ch as [k|tid|k| |]; cbn [PredictorThreads.choose].
  - unfold begin_call. destruct (main c), k; try done; try (destruct (known _ c); [|done]); by intros [= <-].
  - unfold push_step. destruct (main c); try done. by intros [= <-].
  - unfold read_step. destruct (main c); try done. by intros [= <-].
  - unfold main_step. destruct (main c) as [| | |n|i r w|i r w b v got| |]; try done; try by intros [= <-].
    + destruct (got K0), (got K1), (got K2); try done. by intros [= <-].
    + destruct (worker c) eqn:E; try done. by intros [= <-].
  - intros E. destruct (worker_keeps_main c c' E) as [-> ->]. exact I.
Qed.

(** C23: once [Finalize] waits, the worker finishes its turn, takes the last one and
    ends, unless a commit throws, and then the call ends and the model file is
    closed. *)
Theorem finalize_returns p c :
  reached p c -> main c = MJoin ->
  exists k c', schedule (replicate k WorkerStep) c = Some c' /\ main c' = MJoin /\
    (worker c' = WCrashed \/
     exists c'', main_step c' = Some c'' /\ main c'' = MDone /\ model_file_ (pred c'') = None).
Proof.
  intros R Hm. pose proof (reached_terminate p c R Hm) as Ht.
  assert (forall c, main c = MJoin -> last_turn (worker c) = true -> at_rest (worker c) = true ->
    worker c = WCrashed \/ exists c', main_step c = Some c' /\ main c' = MDone /\ model_file_ (pred c') = None) as Hend.
  { clear. intros c Hm Hl Hr. destruct (worker c) eqn:E; try done; [right|by left].
    unfold main_step. rewrite Hm, E. by eexists. }
  destruct (worker_rests c) as (k1 & c1 & E1 & R1). destruct (steps_keep_main k1 c c1 E1) as [M1 T1].
  rewrite Hm in M1. rewrite Ht in T1.
  destruct (last_turn (worker c1)) eqn:El; [exists k1, c1; split; [done|]; split; [done|]; by apply Hend|].
  assert (worker c1 = WWait) as Ew by by destruct (worker c1).
  assert (worker_step c1 = Some (with_worker (WCheck true) c1)) as E2
    by (unfold PredictorThreads.worker_step; by rewrite Ew, T1).
  destruct (worker_rests (with_worker (WCheck true) c1)) as (k2 & c2 & E3 & R2).
  destruct (steps_keep_main k2 _ c2 E3) as [M2 _].
  exists (k1 + S k2)%nat, c2. rewrite replicate_steps, E1. split; [|split].
  - cbn. by rewrite E2.
  - rewrite M2. exact M1.
  - apply Hend; [by rewrite M2|eapply last_turn_steps; [|exact E3]; done|done].
Qed.

(** ** Turns that meet no call *)

(** Steps of the worker alone. *)
Definition runs c c' : Prop := exists k, schedule (replicate k WorkerStep) c = Some c'.

Lemma runs_refl c : runs c c.
Proof. by exists 0%nat. Qed.

Lemma runs_step c c1 c2 : worker_step c = Some c1 -> runs c1 c2 -> runs c c2.
Proof. intros E [k R]. exists (S k). cbn. by rewrite E. Qed.

Lemma runs_trans c c1 c2 : runs c c1 -> runs c1 c2 -> runs c c2.
Proof. intros [k1 E1] [k2 E2]. exists (k1 + k2)%nat. by rewrite replicate_steps, E1. Qed.

Lemma set_model_twice i m m' p : set_model i m (set_model i m' p) = set_model i m p.
Proof. unfold set_model, set_models. cbn. by rewrite insert_insert_eq. Qed.

Lemma set_model_same i m p : storage_models_ p !! i = Some m -> set_model i m p = p.
Proof. intros E. unfold set_model, set_models. rewrite insert_id by done. by destruct p. Qed.

Lemma model_of_known i m p : storage_models_ p !! i = Some m -> model_of i p = m.
Proof. unfold model_of. by intros ->. Qed.

(** The window is collected. *)
Lemma pops_run fuel last l i m datavec c :
  worker c = WPop last l i false datavec -> storage_models_ (pred c) !! i = Some m ->
  (length (dataset_ m true) + length (dataset_ m false) < fuel)%nat ->
  let '(os, d) := drain fuel (pop true) (dataset_ m) in
  exists c', runs c c' /\ worker c' = WPop last l i true (datavec ++ os) /\ d false = [] /\
    pred c' = set_model i (with_dataset d m) (pred c).
Proof.
  revert m datavec c. induction fuel as [|fuel IH]; intros m datavec c E Hm Hf; [lia|].
  pose proof (model_of_known i m _ Hm) as Em. cbn [drain]. unfold pop at 1. cbn [pop_turns negb].
  assert (forall tid x rest c0 dv, dataset_ m tid = x :: rest -> pred c0 = pred c ->
    worker c0 = WPop last l i (negb tid) dv ->
    let '(os, d) := drain fuel (pop true) (bool_upd tid rest (dataset_ m)) in
    exists c', runs c0 c' /\ worker c' = WPop last l i true (dv ++ x :: os) /\ d false = [] /\
      pred c' = set_model i (with_dataset d m) (pred c)) as Hpop.
  { intros tid x rest c0 dv Ed Ep E0. set (m1 := with_dataset (bool_upd tid rest (dataset_ m)) m).
    set (c1 := with_worker (WPop last l i false (dv ++ [x])) (on_model i (with_dataset (bool_upd tid rest (dataset_ m))) c0)).
    assert (pred c1 = set_model i m1 (pred c)) as P1 by (unfold c1; cbn; by rewrite Ep, Em).
    specialize (IH m1 (dv ++ [x]) c1 eq_refl). change (dataset_ m1) with (bool_upd tid rest (dataset_ m)) in IH.
    destruct (drain fuel _ _) as [os d].
    destruct IH as (c' & R & W & D & P).
    - rewrite P1. cbn. by rewrite lookup_insert_eq.
    - destruct tid; cbn [bool_upd Bool.eqb]; rewrite Ed in Hf; simpl in Hf; lia.
    - exists c'. split; [|split; [|split]].
      + apply (runs_step c0 c1); [|exact R]. unfold PredictorThreads.worker_step, pop_step.
        rewrite E0, Ep, Em, negb_involutive, Ed. done.
      + by rewrite W, <- app_assoc.
      + exact D.
      + by rewrite P, P1, set_model_twice. }
  destruct (dataset_ m true) as [|x rest] eqn:E1.
  - set (c1 := with_worker (WPop last l i true datavec) c).
    assert (worker_step c = Some c1) as S1.
    { unfold PredictorThreads.worker_step, pop_step. rewrite E, Em. cbn [negb]. by rewrite E1. }
    destruct (dataset_ m false) as [|x rest] eqn:E2.
    + exists c1. split; [by eapply runs_step, runs_refl|]. split; [by rewrite app_nil_r|]. split; [done|].
      rewrite set_model_same; [done|]. rewrite Hm. by destruct m.
    + specialize (Hpop false x rest c1 datavec E2 eq_refl eq_refl). destruct (drain _ _ _) as [os d].
      destruct Hpop as (c' & R & H). exists c'. split; [by eapply runs_step|done].
  - specialize (Hpop true x rest c datavec E1 eq_refl E). by destruct (drain _ _ _) as [os d].
Qed.

(** The coefficients are written one by one. *)
Definition write_coord (coeffs : CoeffArray) (b : bool) (k : coord) (m : LinRegModel) : LinRegModel :=
  with_coeffs (bool_upd b (vset k (average (vget k (coeffs_ m b)) (vget k coeffs)) (coeffs_ m b)) (coeffs_ m)) m.

Lemma write_coords coeffs m :
  let b := negb (buffer_ m) in
  let m3 := write_coord coeffs b K2 (write_coord coeffs b K1 (write_coord coeffs b K0 m)) in
  with_buffer b (with_queue (push true coeffs (coeffs_q_ m3)) m3) = UpdateCoeffs coeffs true m.
Proof.
  cbv zeta. unfold UpdateCoeffs, write_coord, with_buffer, with_queue, with_coeffs. cbn. f_equal.
  apply functional_extensionality. intros x. by destruct (buffer_ m), x.
Qed.

(** One step of an update that leaves [m'] in place of the model. *)
Lemma model_step i m m' c w :
  storage_models_ (pred c) !! i = Some m -> (exists c1, worker_step c = Some c1 /\ worker c1 = w /\
    pred c1 = set_model i m' (pred c)) ->
  exists c1, worker_step c = Some c1 /\ worker c1 = w /\ storage_models_ (pred c1) !! i = Some m' /\
    forall m2, set_model i m2 (pred c1) = set_model i m2 (pred c).
Proof.
  intros Hm (c1 & E & W & P). exists c1. split; [done|]. split; [done|]. rewrite P. split; [by apply lookup_insert_eq|].
  intros m2. apply set_model_twice.
Qed.

Lemma write_run last l i coeffs b k m c :
  worker c = WWrite last l i coeffs b (Some k) -> storage_models_ (pred c) !! i = Some m ->
  exists c1, worker_step c = Some c1 /\ worker c1 = WWrite last l i coeffs b (next_coord k) /\
    storage_models_ (pred c1) !! i = Some (write_coord coeffs b k m) /\
    forall m2, set_model i m2 (pred c1) = set_model i m2 (pred c).
Proof.
  intros E Hm. apply (model_step i m); [done|]. unfold PredictorThreads.worker_step. rewrite E.
  eexists. split; [done|]. split; [done|]. cbn. by rewrite (model_of_known i m).
Qed.

Lemma update_run last l i coeffs m c :
  worker c = WWrite last l i coeffs (negb (buffer_ m)) (Some K0) -> storage_models_ (pred c) !! i = Some m ->
  exists c', runs c c' /\ worker c' = WFit last l /\ pred c' = set_model i (UpdateCoeffs coeffs true m) (pred c).
Proof.
  intros E Hm. set (b := negb (buffer_ m)) in *.
  destruct (write_run _ _ _ _ _ _ _ _ E Hm) as (c1 & S1 & W1 & M1 & P1).
  destruct (write_run _ _ _ _ _ _ _ _ W1 M1) as (c2 & S2 & W2 & M2 & P2).
  destruct (write_run _ _ _ _ _ _ _ _ W2 M2) as (c3 & S3 & W3 & M3 & P3).
  set (m3 := write_coord coeffs b K2 _) in *.
  destruct (model_step i m3 (with_queue (push true coeffs (coeffs_q_ m3)) m3) c3 (WFlip last l i b)) as (c4 & S4 & W4 & M4 & P4);
    [done| |].
  { unfold PredictorThreads.worker_step. rewrite W3. eexists. split; [done|]. split; [done|]. cbn.
    by rewrite (model_of_known i m3). }
  exists (flip_step last l i b c4). split; [|split; [done|]].
  - eapply runs_step, runs_step, runs_step, runs_step, runs_step, runs_refl; [exact S1|exact S2|exact S3|exact S4|].
    unfold PredictorThreads.worker_step. by rewrite W4.
  - cbn. rewrite (model_of_known i _ _ M4), P4, P3, P2, P1. f_equal. unfold m3, b. apply write_coords.
Qed.

(** A fit of a model. *)
Lemma fit_run last l i c :
  worker c = WFit last (i :: l) ->
  exists c', runs c c' /\ worker c' = WFit last l /\
    pred c' = let '(m, n) := LinReg_Fit pow solve (model_of i (pred c)) (draws (pred c)) in
              set_draws n (set_model i m (pred c)).
Proof.
  intros E. set (m := model_of i (pred c)). set (c1 := with_worker (WPop last l i false []) (on_model i id c)).
  assert (worker_step c = Some c1) as S1 by (unfold PredictorThreads.worker_step; by rewrite E).
  assert (pred c1 = set_model i m (pred c)) as P1 by done.
  pose proof (pops_run (drain_fuel (dataset_ m)) last l i m [] c1 eq_refl) as Hp.
  unfold LinReg_Fit, GetWindow. destruct (drain (drain_fuel (dataset_ m)) (pop true) (dataset_ m)) as [os d].
  destruct Hp as (c2 & R2 & W2 & D2 & P2); [rewrite P1; by apply lookup_insert_eq|unfold drain_fuel; lia|].
  rewrite P1, set_model_twice in P2. set (m2 := with_dataset d m) in *. cbn [app] in W2.
  assert (model_of i (pred c2) = m2) as M2 by (rewrite P2, model_of_set; by rewrite decide_True).
  assert (runs c c2) as R by by eapply runs_step. cbv beta iota zeta.
  change (mkLinRegModel d (coeffs_q_ m) (coeffs_ m) (buffer_ m)) with m2.
  destruct os as [|o os].
  - exists (with_worker (WFit last l) c2). split; [|split; [done|]].
    + eapply runs_trans; [exact R|]. eapply runs_step, runs_refl. unfold PredictorThreads.worker_step, pop_step.
      rewrite W2, M2. cbn [negb]. change (dataset_ m2) with d. by rewrite D2.
    + cbn [pred with_worker]. rewrite P2. by destruct (pred c).
  - set (c3 := solve_step pow solve last l i (o :: os) c2).
    assert (worker_step c2 = Some c3) as S3.
    { unfold PredictorThreads.worker_step, pop_step. rewrite W2, M2. cbn [negb]. change (dataset_ m2) with d. by rewrite D2. }
    destruct (update_run last l i (solve (Residual pow) (o :: os) (draws (pred c))) m2 c3) as (c4 & R4 & W4 & P4).
    + unfold c3. cbn. by rewrite M2, P2.
    + unfold c3. cbn. rewrite P2. by apply lookup_insert_eq.
    + exists c4. split; [eapply runs_trans; [exact R|by eapply runs_step]|]. split; [done|].
      rewrite P4. unfold c3. cbn. rewrite P2. unfold set_model, set_models, set_draws. cbn.
      by rewrite insert_insert_eq.
Qed.

Lemma fits_run last l c :
  worker c = WFit last l ->
  exists c', runs c c' /\ worker c' = WFit last [] /\ pred c' = fit_configs pow solve l (pred c).
Proof.
  revert c. induction l as [|i l IH]; intros c E; [exists c; split; [apply runs_refl|done]|].
  destruct (fit_run last l i c E) as (c1 & R1 & W1 & P1). destruct (IH c1 W1) as (c2 & R2 & W2 & P2).
  exists c2. split; [by eapply runs_trans|]. split; [done|]. rewrite P2, P1. cbn [fit_configs].
  by destruct (LinReg_Fit _ _ _ _).
Qed.

(** A turn alone is [Run_turn]; where that throws, the worker dies. *)
Lemma turn_alone c :
  worker c = WCheck false ->
  let '(o, p) := Run_turn pow solve (pred c) in
  exists c', runs c c' /\ pred c' = p /\ worker c' = match o with Ok _ => WWait | _ => WCrashed end.
Proof.
  intros E. unfold Run_turn, get_state. unfold mbind, st_bind at 1. cbn beta.
  destruct (window_size_ (pred c) <=? window_tick_ (pred c)) eqn:Ew.
  - set (c1 := with_worker (WFit false (storage_configs_ (pred c))) c).
    assert (worker_step c = Some c1) as S1 by (unfold PredictorThreads.worker_step, window_full; by rewrite E, Ew).
    destruct (fits_run false (storage_configs_ (pred c)) c1 eq_refl) as (c2 & R2 & W2 & P2).
    set (c3 := with_worker (WCommit false) c2).
    assert (worker_step c2 = Some c3) as S3 by (unfold PredictorThreads.worker_step; by rewrite W2).
    assert (runs c (commit_step false c3)) as R.
    { eapply runs_step; [exact S1|]. eapply runs_trans; [exact R2|]. eapply runs_step; [exact S3|].
      by eapply runs_step, runs_refl. }
    unfold Fit. unfold st_bind at 1. cbn beta. change (pred c1) with (pred c) in P2. rewrite <- P2.
    unfold st_bind. unfold commit_step in R. change (pred c3) with (pred c2) in R.
    destruct (CommitMetrics (pred c2)) as [[u|e|u|n] p]; cbn [modify];
      try (eexists; split; [exact R|by split]).
    set (c4 := with_worker WReset (with_pred p c3)) in R.
    exists (with_worker WWait (tick 0 c4)). split; [|by split]. eapply runs_trans; [exact R|]. by eapply runs_step, runs_refl.
  - exists (with_worker WWait c). split; [|by split]. eapply runs_step, runs_refl.
    unfold PredictorThreads.worker_step, window_full. by rewrite E, Ew.
Qed.

(** ** Calls and turns that do not overlap *)

Definition between c : Prop :=
  main c = MIdle /\ terminate c = false /\ (worker c = WCheck false \/ worker c = WWait).

(** The call is for a model that exists. *)
Definition action_known (p : Predictor) (a : action) : Prop :=
  match a with
  | DoFeedback _ _ _ i | DoPredict _ _ i => is_Some (storage_models_ p !! i)
  | WorkerTurn => True
  end.

Lemma known_choose ch c c' i :
  choose ch c = Some c' -> is_Some (storage_models_ (pred c) !! i) -> is_Some (storage_models_ (pred c') !! i).
Proof.
  intros E H. destruct ch as [k|tid|k| |]; cbn [PredictorThreads.choose] in E.
  - unfold begin_call in E. destruct (main c), k; try done; try (destruct (known _ c); [|done]); by injection E as <-.
  - unfold push_step in E. destruct (main c); try done. injection E as <-. by apply known_set.
  - unfold read_step in E. destruct (main c); try done. by injection E as <-.
  - unfold main_step in E. destruct (main c) as [| | |n|? r w|? r w b v got| |]; try done; try by injection E as <-.
    + destruct (got K0), (got K1), (got K2); try done. by injection E as <-.
    + destruct (worker c); try done. by injection E as <-.
  - unfold PredictorThreads.worker_step in E.
    destruct (worker c) as [last|last [|j l]|last l j second datavec|last l j coeffs b k|last l j b|last| | | |];
      try discriminate E; injection E as <-; try done; try by apply known_set.
    + unfold pop_step. destruct (dataset_ _ _); [by destruct second, datavec|by apply known_set].
    + destruct k; by apply known_set.
    + unfold commit_step. pose proof (CommitMetrics_keeps (pred c)) as K.
      destruct (CommitMetrics (pred c)) as [o p]. by apply (ks_known _ _ K).
Qed.

Lemma known_schedule chs c c' i :
  schedule chs c = Some c' -> is_Some (storage_models_ (pred c) !! i) -> is_Some (storage_models_ (pred c') !! i).
Proof.
  revert c. induction chs as [|ch chs IH]; intros c E H; [by injection E as <-|]. cbn in E.
  destruct (choose ch c) as [c1|] eqn:E1; [|done]. eapply IH; [exact E|]. by eapply known_choose.
Qed.

(** The steps of a prediction. *)
Lemma predict_alone r w i c :
  main c = MIdle -> is_Some (storage_models_ (pred c) !! i) ->
  exists c', schedule [Begin (CallPredict r w i); MainStep; ReadCoeff K0; ReadCoeff K1; ReadCoeff K2; MainStep] c = Some c' /\
    pred c' = pred c /\ main c' = MIdle /\ terminate c' = terminate c /\ worker c' = worker c /\
    exists e, returned c' = returned c ++ [e] /\ (Predict r w i (pred c)).1 = Ok (pr_value e).
Proof.
  intros Em Hk. eexists. split.
  { cbn. unfold begin_call. rewrite Em. unfold known. rewrite bool_decide_true by done. reflexivity. }
  cbn. repeat (split; [done|]). eexists. split; [done|]. done.
Qed.

Lemma act_schedule a c p :
  between c -> action_known (pred c) a -> act pow solve a (pred c) = (Ok (), p) ->
  exists chs c', schedule chs c = Some c' /\ between c' /\ pred c' = p.
Proof.
  intros (Em & Et & Ew) Hk. destruct a as [bw r w i|r w i|]; cbn [act action_known] in *.
  - intros [= <-]. exists [Begin (CallFeedback bw r w i); Push false; MainStep; MainStep]. eexists. split.
    + cbn. unfold begin_call. rewrite Em. unfold known. rewrite bool_decide_true by done. reflexivity.
    + by repeat split.
  - destruct (predict_alone r w i c Em Hk) as (c' & E & P & M & T & W & _). intros Ea.
    exists [Begin (CallPredict r w i); MainStep; ReadCoeff K0; ReadCoeff K1; ReadCoeff K2; MainStep], c'.
    split; [exact E|]. split; [unfold between; by rewrite M, T, W|]. rewrite P. injection Ea as <-. destruct Hk as [m Hm].
    by rewrite (model_of_known i m), set_model_same.
  - intros Ea. assert (exists c1, runs c c1 /\ worker c1 = WCheck false /\ pred c1 = pred c) as (c1 & R1 & W1 & P1).
    { destruct Ew as [Ew|Ew]; [exists c; split; [apply runs_refl|done]|].
      exists (with_worker (WCheck false) c). split; [|done]. eapply runs_step, runs_refl.
      unfold PredictorThreads.worker_step. by rewrite Ew, Et. }
    pose proof (turn_alone c1 W1) as Ht. rewrite P1, Ea in Ht. destruct Ht as (c2 & R2 & P2 & W2).
    destruct (runs_trans _ _ _ R1 R2) as [k E]. destruct (steps_keep_main k c c2 E) as [M2 T2].
    exists (replicate k WorkerStep), c2. split; [exact E|]. split; [|exact P2]. split; [by rewrite M2|].
    split; [by rewrite T2|by right].
Qed.

(** The sequential functions of [CostModel] and the steps of [PredictorThreads]
    agree: what the predictor does when calls and turns do not overlap, is the
    effect of one of its schedules, for every sequence of feedback, predictions and
    turns on models that exist. *)
Theorem actions_are_schedules l p p' :
  Forall (action_known p) l -> for_each (act pow solve) l p = (Ok (), p') ->
  exists chs c', schedule chs (started p) = Some c' /\ between c' /\ pred c' = p'.
Proof.
  intros Hk. assert (forall c, between c -> Forall (action_known (pred c)) l ->
    for_each (act pow solve) l (pred c) = (Ok (), p') ->
    exists chs c', schedule chs c = Some c' /\ between c' /\ pred c' = p') as G.
  { clear Hk. induction l as [|a l IH]; intros c B Hk E.
    { injection E as <-. by exists [], c. }
    cbn [for_each] in E. unfold mbind, st_bind in E. apply Forall_cons in Hk as [Ha Hk].
    destruct (act pow solve a (pred c)) as [[[]| | |] p1] eqn:Ea; try done.
    destruct (act_schedule a c p1 B Ha Ea) as (chs1 & c1 & E1 & B1 & P1).
    destruct (IH c1 B1) as (chs2 & c2 & E2 & B2 & P2).
    - eapply Forall_impl; [exact Hk|]. intros [bw r w i|r w i|]; cbn; [by apply (known_schedule chs1)..|done].
    - by rewrite P1.
    - exists (chs1 ++ chs2), c2. rewrite schedule_app, E1. done. }
  apply (G (started p)); [|done]. split; [done|]. split; [done|by left].
Qed.

End spec.
