(* ===== verification/Witnesses.v ===== *)
(** * Witnesses: a concrete server

    The reference services, the default configuration and a few requests, on
    which the theorems about the server are applied. *)

From S2P Require Import Prelude CText Effects Types Services KeyValueSpec IOClient World.
From S2P Require Import Msgpack Config Distribution Metadata MetadataSpec Server ServerSpec.

Module Demo.
Import Codec.

Abbreviation rworld := (World redis_ref mongo_ref) (only parsing).

Definition world0 : World redis_ref mongo_ref :=
  mkWorld (mkFS ∅ ∅ transfer_max false) (∅ : gmap string (list ascii)) ([] : list (string * list ascii)).

Definition zeros : nat -> Z := fun _ => 0.

Definition server0 : Server redis_ref mongo_ref := mkServer Conf0 (mkDDE 0 0 []) world0.

Definition bytes_of (s : string) : Data -> Data :=
  fun d => set_buffer (Some (Some <$> chars s)) (set_data_size (zlen (chars s)) d).

Definition obj_at (id : string) (i : Z) : Data := set_storage_index i (set_id id Data0).

Lemma type_at_Conf0 i ty :
  type_at Conf0 i ty <-> (i, ty) ∈ [(0, FILE_IO); (1, REDIS_IO); (2, MONGO_IO)].
Proof.
  unfold type_at. cbn [Conf0 STORAGE_SOLUTIONS find_solution]. split.
  - intros (s & E & <-). repeat case_decide; simplify_eq; set_solver.
  - rewrite !elem_of_cons, elem_of_nil. intros [[= -> ->]|[[= -> ->]|[[= -> ->]|[]]]]; simpl; eauto.
Qed.

Lemma Conf0_ok : conf_ok Conf0.
Proof.
  split.
  - split; [done|]. split; [done|]. repeat (constructor; [by eexists|]). constructor.
  - intros i j ty Hi%type_at_Conf0 Hj%type_at_Conf0.
    rewrite !elem_of_cons, elem_of_nil in Hi, Hj. intuition congruence.
  - unfold transfer_max. simpl. lia.
Qed.

Lemma world0_up : world_up world0.
Proof. split; [|done]. split; [done|]. split; [done|]. simpl. lia. Qed.

Lemma rep0 : rep server0 ∅.
Proof.
  split; [|done|apply world0_up|].
  - split; [apply Conf0_ok|done].
  - intros id. rewrite lookup_empty. split.
    + intros i [] _; simpl; (apply lookup_empty || done).
    + intros []; simpl; (apply lookup_empty || done).
Qed.

Definition hello : Data := bytes_of "hello" Data0.

Definition requests : list request :=
  [ StoreRequest hello (obj_at "a" 1);
    LocateRequest (obj_at "a" 2) Data0;
    StoreRequest (bytes_of "J" Data0) (obj_at "a" 0);
    LocateRequest (set_data_size 4 (obj_at "a" 0)) Data0;
    SizeRequest (obj_at "a" 1);
    DeleteRequest (obj_at "a" 2);
    SizeRequest (obj_at "a" 0);
    LocateRequest (obj_at "a" 0) Data0 ].

Definition abs_requests : list abs_request :=
  [ AStore "a" 0 (chars "hello"); ALocate "a" 0 Data0; AStore "a" 0 (chars "J");
    ALocate "a" 4 Data0; ASize "a"; ADelete "a"; ASize "a"; ALocate "a" 0 Data0 ].

Lemma whole_at n i ti : (i, ti) ∈ [(0, FILE_IO); (1, REDIS_IO); (2, MONGO_IO)] -> is_u64 n ->
  whole_request Conf0 (set_data_size n (obj_at "a" i)).
Proof. intros Hi Hn. split; [done|done|]. exists ti. by apply type_at_Conf0. Qed.

Ltac configured := first [by left | by right; left | by right; right; left].

Lemma stands : stand_for Conf0 1 ∅ requests abs_requests.
Proof.
  unfold requests, abs_requests.
  constructor.
  { apply (sf_store Conf0 _ hello (obj_at "a" 1) (chars "hello")).
    split; [by eexists|done|done|done|split; [unfold is_u64; simpl; lia|done]|].
    exists REDIS_IO. apply type_at_Conf0. configured. }
  constructor.
  { apply (sf_locate Conf0 _ (set_data_size 0 (obj_at "a" 2)) Data0); [|intros v; by intros [= <-]].
    apply (whole_at 0 2 MONGO_IO); [configured|unfold is_u64; lia]. }
  constructor.
  { apply (sf_store Conf0 _ (bytes_of "J" Data0) (obj_at "a" 0) (chars "J")).
    split; [by eexists|done|done|done|split; [unfold is_u64; simpl; lia|done]|].
    exists FILE_IO. apply type_at_Conf0. configured. }
  constructor.
  { apply (sf_locate Conf0 _ (set_data_size 4 (obj_at "a" 0)) Data0); [|intros v; by intros [= <-]].
    apply (whole_at 4 0 FILE_IO); [configured|unfold is_u64; lia]. }
  constructor; [apply sf_size; apply (whole_at 0 1 REDIS_IO); [configured|unfold is_u64; lia]|].
  constructor; [apply sf_delete; apply (whole_at 0 2 MONGO_IO); [configured|unfold is_u64; lia]|].
  constructor; [apply sf_size; apply (whole_at 0 0 FILE_IO); [configured|unfold is_u64; lia]|].
  constructor; [|constructor].
  apply (sf_locate Conf0 _ (set_data_size 0 (obj_at "a" 0)) Data0); [|done].
  apply (whole_at 0 0 FILE_IO); [configured|unfold is_u64; lia].
Qed.

(** The replies of the server to the requests. *)
Lemma server_refines_map_witness :
  exists s', serve_all zeros zeros requests server0 =
    (Ok [Stored 1; Located (set_buffer (Some (Some <$> chars "hello")) Data0); Stored 1;
         Located (set_buffer (Some (Some <$> chars "Jell")) Data0); Sized 5; Deleted true;
         Sized 0; Failed], s') /\ rep s' ∅.
Proof.
  destruct (server_refines_map zeros zeros ltac:(unfold zeros; lia) ltac:(unfold zeros; lia)
              server0 ∅ requests abs_requests rep0 stands) as (s' & E & Hr).
  exists s'. split; [exact E|exact Hr].
Defined.

End Demo.
