(* ===== verification/ClientWitnesses.v ===== *)
(** * ClientWitnesses: the theorems about the other components at concrete inputs *)

From S2P Require Import Prelude CText Effects Types Services FileIO KeyValueIO KeyValueSpec.
From S2P Require Import IOClient World StoreSpec.
From S2P Require Import Msgpack Config Distribution Metadata MetadataSpec Segments Server.
From S2P Require Import ServerSpec.
From S2P Require Import Client ClusterSpec ClientSpec Posix PosixSpec Iris IrisSpec Witnesses.
From S2P Require Startup Daemon.

Module Clients.
Import Codec Demo.

(** ** I/O clients *)

Definition abc : Data := bytes_of "abc" Data0.
Definition at_ (p : Z) (d : Data) : Data := set_position p d.

Lemma writes_abc : writes abc (chars "abc").
Proof. split; [|done..]. by exists (Some <$> chars "abc"). Qed.

Lemma file_write_read_witness :
  exists fs', FileIOClient.Write abc (at_ 5 (obj_at "f" 0)) (w_fs world0) = (Ok abc, fs') /\
    FileIOClient.Read (set_data_size 3 (at_ 5 (obj_at "f" 0))) Data0 fs' = (Ok abc, fs') /\
    forall k, k <> "f"%string -> files fs' !! k = None.
Proof.
  destruct (file_write_read (w_fs world0) abc (at_ 5 (obj_at "f" 0)) (chars "abc")
    (set_data_size 3 (at_ 5 (obj_at "f" 0))) Data0) as (fs' & E1 & E2 & F);
    [by repeat split|apply writes_abc|by vm_compute..|].
  exists fs'. split; [exact E1|]. split; [exact E2|]. intros k Hk. rewrite F by done. apply lookup_empty.
Defined.

Lemma redis_write_read_witness :
  exists r', RedisIOClient.Write abc (obj_at "f" 0) (w_redis world0) = (Ok abc, r') /\
    RedisIOClient.Read (set_data_size 3 (obj_at "f" 0)) Data0 r' = (Ok abc, r').
Proof.
  destruct (redis_write_read (w_redis world0) abc (obj_at "f" 0) (chars "abc")
    (set_data_size 3 (obj_at "f" 0)) Data0) as (r' & E1 & E2 & _);
    [done|apply writes_abc|by vm_compute..|].
  by exists r'.
Defined.

Lemma mongo_write_read_witness :
  exists m', MongoIOClient.Write abc (obj_at "f" 0) (w_mongo world0) = (Ok abc, m') /\
    MongoIOClient.Read (set_data_size 3 (obj_at "f" 0)) Data0 m' = (Ok abc, m').
Proof.
  destruct (mongo_write_read (w_mongo world0) abc (obj_at "f" 0) (chars "abc")
    (set_data_size 3 (obj_at "f" 0)) Data0) as (m' & E1 & E2 & _);
    [done|apply writes_abc|by vm_compute..|].
  by exists m'.
Defined.

(** "wxyz" with "abc" written at 2 becomes "w", a zero byte, "abc". *)
Lemma redis_extension_loses_byte_witness :
  exists r' v, RedisIOClient.Write abc (at_ 2 (obj_at "f" 0))
      (<["f" := chars "wxyz"]> (∅ : gmap string (list ascii))) = (Ok abc, r') /\
    redis_view r' !! "f"%string = Some v /\ v !! 1%nat = Some nul.
Proof.
  apply (redis_extension_loses_byte (<["f" := chars "wxyz"]> (∅ : gmap string (list ascii))) abc
    (at_ 2 (obj_at "f" 0)) (chars "abc") (chars "wxyz"));
    [done|apply writes_abc|by vm_compute..].
Defined.

(** ** Segments *)

Definition small_conf : Conf :=
  mkConf (SERVER_LISTS Conf0) (CLIENT_LISTS Conf0) (SYMBIOS_PORT Conf0) (SERVER_RPC_THREADS Conf0)
    (SERVER_DIR Conf0) (CONFIGURATION_FILE Conf0) (SERVER_COUNT Conf0) (RANDOM_SEED Conf0) 4
    (STORAGE_SOLUTIONS Conf0) (DATA_DISTRIBUTION_POLICY Conf0).

Definition three_links : list Data := [obj_at "a0" 0; obj_at "a1" 1; obj_at "a2" 2].
Definition range (p n : Z) : Data := set_position p (set_data_size n (obj_at "a" 0)).


Lemma locate_segments_destinations_witness :
  destinations_from 0 (locate_segments small_conf (range 2 8) three_links).
Proof.
  apply (locate_segments_destinations small_conf 4 eq_refl ltac:(lia) (range 2 8) three_links); by vm_compute.
Defined.

Lemma locate_boundary_whole_object_witness :
  exists d, last (locate_segments small_conf (range 2 6) three_links) = Some d /\
    data_size_ (source_data_ d) = 0 /\ position_ (source_data_ d) = 0.
Proof.
  apply (locate_boundary_whole_object small_conf 4 eq_refl ltac:(lia) (range 2 6) three_links 2); by vm_compute.
Defined.

(** ** Metadata *)

Definition metadata0 : Metadata := mkMetadata true 1 {[0 := obj_at "a0" 2; 1 := obj_at "a1" 0]}.

Lemma metadata_roundtrip_witness :
  exists s, serialize metadata0 = Ok s /\ forall rest, deserialize (s ++ rest) = Ok metadata0.
Proof.
  apply (metadata_roundtrip metadata0). split; [unfold is_u16; simpl; lia|].
  cbn [links_ metadata0]. apply map_Forall_insert_2; [|apply map_Forall_singleton];
    (split; [lia|]); repeat split; by vm_compute.
Defined.

(** ** Configuration *)

Definition getenv0 (v : list ascii) : option (list ascii) :=
  if decide (v = chars "HOME") then Some (chars "/root") else None.

Lemma replaceEnvVariable_first_witness :
  replaceEnvVariable getenv0 (chars "a${HOME}/b${USER}/c") = Ok (chars "a/root/b/root/c").
Proof.
  apply (replaceEnvVariable_first getenv0 (chars "a") (chars "HOME") (chars "/b") [(chars "USER", chars "/c")]
           (chars "/root")); [notin| |done|notin].
  repeat constructor; notin.
Defined.

Lemma replaceEnvVariable_undefined_witness :
  replaceEnvVariable getenv0 (chars "a${USER}/c") =
    Throw (make_ErrorException UNDEFINED_ENV_VARIABLE ["USER"]).
Proof.
  apply (replaceEnvVariable_undefined getenv0 (chars "a") (chars "USER") (chars "/c")); [notin| |done].
  repeat split; notin.
Defined.

Definition doc0 : gmap string json_value :=
  {["STORAGE_SOLUTIONS" := JArray [Some {["TYPE" := JString "FILE_IO"; "MOUNT" := JString "${HOME}/m"]};
                                   Some {["TYPE" := JString "REDIS_IO"; "IP" := JString "h"; "PORT" := JString "1"]}]]}.

Lemma load_storage_solutions_ok_witness :
  exists m, load_storage_solutions getenv0 doc0 "STORAGE_SOLUTIONS" = Ok m /\
    (forall k, is_Some (find_solution k m) <-> 0 <= k < 2) /\
    find_solution 0 m = Some (Some (FileSS "/root/m")).
Proof.
  eexists. split; [by vm_compute|].
  destruct (load_storage_solutions_ok getenv0 doc0 "STORAGE_SOLUTIONS" _
              [(0, Some (FileSS "/root/m")); (1, Some (RedisSS "h" "1"))] eq_refl) as [K _];
    [by vm_compute..|]. split; [exact K|done].
Defined.

(** ** Data distribution *)

Definition robin_conf : Conf := set_policy ROUND_ROBIN_POLICY Conf0.
Definition counter (k : nat) : Z := 5 + Z.of_nat k.

Lemma dense0 : dense (STORAGE_SOLUTIONS Conf0).
Proof. apply Conf0_ok. Qed.

Lemma round_robin_fair_witness :
  exists indices,
    distribute_all zeros counter [(abc, obj_at "a" 0); (abc, obj_at "b" 0); (abc, obj_at "c" 0)]
      (robin_conf, mkDDE 0 0 []) = (Ok indices, (robin_conf, mkDDE 0 3 [])) /\
    indices ≡ₚ [0; 1; 2].
Proof.
  apply (round_robin_fair zeros counter [(abc, obj_at "a" 0); (abc, obj_at "b" 0); (abc, obj_at "c" 0)]
           robin_conf (mkDDE 0 0 []) 5); [done|apply dense0|done|done|lia|by vm_compute|done].
Defined.

Lemma heuristics_selects_witness :
  exists m k s,
    HeuristicsDDE_ctor (STORAGE_SOLUTIONS Conf0) [] = Ok m /\
    HeuristicsDDE_Distribute abc (obj_at "a" 0) (Conf0, mkDDE 0 0 m) =
      (Ok (one_distribution abc (obj_at "a" 0) k), (Conf0, mkDDE 0 0 m)) /\
    find_solution k (STORAGE_SOLUTIONS Conf0) = Some (Some s) /\
    io_client_type_ s = heuristics_type 0.
Proof.
  apply (heuristics_selects abc (obj_at "a" 0) Conf0 0 0 2); [apply dense0|].
  eexists. split; [right; right; left|done].
Defined.

Lemma Distribute_carries_witness :
  exists ds e', Distribute zeros counter abc (obj_at "a" 0) (Conf0, mkDDE 0 0 []) = (Ok ds, (Conf0, e')) /\
    maps_ok Conf0 (maps e') /\ carries abc (obj_at "a" 0) Conf0 ds.
Proof.
  apply (Distribute_carries zeros counter abc (obj_at "a" 0) Conf0 (mkDDE 0 0 []));
    [apply dense0|done|apply maps_ok_nil|unfold counter; simpl; lia|unfold zeros; lia].
Defined.

(** ** The client of a cluster of two servers *)

Definition cluster0 : Cluster redis_ref mongo_ref :=
  mkCluster [(Conf0, mkDDE 0 0 []); (Conf0, mkDDE 0 0 [])] world0 0.

Lemma cluster0_rep : cluster_rep Conf0 cluster0 ∅.
Proof.
  split; [done| |apply rep0]. repeat constructor; try done; apply maps_ok_nil.
Qed.

Definition ask (id : string) (n : Z) : Data := set_data_size n (set_id id Data0).

Lemma plain_ask id n : is_u64 n -> plain (ask id n).
Proof. intros Hn. repeat split; unfold is_u64, is_u16 in *; simpl; lia. Qed.

Lemma whole_ask id n : is_u64 n -> whole_request Conf0 (ask id n).
Proof. intros Hn. split; [done|done|]. exists FILE_IO. apply type_at_Conf0. configured. Qed.

Lemma store_abc m id : m !! id = None -> zlen (chars id) <= 255 ->
  store_request Conf0 m abc (ask id 0) (chars "abc").
Proof.
  intros Hm Hid. split; [by exists (Some <$> chars "abc")|done|done|by simpl; rewrite Hm| |].
  - split; [unfold is_u64; simpl; lia|done].
  - exists FILE_IO. apply type_at_Conf0. configured.
Qed.

Ltac u64 := unfold is_u64; lia.

Lemma Data_wf_abc : Data_wf abc.
Proof. repeat split; by vm_compute. Qed.

Lemma client_lifecycle_witness :
  exists s1 s2 s3 s4 s5,
    Client_StoreRequest zeros zeros counter abc (ask "a" 0) cluster0 = (Ok (), s1) /\
    Client_LocateRequest counter (ask "a" 3) (ask "" 3) s1 =
      (Ok (set_buffer (Some (Some <$> chars "abc")) (ask "" 3)), s2) /\
    Client_Size counter (ask "a" 3) s2 = (Ok 3, s3) /\
    Client_Delete counter (ask "a" 3) s3 = (Ok true, s4) /\
    Client_LocateRequest counter (ask "a" 3) (ask "" 3) s4 = (Throw rpc_error, s5).
Proof.
  apply (client_lifecycle zeros zeros counter ltac:(unfold zeros; lia) ltac:(unfold zeros; lia)
           Conf0 cluster0 ∅ abc (ask "a" 0) (chars "abc") (ask "a" 3) (ask "" 3));
    [apply cluster0_rep|apply Data_wf_abc|apply plain_ask; u64|by apply store_abc; [apply lookup_empty|]
    |apply lookup_empty|apply plain_ask; u64|apply plain_ask; u64|apply whole_ask; u64|done..].
Defined.

(** ** POSIX files *)

Definition posix0 : Posix redis_ref mongo_ref := mkPosix ∅ cluster0.

Lemma fopen_opens_witness :
  exists s', fopen counter Conf0 "./f" "a+" 3 posix0 = (Ok (Result 3), s') /\
    fileDescriptorMap_ s' = {[3 := mkPosixStat "./f" 0 0 "a+" 0]} /\
    cluster_rep Conf0 (px_cluster s') ∅.
Proof.
  destruct (fopen_opens counter Conf0 "./f" "a+" 3 0 posix0 ∅ cluster0_rep eq_refl eq_refl) as (s' & E & F & R).
  exists s'. split; [exact E|]. split; [|exact R]. rewrite F, lookup_empty. done.
Defined.

Definition tracked (fd size : Z) : gmap Z PosixStat := {[fd := mkPosixStat "./f" 0 size "r+" 0]}.

Lemma fwrite_refuses_extension_witness :
  fwrite zeros zeros counter (Some [Some "x"%char]) 1 1 3 (mkPosix (tracked 3 0) cluster0) =
    (Ok (Result size_t_minus_1), mkPosix (tracked 3 0) cluster0).
Proof.
  apply (fwrite_refuses_extension zeros zeros counter (Some [Some "x"%char]) 1 1 3
           (mkPosixStat "./f" 0 0 "r+" 0) (mkPosix (tracked 3 0) cluster0)); [done|by vm_compute].
Defined.

Lemma fwrite_fread_witness :
  exists s s1 s2,
    fwrite zeros zeros counter (Some (Some <$> chars "xy")) 1 2 3 s = (Ok (Result 2), s1) /\
    fread counter 1 2 3 s1 = (Ok (Result (2, Some <$> chars "xy")), s2).
Proof.
  destruct (Client_StoreRequest_ok zeros zeros counter ltac:(unfold zeros; lia) ltac:(unfold zeros; lia)
    Conf0 cluster0 ∅ abc (ask "./f" 0) (chars "abc") cluster0_rep Data_wf_abc) as (cl & _ & Hr);
    [apply plain_ask; u64|by apply store_abc; [apply lookup_empty|]|].
  exists (mkPosix (tracked 3 3) cl).
  apply (fwrite_fread zeros zeros counter ltac:(unfold zeros; lia) ltac:(unfold zeros; lia)
           Conf0 (mkPosix (tracked 3 3) cl) _ 3 (chars "abc") 1 2 (Some (Some <$> chars "xy")) (chars "xy") Hr);
    [|done|by vm_compute|done].
  eexists. split; [apply lookup_singleton_eq|]. split; [done|]. split; [done|]. split; [|by vm_compute].
  apply lookup_insert_eq.
Defined.

(** ** The object map of IRIS *)

Definition handler0 (print : bool) : LibHandler := mkLibHandler IRIS 1 4 print "f".

Lemma DataMapper_map_tiles_witness :
  exists objs, DataMapper_map 4 (mkDataDescriptor "f" 2 9 0) = Ok objs /\ tiles 4 "f" 2 9 objs.
Proof. apply (DataMapper_map_tiles 4 ltac:(lia) (mkDataDescriptor "f" 2 9 0)); cbn; lia. Defined.

Lemma do_mapped_write_objects_witness :
  exists s', do_mapped_write zeros zeros counter Conf0 (handler0 false) 4 6 (Some (Some <$> chars "object")) cluster0 =
      (Ok (), s') /\
    wobj (cl_world s') REDIS_IO "f1" = Some (chars "obje") /\
    wobj (cl_world s') REDIS_IO "f2" = Some (chars "ct").
Proof.
  destruct (do_mapped_write_objects Conf0 zeros zeros counter (handler0 false) REDIS_IO cluster0 4 (chars "object"))
    as (s' & E & G); try done.
  { apply type_at_Conf0. configured. }
  exists s'. split; [exact E|]. split; [apply (G 1); by vm_compute|apply (G 2); by vm_compute].
Defined.

Definition printed_world : World redis_ref mongo_ref :=
  mkWorld (w_fs world0) (<["f0" := chars "abcd"]> (∅ : gmap string (list ascii))) (w_mongo world0).

Lemma print_overflows_witness :
  read_objects (client REDIS_IO) (handler0 true) 4 0 [mkDataDescriptor "f0" 0 4 0] printed_world =
    (Undefined OutOfBounds, printed_world).
Proof.
  apply (print_overflows (handler0 true) REDIS_IO
           printed_world (mkDataDescriptor "f0" 0 4 0) [] 4 (chars "abcd")); try done; by vm_compute.
Defined.

Lemma file_chunk_lost_witness :
  FileIOClient.Write (mkData "x" 3 (Some (Some <$> chars "abcdef")) 3 0) (obj_at "f" 0) (w_fs world0) =
    (Ok (mkData "x" 3 (Some (Some <$> chars "abcdef")) 3 0), set_files {["f" := []]} (w_fs world0)).
Proof.
  apply (file_chunk_lost (w_fs world0) (mkData "x" 3 (Some (Some <$> chars "abcdef")) 3 0) (obj_at "f" 0));
    [|done|by vm_compute]. by apply file_up_ready.
Defined.

End Clients.

(** ** The start of the server and its process *)

Module StartDemo.
Import Startup Daemon.

(** A process that finds one configuration file, with a POSIX and a Redis
    solution and the round-robin policy. *)
Definition start_doc : gmap string json_value :=
  {["SYMBIOS_PORT" := JField (JInt 9000);
    "STORAGE_SOLUTIONS" := JArray
      [Some {["TYPE" := JString "FILE_IO"; "MOUNT" := JString "/m"]};
       Some {["TYPE" := JString "REDIS_IO"; "IP" := JString "h"; "PORT" := JString "1"]}];
    "DATA_DISTRIBUTION_POLICY" := JField (JString "ROUND_ROBIN_POLICY")]}.

Definition start_env : Surroundings :=
  mkSurroundings (fun _ => None) (fun f => if decide (f = "conf") then Some start_doc else None)
    (fun _ => Ok ()) (fun _ b => Ok b) (fun _ b => Ok b) (fun _ => Ok ()).

Definition no_mongo : MongoDriver :=
  mkMongoDriver (Ok ()) (fun _ => Throw MongoException) (fun _ => Ok false) (fun _ _ => Ok false)
    (fun _ _ _ => Ok false) (fun _ _ _ => Ok ()) (fun _ _ _ => Ok false).

Definition start_basket : BasketConf := mkBasket 0 1 0 "" 1 0.

Abbreviation start_ctor := (Server_ctor (fun _ => true) no_mongo (fun _ _ => Ok ()) start_env).

Definition started : Globals := (start_ctor (main_globals ["server"; "conf"] Conf0 start_basket)).2.

Lemma start_returns : start_ctor (main_globals ["server"; "conf"] Conf0 start_basket) = (Ok (), started).
Proof. by vm_compute. Qed.

Definition sequence0 (n : nat) : Z := Z.of_nat n mod 2 ^ 32.

Lemma started_server_places_witness :
  exists ds e,
    place_all (fun _ => 0) sequence0 [(Data0, Data0); (Data0, Data0)] (g_conf started, g_dde started) =
      (Ok ds, (g_conf started, e)) /\
    Forall (fun d => exists s,
      find_solution (storage_index_ (destination_data_ d)) (STORAGE_SOLUTIONS (g_conf started)) = Some (Some s) /\
      connected (fun _ => true) no_mongo (fun _ _ => Ok ()) 0 (STORAGE_SOLUTIONS (g_conf started))
        (g_clients started) (io_client_type_ s)) ds.
Proof.
  destruct (started_server_places (fun _ => true) no_mongo (fun _ _ => Ok ()) start_env
    (main_conf ["server"; "conf"] Conf0) (set_backed_dir (SERVER_DIR Conf0) start_basket) started
    (fun _ => 0) sequence0 [(Data0, Data0); (Data0, Data0)]) as (ds & e & E & Hds).
  - intros doc l Hd Hl. injection Hd as <-. vm_compute in Hl. injection Hl as <-. done.
  - exact start_returns.
  - by vm_compute.
  - intros n. unfold sequence0. pose proof (Z.mod_pos_bound (Z.of_nat n) (2 ^ 32)). lia.
  - intros n. lia.
  - exists ds, e. split; [exact E|]. eapply Forall_impl; [exact Hds|].
    intros d (r & s & _ & _ & Hs & Hc). exists s. by split.
Defined.

(** The second request went to the second solution, and both have clients. *)
Example placed :
  (storage_index_ ∘ destination_data_ <$> default []
     (match (place_all (fun _ => 0) sequence0 [(Data0, Data0); (Data0, Data0)] (g_conf started, g_dde started)).1
      with Ok ds => Some ds | _ => None end)) = [0; 1] /\
  g_clients started = [(FILE_IO, 0); (REDIS_IO, 1)].
Proof. by vm_compute. Qed.

Lemma server_serves_until_signal_witness :
  run start_ctor (fun f => negb (bool_decide (f = ""))) true
    (replicate 5 Turn ++ [Turn; Signal false SIGHUP; Signal false SIGSEGV; Turn])
    (main_process ["server"; "conf"] Conf0 start_basket ∅) =
  (Exit 0, ended true (serving started ∅)).
Proof.
  apply (server_serves_until_signal (fun _ => true) no_mongo (fun _ _ => Ok ()) start_env
    (fun f => negb (bool_decide (f = ""))) true ["server"; "conf"] Conf0 start_basket ∅
    [Turn; Signal false SIGHUP; Signal false SIGSEGV; Turn] started); [done|exact start_returns].
Defined.

Lemma server_never_returns_witness :
  let p := (run start_ctor (fun f => negb (bool_decide (f = ""))) true [Turn; Signal false SIGTERM]
              (main_process ["server"; "conf"] Conf0 start_basket ∅)).2 in
  files p = ∅ /\ (finalized p <= 1)%nat.
Proof.
  destruct (server_never_returns (fun _ => true) no_mongo (fun _ _ => Ok ()) start_env
    (fun f => negb (bool_decide (f = ""))) true ["server"; "conf"] Conf0 start_basket ∅
    [Turn; Signal false SIGTERM] _ _ ltac:(done) (surjective_pairing _)) as (Hf & Hn & _).
  by split.
Defined.

Lemma worker_takes_SIGTERM_witness :
  (step start_ctor (fun _ => false) true (Signal true SIGTERM)
     (mkProcess started "" true true (Some true) false true Running (catchSignals no_handlers) ∅ 0 AtSleep)).1 =
  Exit abort_status.
Proof. by apply (worker_takes_SIGTERM _ _ _ no_handlers). Defined.

End StartDemo.
