(* ===== verification/OldWitnesses.v ===== *)
(** * OldWitnesses: the theorems about the C programs at concrete inputs *)

From S2P Require Import Prelude CText Effects ShadowLink ShadowStore LinkBench Engine.
From S2P Require Import EngineSpec EngineMongo.
From S2P Require Import Colocation ColocationSpec GetNum SingleHop.

Abbreviation hredis := (gmap (list ascii) (list ascii)) (only parsing).
Abbreviation hmongo := (gmap (list ascii) document) (only parsing).

(** ** Metadata records *)

Definition link0 : symbios_metadata :=
  mkMeta false (chars "file_7") PFS1 (Some (chars "ares-stor-15")) 3334 16384.

Ltac clean_text := split; [done|]; split; notin.

Lemma link0_ok : meta_ok link0.
Proof.
  split; [clean_text|notin|]. intros _. split; cbn; unfold PFS1; try lia.
  eexists. split; [done|]. clean_text.
Qed.

Lemma link0_fits : zlen (metadata_text link0) < 1024.
Proof. by vm_compute. Qed.

Lemma deserialize_serialize_metadata_witness :
  exists s, serialize_metadata link0 = Ok s /\ deserialize_metadata s = Ok link0.
Proof. exact (deserialize_serialize_metadata link0 link0_ok link0_fits). Defined.

Lemma deserialize_no_server_witness :
  deserialize_metadata (metadata_text (mkMeta false (chars "k") 2 None 7000 9)) =
    Ok (mkMeta false (chars "k") 2 (Some (chars "7000")) 9 (2 ^ 64 - 1)).
Proof. apply (deserialize_no_server (chars "k") 2 7000 9); try lia. clean_text. Defined.

Lemma redis_metadata_roundtrip_witness :
  exists h', create_symbios_metadata_redis link0 (∅ : hredis) = (Ok (), h') /\ hi_up h' /\
    query_symbios_metadata_by_id_redis (chars "file_7") h' = (Ok (mkScalars false 0 3334 16384), h').
Proof. exact (redis_metadata_roundtrip (∅ : hredis) link0 I link0_ok link0_fits). Defined.

Lemma mongo_metadata_roundtrip_witness :
  exists d', create_symbios_metadata_mongo MAX_DOC_SIZE link0 (∅ : hmongo) = (Ok (), d') /\
    query_symbios_metadata_by_id_mongo MAX_DOC_SIZE (chars "file_7") d' =
      (Ok (mkScalars false 0 3334 16384), d') /\
    create_symbios_metadata_mongo MAX_DOC_SIZE link0 d' = (Ok (), d').
Proof.
  apply (mongo_metadata_roundtrip (∅ : hmongo) link0 link0);
    [exact I|apply link0_ok|apply link0_fits..|done|done|exact (lookup_empty (M := gmap (list ascii)) _)].
Defined.

(** ** Long values *)

Lemma mongo_long_roundtrip_witness :
  exists d' cs',
    write_mongo_sized 4 (chars "k") (Some (Some <$> chars "shadow link")) 11 (∅ : hmongo) = (Ok (), d') /\
    read_mongo_sized 4 (chars "k") (malloc 12) 11 d' = (Ok (Some cs'), d') /\
    slice 0 12 cs' = Some <$> (chars "shadow link" ++ [nul]).
Proof.
  apply (mongo_long_roundtrip 4 ltac:(lia) (∅ : hmongo) (chars "k") (chars "shadow link") (replicate 12 None));
    [done|notin|by vm_compute..|]. intros i _. exact (lookup_empty (M := gmap (list ascii)) _).
Defined.

(** ** Host files *)

Lemma hostfile_nodes_witness :
  genNodeListFromHostfile (Some (Some (chars "a1
b2
"))) [] = Ok (chars "a1:7000,b2:7001").
Proof.
  apply (hostfile_nodes [chars "a1"; chars "b2"]); [done| |by vm_compute].
  repeat constructor; (notin || by vm_compute).
Defined.

Lemma hostfile_unterminated_witness :
  genNodeListFromHostfile (Some (Some (chars "host1"))) [] = Ok (chars "host:7000").
Proof. apply (hostfile_unterminated (chars "host1")); [|done]. repeat split; (notin || by vm_compute). Defined.

(** ** The metadata benchmark *)

Definition shadow_conf : LinkBench.arguments := LinkBench.mkArguments 2 false true None 0 None.
Definition sevens : nat -> Z := fun _ => 7.
Definition bench_key (i : nat) : list ascii := LinkBench.test_key (chars "test") 3 (sevens i) (Z.of_nat i).

Lemma link_test_roundtrip_witness :
  exists s', write_test (H := redis_meta) 3 sevens shadow_conf (chars "test") (∅ : hredis) = (Ok (), s') /\
    (forall i, Z.of_nat i < 2 ->
       query_md (MetaStore := redis_meta) (bench_key i) s' =
         (Ok (scalars_of (restored (test_metadata shadow_conf (bench_key i)))), s')) /\
    read_test (H := redis_meta) 3 sevens shadow_conf (chars "test") s' = (Ok (), s').
Proof.
  apply (link_test_roundtrip (H := redis_meta) (H0 := redis_meta_laws) 3 sevens shadow_conf (chars "test"));
    [lia|unfold sevens; lia|clean_text|by vm_compute|cbn; lia|exact I|].
  intros i. exact (lookup_empty (M := gmap (list ascii)) _).
Defined.

(** ** The engine *)

Definition engine0 : Engine.state hredis hmongo :=
  Engine.mkState (Some (mkStream (chars "x") 0)) None None None (genstring 8) 0 0 0.

Definition no_rand : Z -> nat -> Z := fun _ _ => 5.
Definition writes0 : list entry := [mkEntry WRITE 100 3; mkEntry WRITE 0 2].
Definition last0 : entry := mkEntry WRITE 7 1.

Lemma writes0_ok : Forall (write_ok 8) writes0.
Proof. repeat constructor; cbn; lia. Qed.

Lemma do_io_replays_witness :
  do_io 4 no_rand 0 (chars "PFS1") (Some (EngineSpec.trace_text (writes0 ++ [last0]))) engine0 =
    for_each (play 4 no_rand 0 (chars "PFS1")) writes0 engine0.
Proof.
  apply (do_io_replays 4 no_rand 0 (chars "PFS1") writes0 last0 engine0); repeat constructor; cbn; lia.
Defined.

Lemma do_io_pfs1_appends_witness :
  exists s' pos',
    do_io 4 no_rand 0 (chars "PFS1") (Some (EngineSpec.trace_text (writes0 ++ [last0]))) engine0 = (Ok (), s') /\
    dest_fp1 s' = Some (mkStream (chars "xAAAAA") pos') /\ total_size_per_rank s' = 5.
Proof.
  apply (do_io_pfs1_appends 4 no_rand 0 writes0 last0 8 engine0 (chars "x") 0);
    [lia|apply writes0_ok|split; cbn; lia|done..].
Defined.

Lemma random_policy_range_witness :
  (resolve_target no_rand (chars "ROUND-ROBIN") [] engine0).1 = Undefined OutOfBounds.
Proof. apply (random_policy_range no_rand engine0 (chars "ROUND-ROBIN")); [by right|by vm_compute]. Defined.

Definition engine_env : environment (H := hredis) :=
  mkEnv (fun _ _ => None) (fun _ => None) ∅ (fun _ => Some true) (fun _ => true) (chars "node") id.

Lemma init_mongo_never_witness : (init 0 engine_env (chars "MONGO") [] 8 engine0).1 <> Ok ().
Proof. apply (init_mongo_never 0 engine_env (chars "MONGO") [] 8 engine0). done. Defined.

Lemma test_redis_writes_witness :
  exists value h', test_redis_main 0 (fun _ => Some true) sevens [chars "test_redis"; chars "k"] (∅ : hredis) =
      (Ok (), h') /\
    zlen value = 32768 /\
    (forall j, 1 <= j <= 50000 -> h' !! Engine.test_key 0 (chars "k") j = Some value) /\
    (forall k, (forall j, 1 <= j <= 50000 -> k <> Engine.test_key 0 (chars "k") j) -> h' !! k = None).
Proof.
  destruct (test_redis_writes 0 (fun _ => Some true) sevens (chars "test_redis") (chars "k") (∅ : hredis))
    as (v & h' & E & Hv & K & F); [exact I|done|by vm_compute|].
  exists v, h'. split; [exact E|]. split; [exact Hv|]. split; [exact K|].
  intros k Hk. etrans; [apply F, Hk|]. exact (lookup_empty (M := gmap (list ascii)) k).
Defined.

Definition mongo_opts : list (argp_key * list ascii) :=
  [(KEY_OPT "s", chars "4"); (KEY_OPT "c", chars "3")].

Lemma test_mongo_stores_witness :
  exists d', test_mongo_main 100 (fun _ _ => 7) (fun _ => true) (Ok ()) 0 (chars "h") mongo_opts
      (mkTestState (∅ : gmap (list ascii) document) false) = (Ok (), mkTestState d' true) /\
    d' !! mongo_test_key 0 7 2 = Some (test_doc (mongo_test_key 0 7 2) 4) /\
    d' !! mongo_test_key 0 7 3 = None.
Proof.
  destruct (test_mongo_stores 100 (fun _ _ => 7) (fun _ => true) 0 (chars "h") mongo_opts
    (mkTestArguments 4 3 None None) (∅ : gmap (list ascii) document)) as (d' & E & K & F);
    [exact I|by vm_compute|cbn; lia|done|done|intros j; exact (lookup_empty (M := gmap (list ascii)) _)|].
  exists d'. split; [exact E|]. split; [apply (K 2%nat); cbn; lia|].
  etrans; [apply F|exact (lookup_empty (M := gmap (list ascii)) _)].
  intros j Hj Ek%sub_key_inj. cbn in Hj. lia.
Defined.

(** ** The colocation replayer *)

Definition trace0 : list request := [mkRequest T_READ 0 4; mkRequest T_WRITE 0 4; mkRequest LSEEK 8 0].

Lemma main_replays_witness :
  exists s', Colocation.main sevens 0 (fun _ => Some true) (Some (ColocationSpec.trace_text trace0)) 0 2
               (Colocation.mkState (Some (∅ : hredis)) 0) = (Ok (Some 8), s').
Proof.
  apply (main_replays sevens 0 (fun _ => Some true) trace0 2 (∅ : hredis) 0);
    [repeat constructor; cbn; lia|by vm_compute|exact I|done|].
  intros off. exact (lookup_empty (M := gmap (list ascii)) _).
Defined.

(** ** Single-hop experiments *)

Lemma getInt_decimal_witness :
  getInt (Some (chars "-42")) 0 = Ok (-42) /\ getInt (Some (chars "-42")) GN_NONNEG = Exit 1.
Proof.
  split.
  - apply (getInt_decimal (-42) 0); [lia|done].
  - apply (getInt_decimal (-42) GN_NONNEG); [lia|done].
Defined.

Lemma getInt_sound_witness :
  getInt (Some (chars "0x1F")) (GN_ANY_BASE + GN_GT_0) = Ok 31 /\ - 2 ^ 31 <= 31 < 2 ^ 31 /\
    allowed (GN_ANY_BASE + GN_GT_0) 31 = true.
Proof.
  split; [by vm_compute|]. apply (getInt_sound (Some (chars "0x1F")) (GN_ANY_BASE + GN_GT_0) 31). by vm_compute.
Defined.

Definition xfs0 : XFS := mkXFS ∅ ∅ (fun _ => true).

Lemma setxattr_leaves_nothing_witness :
  setxattr_main 2 1 [chars "setxattr"; chars "f"] xfs0 = (Ok (), xfs0).
Proof.
  apply (setxattr_leaves_nothing 2 1 (chars "setxattr") (chars "f") xfs0); [done|done|].
  intros j Hj. split; [cbn; set_solver|]. split; [apply lookup_empty|].
  pose proof (zlen_dec_int j ltac:(lia)). unfold link_key, link_file, sub_key. change (2 =? 1) with false. cbv iota.
  rewrite !zlen_app. change (zlen (dec 1)) with 1. change (zlen (chars "redis")) with 5.
  change (zlen (chars "f")) with 1. change (zlen ["_"%char]) with 1. change (zlen [":"%char]) with 1. lia.
Defined.

Lemma shadow_mt_links_witness :
  exists h', shadow_mt_main 3 [chars "shadow"; chars "k"] (∅ : hredis) = (Ok (), h') /\
    (forall j, 1 <= j <= 1000 -> hi_view h' !! mt_key (chars "k") 3 j = Some (chars "redis")) /\
    (forall j, 1001 <= j <= 2000 -> hi_view h' !! mt_key (chars "k") 3 j = Some (chars "orangefs")).
Proof.
  apply (shadow_mt_links (chars "shadow") (chars "k") 3 (∅ : hredis)); [exact I|by vm_compute].
Defined.
