(* ===== verification/CommonWitnesses.v ===== *)
(** * CommonWitnesses: the theorems about common/, benchmark/ and the predictor
    at concrete inputs *)

From stdpp Require Import relations.
From S2P Require Import Prelude CText Effects Types Services Strtol CFloat Arguments.
From S2P Require Import ArgumentsSpec.
From S2P Require Import BenchArgs Rng BenchIO Ostream BenchStats Benchmark BenchSpec.
From S2P Require Tracing.
From S2P Require Import Serializers DoubleBuffer DoubleBufferSpec CostModel CostModelSpec.
Import Args.

(** ** Command lines *)

Definition argv0 : list (list ascii) :=
  chars <$> ["benchmark"; "-s"; "orangefs"; "-caddr"; "/mnt/"; "-w"; "io-only"; "-path"; "f"; "-rfrac"; "0.5";
             "-wfrac"; "1"; "-bs"; "4k"; "-fs"; "1m"; "-tot"; "10k"; "-direct"]%string.

Definition is_Ok {A} (o : outcome A) : bool := match o with Ok _ => true | _ => false end.

Lemma is_Ok_ex {A} (o : outcome A) : is_Ok o = true -> exists a, o = Ok a.
Proof. destruct o; [by eexists|done..]. Qed.

Lemma argv0_read : (ArgIter argv0 options).1 = Ok ().
Proof. by vm_compute. Qed.

Lemma argv0_read_pair : ArgIter argv0 options = (Ok (), (ArgIter argv0 options).2).
Proof. pose proof argv0_read as E. destruct (ArgIter argv0 options) as [r m]. cbn in *. by subst r. Qed.

Lemma ArgIter_spec_witness :
  exists ts m', command_line options (tail argv0) = Some ts /\ ArgIter argv0 options = (Ok (), m') /\
    forall o, option_Forall2 (after o ts) (options !! o) (m' !! o).
Proof.
  assert (match command_line options (tail argv0) with Some _ => true | None => false end = true) as E by (vm_compute; reflexivity).
  pose proof (ArgIter_spec argv0 options options_ok) as S.
  destruct (command_line options (tail argv0)) as [ts|]; [|done]. destruct S as (m' & S1 & S2).
  exists ts, m'. exact (conj eq_refl (conj S1 S2)).
Defined.

Lemma accepted_options_readable_witness :
  exists v, GetSizeOpt (chars "-bs") (ArgIter argv0 options).2 = Ok v.
Proof.
  assert (GetType <$> (ArgIter argv0 options).2 !! chars "-bs" = Some kSize) as Et by (vm_compute; reflexivity).
  assert (OptIsSet (chars "-bs") (ArgIter argv0 options).2 = true) as Es by (vm_compute; reflexivity).
  apply fmap_Some_1 in Et as (a & Ea & Ht).
  pose proof (accepted_options_readable argv0 options (ArgIter argv0 options).2 (chars "-bs") a
    options_ok argv0_read_pair Ea Es) as G.
  rewrite <- Ht in G. destruct G as (v & G & _). exists v. exact G.
Defined.

Lemma ToSize_scales_witness :
  0 <= 64 < 2 ^ 64 /\ ToSize (dec 64) = Ok 64 /\ ToSize (dec 64 ++ ["k"%char]) = Ok 65536.
Proof.
  split; [done|]. destruct (ToSize_scales 64) as (E & K & _); [done|]. split; [exact E|].
  apply (K "k"%char). by left.
Defined.

Lemma invalid_value_loses_default_witness :
  exists a', Add (chars "x") (StringMapArg (defaulted (chars "-w") kStringMap) ∅ [3]) =
      (Throw (IntException 1), a') /\ IsSet a' = true /\ Arg_GetIntOpt a' = Undefined OutOfBounds.
Proof. apply (invalid_value_loses_default (chars "-w") ∅ 3 (chars "x")). by vm_compute. Defined.

Lemma argv0_accepted : exists m, BenchmarkArgs argv0 = Ok m.
Proof. apply is_Ok_ex. by vm_compute. Qed.

Lemma BenchmarkArgs_sound_witness : exists m s w,
  GetIntOpt (chars "-s") m = Ok (service_int s) /\ GetIntOpt (chars "-w") m = Ok (workload_int w).
Proof.
  destruct argv0_accepted as [m A]. destruct (BenchmarkArgs_sound argv0 m A) as (s & w & E1 & E2 & _).
  exists m, s, w. exact (conj E1 E2).
Defined.

(** ** The benchmark *)

Abbreviation bfiles := (gmap string (list ascii)) (only parsing).
Abbreviation bredis := (gmap string (list ascii)) (only parsing).

Definition no_samples : DistributionType -> double -> double -> nat -> double * nat :=
  fun _ _ _ n => (double_of_Z 0, S n).

Definition measures0 : Measures := mkMeasures (foldr dadd (double_of_Z 0)) (fun l => default (double_of_Z 0) (head l))
  (fun l => default (double_of_Z 0) (last l)) (fun x _ => dmul x x) (chars "nan") (fun _ => true)
  [double_of_Z 2; double_of_Z 6].

Lemma benchmark_reads_options_witness : exists m s wl addr port j,
  GetIntOpt (chars "-s") m = Ok (service_int s) /\ GetStringOpt (chars "-caddr") m = Ok addr /\
  GetIntOpt (chars "-cport") m = Ok port /\ job_of wl m j.
Proof.
  destruct argv0_accepted as [m A].
  destruct (benchmark_reads_options (F := bfiles) (R := bredis) 0%nat (fun _ n => n) (fun n => n) no_samples measures0 0 2 argv0 m A)
    as (s & wl & addr & port & j & E1 & E2 & E3 & E4 & _).
  exists m, s, wl, addr, port, j. exact (conj E1 (conj E2 (conj E3 E4))).
Defined.

Definition bw0 : BWorld bfiles bredis := mkBWorld {[ "/mnt/f0" := chars "old" ]} ∅ ∅.

Lemma prealloc_file_zeros_witness :
  exists w', prealloc_file 0 2 (OrangefsIO "/mnt/") (chars "f") 10 bw0 = (Ok (), w') /\
    zeroed "/mnt/f0" bw0 5 w'.
Proof. apply (prealloc_file_zeros (R := bredis) 0 2 "/mnt/" (chars "f") 10 bw0); [done..|exact I]. Defined.

Lemma io_file_sequential_witness :
  exists w', io_file 0%nat (fun _ n => n) (fun n => n) no_samples ∅ 0 2 (OrangefsIO "/mnt/") (chars "f")
      (float_of_Z 1) (float_of_Z 1) 4 100 10 bw0 = (Ok (5, 5), w') /\ zeroed "/mnt/f0" bw0 8 w'.
Proof.
  apply (io_file_sequential (R := bredis) 0%nat (fun _ n => n) (fun n => n) no_samples 0 2 ∅ "/mnt/" (chars "f")
    (float_of_Z 1) (float_of_Z 1) 4 100 10 5 5 bw0); try done; try (by vm_compute); by eexists.
Defined.

(** Two runs that report to the file r.csv. *)
Definition argv_out : list (list ascii) := argv0 ++ (chars <$> ["-out"; "r.csv"; "-config"; "c"]).

Definition run0 : io_run := mkIoRun measures0 2 4096 8192 4096 0.

Lemma results_read_back_witness :
  let args := (ArgIter argv_out options).2 in
  exists s' content, for_each (report args) [run0; run0] ∅ = (Ok (), s') /\ s' !! chars "r.csv" = Some content /\
    parse_csv content = split_on "," io_header :: [run_row (chars "c") run0; run_row (chars "c") run0] ++ [[[]]].
Proof.
  destruct (results_read_back (ArgIter argv_out options).2 (chars "r.csv") (chars "c")) with (rs := [run0; run0]) (s := ∅ : gmap (list ascii) (list ascii))
    as (s' & content & E1 & E2 & E3 & _ & _).
  - by vm_compute.
  - by vm_compute.
  - by vm_compute.
  - apply (bool_decide_unpack _). by vm_compute.
  - assert (plain (nan_text (ir_ms run0))) as Hnan by (apply (bool_decide_unpack _); by vm_compute).
    assert (opens (ir_ms run0) (chars "r.csv") = true /\ plain (nan_text (ir_ms run0))) as Hr.
    { by split. }
    repeat (apply Forall_cons; split; [exact Hr|]). done.
  - done.
  - apply lookup_empty.
  - exists s', content. exact (conj E1 (conj E2 E3)).
Defined.

(** The row of a run: times of 2 and 6 milliseconds, 8 KB read and 16 KB written. *)
Example run_row0 : run_row (chars "c") run0 =
  chars <$> ["4"; "2.82843"; "2"; "6"; "2"; "4096"; "0"; "8192"; "16384"; "24576"; "2048"; "4096"; "6144"; "c"]%string.
Proof. by vm_compute. Qed.

Lemma redis_write_undefined_witness :
  File_Write (BlockFile KRedis "f" 3) (Some (Some <$> chars "ab")) 2 bw0 = (Undefined OutOfBounds, bw0).
Proof. by apply (redis_write_undefined (F := bfiles) (R := bredis) "f" 3 (chars "ab") bw0). Defined.

Lemma mongo_never_runs_witness : exists m,
  GetIntOpt (chars "-s") m = Ok (service_int kMongo) /\
  benchmark 0%nat (fun _ n => n) (fun n => n) no_samples measures0
    (chars <$> ["benchmark"; "-s"; "mongodb"; "-caddr"; "h"; "-w"; "prealloc"; "-path"; "f"; "-fs"; "1"])
    0 2 true bw0 = (Throw (IntException 1), bw0).
Proof.
  set (argv := chars <$> _). assert (is_Ok (BenchmarkArgs argv) = true) as A by by vm_compute.
  assert (match BenchmarkArgs argv with Ok m => GetIntOpt (chars "-s") m | _ => Ok 9 end = Ok 1) as E by (vm_compute; reflexivity).
  destruct (is_Ok_ex _ A) as [m Em]. rewrite Em in E. exists m. split; [exact E|].
  by apply (mongo_never_runs (F := bfiles) (R := bredis) 0%nat (fun _ n => n) (fun n => n) no_samples measures0 0 2 argv m true bw0).
Defined.

(** ** Buffers *)

Definition numbers0 : list number := [NInt (-5); NUlong 7; NFloat (float_of_Z 2)].

Lemma numbers_roundtrip_witness :
  (exists b, write_numbers numbers0 (new_Buf 64) = (Ok (), b) /\ Serializers.GetSize b = 16 /\
     (parse_numbers (Ok ()) numbers0 [] (mkBuf (GetBuf b) 0 64)).1 = Ok (Some <$> numbers0)) /\
  exists b, write_numbers numbers0 (new_Buf 64) = (Ok (), b) /\
     (parse_numbers (Undefined MissingReturn) numbers0 [] (mkBuf (GetBuf b) 0 64)).1 = Undefined MissingReturn.
Proof.
  split.
  - destruct (numbers_roundtrip (Ok ()) numbers0 64) as (b & E & S & P & _);
      [repeat (constructor; [by vm_compute|]); constructor|by vm_compute|].
    exists b. split; [done|]. split; [done|]. apply P. by right.
  - destruct (numbers_roundtrip (Undefined MissingReturn) numbers0 64) as (b & E & S & _ & P);
      [repeat (constructor; [by vm_compute|]); constructor|by vm_compute|].
    exists b. split; [done|]. by apply P.
Defined.

(** A pusher and a consumer. *)
Definition two_threads (t : nat) (c : call nat) : Prop :=
  match c with CPush _ _ => t = 0%nat | _ => t = 1%nat end.

Lemma two_threads_one : one_consumer two_threads 1.
Proof. intros t. by split. Qed.

(** A push under way: a run of it has at most as many steps as [work] says. *)
Definition pushing : config nat := goto 0 (start (CPush false 5%nat)) (initial 2).

Lemma pushing_reachable : reachable two_threads 2 pushing.
Proof. apply rtc_once. apply (begin two_threads (initial 2) 0 (CPush false 5%nat)); done. Qed.

Lemma calls_complete_witness :
  exists c', nsteps running 1 pushing c' /\ (1 <= work pushing)%nat.
Proof.
  assert (nsteps running 1 pushing (goto 0 (PushIn false 5%nat) (set_lock false (Some 0%nat) pushing))) as S.
  { apply nsteps_once. exists 0%nat. by apply (try_lock_ok 0 pushing false false 5%nat). }
  destruct (calls_complete two_threads 1 2 two_threads_one pushing pushing_reachable) as [C _].
  exists (goto 0 (PushIn false 5%nat) (set_lock false (Some 0%nat) pushing)). exact (conj S (C 1%nat _ S)).
Defined.

Lemma buffer_safe_witness :
  reachable two_threads 2 pushing /\ pushed pushing ≡ₚ popped pushing ++ lists pushing false ++ lists pushing true.
Proof.
  exact (conj pushing_reachable
    (proj1 (proj2 (buffer_safe two_threads 1 2 two_threads_one pushing pushing_reachable)))).
Defined.

Definition idle_config : config nat := mkConfig (fun _ => None) (fun i => if i then [4%nat] else []) [Idle] [4%nat] [].

Lemma pop_alone_witness :
  exists c', rtc (step 0) (goto 0 (start (CPop false)) idle_config) c' /\ at_ 0 Idle c' /\ popped c' = [4%nat].
Proof.
  destruct (pop_alone idle_config 0 false) as (c' & H1 & H2 & _ & H3); [done|by intros []|]. by exists c'.
Defined.

(** ** The predictor *)

Definition pow0 : double -> double -> double := fun x _ => dmul x x.
Definition solve0 : (Observation -> Vec -> double) -> list Observation -> nat -> Vec :=
  fun _ l _ => mkVec (double_of_Z (zlen l)) dzero dzero.

Definition d1 : double := double_of_Z 1.

Lemma fit_window_witness :
  exists m', LinReg_Fit pow0 solve0 (LinReg_Feedback d1 d1 d1 d1 new_model) 0 = (m', 1%nat) /\ buffer_ m' = true.
Proof.
  destruct (fit_window pow0 solve0 [(d1, d1, d1, d1)] new_model 0) as (m' & E & _ & _ & B & _); [done|done|].
  by exists m'.
Defined.

Lemma unconfigured_never_fitted_witness :
  exists p', for_each (act pow0 solve0) [DoFeedback d1 d1 d1 7; WorkerTurn] (new_Predictor (mkFS ∅ ∅ 8 false)) = (Ok (), p') /\
    untouched 7 (new_Predictor (mkFS ∅ ∅ 8 false)) p'.
Proof.
  set (p := new_Predictor _).
  assert ((for_each (act pow0 solve0) [DoFeedback d1 d1 d1 7; WorkerTurn] p).1 = Ok ()) as E by (vm_compute; reflexivity).
  destruct (for_each _ _ p) as [r p'] eqn:Ep. cbn in E. subst r. exists p'. split; [done|].
  by apply (unconfigured_never_fitted pow0 solve0 _ 7 p p' (not_elem_of_nil 7) Ep).
Defined.

(** A predictor with one solution fitted once. *)
Definition predictor0 : Predictor :=
  mkPredictor "m" (Some ("m", 0)) 0 1 true 256 0
    {[ 3 := UpdateCoeffs (mkVec d1 d1 d1) true new_model ]} [3] (mkFS {[ "m" := [] ]} ∅ 8 false) 1.

Lemma queued0 : queued 3 predictor0 = [mkVec d1 d1 d1].
Proof. by vm_compute. Qed.

Lemma commit_saves_witness :
  exists p', CommitMetrics predictor0 = (Ok (), p') /\ model_file_ p' = Some ("m"%string, 16).
Proof.
  destruct (commit_saves predictor0 "m" 0) as (p' & E & _ & M & _);
    [done|apply NoDup_singleton|by vm_compute|done|done|].
  exists p'. split; [exact E|]. rewrite M. by vm_compute.
Defined.

Lemma save_load_witness :
  exists p', CommitMetrics predictor0 = (Ok (), p') /\
    (forall q, disk q = disk p' ->
      (LoadModelCSV_part (Undefined MissingReturn) "m" true q).1 = Undefined MissingReturn /\
      exists q', LoadModelCSV_part (Ok ()) "m" true q = (Ok true, q')).
Proof.
  assert (exists p', CommitMetrics predictor0 = (Ok (), p')) as [p' E].
  { destruct (save_load "m" predictor0 predictor0 3 (mkVec d1 d1 d1)) as (p' & E & _);
      [done|done|exact queued0|done|done|by vm_compute|done|apply not_elem_of_empty|]. by exists p'. }
  exists p'. split; [exact E|]. intros q Hq.
  destruct (save_load "m" predictor0 q 3 (mkVec d1 d1 d1) eq_refl eq_refl queued0) as (p1 & E1 & L);
    [split; [discriminate|reflexivity]|reflexivity|vm_compute; reflexivity|reflexivity|apply not_elem_of_empty|].
  rewrite E in E1. injection E1 as <-. destruct (L Hq) as (Lu & q' & Lq & _). rewrite Lu. split; [reflexivity|].
  exists q'. exact Lq.
Defined.

Lemma load_second_record_witness :
  (LoadModelCSV_part (Ok ()) "m" true
     (new_Predictor (mkFS {[ "m" := replicate 32 nul ]} ∅ 8 false))).1 = Undefined UninitRead.
Proof.
  apply load_second_record; [|by vm_compute].
  unfold open_rdonly. apply bool_decide_eq_true. cbn. rewrite lookup_singleton_eq. split; [by eexists|].
  apply not_elem_of_empty.
Defined.

(** ** Tracing *)

Module TracingDemo.
Import Tracing.

(** A build with traces only. *)
Definition build0 : Build := mkBuild false true false false false.
Definition name0 : list ascii := chars "server".

(** A store that calls the metadata and a client, which throws, and a call it does
    not come to. *)
Definition scope0 : scope :=
  Scope (chars "Store") [chars "f"; chars "10"]
    [Scope (chars "Locate") [] [] None; Scope (chars "Write") [] [] (Some (IntException 1));
     Scope (chars "Publish") [] [] None] None.

Definition line (s : string) : list ascii := chars s ++ newline ++ reset_color.

(** The first line of a process says depth 1 and rank 0, whatever its rank. *)
Example scope0_text :
  (scope_text build0 name0 [] 1 0 scope0).1 =
    mjoin (line <$> ["1;server;0;Store;args(f, 10, );start"; "2;server;0;Locate;args(Void);start";
                     "2;server;0;Locate;;finish"; "2;server;0;Write;args(Void);start";
                     "2;server;0;Write;;finish"; "1;server;0;Store;;finish"]%string).
Proof. by vm_compute. Qed.

Lemma run_scope_text_witness :
  run_scope build0 name0 3 (fun _ => 0) [] scope0 Trace0 =
    (Throw (IntException 1), print (scope_text build0 name0 [] 1 0 scope0).1 Trace0).
Proof.
  apply (run_scope_text build0 name0 3 (fun _ => 0) [] eq_refl eq_refl eq_refl scope0 Trace0); by vm_compute.
Defined.

End TracingDemo.
