(* ===== verification/PredictorWitnesses.v ===== *)
(** * PredictorWitnesses: schedules of the predictor's two threads

    The theorems about the threads at a schedule in which a prediction overlaps an
    update, and the schedules in which an empty window and the unprotected counter
    show. *)

From S2P Require Import Prelude CText Effects Strtol CFloat Services Serializers DoubleBuffer CostModel.
From S2P Require Import CostModelSpec PredictorThreads PredictorThreadsSpec PredictorReads PredictorTurns CommonWitnesses.

Module ThreadsDemo.

(** The number [n] as a double. *)
Definition d (n : Z) : double := double_of_Z n.

(** A solver that takes the bandwidth of the last measurement for all coefficients. *)
Definition solve1 : (Observation -> Vec -> double) -> list Observation -> nat -> Vec :=
  fun _ l _ => let b := default dzero (bandwidth <$> last l) in mkVec b b b.

(** One configured solution, windows of [n], nothing saved. *)
Definition predictor7 (n : Z) : Predictor :=
  set_configs [7] (set_model 7 new_model
    (SetWindowSize n (EnableMetricStorage false (new_Predictor (mkFS ∅ ∅ 8 false))))).

Definition obs (n : Z) : Observation := mkObservation (mkVec (d 1) (d 1) (d 1)) (d n).

Definition feed (n : Z) : list choice := [Begin (CallFeedback (d n) (d 1) (d 1) 7); Push false; MainStep; MainStep].
Definition steps (n : nat) : list choice := replicate n WorkerStep.

Abbreviation run := (schedule pow0 solve1).

(** A prediction that reads a coefficient before and two after the exchange. *)
Definition overlap : list choice :=
  feed 8 ++ feed 4 ++ steps 9 ++ [Begin (CallPredict (d 1) (d 1) 7); MainStep; ReadCoeff K2] ++ steps 4 ++
  [ReadCoeff K0; ReadCoeff K1; MainStep].

(** What a schedule of a predictor shows at its end. *)
Definition shows {B : Type} (f : pconfig -> B) (n : Z) (chs : list choice) (x : B) : Prop :=
  exists c, run chs (started (predictor7 n)) = Some c /\ f c = x.

Lemma shows_run {B : Type} (f : pconfig -> B) n chs x :
  f <$> run chs (started (predictor7 n)) = Some x -> shows f n chs x.
Proof. unfold shows. destruct (run chs _) as [c|]; [|done]. intros [= <-]. by exists c. Qed.

Lemma measurements_conserved_witness :
  exists c, run overlap (started (predictor7 2)) = Some c /\
    fed c 7 ≡ₚ concat (windows c 7) ++ in_hand 7 (worker c) ++ waiting (model_of 7 (pred c)) /\
    windows c 7 = [[obs 8; obs 4]].
Proof.
  destruct (run overlap (started (predictor7 2))) as [c|] eqn:E; [|by vm_compute in E].
  exists c. split; [done|]. split.
  - apply (measurements_conserved pow0 solve1 (predictor7 2)). by exists overlap.
  - vm_compute in E. injection E as <-. by vm_compute.
Defined.

Lemma configs7 n : NoDup (storage_configs_ (predictor7 n)).
Proof. apply NoDup_singleton. Qed.

(** It has the value of the coefficients before the update. *)
Lemma predictions_consistent_witness :
  exists c r, run overlap (started (predictor7 2)) = Some c /\ returned c = [r] /\ pr_value r = dzero /\
    exists x, published c 7 !! 0%nat = Some x /\ pr_value r = predict_with (double_of_Z 1) (d 1) (d 1) x.
Proof.
  destruct (run overlap (started (predictor7 2))) as [c|] eqn:E; [|by vm_compute in E].
  pose proof (predictions_consistent pow0 solve1 (predictor7 2) c) as H.
  exists c, (mkPredicted 7 (d 1) (d 1) 0 1 dzero). split; [done|].
  assert (returned c = [mkPredicted 7 (d 1) (d 1) 0 1 dzero]) as Er by (vm_compute in E; injection E as <-; by vm_compute).
  split; [exact Er|]. split; [done|].
  apply (H (mkPredicted 7 (d 1) (d 1) 0 1 dzero) (configs7 2)); [done|by exists overlap|]. rewrite Er. by left.
Defined.

(** Feedback while the window is collected: the turn has 13 steps left, then two
    more, and takes them all. *)
Lemma turns_end_witness :
  exists c, run (feed 8 ++ feed 4 ++ steps 3) (started (predictor7 2)) = Some c /\
    turn_work c = 13%nat /\ count is_worker_step (feed 2 ++ steps 15) = 15%nat /\ (15 <= turn_work c + 2)%nat.
Proof.
  destruct (run (feed 8 ++ feed 4 ++ steps 3) (started (predictor7 2))) as [c|] eqn:E; [|by vm_compute in E].
  exists c. split; [done|].
  destruct (turns_end pow0 solve1 (predictor7 2) c (configs7 2)) as [_ H]; [by exists (feed 8 ++ feed 4 ++ steps 3)|].
  specialize (H (feed 2 ++ steps 15)).
  assert (busy pow0 solve1 (feed 2 ++ steps 15) c) as Hb by (vm_compute in E; injection E as <-; vm_compute; by repeat split).
  assert (turn_work c = 13%nat) as Ht by (vm_compute in E; injection E as <-; by vm_compute).
  split; [exact Ht|]. split; [by vm_compute|]. exact (H Hb).
Defined.

(** [Finalize] in the middle of a fit. *)
Lemma finalize_returns_witness :
  exists c, run (feed 8 ++ feed 4 ++ steps 9 ++ [Begin CallFinalize]) (started (predictor7 2)) = Some c /\
    exists k c', run (steps k) c = Some c' /\ main c' = MJoin /\
      (worker c' = WCrashed \/
       exists c'', main_step c' = Some c'' /\ main c'' = MDone /\ model_file_ (pred c'') = None).
Proof.
  destruct (run (feed 8 ++ feed 4 ++ steps 9 ++ [Begin CallFinalize]) (started (predictor7 2))) as [c|] eqn:E;
    [|by vm_compute in E].
  exists c. split; [done|]. apply (finalize_returns pow0 solve1 (predictor7 2) c); [by eexists|].
  vm_compute in E. by injection E as <-.
Defined.

(** Two measurements, a turn and a prediction, one after the other. *)
Definition actions7 : list action :=
  [DoFeedback (d 8) (d 1) (d 1) 7; DoFeedback (d 4) (d 1) (d 1) 7; WorkerTurn; DoPredict (d 1) (d 1) 7].

Lemma actions_are_schedules_witness :
  exists p chs c, for_each (act pow0 solve1) actions7 (predictor7 2) = (Ok (), p) /\
    run chs (started (predictor7 2)) = Some c /\ between c /\ pred c = p.
Proof.
  assert ((for_each (act pow0 solve1) actions7 (predictor7 2)).1 = Ok ()) as E by by vm_compute.
  destruct (for_each (act pow0 solve1) actions7 (predictor7 2)) as [o p] eqn:Ep. cbn in E. subst o.
  destruct (actions_are_schedules pow0 solve1 actions7 (predictor7 2) p) as (chs & c & H1 & H2 & H3);
    [|exact Ep|by exists p, chs, c].
  assert (is_Some (storage_models_ (predictor7 2) !! 7)) as Hk by (exists new_model; by vm_compute).
  unfold actions7. repeat (apply Forall_cons; split; [first [exact Hk|exact I]|]). apply Forall_nil. exact I.
Defined.

(** ** What the hypotheses exclude, and what the counter loses *)

(** With an empty window the worker fits whenever there is a measurement, so two
    updates can begin during a prediction: its coefficients are of no update. *)
Definition torn : list choice :=
  feed 8 ++ steps 6 ++ feed 4 ++ [Begin (CallPredict (d 1) (d 1) 7); MainStep; ReadCoeff K0] ++ steps 18 ++
  [ReadCoeff K1; ReadCoeff K2; MainStep].

Lemma empty_window_tears :
  shows (fun c => (pr_value <$> returned c, predict_with (d 1) (d 1) (d 1) <$> published c 7)) 0 (torn ++ steps 2)
    ([d 4], [dzero; d 12; d 6]).
Proof. apply shows_run. by vm_compute. Qed.

(** [++window_tick_] reads the counter before the worker resets it and writes it
    afterwards: the next window is full with one measurement. *)
Lemma reset_lost :
  shows (fun c => (window_tick_ (pred c), windows c 7)) 2
    (feed 8 ++ feed 4 ++ steps 8 ++ [Begin (CallFeedback (d 2) (d 1) (d 1) 7); Push false; MainStep] ++
     steps 8 ++ [MainStep] ++ steps 7) (3, [[obs 8; obs 4]; [obs 2]]).
Proof. apply shows_run. by vm_compute. Qed.

(** A measurement that is fed during a fit is no part of its window, but its tick is
    reset with it. *)
Lemma tick_lost :
  shows (fun c => (worker c, window_tick_ (pred c), windows c 7, waiting (model_of 7 (pred c)))) 2
    (feed 8 ++ feed 4 ++ steps 8 ++ feed 2 ++ steps 8) (WWait, 0, [[obs 8; obs 4]], [obs 2]).
Proof. apply shows_run. by vm_compute. Qed.

End ThreadsDemo.
