(* ===== verification/MultiWitnesses.v ===== *)
(** * MultiWitnesses: an object of three segments in three stores

    The theorem of MultiSpec on a concrete server: segments of four bytes, placed
    round robin, one of them in each store; then the theorems of ClientObjects and
    PosixObjects on a cluster of two servers with one mounted file system. *)

From S2P Require Import Prelude CText Effects Types Services FileIO KeyValueSpec IOClient World.
From S2P Require Import Msgpack Config Distribution Metadata MetadataSpec Chunks ObjectSpec.
From S2P Require Import Server ServerSpec MultiSpec Client ClusterSpec ClientObjects.
From S2P Require Import Posix PosixSpec PosixObjects Witnesses.

Module MultiDemo.
Import Codec Demo Multi.

Definition small_conf (c : Conf) : Conf :=
  mkConf (SERVER_LISTS c) (CLIENT_LISTS c) (SYMBIOS_PORT c) (SERVER_RPC_THREADS c) (SERVER_DIR c)
    (CONFIGURATION_FILE c) (SERVER_COUNT c) (RANDOM_SEED c) 4 (STORAGE_SOLUTIONS c) ROUND_ROBIN_POLICY.

Definition Conf4 : Conf := small_conf Conf0.

Definition server4 : Server redis_ref mongo_ref := mkServer Conf4 (mkDDE 0 0 []) world0.

Definition turns (n : nat) : Z := Z.of_nat n mod 2 ^ 32.

Lemma turns_range n : 0 <= turns n < 2 ^ 64.
Proof. unfold turns. pose proof (Z.mod_pos_bound (Z.of_nat n) (2 ^ 32)). lia. Qed.

Lemma Conf4_ok : conf_ok Conf4.
Proof. destruct Conf0_ok as [Hd Ht _]. split; [exact Hd|exact Ht|unfold transfer_max; simpl; lia]. Qed.

Lemma rep4 : rep server4 ∅.
Proof.
  split; [split; [apply Conf4_ok|done]|done|apply world0_up|].
  intros id _. rewrite lookup_empty. split.
  - intros i [] _; simpl; (apply lookup_empty || done).
  - intros [] i _; simpl; (apply lookup_empty || done).
Qed.

(** Byte [n] of the object "a", whose home is the Redis store. *)
Definition a_at (n : Z) : Data := set_position n (obj_at "a" 1).

Definition requests4 : list request :=
  [ StoreRequest (bytes_of "hell" Data0) (a_at 0);
    StoreRequest (bytes_of "o wo" Data0) (a_at 4);
    StoreRequest (bytes_of "rl" Data0) (a_at 8);
    StoreRequest (bytes_of "J" Data0) (a_at 0);
    LocateRequest (a_at 0) Data0;
    LocateRequest (set_data_size 3 (a_at 4)) Data0;
    SizeRequest (a_at 0);
    DeleteRequest (a_at 0);
    LocateRequest (a_at 0) Data0 ].

Definition abs_requests4 : list abs_request :=
  [ AStore "a" 1 0 (chars "hell"); AStore "a" 1 4 (chars "o wo"); AStore "a" 1 8 (chars "rl");
    AStore "a" 1 0 (chars "J"); ALocate "a" 0 0 Data0; ALocate "a" 4 3 Data0; ASize "a"; ADelete "a";
    ALocate "a" 0 0 Data0 ].

Lemma type_at_Conf4 i ty :
  type_at Conf4 i ty -> (i, ty) ∈ [(0, FILE_IO); (1, REDIS_IO); (2, MONGO_IO)].
Proof. apply type_at_Conf0. Qed.

Lemma named4 m r : id_ r = "a" -> storage_index_ r = 1 ->
  (forall p v, m !! "a" = Some (p, v) -> 1 = p) -> named Conf4 m r.
Proof.
  intros Hid Hi Hp. split; rewrite ?Hid, ?Hi; [done| |done]. exists REDIS_IO. apply type_at_Conf0. configured.
Qed.

Lemma stores4 m b n :
  inside_segment Conf4 (bytes_at (m !! "a")) n (chars b) -> n mod 4 = 0 ->
  (forall p v, m !! "a" = Some (p, v) -> 1 = p) ->
  store_request (R := redis_ref) (M := mongo_ref) Conf4 m (bytes_of b Data0) (a_at n) (chars b).
Proof.
  intros Hin Hn Hp. split; [|done|done| |split; [unfold is_u64; simpl; lia|done]| |done].
  - exists (Some <$> chars b). rewrite zlen_fmap. split; [done|]. split; [|lia].
    by rewrite <- (zlen_fmap Some (chars b)), slice_whole.
  - intros i ty _. change (position_ (a_at n) mod MAX_OBJ_SIZE Conf4) with (n mod 4). rewrite Hn. apply wexact_0.
  - exists REDIS_IO. apply type_at_Conf0. configured.
Qed.

Lemma store4 m b n :
  inside_segment Conf4 (bytes_at (m !! "a")) n (chars b) -> n mod 4 = 0 ->
  (forall p v, m !! "a" = Some (p, v) -> 1 = p) ->
  stands_for (R := redis_ref) (M := mongo_ref) Conf4 m (StoreRequest (bytes_of b Data0) (a_at n)) (AStore "a" 1 n (chars b)).
Proof. intros. by apply (sf_store Conf4 m (bytes_of b Data0) (a_at n) (chars b)), stores4. Qed.

Ltac inside := split; [split; vm_compute; congruence|split; [done|split; vm_compute; congruence]].
Ltac at_home := intros p v E; vm_compute in E; congruence.

Lemma range4 v r : position_ r = 4 -> data_size_ r = 3 -> 7 <= zlen v ->
  range_request (R := redis_ref) (M := mongo_ref) Conf4 r v.
Proof.
  intros Hp Hn Hv. split; rewrite ?Hp, ?Hn; [lia|done|].
  intros i ty _. right. split; [apply wreads_0|done].
Qed.

Lemma stands4 : stand_for (R := redis_ref) (M := mongo_ref) Conf4 ∅ requests4 abs_requests4.
Proof.
  unfold requests4, abs_requests4.
  constructor; [apply store4; [inside|done|at_home]|].
  constructor; [apply store4; [inside|done|at_home]|].
  constructor; [apply store4; [inside|done|at_home]|].
  constructor; [apply store4; [inside|done|at_home]|].
  constructor; [by apply (sf_whole Conf4 _ (a_at 0) Data0); [apply named4; [done|done|at_home]|]|].
  constructor.
  { apply (sf_range Conf4 _ (set_data_size 3 (a_at 4)) Data0); [apply named4; [done|done|at_home]| |done].
    intros p v E. apply range4; [done|done|]. vm_compute in E. injection E as <- <-. vm_compute. congruence. }
  constructor; [by apply (sf_size Conf4 _ (a_at 0)); [apply named4; [done|done|at_home]|]|].
  constructor; [by apply (sf_delete Conf4 _ (a_at 0)); [apply named4; [done|done|at_home]|]|].
  constructor; [|constructor].
  by apply (sf_whole Conf4 _ (a_at 0) Data0); [apply named4; [done|done|at_home]|].
Qed.

Lemma server_refines_objects_witness :
  exists l s', serve_all zeros turns requests4 server4 = (Ok l, s') /\
    answer_all 1 ∅ abs_requests4 l /\ rep s' (abs_after abs_requests4 ∅).
Proof.
  apply (server_refines_objects zeros turns ltac:(unfold zeros; lia) turns_range server4 ∅ requests4
    abs_requests4 rep4 stands4).
Defined.

(** The replies, evaluated. *)
Example replies4 :
  (serve_all zeros turns requests4 server4).1 =
  Ok [Stored 1; Stored 1; Stored 1; Stored 1;
      Located (set_buffer (Some (Some <$> chars "Jello worl")) Data0);
      Located (set_buffer (Some (Some <$> chars "o w")) Data0); Sized 10; Deleted true; Failed].
Proof. by vm_compute. Qed.

(** The segments are in different stores. *)
Example places4 :
  let w := s_world (serve_all zeros turns (take 3 requests4) server4).2 in
  (wobj w FILE_IO "a0", wobj w REDIS_IO "a1", wobj w MONGO_IO "a2") =
  (Some (chars "hell"), Some (chars "o wo"), Some (chars "rl")).
Proof. by vm_compute. Qed.

(** ** Names that end in a digit *)

(** Eleven segments of "a", two segments of "b", then the first segment of "a1",
    whose key is that of the eleventh segment of "a". *)
Definition at_key (id : string) (n : Z) : Data := set_position n (obj_at id 1).

Definition colliding : list request :=
  ((fun i => StoreRequest (bytes_of "aaaa" Data0) (at_key "a" (4 * i))) <$> seqZ 0 11) ++
  [ StoreRequest (bytes_of "bbbb" Data0) (at_key "b" 0); StoreRequest (bytes_of "bbbb" Data0) (at_key "b" 4);
    StoreRequest (bytes_of "XYZ" Data0) (at_key "a1" 0) ].

Definition collided : Server redis_ref mongo_ref := (serve_all zeros turns colliding server4).2.

(** The store of "a1" changed the last bytes of "a", and the deletion of "a1"
    removes them. *)
Lemma segment_keys_collide :
  segment_id "a" 10 = segment_id "a1" 0 /\
  (serve zeros turns (LocateRequest (at_key "a" 0) Data0) collided).1 =
    Ok (Located (set_buffer (Some (Some <$> replicate 40 "a"%char ++ chars "XYZa")) Data0)) /\
  (serve zeros turns (SizeRequest (at_key "a" 0))
     (serve zeros turns (DeleteRequest (at_key "a1" 0)) collided).2).1 = Ok (Sized 40).
Proof. split; [by vm_compute|]. split; by vm_compute. Qed.

(** ** The client of two servers *)

Definition cluster4 : Cluster redis_ref mongo_ref :=
  mkCluster [(Conf4, mkDDE 0 0 []); (Conf4, mkDDE 0 0 [])] world0 0.

Lemma cluster4_rep : cluster_objects Conf4 cluster4 ∅.
Proof. split; [done| |apply rep4]. repeat constructor; try done; apply maps_ok_nil. Qed.

(** Where the client has room for [n] bytes. *)
Definition room (n : Z) : Data := set_data_size n Data0.

Definition calls4 : list request :=
  [ StoreRequest (bytes_of "hell" Data0) (a_at 0);
    StoreRequest (bytes_of "o wo" Data0) (a_at 4);
    StoreRequest (bytes_of "rl" Data0) (a_at 8);
    LocateRequest (a_at 0) (room 10);
    LocateRequest (set_data_size 3 (a_at 4)) (room 2);
    SizeRequest (a_at 0);
    DeleteRequest (a_at 0);
    LocateRequest (a_at 0) (room 1) ].

Definition abs_calls4 : list abs_call :=
  [ CStore "a" 1 0 (chars "hell"); CStore "a" 1 4 (chars "o wo"); CStore "a" 1 8 (chars "rl");
    CLocate "a" 0 (room 10); CLocate "a" 4 (room 2); CSize "a"; CDelete "a"; CLocate "a" 0 (room 1) ].

Lemma plain_a n k : is_u64 n -> is_u64 k -> plain (set_data_size k (a_at n)).
Proof. intros ? ?. repeat split; unfold is_u64, is_u16 in *; simpl in *; lia. Qed.

Lemma plain_room n : is_u64 n -> plain (room n).
Proof. intros ?. repeat split; unfold is_u64, is_u16 in *; simpl in *; lia. Qed.

Lemma store_call4 m b n :
  inside_segment Conf4 (bytes_at (m !! "a")) n (chars b) -> n mod 4 = 0 -> is_u64 n ->
  Data_wf (bytes_of b Data0) -> (forall p v, m !! "a" = Some (p, v) -> 1 = p) ->
  calls_for (R := redis_ref) (M := mongo_ref) Conf4 m (StoreRequest (bytes_of b Data0) (a_at n)) (CStore "a" 1 n (chars b)).
Proof.
  intros Hin Hn Hu Hw Hp. apply (cf_store Conf4 m (bytes_of b Data0) (a_at n) (chars b)); [done| |by apply stores4].
  by apply (plain_a n 0); [|unfold is_u64; lia].
Qed.

Ltac is_data := repeat split; vm_compute; congruence.
Ltac is_width := split; vm_compute; congruence.

Lemma calls_for4 : calls_for_all (R := redis_ref) (M := mongo_ref) Conf4 ∅ calls4 abs_calls4.
Proof.
  unfold calls4, abs_calls4.
  do 3 (constructor; [apply store_call4; [inside|done|is_width|is_data|at_home]|]).
  constructor.
  { apply (cf_locate Conf4 _ (a_at 0) (room 10)); [apply (plain_a 0 0); is_width|apply plain_room; is_width
      |apply named4; [done|done|at_home]|].
    intros p v E. vm_compute in E. injection E as <- <-. split; [done|]. left. split; [done|]. vm_compute. congruence. }
  constructor.
  { apply (cf_locate Conf4 _ (set_data_size 3 (a_at 4)) (room 2)); [apply (plain_a 4 3); is_width|apply plain_room; is_width
      |apply named4; [done|done|at_home]|].
    intros p v E. split; [done|]. right. split; [|done]. apply range4; [done|done|].
    vm_compute in E. injection E as <- <-. vm_compute. congruence. }
  constructor; [by apply (cf_size Conf4 _ (a_at 0)); [apply (plain_a 0 0); is_width|apply named4; [done|done|at_home]|]|].
  constructor; [by apply (cf_delete Conf4 _ (a_at 0)); [apply (plain_a 0 0); is_width|apply named4; [done|done|at_home]|]|].
  constructor; [|constructor].
  apply (cf_locate Conf4 _ (a_at 0) (room 1)); [apply (plain_a 0 0); is_width|apply plain_room; is_width
    |apply named4; [done|done|at_home]|].
  intros p v E. vm_compute in E. congruence.
Qed.

Definition replies_to4 : list client_reply :=
  [ Done; Done; Done; Got (set_buffer (Some (Some <$> chars "hello worl")) (room 10));
    Got (set_buffer (Some (Some <$> chars "o ")) (room 2)); HasSize 10; WasDeleted true; RpcFailed ].

Lemma abs_replies4 : abs_ask_all abs_calls4 ∅ = (replies_to4, ∅).
Proof. by vm_compute. Qed.

Lemma client_refines_objects_witness :
  exists s', ask_all zeros turns turns calls4 cluster4 = (Ok replies_to4, s') /\ cluster_objects Conf4 s' ∅.
Proof.
  destruct (client_refines_objects zeros turns turns ltac:(unfold zeros; lia) turns_range Conf4 ∅ calls4 abs_calls4
    cluster4 calls_for4 cluster4_rep) as (s' & E & Hs).
  rewrite abs_replies4 in E, Hs. exists s'. split; [exact E|exact Hs].
Defined.

End MultiDemo.

(** ** A program on an intercepted file of three segments *)

Module FileDemo.
Import Codec Demo Multi MultiDemo.

Definition ConfF : Conf := set_solutions [(0, Some (FileSS "./"))] Conf4.

Lemma type_at_ConfF i ty : type_at ConfF i ty -> i = 0 /\ ty = FILE_IO.
Proof. intros (s & E & <-). cbn in E. case_decide; simplify_eq. done. Qed.

Lemma type_0F : type_at ConfF 0 FILE_IO.
Proof. by eexists. Qed.

Lemma ConfF_ok : conf_ok ConfF.
Proof.
  split.
  - split; [done|]. split; [done|]. repeat (constructor; [by eexists|]). constructor.
  - intros i j ty [-> _]%type_at_ConfF [-> _]%type_at_ConfF. done.
  - unfold transfer_max. simpl. lia.
Qed.

Definition clusterF : Cluster redis_ref mongo_ref :=
  mkCluster [(ConfF, mkDDE 0 0 []); (ConfF, mkDDE 0 0 [])] world0 0.

Lemma clusterF_rep : cluster_objects ConfF clusterF ∅.
Proof.
  split; [done| |].
  - repeat constructor; try done; apply maps_ok_nil.
  - destruct rep4 as [_ _ Hu Ho]. split; [split; [apply ConfF_ok|done]|done|exact Hu|].
    intros id Hn. specialize (Ho id Hn). rewrite lookup_empty in Ho |- *. destruct Ho as [_ Ho].
    split; [|exact Ho]. intros i [] _; simpl; (apply lookup_empty || done).
Qed.

(** Byte [n] of the file "./f". *)
Definition f_at (n : Z) : Data := set_position n (set_id "./f" Data0).

Lemma inside_store (m : gmap string (Z * list ascii)) r b n :
  inside_segment ConfF (bytes_at (m !! "./f")) n (chars b) ->
  id_ r = "./f" -> position_ r = n -> is_u64 (data_size_ r) -> storage_index_ r = 0 ->
  (forall p v, m !! "./f" = Some (p, v) -> 0 = p) ->
  forall src, buffer_ src = Some (Some <$> chars b) -> position_ src = 0 -> data_size_ src = zlen (chars b) ->
  store_request (R := redis_ref) (M := mongo_ref) ConfF m src r (chars b).
Proof.
  intros Hin Hid Hp Hu Hi Hh src Hb Hp0 Hn. split; rewrite ?Hid, ?Hp, ?Hi; try done.
  - exists (Some <$> chars b). rewrite zlen_fmap. split; [done|]. split; [|lia].
    by rewrite <- (zlen_fmap Some (chars b)), slice_whole.
  - by intros i ty [_ ->]%type_at_ConfF.
  - exists FILE_IO. apply type_0F.
Qed.

Lemma range_F r v : 0 <= position_ r < 100 -> 0 < data_size_ r < 100 -> position_ r + data_size_ r <= zlen v ->
  range_request (R := redis_ref) (M := mongo_ref) ConfF r v.
Proof.
  intros Hp Hn Hv. split; [lia| |].
  - change (MAX_OBJ_SIZE ConfF) with 4. pose proof (Z.div_lt_upper_bound (position_ r + data_size_ r) 4 200 ltac:(lia) ltac:(lia)).
    pose proof (Z.div_pos (position_ r) 4 ltac:(lia) ltac:(lia)). nia.
  - intros i ty [_ ->]%type_at_ConfF. by left.
Qed.

(** The file, stored by a client of the same cluster. *)
Definition storesF : list request :=
  [ StoreRequest (bytes_of "hell" Data0) (f_at 0); StoreRequest (bytes_of "o wo" Data0) (f_at 4);
    StoreRequest (bytes_of "rl" Data0) (f_at 8) ].

Definition abs_storesF : list abs_call :=
  [ CStore "./f" 0 0 (chars "hell"); CStore "./f" 0 4 (chars "o wo"); CStore "./f" 0 8 (chars "rl") ].

Lemma plain_f n : is_u64 n -> plain (f_at n).
Proof. intros ?. repeat split; unfold is_u64, is_u16 in *; simpl in *; lia. Qed.

Lemma store_callF (m : gmap string (Z * list ascii)) b n :
  inside_segment ConfF (bytes_at (m !! "./f")) n (chars b) -> is_u64 n ->
  Data_wf (bytes_of b Data0) -> (forall p v, m !! "./f" = Some (p, v) -> 0 = p) ->
  calls_for (R := redis_ref) (M := mongo_ref) ConfF m (StoreRequest (bytes_of b Data0) (f_at n)) (CStore "./f" 0 n (chars b)).
Proof.
  intros Hin Hu Hw Hp. apply (cf_store ConfF m (bytes_of b Data0) (f_at n) (chars b)); [done|by apply plain_f|].
  apply (inside_store m (f_at n) b n); done.
Qed.

Definition file0 : gmap string (Z * list ascii) := {[ "./f" := (0, chars "hello worl") ]}.

(** A program whose file system holds the file. *)
Lemma stored_file :
  exists cl, (ask_all zeros turns turns storesF clusterF).2 = cl /\ cluster_objects ConfF cl file0.
Proof.
  assert (calls_for_all (R := redis_ref) (M := mongo_ref) ConfF ∅ storesF abs_storesF) as Hq.
  { unfold storesF, abs_storesF.
    do 3 (constructor; [apply store_callF; [inside|is_width|is_data|at_home]|]). constructor. }
  destruct (ask_all_objects zeros turns turns ltac:(unfold zeros; lia) turns_range ConfF ∅ _ _ clusterF Hq clusterF_rep)
    as (s' & E & Hs).
  rewrite E. exists s'. split; [done|]. assert ((abs_ask_all abs_storesF ∅).2 = file0) as <- by (by vm_compute). exact Hs.
Qed.

Definition programF : list stdio_call :=
  [ Fopen "./f" "r+" 3; Fread 1 10 3; Fseek 3 6 SEEK_SET; Fwrite (chars "AB") 2 1 3; Fread 1 4 3; Fread 1 5 3;
    Fopen "./f" "w+" 4; Fread 1 4 3; Fclose 3; Fclose 3 ].

Definition repliesF : list stdio_reply :=
  [ Returned (Result 3); ReadBytes (Result (10, Some <$> chars "hello worl")); Returned (Result 0);
    Returned (Result 2); ReadBytes (Result (4, Some <$> chars "ABrl")); ReadBytes (Result (size_t_minus_1, []));
    Returned (Result 4); Uncaught; Returned (Result 0); Returned Real ].

Lemma abs_repliesF : (abs_stdio_all programF (mkFiles ∅ file0)).1 = repliesF.
Proof. by vm_compute. Qed.

Ltac file_is_ok := split; [done|intros p v E; vm_compute in E; congruence].
Ltac open_call := split; [done|split; [by vm_compute|file_is_ok]].
Ltac read_call :=
  let st := fresh "st" in let E := fresh "E" in intros st E _; vm_compute in E; injection E as <-;
  split; [file_is_ok|split; [is_width|split; [done|]]];
  let Ev := fresh "Ev" in intros p v Ev; vm_compute in Ev; first [done|injection Ev as <- <-];
  apply range_F; vm_compute; intuition congruence.

Lemma programF_ok : calls_within (R := redis_ref) (M := mongo_ref) ConfF (mkFiles ∅ file0) programF.
Proof.
  unfold programF.
  constructor; [open_call|]. constructor; [read_call|]. constructor; [done|].
  constructor.
  { intros st E _. vm_compute in E. injection E as <-. split; [file_is_ok|]. split; [is_width|]. split; [done|].
    apply (inside_store _ _ "AB" 6); [inside|done|done|is_width|done|at_home|done..]. }
  constructor; [read_call|].
  constructor; [intros st E Er; vm_compute in E; injection E as <-; vm_compute in Er; congruence|].
  constructor; [open_call|]. constructor; [read_call|]. constructor; [done|]. constructor; [done|]. constructor.
Qed.

Lemma stdio_refines_files_witness :
  exists s, posix_files (R := redis_ref) (M := mongo_ref) ConfF s (mkFiles ∅ file0) /\
    (stdio_all zeros turns turns ConfF programF s).1 = Ok repliesF.
Proof.
  destruct stored_file as (cl & _ & Hcl). exists (mkPosix ∅ cl).
  assert (posix_files (R := redis_ref) (M := mongo_ref) ConfF (mkPosix ∅ cl) (mkFiles ∅ file0)) as Hf by (by split).
  split; [exact Hf|].
  destruct (stdio_refines_files zeros turns turns ConfF ltac:(unfold zeros; lia) turns_range programF _ _
    programF_ok Hf) as (s' & E & _).
  rewrite E, abs_repliesF. exact eq_refl.
Defined.

End FileDemo.
