(* ===== verification/ReplayWitnesses.v ===== *)
(** * ReplayWitnesses: the theorems about the trace replayer at a concrete trace *)

From S2P Require Import Prelude CText Effects Types Services KeyValueSpec IOClient World.
From S2P Require Import Msgpack.
From S2P Require Import Config Distribution Metadata Server Client Iris ShadowLink ShadowStore.
From S2P Require Import MetadataSpec Chunks ObjectSpec ServerSpec MultiSpec ClusterSpec ClientObjects.
From S2P Require Import Colocation ColocationSpec Replayer ReplayerSpec ReplayerObjects Witnesses MultiWitnesses.
Import Codec TraceReplayer.

Definition state0 : state redis_ref mongo_ref :=
  mkState (mkCluster [] Demo.world0 0) Null 0.

(** "FOPEN,0,0", "READ,0,4", "READ,4,4", "FCLOSE,0,0". *)
Definition reads : list request :=
  [mkRequest T_READ 0 4; mkRequest T_READ 4 4; mkRequest FCLOSE 0 0].
Definition trace0 : list request := mkRequest FOPEN 0 0 :: mkRequest T_WRITE 2 3 :: reads.

Lemma serves0 path : serves path (fs_of state0).
Proof. split; [apply not_elem_of_empty|done]. Qed.

Lemma lines_ok0 : Forall line_ok trace0 /\ Forall line_ok (mkRequest FOPEN 0 0 :: reads).
Proof. split; repeat (constructor; [by vm_compute|]); constructor. Qed.

Lemma replay_trace_posix_witness :
  exists s', replay_trace Demo.zeros Demo.zeros Demo.zeros Demo.zeros (Some (trace_text trace0 ++ [newline])) "f" 2 1
      POSIX 0 0 Conf0 state0 = (Ok true, s') /\
    cluster s' = on_fs (replays Demo.zeros (rank_file "f" 1) 2 0 trace0 (fs_of state0)) (cluster state0).
Proof.
  apply (replay_trace_posix Demo.zeros Demo.zeros Demo.zeros Demo.zeros "f" 1 0 0 Conf0 trace0 [newline] 2 state0);
    [apply lines_ok0|by repeat split|by vm_compute|apply serves0|done].
Defined.

Lemma prepared_data_lost_witness :
  exists s1 s2, prepare_data Demo.zeros Demo.zeros Demo.zeros Demo.zeros
      (Some (trace_text (mkRequest FOPEN 0 0 :: reads))) "f" 1 POSIX 0 0 Conf0 state0 = (Ok 0, s1) /\
    replay_trace Demo.zeros Demo.zeros Demo.zeros Demo.zeros (Some (trace_text (mkRequest FOPEN 0 0 :: reads))) "f" 1 1
      POSIX 0 0 Conf0 s1 = (Ok true, s2) /\
    files (fs_of s2) !! rank_file "f" 1 = Some [].
Proof.
  apply (prepared_data_lost Demo.zeros Demo.zeros Demo.zeros Demo.zeros "f" 1 0 0 Conf0 (mkRequest FOPEN 0 0) reads 1 state0);
    [apply lines_ok0|by repeat split|done|by repeat constructor|apply serves0|done].
Defined.

(** ** Through the servers

    Two servers with segments of four bytes in three stores; the object "a" is at
    home in the file store. *)

Module ServersDemo.
Import Demo MultiDemo.

Definition cluster_state : state redis_ref mongo_ref := mkState cluster4 Null 0.

(** A read of three bytes, and the writes of two segments. *)
Definition trace4 : list request :=
  [mkRequest FOPEN 0 0; mkRequest T_READ 0 3; mkRequest T_WRITE 0 4; mkRequest T_WRITE 4 4; mkRequest FCLOSE 0 0].

Lemma trace4_lines : Forall line_ok trace4.
Proof. repeat (constructor; [by vm_compute|]); constructor. Qed.

Lemma trace4_replayable : replayable Conf4 NIOBE "a" 0 64.
Proof. split; [by left|by vm_compute|done|]. exists FILE_IO. apply type_at_Conf0. configured. Qed.

Lemma fits4 op len n k : 0 < k <= 4 -> n mod 4 = 0 -> n <= len -> n <= 4 ->
  write_fits Conf4 len (mkRequest op n k).
Proof.
  intros Hk Hn Hl H4. assert (object_max Conf4 = 2 ^ 21) as Em by by vm_compute.
  split; cbn [r_offset r_size]; try lia; change (MAX_OBJ_SIZE Conf4) with 4; [lia|by right].
Qed.

Lemma prepare_fits4 : prepare_fits Conf4 0 trace4.
Proof. repeat (split; [first [done|intros _; apply fits4; done]|]); done. Qed.

Lemma replay_fits4 : replay_fits (R := redis_ref) (M := mongo_ref) Conf4 3 trace4.
Proof.
  split; [done|]. split; [done|]. split; [done|]. split.
  { intros _. split; [done|done|by vm_compute|]. intros i ty _. right. split; [apply wreads_0|by vm_compute]. }
  repeat (split; [first [done|intros _; by apply fits4]|]). done.
Qed.

(** The letters of a generator that draws zeros. *)
Lemma prepared_trace_replays_witness :
  exists s1 s2, prepare_data zeros turns turns zeros (Some (trace_text trace4)) "a" 0 NIOBE 0 64 Conf4 cluster_state =
      (Ok 0, s1) /\
    replay_trace zeros turns turns zeros (Some (trace_text trace4)) "a" 2 0 NIOBE 0 64 Conf4 s1 = (Ok true, s2) /\
    cluster_objects Conf4 (cluster s2) {["a" := (0, chars "aaaaaaaa")]}.
Proof.
  destruct (prepared_trace_replays zeros turns turns zeros ltac:(unfold zeros; lia) turns_range Conf4 Conf4 NIOBE "a" 0 0 64
    trace4 2 cluster_state ∅) as (s1 & s2 & E1 & E2 & C & _).
  - exact trace4_replayable.
  - exact trace4_lines.
  - done.
  - exact cluster4_rep.
  - done.
  - exact prepare_fits4.
  - exact replay_fits4.
  - exists s1, s2. split; [exact E1|]. split; [exact E2|]. exact C.
Defined.

End ServersDemo.

(** ** What the cleaning leaves

    A deletion sends the range of its line, and the server removes the segments of
    that range and then the metadata of the object. *)

Module CleanDemo.
Import Demo MultiDemo.

(** One Redis cluster, segments of four bytes. *)
Definition ConfR : Conf := set_solutions [(0, Some (RedisSS "127.0.0.1" "6379"))] Conf4.
Definition empty_state : state redis_ref mongo_ref := mkState (mkCluster [(ConfR, mkDDE 0 0 [])] world0 0) Null 0.

Definition writes (sizes : list Z) : list request :=
  imap (fun i n => mkRequest T_WRITE (4 * Z.of_nat i) n) sizes.

Definition replay (rs : list request) (s : state redis_ref mongo_ref) : outcome bool * state redis_ref mongo_ref :=
  replay_trace zeros zeros zeros zeros (Some (trace_text rs)) "a" 1 0 NIOBE 0 64 ConfR s.
Definition clean (rs : list request) (s : state redis_ref mongo_ref) : outcome Z * state redis_ref mongo_ref :=
  clean_data zeros zeros zeros (Some (trace_text rs)) "a" 0 NIOBE 0 64 ConfR s.

Definition stored (s : state redis_ref mongo_ref) : redis_ref := w_redis (cl_world (cluster s)).

(** Three segments are written and cleaned: the first line's deletion takes the
    metadata, so the third segment stays; a shorter object written under the same
    name then ends with its bytes: 12 instead of 9. *)
Lemma clean_leaves_segment :
  let '(o1, s1) := replay (writes [4; 4; 4]) empty_state in
  let '(o2, s2) := clean (writes [4; 4; 4]) s1 in
  let '(o3, s3) := replay (writes [4; 4; 1]) s2 in
  o1 = Ok true /\ o2 = Ok 0 /\ stored s2 = {["a2" := chars "aaaa"]} /\ o3 = Ok true /\
  (Client_Size zeros (mkData "a" 0 None 0 0) (cluster s3)).1 = Ok 12.
Proof. vm_compute. by repeat split. Qed.

End CleanDemo.
