(* ===== verification/Interleave.v ===== *)
(** * Interleave: requests of other threads between the commands of a handler

    A server runs its handlers in several threads, and there are several servers;
    no lock is held over the stores.  [Busy] wraps a Redis cluster so that other
    requests change it right before the writes of the handler that is observed: the
    handler itself is the definition of Server, unchanged.  Without other requests
    the wrapper is the cluster, laws included; with one, a segment is lost. *)

From S2P Require Import Prelude CText Effects Types Services KeyValueSpec IOClient World.
From S2P Require Import Msgpack Config Distribution Metadata MetadataSpec Server ServerSpec Witnesses MultiWitnesses.

(** ** A cluster others use *)

(** What other requests do, before each of the next writes. *)
Record Busy (R : Type) := mkBusy { inner : R; others : list (R -> R) }.
Arguments mkBusy {R}.
Arguments inner {R}.
Arguments others {R}.

Definition turn {R} (b : Busy R) : Busy R :=
  match others b with [] => b | f :: fs => mkBusy (f (inner b)) fs end.

Section busy.
Context {R : Type} `{RedisService R}.

#[export] Instance busy_redis : RedisService (Busy R) := {
  redis_get k b := redis_get k (inner b);
  redis_set k v b :=
    let b := turn b in
    match redis_set k v (inner b) with inl e => inl e | inr (r, ok) => inr (mkBusy r (others b), ok) end;
  redis_del k b :=
    let b := turn b in
    match redis_del k (inner b) with inl e => inl e | inr (r, n) => inr (mkBusy r (others b), n) end;
}.

(** Alone, a handler sees the cluster it would see without the wrapper, so what is
    proved over the laws holds for it. *)
#[export] Instance busy_laws `{!RedisLaws R} : RedisLaws (Busy R).
Proof.
  refine {| redis_up := fun b => redis_up (inner b) /\ others b = []; redis_view := fun b => redis_view (inner b) |}.
  - intros b k [Hu _]. exact (redis_get_up (inner b) k Hu).
  - intros b k v [Hu Ho]. destruct (redis_set_up (inner b) k v Hu) as (r & E & U & V).
    exists (mkBusy r []). unfold redis_set, busy_redis, turn. rewrite Ho, E, Ho. by repeat split.
  - intros b k [Hu Ho]. destruct (redis_del_up (inner b) k Hu) as (r & n & E & U & V).
    exists (mkBusy r []), n. unfold redis_del, busy_redis, turn. rewrite Ho, E, Ho. by repeat split.
Defined.

(** [w] while others use its cluster, and after the observed handler. *)
Definition shared {M} (fs : list (R -> R)) (w : World R M) : World (Busy R) M :=
  mkWorld (w_fs w) (mkBusy (w_redis w) fs) (w_mongo w).

Definition unshared {M} (w : World (Busy R) M) : World R M := mkWorld (w_fs w) (inner (w_redis w)) (w_mongo w).
End busy.

(** ** Two stores into one object *)

Module Race.
Import Codec Demo MultiDemo.

(** One Redis cluster, segments of four bytes. *)
Definition ConfR : Conf := set_solutions [(0, Some (RedisSS "127.0.0.1" "6379"))] Conf4.

Definition at_byte (n : Z) : Data := set_position n (set_id "a" Data0).

Definition store {R} `{RedisService R} (b : string) (n : Z) (w : World R mongo_ref) : outcome Z * World R mongo_ref :=
  let '(o, s) := Server_Store zeros zeros (bytes_of b Data0) (at_byte n) (mkServer ConfR (mkDDE 0 0 []) w) in
  (o, s_world s).

Definition whole (w : World redis_ref mongo_ref) : outcome (buffer : Type) :=
  match (Server_Locate (at_byte 0) Data0 (mkServer ConfR (mkDDE 0 0 []) w)).1 with
  | Ok d => Ok (buffer_ d) | Throw e => Throw e | Undefined u => Undefined u | Exit n => Exit n
  end.

(** The object "a" of one segment. *)
Definition w1 : World redis_ref mongo_ref := (store "hell" 0 world0).2.

(** Two threads append: one the second segment, the other the second and the third,
    between the moment the first one reads the metadata and the moment it writes
    them. *)
Definition first_thread {R} `{RedisService R} : World R mongo_ref -> outcome Z * World R mongo_ref := store "o WO" 4.
Definition other_thread (w : World redis_ref mongo_ref) : World redis_ref mongo_ref := (store "rl" 8 (store "o wo" 4 w).2).2.

Definition meanwhile (r : redis_ref) : redis_ref := w_redis (other_thread (mkWorld (w_fs w1) r (w_mongo w1))).

Definition raced : outcome Z * World (Busy redis_ref) mongo_ref := first_thread (shared [meanwhile] w1).

(** One thread after the other leaves an object of three segments, in either order.
    Interleaved, all stores succeed, but the metadata written last do not name the
    third segment: its bytes are in the store and the object ends before them. *)
Lemma concurrent_stores_lose_segment :
  whole (first_thread (other_thread w1)).2 = Ok (Some (Some <$> chars "hello WOrl")) /\
  whole (other_thread (first_thread w1).2) = Ok (Some (Some <$> chars "hello worl")) /\
  raced.1 = Ok 1 /\ w_redis (unshared raced.2) !! "a2" = Some (chars "rl") /\
  whole (unshared raced.2) = Ok (Some (Some <$> chars "hello WO")).
Proof. repeat split; by vm_compute. Qed.

End Race.
