(* ===== verification/Incidents.v ===== *)
(** * Incidents: runs of the server outside its contract

    The refinement of the server covers objects of one segment and one solution
    per storage type.  These runs, with segments of four bytes, show what the
    code does beyond that. *)

From S2P Require Import Prelude CText Effects Types Services IOClient World Msgpack Config.
From S2P Require Import Distribution Metadata Server Witnesses ClientWitnesses.

Import Codec Demo Clients.

Definition file_at (mount : string) : option StorageSolution := Some (FileSS mount).
Definition redis_at : option StorageSolution := Some (RedisSS "127.0.0.1" "6379").
Definition mongo_at : option StorageSolution := Some (MongoSS "mongodb://localhost:27017" "mydb" "test").

Definition server_of (solutions : solution_map) : Server redis_ref mongo_ref :=
  mkServer (set_solutions solutions small_conf) (mkDDE 0 0 []) world0.

Definition store (id bytes : string) (position : Z) : ST (Server redis_ref mongo_ref) Z :=
  Server_Store zeros zeros (bytes_of bytes Data0) (set_position position (obj_at id 0)).

Definition locate (id : string) (n index : Z) : ST (Server redis_ref mongo_ref) Data :=
  Server_Locate (set_data_size n (obj_at id index)) Data0.

Definition outcome_of {A} (m : ST (Server redis_ref mongo_ref) A) (solutions : solution_map) : outcome A :=
  (m (server_of solutions)).1.

(** An object of two segments on Redis or MongoDB: the second part is copied
    from behind the buffer its read allocated. *)
Example redis_segments_crash :
  outcome_of (store "a" "abcd" 0;; store "a" "ef" 4;; locate "a" 6 0) [(0, redis_at)] =
    Undefined OutOfBounds.
Proof. by vm_compute. Qed.

Example mongo_segments_crash :
  outcome_of (store "a" "abcd" 0;; store "a" "ef" 4;; locate "a" 6 0) [(0, mongo_at)] =
    Undefined OutOfBounds.
Proof. by vm_compute. Qed.

(** On files the bytes arrive, in a buffer that is too long. *)
Example file_segments_padded :
  outcome_of (store "a" "abcd" 0;; store "a" "ef" 4;; locate "a" 6 0) [(0, file_at "./")] =
    Ok (set_buffer (Some ((Some <$> chars "abcdef") ++ replicate 4 None)) Data0).
Proof. by vm_compute. Qed.

(** A store longer than a segment is written whole and located up to the end of
    the segment. *)
Example oversized_store_truncated :
  outcome_of (store "a" "abcdef" 0;; locate "a" 6 0) [(0, file_at "./")] =
    Ok (set_buffer (Some (Some <$> chars "abcd")) Data0).
Proof. by vm_compute. Qed.

(** The link to the metadata keeps the size the metadata had at first: after a
    second segment it is read short through the other solution. *)
Example stale_link_size :
  outcome_of (store "a" "abcd" 0;; store "a" "efgh" 4;; locate "a" 8 1)
    [(0, file_at "./"); (1, redis_at)] = Throw (StdException "msgpack::unpack_error").
Proof. by vm_compute. Qed.

(** Two file systems share one key space: the link written through the second
    overwrites the metadata written through the first. *)
Example same_type_collision :
  outcome_of (store "a" "abcd" 0;; locate "a" 4 0) [(0, file_at "./"); (1, file_at "/x")] =
    Throw (StdException "msgpack::unpack_error").
Proof. by vm_compute. Qed.
